(** * Slashclaw identity subsystem: challenges, tokens, accounts and keys

    A shallow embedding of
    - [internal/store] (the record types of store.go and the SQLite
      implementation of sqlite.go: tables [accounts], [account_keys],
      [challenges], [tokens]),
    - [internal/auth] (Service.CreateChallenge, VerifyAndCreateToken,
      ValidateToken, verifySignature and its per-algorithm helpers),
    - [internal/api] (the request helpers of api.go and the account and
      auth handlers),
    followed by the properties of the identity subsystem; then, of the rest
    of the server,
    - [internal/ratelimit] (the in-memory limiter),
    - [internal/store] (stories, comments and votes: the statements on one
      row and [buildCommentTree]),
    - [internal/auth] ([HashIP]), [internal/config] (the record),
    - [internal/api] (the middleware, the helpers of the rate limit and the
      admin, and the handlers [Hide], [GetStory], [CreateVote] and
      [CreateComment]),
    followed by their properties.

    Conventions.
    - The database is a record of four tables, each a list of rows in
      insertion order.  A statement either applies as a whole or leaves the
      database as it was; the only failures of a statement are constraint
      violations (PRIMARY KEY, UNIQUE, FOREIGN KEY) and [sql.ErrNoRows].
    - What a call reads from outside the program (the two clocks, the random
      source, fresh UUIDs) is an explicit input, the record [Env].
    - The cryptographic and parsing primitives of the Go standard library
      (ed25519, rsa, x509, pem, sha256) are the fields of a record [Lib];
      base64 is written out.
    - A Go [int] is a 64-bit integer, written out where an operation can
      leave the range; SQLite adds scores and counters as exact integers.
    - The limiter is its map from keys to buckets, and each call of it
      takes the reading of the clock it makes.
    - The tables of stories, comments and votes are a second record,
      [Content]; a handler of the content side runs on a [World]: the two
      records and the limiter.
    - The pieces of the standard library the content side uses that are
      not written out, and the row [QueryRow] picks among several, are the
      fields of a record [Std]. *)

From Stdlib Require Import ZArith List String Ascii Bool Lia.
From Stdlib.Strings Require Import Byte.
Import ListNotations.
Open Scope string_scope.
Open Scope list_scope.
Open Scope Z_scope.

(** Go's [==] and [!=] on strings. *)
Notation "a == b" := (String.eqb a b) (at level 70, no associativity).
Notation "a != b" := (negb (String.eqb a b)) (at level 70, no associativity).

(** ** Go values *)

(** [time.Time] as nanoseconds since the Unix epoch, [time.Duration] as
    nanoseconds. *)
Definition Time := Z.
Definition Duration := Z.

Definition Second : Duration := 1000000000.

(** The zero [time.Time]: January 1, year 1, 00:00:00 UTC. *)
Definition zeroTime : Time := -62135596800 * Second.

Definition IsZero (t : Time) : bool := t =? zeroTime.

(** [t.After(u)] *)
Definition After (t u : Time) : bool := u <? t.

(** [t.Add(d)] *)
Definition Add (t : Time) (d : Duration) : Time := t + d.

(** [t.UTC().Format("2006-01-02 15:04:05")]: the layout has no fractional
    seconds, so the text names a whole second.  The text is represented by
    that number of seconds since the epoch; for the fixed-width layout the
    order of the texts is the order of the numbers (years 0000 to 9999), which
    is how SQLite compares it with [datetime('now')], a text of the same
    layout. *)
Definition sqliteFormat (t : Time) : Z := t / Second.

(** The [time.Time] the driver scans back from such a text. *)
Definition sqliteParse (secs : Z) : Time := secs * Second.

Definition bytes := list byte.

Definition byte_of_N (n : N) : byte := byte_of_ascii (ascii_of_N n).
Definition N_of_byte (b : byte) : N := Byte.to_N b.

(** [[]byte(s)] *)
Definition bytes_of_string (s : string) : bytes := list_byte_of_string s.

(** ** encoding/base64 *)

Module base64.

Definition padChar : ascii := "="%char.

Definition isNewline (c : ascii) : bool :=
  (N_of_ascii c =? 10)%N || (N_of_ascii c =? 13)%N.

(** The decode map of an alphabet whose last two characters are [c62] and
    [c63]: the 6-bit value of a character, if it belongs to the alphabet. *)
Definition decodeMap (c62 c63 : N) (c : ascii) : option N :=
  let n := N_of_ascii c in
  if ((65 <=? n) && (n <=? 90))%N then Some (n - 65)%N
  else if ((97 <=? n) && (n <=? 122))%N then Some (n - 71)%N
  else if ((48 <=? n) && (n <=? 57))%N then Some (n + 4)%N
  else if (n =? c62)%N then Some 62%N
  else if (n =? c63)%N then Some 63%N
  else None.

(** The character of a 6-bit value. *)
Definition encodeMap (c62 c63 : N) (v : N) : ascii :=
  ascii_of_N
    (if (v <? 26)%N then v + 65
     else if (v <? 52)%N then v + 71
     else if (v <? 62)%N then v - 4
     else if (v =? 62)%N then c62
     else c63)%N.

Definition byte1 (x y : N) : byte :=
  byte_of_N (N.land (N.lor (N.shiftl x 2) (N.shiftr y 4)) 255).
Definition byte2 (y z : N) : byte :=
  byte_of_N (N.land (N.lor (N.shiftl y 4) (N.shiftr z 2)) 255).
Definition byte3 (z w : N) : byte :=
  byte_of_N (N.land (N.lor (N.shiftl z 6) w) 255).

(** [Encoding.Decode] on input without newlines, padded encodings, not
    strict: quanta of four characters; the last quantum may end in one or two
    padding characters, and nothing may follow it. *)
Fixpoint decodeQuanta (c62 c63 : N) (src : list ascii) : option bytes :=
  match src with
  | [] => Some []
  | a :: b :: c :: d :: rest =>
      match decodeMap c62 c63 a, decodeMap c62 c63 b with
      | Some x, Some y =>
          match decodeMap c62 c63 c with
          | None =>
              if Ascii.eqb c padChar && Ascii.eqb d padChar then
                match rest with
                | [] => Some [byte1 x y]
                | _ => None
                end
              else None
          | Some z =>
              match decodeMap c62 c63 d with
              | None =>
                  if Ascii.eqb d padChar then
                    match rest with
                    | [] => Some [byte1 x y; byte2 y z]
                    | _ => None
                    end
                  else None
              | Some w =>
                  match decodeQuanta c62 c63 rest with
                  | Some tl => Some (byte1 x y :: byte2 y z :: byte3 z w :: tl)
                  | None => None
                  end
              end
          end
      | _, _ => None
      end
  | _ => None
  end.

(** [Encoding.DecodeString]: carriage returns and line feeds are skipped
    wherever they stand; [None] is a [CorruptInputError]. *)
Definition DecodeString (c62 c63 : N) (s : string) : option bytes :=
  decodeQuanta c62 c63
    (filter (fun c => negb (isNewline c)) (list_ascii_of_string s)).

Fixpoint encodeQuanta (c62 c63 : N) (src : list N) : list ascii :=
  match src with
  | [] => []
  | [a] =>
      [encodeMap c62 c63 (N.shiftr a 2);
       encodeMap c62 c63 (N.land (N.shiftl a 4) 63);
       padChar; padChar]
  | [a; b] =>
      [encodeMap c62 c63 (N.shiftr a 2);
       encodeMap c62 c63 (N.land (N.lor (N.shiftl a 4) (N.shiftr b 4)) 63);
       encodeMap c62 c63 (N.land (N.shiftl b 2) 63);
       padChar]
  | a :: b :: c :: rest =>
      encodeMap c62 c63 (N.shiftr a 2)
      :: encodeMap c62 c63 (N.land (N.lor (N.shiftl a 4) (N.shiftr b 4)) 63)
      :: encodeMap c62 c63 (N.land (N.lor (N.shiftl b 2) (N.shiftr c 6)) 63)
      :: encodeMap c62 c63 (N.land c 63)
      :: encodeQuanta c62 c63 rest
  end.

Definition EncodeToString (c62 c63 : N) (src : bytes) : string :=
  string_of_list_ascii (encodeQuanta c62 c63 (map N_of_byte src)).

(** [base64.StdEncoding]: alphabet ending in '+' and '/'. *)
Definition StdEncoding_DecodeString : string -> option bytes :=
  DecodeString 43 47.
Definition StdEncoding_EncodeToString : bytes -> string :=
  EncodeToString 43 47.

(** [base64.URLEncoding]: alphabet ending in '-' and '_'. *)
Definition URLEncoding_EncodeToString : bytes -> string :=
  EncodeToString 45 95.

End base64.

(** ** Errors *)

(** The sentinel errors of package auth, [sql.ErrNoRows], and errors made on
    the spot ([fmt.Errorf], the driver's constraint failures, a failed read
    of the random source).  [runtime_panic] stands for a Go run-time panic
    (a slice bound out of range); it is not an [error] value in Go and no
    caller inspects it. *)
Inductive error : Type :=
| ErrInvalidAlgorithm
| ErrInvalidPublicKey
| ErrInvalidSignature
| ErrChallengeExpired
| ErrChallengeNotFound
| sql_ErrNoRows
| errorString (msg : string)
| runtime_panic (msg : string).

Definition error_eqb (a b : error) : bool :=
  match a, b with
  | ErrInvalidAlgorithm, ErrInvalidAlgorithm => true
  | ErrInvalidPublicKey, ErrInvalidPublicKey => true
  | ErrInvalidSignature, ErrInvalidSignature => true
  | ErrChallengeExpired, ErrChallengeExpired => true
  | ErrChallengeNotFound, ErrChallengeNotFound => true
  | sql_ErrNoRows, sql_ErrNoRows => true
  | _, _ => false
  end.

Inductive result (A : Type) : Type :=
| Ok (a : A)
| Err (e : error).
Arguments Ok {A} a.
Arguments Err {A} e.

(** ** internal/store, store.go: the record types *)

Module Account.
Record t : Type := mk {
  ID : string;
  DisplayName : string;
  Bio : string;
  HomepageURL : string;
  CreatedAt : Time
}.
End Account.

Module AccountKey.
Record t : Type := mk {
  ID : string;
  AccountID : string;
  Algorithm : string;
  PublicKey : string;
  CreatedAt : Time;
  RevokedAt : option Time
}.
End AccountKey.

Module Challenge.
Record t : Type := mk {
  ID : string;
  AgentID : string;
  Algorithm : string;
  Challenge : string;
  ExpiresAt : Time
}.
End Challenge.

Module Token.
Record t : Type := mk {
  ID : string;
  AccountID : string;
  KeyID : string;
  AgentID : string;
  Token : string;
  ExpiresAt : Time
}.
End Token.

(** ** internal/store, sqlite.go: the schema of [migrate]

    One row type per table, columns as declared.  A nullable column is an
    [option].  [expires_at] of [challenges] and [tokens] holds the text
    written by [sqliteFormat]. *)

Module accounts.
Record row : Type := mk {
  id : string;
  display_name : string;
  bio : option string;
  homepage_url : option string;
  created_at : Time
}.
End accounts.

Module account_keys.
Record row : Type := mk {
  id : string;
  account_id : string;
  algorithm : string;
  public_key : string;
  created_at : Time;
  revoked_at : option Time
}.
End account_keys.

Module challenges.
Record row : Type := mk {
  id : string;
  agent_id : string;
  algorithm : string;
  challenge : string;
  expires_at : Z
}.
End challenges.

Module tokens.
Record row : Type := mk {
  id : string;
  account_id : option string;
  key_id : string;
  agent_id : string;
  token : string;
  expires_at : Z
}.
End tokens.

Record DB : Type := mkDB {
  tbl_accounts : list accounts.row;
  tbl_account_keys : list account_keys.row;
  tbl_challenges : list challenges.row;
  tbl_tokens : list tokens.row
}.

(** The database after [migrate] on a new file. *)
Definition emptyDB : DB := mkDB [] [] [] [].

(** ** Calls on the store

    A call on the store takes the database and returns a Go result together
    with the database it leaves; the database survives an error. *)
Definition M (A : Type) : Type := DB -> result A * DB.

Definition ret {A : Type} (a : A) : M A := fun db => (Ok a, db).

Definition throw {A : Type} (e : error) : M A := fun db => (Err e, db).

Definition bind {A B : Type} (m : M A) (k : A -> M B) : M B :=
  fun db =>
    match m db with
    | (Ok a, db') => k a db'
    | (Err e, db') => (Err e, db')
    end.

(** A call whose error the caller drops: [s.store.DeleteChallenge(...)] as a
    statement. *)
Definition discard {A : Type} (m : M A) : M unit :=
  fun db => (Ok tt, snd (m db)).

Notation "x <- m ;; k" := (bind m (fun x => k))
  (at level 61, m at next level, right associativity).

(** ** internal/store, sqlite.go *)

Module store.

(** [nullString] and the [String] field of the scanned [sql.NullString]. *)
Definition nullString (s : string) : option string :=
  if s == "" then None else Some s.

Definition NullString_String (n : option string) : string :=
  match n with
  | Some s => s
  | None => ""
  end.

Definition constraint_failed (what : string) : error :=
  errorString (String.append "constraint failed: " what).

(** *** Accounts *)

Definition CreateAccount (uuid : string) (now : Time) (account : Account.t)
  : M Account.t :=
  fun db =>
    let ID := if Account.ID account == "" then uuid else Account.ID account in
    let CreatedAt :=
      if IsZero (Account.CreatedAt account) then now
      else Account.CreatedAt account in
    if existsb (fun r => accounts.id r == ID) (tbl_accounts db) then
      (Err (constraint_failed "accounts.id"), db)
    else
      (Ok (Account.mk ID (Account.DisplayName account) (Account.Bio account)
             (Account.HomepageURL account) CreatedAt),
       mkDB
         (tbl_accounts db ++
          [accounts.mk ID (Account.DisplayName account)
             (nullString (Account.Bio account))
             (nullString (Account.HomepageURL account)) CreatedAt])
         (tbl_account_keys db) (tbl_challenges db) (tbl_tokens db)).

Definition scanAccount (r : accounts.row) : Account.t :=
  Account.mk (accounts.id r) (accounts.display_name r)
    (NullString_String (accounts.bio r))
    (NullString_String (accounts.homepage_url r)) (accounts.created_at r).

(** [GetAccount] hands the error of [Scan] on, [sql.ErrNoRows] included. *)
Definition GetAccount (id : string) : M (option Account.t) :=
  fun db =>
    match find (fun r => accounts.id r == id) (tbl_accounts db) with
    | Some r => (Ok (Some (scanAccount r)), db)
    | None => (Err sql_ErrNoRows, db)
    end.

(** *** Account keys *)

(** The insert binds [nil] to [revoked_at] whatever the argument holds.
    [account_keys] has the primary key [id], a foreign key to [accounts(id)]
    (the connection opens with [_foreign_keys=on]) and
    [UNIQUE(algorithm, public_key)], over all rows, revoked or not. *)
Definition CreateAccountKey (uuid : string) (now : Time) (key : AccountKey.t)
  : M AccountKey.t :=
  fun db =>
    let ID := if AccountKey.ID key == "" then uuid else AccountKey.ID key in
    let CreatedAt :=
      if IsZero (AccountKey.CreatedAt key) then now
      else AccountKey.CreatedAt key in
    if existsb (fun r => account_keys.id r == ID) (tbl_account_keys db) then
      (Err (constraint_failed "account_keys.id"), db)
    else if existsb
              (fun r =>
                 (account_keys.algorithm r == AccountKey.Algorithm key)
                 && (account_keys.public_key r == AccountKey.PublicKey key))
              (tbl_account_keys db) then
      (Err (constraint_failed "account_keys.algorithm, account_keys.public_key"),
       db)
    else if negb (existsb (fun r => accounts.id r == AccountKey.AccountID key)
                    (tbl_accounts db)) then
      (Err (constraint_failed "FOREIGN KEY"), db)
    else
      (Ok (AccountKey.mk ID (AccountKey.AccountID key)
             (AccountKey.Algorithm key) (AccountKey.PublicKey key) CreatedAt
             (AccountKey.RevokedAt key)),
       mkDB (tbl_accounts db)
         (tbl_account_keys db ++
          [account_keys.mk ID (AccountKey.AccountID key)
             (AccountKey.Algorithm key) (AccountKey.PublicKey key) CreatedAt
             None])
         (tbl_challenges db) (tbl_tokens db)).

Definition scanAccountKey (r : account_keys.row) : AccountKey.t :=
  AccountKey.mk (account_keys.id r) (account_keys.account_id r)
    (account_keys.algorithm r) (account_keys.public_key r)
    (account_keys.created_at r) (account_keys.revoked_at r).

(** [GetAccountKey] returns [scanAccountKey(row)] as it is: no row is the
    error [sql.ErrNoRows]. *)
Definition GetAccountKey (id : string) : M (option AccountKey.t) :=
  fun db =>
    match find (fun r => account_keys.id r == id) (tbl_account_keys db) with
    | Some r => (Ok (Some (scanAccountKey r)), db)
    | None => (Err sql_ErrNoRows, db)
    end.

Definition isNull {A : Type} (v : option A) : bool :=
  match v with
  | None => true
  | Some _ => false
  end.

(** [... WHERE algorithm = ? AND public_key = ? AND revoked_at IS NULL];
    no row is [(nil, nil)]. *)
Definition GetAccountKeyByPublicKey (alg publicKey : string)
  : M (option AccountKey.t) :=
  fun db =>
    (Ok (option_map scanAccountKey
           (find
              (fun r =>
                 (account_keys.algorithm r == alg)
                 && (account_keys.public_key r == publicKey)
                 && isNull (account_keys.revoked_at r))
              (tbl_account_keys db))),
     db).

Definition ListAccountKeys (accountID : string) : M (list AccountKey.t) :=
  fun db =>
    (Ok (map scanAccountKey
           (filter (fun r => account_keys.account_id r == accountID)
              (tbl_account_keys db))),
     db).

(** [UPDATE account_keys SET revoked_at = ? WHERE id = ?] with
    [time.Now().UTC()]. *)
Definition RevokeAccountKey (now : Time) (id : string) : M unit :=
  fun db =>
    (Ok tt,
     mkDB (tbl_accounts db)
       (map
          (fun r =>
             if account_keys.id r == id then
               account_keys.mk (account_keys.id r) (account_keys.account_id r)
                 (account_keys.algorithm r) (account_keys.public_key r)
                 (account_keys.created_at r) (Some now)
             else r)
          (tbl_account_keys db))
       (tbl_challenges db) (tbl_tokens db)).

(** *** Auth *)

(** [challenges] has the primary key [id] and [challenge ... UNIQUE]. *)
Definition CreateChallenge (uuid : string) (challenge : Challenge.t)
  : M Challenge.t :=
  fun db =>
    let ID :=
      if Challenge.ID challenge == "" then uuid else Challenge.ID challenge in
    let expiresAtStr := sqliteFormat (Challenge.ExpiresAt challenge) in
    if existsb (fun r => challenges.id r == ID) (tbl_challenges db) then
      (Err (constraint_failed "challenges.id"), db)
    else if existsb
              (fun r => challenges.challenge r == Challenge.Challenge challenge)
              (tbl_challenges db) then
      (Err (constraint_failed "challenges.challenge"), db)
    else
      (Ok (Challenge.mk ID (Challenge.AgentID challenge)
             (Challenge.Algorithm challenge) (Challenge.Challenge challenge)
             (Challenge.ExpiresAt challenge)),
       mkDB (tbl_accounts db) (tbl_account_keys db)
         (tbl_challenges db ++
          [challenges.mk ID (Challenge.AgentID challenge)
             (Challenge.Algorithm challenge) (Challenge.Challenge challenge)
             expiresAtStr])
         (tbl_tokens db)).

Definition scanChallenge (r : challenges.row) : Challenge.t :=
  Challenge.mk (challenges.id r) (challenges.agent_id r)
    (challenges.algorithm r) (challenges.challenge r)
    (sqliteParse (challenges.expires_at r)).

(** [... WHERE challenge = ? AND expires_at > datetime('now')], [now] being
    the clock SQLite reads; no row is [(nil, nil)]. *)
Definition GetChallenge (now : Time) (challengeStr : string)
  : M (option Challenge.t) :=
  fun db =>
    (Ok (option_map scanChallenge
           (find
              (fun r =>
                 (challenges.challenge r == challengeStr)
                 && (challenges.expires_at r >? sqliteFormat now))
              (tbl_challenges db))),
     db).

Definition DeleteChallenge (id : string) : M unit :=
  fun db =>
    (Ok tt,
     mkDB (tbl_accounts db) (tbl_account_keys db)
       (filter (fun r => negb (challenges.id r == id)) (tbl_challenges db))
       (tbl_tokens db)).

(** [tokens] has the primary key [id] and [token ... UNIQUE]. *)
Definition CreateToken (uuid : string) (token : Token.t) : M Token.t :=
  fun db =>
    let ID := if Token.ID token == "" then uuid else Token.ID token in
    let expiresAtStr := sqliteFormat (Token.ExpiresAt token) in
    if existsb (fun r => tokens.id r == ID) (tbl_tokens db) then
      (Err (constraint_failed "tokens.id"), db)
    else if existsb (fun r => tokens.token r == Token.Token token)
              (tbl_tokens db) then
      (Err (constraint_failed "tokens.token"), db)
    else
      (Ok (Token.mk ID (Token.AccountID token) (Token.KeyID token)
             (Token.AgentID token) (Token.Token token) (Token.ExpiresAt token)),
       mkDB (tbl_accounts db) (tbl_account_keys db) (tbl_challenges db)
         (tbl_tokens db ++
          [tokens.mk ID (nullString (Token.AccountID token))
             (Token.KeyID token) (Token.AgentID token) (Token.Token token)
             expiresAtStr])).

Definition scanToken (r : tokens.row) : Token.t :=
  Token.mk (tokens.id r) (NullString_String (tokens.account_id r))
    (tokens.key_id r) (tokens.agent_id r) (tokens.token r)
    (sqliteParse (tokens.expires_at r)).

(** [... WHERE token = ? AND expires_at > datetime('now')]; no row is
    [(nil, nil)]. *)
Definition GetToken (now : Time) (tokenStr : string) : M (option Token.t) :=
  fun db =>
    (Ok (option_map scanToken
           (find
              (fun r =>
                 (tokens.token r == tokenStr)
                 && (tokens.expires_at r >? sqliteFormat now))
              (tbl_tokens db))),
     db).

Definition DeleteExpiredTokens (now : Time) : M unit :=
  fun db =>
    (Ok tt,
     mkDB (tbl_accounts db) (tbl_account_keys db) (tbl_challenges db)
       (filter (fun r => negb (tokens.expires_at r <? sqliteFormat now))
          (tbl_tokens db))).

End store.

(** ** What the program takes from the Go standard library *)

Module rsa.
Record PublicKey : Type := mk { N : Z; E : Z }.
End rsa.

(** The dynamic type of what [x509.ParsePKIXPublicKey] returns:
    [*rsa.PublicKey] or a key of another kind. *)
Inductive PKIXPublicKey : Type :=
| RSAPublicKey (k : rsa.PublicKey)
| OtherPublicKey.

(** The primitives the verifier calls, as plain functions of their
    arguments.
    - [ed25519_Verify publicKey message sig]
    - [pem_Decode data]: [Bytes] of the first PEM block, if there is one
    - [x509_ParsePKIXPublicKey der]: [None] is an error
    - [rsa_VerifyPSS pub digest sig]: with [crypto.SHA256] and [nil]
      options; [true] when the returned error is [nil]
    - [rsa_VerifyPKCS1v15 pub digest sig]: with [crypto.SHA256]; likewise *)
Record Lib : Type := mkLib {
  ed25519_Verify : bytes -> bytes -> bytes -> bool;
  pem_Decode : bytes -> option bytes;
  x509_ParsePKIXPublicKey : bytes -> option PKIXPublicKey;
  sha256_Sum256 : bytes -> bytes;
  rsa_VerifyPSS : rsa.PublicKey -> bytes -> bytes -> bool;
  rsa_VerifyPKCS1v15 : rsa.PublicKey -> bytes -> bytes -> bool
}.

Definition ed25519_PublicKeySize : nat := 32.

(** What one call reads from outside the program.
    - [sqlite_now]: the clock behind [datetime('now')] in the statements of
      the call
    - [time_Now]: the clock behind [time.Now()] in the Go code of the call
    - [rand_Read]: the 32 bytes [rand.Read] fills in, or its error
    - [uuid_New n]: the string of the UUID drawn at the [n]-th place of the
      call that draws one *)
Record Env : Type := mkEnv {
  sqlite_now : Time;
  time_Now : Time;
  rand_Read : result bytes;
  uuid_New : nat -> string
}.

(** ** internal/auth *)

Module auth.

Definition AlgEd25519 : string := "ed25519".
Definition AlgSecp256k1 : string := "secp256k1".
Definition AlgRSAPSS : string := "rsa-pss".
Definition AlgRSASHA256 : string := "rsa-sha256".

(** The [store] field is the database the calls run on. *)
Record Service : Type := NewService {
  challengeTTL : Duration;
  tokenTTL : Duration
}.

Definition isValidAlgorithm (alg : string) : bool :=
  (alg == AlgEd25519) || (alg == AlgSecp256k1)
  || (alg == AlgRSAPSS) || (alg == AlgRSASHA256).

(** [Service.CreateChallenge] *)
Definition CreateChallenge (s : Service) (e : Env) (agentID alg : string)
  : M Challenge.t :=
  if negb (isValidAlgorithm alg) then throw ErrInvalidAlgorithm
  else
    match rand_Read e with
    | Err err => throw err
    | Ok challengeBytes =>
        let challenge :=
          Challenge.mk (uuid_New e 0) agentID alg
            (base64.URLEncoding_EncodeToString challengeBytes)
            (Add (time_Now e) (challengeTTL s)) in
        challenge <- store.CreateChallenge (uuid_New e 1) challenge ;;
        ret challenge
    end.

Section Verifier.

Variable lib : Lib.

Definition verifyEd25519 (publicKeyStr message signatureStr : string)
  : result bool :=
  match base64.StdEncoding_DecodeString publicKeyStr with
  | None => Err ErrInvalidPublicKey
  | Some publicKeyBytes =>
      if negb (Nat.eqb (List.length publicKeyBytes) ed25519_PublicKeySize) then
        Err ErrInvalidPublicKey
      else
        match base64.StdEncoding_DecodeString signatureStr with
        | None => Err ErrInvalidSignature
        | Some signatureBytes =>
            Ok (ed25519_Verify lib publicKeyBytes (bytes_of_string message)
                  signatureBytes)
        end
  end.

Definition parseRSAPublicKey (publicKeyStr : string) : result rsa.PublicKey :=
  match pem_Decode lib (bytes_of_string publicKeyStr) with
  | Some block_Bytes =>
      match x509_ParsePKIXPublicKey lib block_Bytes with
      | None => Err ErrInvalidPublicKey
      | Some OtherPublicKey => Err ErrInvalidPublicKey
      | Some (RSAPublicKey rsaPub) => Ok rsaPub
      end
  | None =>
      match base64.StdEncoding_DecodeString publicKeyStr with
      | None => Err ErrInvalidPublicKey
      | Some derBytes =>
          match x509_ParsePKIXPublicKey lib derBytes with
          | None => Err ErrInvalidPublicKey
          | Some OtherPublicKey => Err ErrInvalidPublicKey
          | Some (RSAPublicKey rsaPub) => Ok rsaPub
          end
      end
  end.

Definition verifyRSAPSS (publicKeyStr message signatureStr : string)
  : result bool :=
  match parseRSAPublicKey publicKeyStr with
  | Err err => Err err
  | Ok publicKey =>
      match base64.StdEncoding_DecodeString signatureStr with
      | None => Err ErrInvalidSignature
      | Some signatureBytes =>
          let hash := sha256_Sum256 lib (bytes_of_string message) in
          Ok (rsa_VerifyPSS lib publicKey hash signatureBytes)
      end
  end.

Definition verifyRSASHA256 (publicKeyStr message signatureStr : string)
  : result bool :=
  match parseRSAPublicKey publicKeyStr with
  | Err err => Err err
  | Ok publicKey =>
      match base64.StdEncoding_DecodeString signatureStr with
      | None => Err ErrInvalidSignature
      | Some signatureBytes =>
          let hash := sha256_Sum256 lib (bytes_of_string message) in
          Ok (rsa_VerifyPKCS1v15 lib publicKey hash signatureBytes)
      end
  end.

(** [verifySignature]: the [switch] on the algorithm.  The secp256k1 case
    is the stub of the source ("For MVP, we'll stub secp256k1 and implement
    later"). *)
Definition verifySignature (alg publicKeyStr message signatureStr : string)
  : result bool :=
  if alg == AlgEd25519 then verifyEd25519 publicKeyStr message signatureStr
  else if alg == AlgRSAPSS then verifyRSAPSS publicKeyStr message signatureStr
  else if alg == AlgRSASHA256 then
    verifyRSASHA256 publicKeyStr message signatureStr
  else if alg == AlgSecp256k1 then
    Err (errorString "secp256k1 not yet implemented")
  else Err ErrInvalidAlgorithm.

(** [publicKey[:16]], which panics on a shorter string. *)
Definition slice_to_16 (s : string) : result string :=
  if (String.length s <? 16)%nat then
    Err (runtime_panic "slice bounds out of range")
  else Ok (substring 0 16 s).

(** [Service.VerifyAndCreateToken] *)
Definition VerifyAndCreateToken (s : Service) (e : Env)
  (agentID alg publicKey challengeStr signature : string) : M Token.t :=
  challenge <- store.GetChallenge (sqlite_now e) challengeStr ;;
  match challenge with
  | None => throw ErrChallengeNotFound
  | Some challenge =>
      if After (time_Now e) (Challenge.ExpiresAt challenge) then
        throw ErrChallengeExpired
      else if (Challenge.AgentID challenge != agentID)
              || (Challenge.Algorithm challenge != alg) then
        throw ErrChallengeNotFound
      else
        match verifySignature alg publicKey challengeStr signature with
        | Err err => throw err
        | Ok false => throw ErrInvalidSignature
        | Ok true =>
            _ <- discard (store.DeleteChallenge (Challenge.ID challenge)) ;;
            accountKey <- store.GetAccountKeyByPublicKey alg publicKey ;;
            match rand_Read e with
            | Err err => throw err
            | Ok tokenBytes =>
                let ID := uuid_New e 0 in
                let Token := base64.URLEncoding_EncodeToString tokenBytes in
                let ExpiresAt := Add (time_Now e) (tokenTTL s) in
                match accountKey with
                | Some accountKey =>
                    token <- store.CreateToken (uuid_New e 1)
                               (Token.mk ID (AccountKey.AccountID accountKey)
                                  (AccountKey.ID accountKey) agentID Token
                                  ExpiresAt) ;;
                    ret token
                | None =>
                    match slice_to_16 publicKey with
                    | Err p => throw p
                    | Ok prefix =>
                        token <- store.CreateToken (uuid_New e 1)
                                   (Token.mk ID ""
                                      (String.append "unregistered:" prefix)
                                      agentID Token ExpiresAt) ;;
                        ret token
                    end
                end
            end
        end
  end.

End Verifier.

(** [Service.ValidateToken] *)
Definition ValidateToken (e : Env) (tokenStr : string) : M (option Token.t) :=
  token <- store.GetToken (sqlite_now e) tokenStr ;;
  ret token.

End auth.

(** ** internal/api *)

Module api.

(** The parts of an [*http.Request] the account and auth handlers read: two
    headers, the path values [id] and [keyId], and the JSON body already
    decoded into the handler's request type ([None] when decoding fails). *)
Record Request (B : Type) : Type := mkRequest {
  Header_X_Agent_Id : string;
  Header_Authorization : string;
  PathValue_id : string;
  PathValue_keyId : string;
  Body : option B
}.
Arguments mkRequest {B}.
Arguments Header_X_Agent_Id {B}.
Arguments Header_Authorization {B}.
Arguments PathValue_id {B}.
Arguments PathValue_keyId {B}.
Arguments Body {B}.

Record CreateAccountRequest : Type := mkCreateAccountRequest {
  ca_DisplayName : string;
  ca_Bio : string;
  ca_HomepageURL : string;
  ca_PublicKey : string;
  ca_Algorithm : string;
  ca_Signature : string;
  ca_Challenge : string
}.

Record AddKeyRequest : Type := mkAddKeyRequest {
  ak_PublicKey : string;
  ak_Algorithm : string;
  ak_Signature : string;
  ak_Challenge : string
}.

Record ChallengeRequest : Type := mkChallengeRequest {
  cr_AgentID : string;
  cr_Algorithm : string
}.

Record VerifyRequest : Type := mkVerifyRequest {
  vr_AgentID : string;
  vr_Algorithm : string;
  vr_PublicKey : string;
  vr_Challenge : string;
  vr_Signature : string
}.

(** The values the handlers encode as JSON. *)
Inductive data : Type :=
| ErrorResponse (Error : string)
| CreateAccountResponse (AccountID KeyID : string)
| AddKeyResponse (KeyID : string)
| DeleteKeyResponse (OK : bool)
| ChallengeResponse (Challenge : string) (ExpiresAt : Time)
| VerifyResponse (AccessToken : string) (ExpiresAt : Time)
    (KeyID AccountID : string)
| AccountJSON (account : Account.t).

(** What a handler leaves on the wire: a status with a JSON value, or
    nothing when the handler panicked. *)
Inductive Response : Type :=
| writeJSON (status : Z) (d : data)
| panicked (msg : string).

Definition writeError (status : Z) (message : string) : Response :=
  writeJSON status (ErrorResponse message).

Definition StatusOK : Z := 200.
Definition StatusCreated : Z := 201.
Definition StatusBadRequest : Z := 400.
Definition StatusUnauthorized : Z := 401.
Definition StatusForbidden : Z := 403.
Definition StatusNotFound : Z := 404.
Definition StatusConflict : Z := 409.
Definition StatusInternalServerError : Z := 500.

(** The status a response carries, [None] for a panic. *)
Definition status_of (r : Response) : option Z :=
  match r with
  | writeJSON status _ => Some status
  | panicked _ => None
  end.

(** A handler runs on the database and leaves a response. *)
Definition H : Type := DB -> Response * DB.

Definition done (r : Response) : H := fun db => (r, db).

(** [v, err := call; if err != nil { onErr; return }; rest] *)
Definition attempt {A : Type} (m : M A) (onErr : error -> Response) (k : A -> H)
  : H :=
  fun db =>
    match m db with
    | (Ok a, db') => k a db'
    | (Err err, db') => (onErr err, db')
    end.

Record Handler : Type := NewHandler {
  h_auth : auth.Service
}.

Definition getAgentID {B : Type} (r : Request B) : string :=
  Header_X_Agent_Id r.

(** [strings.HasPrefix] then [strings.TrimPrefix] with ["Bearer "]. *)
Definition getToken {B : Type} (r : Request B) : string :=
  let authHeader := Header_Authorization r in
  if prefix "Bearer " authHeader then
    substring 7 (String.length authHeader - 7) authHeader
  else "".

Definition validateToken {B : Type} (e : Env) (r : Request B)
  : M (option Token.t) :=
  let tokenStr := getToken r in
  if tokenStr == "" then ret None else auth.ValidateToken e tokenStr.

Section Handlers.

Variable lib : Lib.
Variable h : Handler.

(** The [switch err] of [CreateAccount] and [VerifyChallenge]. *)
Definition verifyError (err : error) : Response :=
  match err with
  | ErrInvalidAlgorithm => writeError StatusBadRequest "invalid algorithm"
  | ErrInvalidPublicKey =>
      writeError StatusBadRequest "invalid public key format"
  | ErrInvalidSignature => writeError StatusUnauthorized "invalid signature"
  | ErrChallengeNotFound | ErrChallengeExpired =>
      writeError StatusBadRequest "challenge expired or not found"
  | runtime_panic msg => panicked msg
  | _ => writeError StatusInternalServerError "verification failed"
  end.

(** The [switch err] of [AddAccountKey]. *)
Definition addKeyVerifyError (err : error) : Response :=
  match err with
  | ErrInvalidSignature =>
      writeError StatusUnauthorized "invalid signature for new key"
  | runtime_panic msg => panicked msg
  | _ => writeError StatusBadRequest "verification failed"
  end.

(** [CreateChallenge] handles POST /api/auth/challenge *)
Definition CreateChallenge (e : Env) (r : Request ChallengeRequest) : H :=
  match Body r with
  | None => done (writeError StatusBadRequest "invalid JSON")
  | Some req =>
      if cr_AgentID req == "" then
        done (writeError StatusBadRequest "agent_id is required")
      else if cr_Algorithm req == "" then
        done (writeError StatusBadRequest "alg is required")
      else
        attempt (auth.CreateChallenge (h_auth h) e (cr_AgentID req)
               (cr_Algorithm req))
          (fun err =>
             if error_eqb err ErrInvalidAlgorithm then
               writeError StatusBadRequest
                 "invalid algorithm; supported: ed25519, secp256k1, rsa-pss, rsa-sha256"
             else
               writeError StatusInternalServerError
                 "failed to create challenge")
          (fun challenge =>
             done (writeJSON StatusOK
                     (ChallengeResponse (Challenge.Challenge challenge)
                        (Challenge.ExpiresAt challenge))))
  end.

(** [VerifyChallenge] handles POST /api/auth/verify *)
Definition VerifyChallenge (e : Env) (r : Request VerifyRequest) : H :=
  match Body r with
  | None => done (writeError StatusBadRequest "invalid JSON")
  | Some req =>
      if (vr_AgentID req == "") || (vr_Algorithm req == "")
         || (vr_PublicKey req == "") || (vr_Challenge req == "")
         || (vr_Signature req == "") then
        done (writeError StatusBadRequest
                "all fields are required: agent_id, alg, public_key, challenge, signature")
      else
        attempt (auth.VerifyAndCreateToken lib (h_auth h) e (vr_AgentID req)
               (vr_Algorithm req) (vr_PublicKey req) (vr_Challenge req)
               (vr_Signature req))
          verifyError
          (fun token =>
             done (writeJSON StatusOK
                     (VerifyResponse (Token.Token token)
                        (Token.ExpiresAt token) (Token.KeyID token)
                        (Token.AccountID token))))
  end.

(** [CreateAccount] handles POST /api/accounts *)
Definition CreateAccount (e : Env) (r : Request CreateAccountRequest) : H :=
  match Body r with
  | None => done (writeError StatusBadRequest "invalid JSON")
  | Some req =>
      if ca_DisplayName req == "" then
        done (writeError StatusBadRequest "display_name is required")
      else if (ca_PublicKey req == "") || (ca_Algorithm req == "")
              || (ca_Signature req == "") || (ca_Challenge req == "") then
        done (writeError StatusBadRequest
                "public_key, alg, signature, and challenge are required")
      else
        let agentID := getAgentID r in
        let agentID := if agentID == "" then ca_DisplayName req else agentID in
        attempt (auth.VerifyAndCreateToken lib (h_auth h) e agentID
               (ca_Algorithm req) (ca_PublicKey req) (ca_Challenge req)
               (ca_Signature req))
          verifyError
          (fun token =>
        attempt (store.GetAccountKeyByPublicKey (ca_Algorithm req)
               (ca_PublicKey req))
          (fun _ => writeError StatusInternalServerError "database error")
          (fun existingKey =>
        match existingKey with
        | Some _ =>
            done (writeError StatusConflict
                    "public key is already registered to an account")
        | None =>
            attempt (store.CreateAccount (uuid_New e 2) (time_Now e)
                   (Account.mk "" (ca_DisplayName req) (ca_Bio req)
                      (ca_HomepageURL req) zeroTime))
              (fun _ =>
                 writeError StatusInternalServerError
                   "failed to create account")
              (fun account =>
            attempt (store.CreateAccountKey (uuid_New e 3) (time_Now e)
                   (AccountKey.mk "" (Account.ID account) (ca_Algorithm req)
                      (ca_PublicKey req) zeroTime None))
              (fun _ =>
                 writeError StatusInternalServerError
                   "failed to create account key")
              (fun key =>
            done (writeJSON StatusCreated
                    (CreateAccountResponse (Account.ID account)
                       (AccountKey.ID key)))))
        end))
  end.

(** [GetAccount] handles GET /api/accounts/{id} *)
Definition GetAccount (r : Request unit) : H :=
  let id := PathValue_id r in
  if id == "" then done (writeError StatusBadRequest "account id required")
  else
    attempt (store.GetAccount id)
      (fun _ => writeError StatusInternalServerError "database error")
      (fun account =>
         match account with
         | None => done (writeError StatusNotFound "account not found")
         | Some account => done (writeJSON StatusOK (AccountJSON account))
         end).

(** [AddAccountKey] handles POST /api/accounts/{id}/keys *)
Definition AddAccountKey (e : Env) (r : Request AddKeyRequest) : H :=
  let accountID := PathValue_id r in
  if accountID == "" then
    done (writeError StatusBadRequest "account id required")
  else
    attempt (store.GetAccount accountID)
      (fun _ => writeError StatusInternalServerError "database error")
      (fun account =>
    match account with
    | None => done (writeError StatusNotFound "account not found")
    | Some _ =>
    attempt (validateToken e r)
      (fun _ => writeError StatusUnauthorized "authentication required")
      (fun token =>
    match token with
    | None => done (writeError StatusUnauthorized "authentication required")
    | Some token =>
    if Token.AccountID token != accountID then
      done (writeError StatusForbidden "not authorized to modify this account")
    else
    match Body r with
    | None => done (writeError StatusBadRequest "invalid JSON")
    | Some req =>
    if (ak_PublicKey req == "") || (ak_Algorithm req == "")
       || (ak_Signature req == "") || (ak_Challenge req == "") then
      done (writeError StatusBadRequest
              "public_key, alg, signature, and challenge are required")
    else
    attempt (auth.VerifyAndCreateToken lib (h_auth h) e (Token.AgentID token)
           (ak_Algorithm req) (ak_PublicKey req) (ak_Challenge req)
           (ak_Signature req))
      addKeyVerifyError
      (fun _ =>
    attempt (store.GetAccountKeyByPublicKey (ak_Algorithm req) (ak_PublicKey req))
      (fun _ => writeError StatusInternalServerError "database error")
      (fun existingKey =>
    match existingKey with
    | Some _ =>
        done (writeError StatusConflict "public key is already registered")
    | None =>
    attempt (store.CreateAccountKey (uuid_New e 2) (time_Now e)
           (AccountKey.mk "" accountID (ak_Algorithm req) (ak_PublicKey req)
              zeroTime None))
      (fun _ =>
         writeError StatusInternalServerError "failed to create account key")
      (fun key =>
    done (writeJSON StatusCreated (AddKeyResponse (AccountKey.ID key))))
    end))
    end
    end)
    end).

(** [DeleteAccountKey] handles DELETE /api/accounts/{id}/keys/{keyId} *)
Definition DeleteAccountKey (e : Env) (r : Request unit) : H :=
  let accountID := PathValue_id r in
  let keyID := PathValue_keyId r in
  if (accountID == "") || (keyID == "") then
    done (writeError StatusBadRequest "account id and key id required")
  else
    attempt (validateToken e r)
      (fun _ => writeError StatusUnauthorized "authentication required")
      (fun token =>
    match token with
    | None => done (writeError StatusUnauthorized "authentication required")
    | Some token =>
    if Token.AccountID token != accountID then
      done (writeError StatusForbidden "not authorized to modify this account")
    else
    attempt (store.GetAccountKey keyID)
      (fun _ => writeError StatusInternalServerError "database error")
      (fun key =>
    match key with
    | None => done (writeError StatusNotFound "key not found")
    | Some key =>
    if AccountKey.AccountID key != accountID then
      done (writeError StatusForbidden "key does not belong to this account")
    else if AccountKey.ID key == Token.KeyID token then
      done (writeError StatusBadRequest "cannot revoke the key currently in use")
    else
    attempt (store.RevokeAccountKey (time_Now e) keyID)
      (fun _ => writeError StatusInternalServerError "failed to revoke key")
      (fun _ => done (writeJSON StatusOK (DeleteKeyResponse true)))
    end)
    end).

End Handlers.

End api.

(** ** Sequences of operations

    The operations that write to the database: the two calls of the auth
    service, the three account handlers, and the store's own calls on
    accounts and keys. *)
Inductive Op : Type :=
| OpCreateChallenge (e : Env) (agentID alg : string)
| OpVerifyAndCreateToken (e : Env)
    (agentID alg publicKey challengeStr signature : string)
| OpCreateAccount (e : Env) (r : api.Request api.CreateAccountRequest)
| OpAddAccountKey (e : Env) (r : api.Request api.AddKeyRequest)
| OpDeleteAccountKey (e : Env) (r : api.Request unit)
| OpStoreCreateAccount (uuid : string) (now : Time) (account : Account.t)
| OpStoreCreateAccountKey (uuid : string) (now : Time) (key : AccountKey.t)
| OpRevokeAccountKey (now : Time) (id : string).

Definition step (lib : Lib) (h : api.Handler) (op : Op) (db : DB) : DB :=
  match op with
  | OpCreateChallenge e agentID alg =>
      snd (auth.CreateChallenge (api.h_auth h) e agentID alg db)
  | OpVerifyAndCreateToken e agentID alg publicKey challengeStr signature =>
      snd (auth.VerifyAndCreateToken lib (api.h_auth h) e agentID alg publicKey
             challengeStr signature db)
  | OpCreateAccount e r => snd (api.CreateAccount lib h e r db)
  | OpAddAccountKey e r => snd (api.AddAccountKey lib h e r db)
  | OpDeleteAccountKey e r => snd (api.DeleteAccountKey e r db)
  | OpStoreCreateAccount uuid now account =>
      snd (store.CreateAccount uuid now account db)
  | OpStoreCreateAccountKey uuid now key =>
      snd (store.CreateAccountKey uuid now key db)
  | OpRevokeAccountKey now id => snd (store.RevokeAccountKey now id db)
  end.

Definition run (lib : Lib) (h : api.Handler) (ops : list Op) (db : DB) : DB :=
  fold_left (fun db op => step lib h op db) ops db.

(** The pair the uniqueness constraint of [account_keys] speaks of. *)
Definition key_pair (r : account_keys.row) : string * string :=
  (account_keys.algorithm r, account_keys.public_key r).

Definition active (r : account_keys.row) : bool :=
  store.isNull (account_keys.revoked_at r).

(** ** Vocabulary of the properties *)

(** The [WHERE] clause of [GetToken]. *)
Definition token_live (tokenStr : string) (now : Time) (r : tokens.row) : bool :=
  (tokens.token r == tokenStr) && (tokens.expires_at r >? sqliteFormat now).

(** The [WHERE] clause of [GetChallenge]. *)
Definition challenge_live (challengeStr : string) (now : Time)
  (r : challenges.row) : bool :=
  (challenges.challenge r == challengeStr)
  && (challenges.expires_at r >? sqliteFormat now).

(** The verifier on each implemented algorithm, past the public key. *)
Definition publicKey_wellformed (lib : Lib) (alg publicKeyStr : string) : Prop :=
  (alg = auth.AlgEd25519
   /\ exists publicKeyBytes,
        base64.StdEncoding_DecodeString publicKeyStr = Some publicKeyBytes
        /\ List.length publicKeyBytes = ed25519_PublicKeySize)
  \/ ((alg = auth.AlgRSAPSS \/ alg = auth.AlgRSASHA256)
      /\ exists publicKey, auth.parseRSAPublicKey lib publicKeyStr = Ok publicKey).

(** The columns of a key row other than [revoked_at]. *)
Definition key_columns (r : account_keys.row)
  : string * string * string * string * Time :=
  (account_keys.id r, account_keys.account_id r, account_keys.algorithm r,
   account_keys.public_key r, account_keys.created_at r).

(** What the [UPDATE] of [RevokeAccountKey] does to one row. *)
Definition revoke_row (now : Time) (id : string) (r : account_keys.row)
  : account_keys.row :=
  if account_keys.id r == id then
    account_keys.mk (account_keys.id r) (account_keys.account_id r)
      (account_keys.algorithm r) (account_keys.public_key r)
      (account_keys.created_at r) (Some now)
  else r.

(** A run of [f] takes every database to one related to it by [R]. *)
Definition writes {X : Type} (R : DB -> DB -> Prop) (f : DB -> X * DB) : Prop :=
  forall db, R db (snd (f db)).

(** The tables of accounts and keys are the same in two databases. *)
Definition same_registry (db db' : DB) : Prop :=
  tbl_accounts db' = tbl_accounts db
  /\ tbl_account_keys db' = tbl_account_keys db.

(** The constraint [UNIQUE(algorithm, public_key)] of [account_keys]. *)
Definition keys_unique (db : DB) : Prop :=
  NoDup (map key_pair (tbl_account_keys db)).

(** The constraint passes from one database to the other. *)
Definition keeps_keys_unique (db db' : DB) : Prop :=
  keys_unique db -> keys_unique db'.

(** The token row names a key of its account: when the row has an account,
    the table of keys has a row of that account under the key id of the
    token. *)
Definition token_names_key (db : DB) (t : tokens.row) : Prop :=
  forall a,
    tokens.account_id t = Some a ->
    exists k,
      In k (tbl_account_keys db)
      /\ account_keys.id k = tokens.key_id t
      /\ account_keys.account_id k = a.

(** The ids of the keys are distinct, as the primary key has them, and every
    token names a key of its account. *)
Definition tokens_name_keys (db : DB) : Prop :=
  NoDup (map account_keys.id (tbl_account_keys db))
  /\ forall t, In t (tbl_tokens db) -> token_names_key db t.

(** The property passes from one database to the other. *)
Definition keeps_tokens_name_keys (db db' : DB) : Prop :=
  tokens_name_keys db -> tokens_name_keys db'.

(** The pair is bound to an active key. *)
Definition bound (db : DB) (alg publicKey : string) : Prop :=
  exists r,
    In r (tbl_account_keys db) /\ active r = true
    /\ key_pair r = (alg, publicKey).

(** A POST /api/accounts for the pair that passes the handler's checks up to
    the registry: the body decodes, the required fields are there, and
    [VerifyAndCreateToken] accepts the credential, leaving [db1]. *)
Definition create_account_verified (lib : Lib) (h : api.Handler) (e : Env)
  (r : api.Request api.CreateAccountRequest) (alg publicKey : string)
  (db db1 : DB) : Prop :=
  exists req token,
    api.Body r = Some req
    /\ api.ca_Algorithm req = alg /\ api.ca_PublicKey req = publicKey
    /\ api.ca_DisplayName req <> "" /\ alg <> "" /\ publicKey <> ""
    /\ api.ca_Signature req <> "" /\ api.ca_Challenge req <> ""
    /\ auth.VerifyAndCreateToken lib (api.h_auth h) e
         (if api.getAgentID r == "" then api.ca_DisplayName req
          else api.getAgentID r)
         alg publicKey (api.ca_Challenge req) (api.ca_Signature req) db
       = (Ok token, db1).

(** A POST /api/accounts/{id}/keys for the pair that passes the handler's
    checks up to the registry: the account exists, the bearer token
    validates and belongs to the account, the body decodes with its
    required fields, and [VerifyAndCreateToken] accepts the credential. *)
Definition add_key_verified (lib : Lib) (h : api.Handler) (e : Env)
  (r : api.Request api.AddKeyRequest) (alg publicKey : string)
  (db db1 : DB) : Prop :=
  exists account bearer req token,
    api.PathValue_id r <> ""
    /\ fst (store.GetAccount (api.PathValue_id r) db) = Ok (Some account)
    /\ fst (api.validateToken e r db) = Ok (Some bearer)
    /\ Token.AccountID bearer = api.PathValue_id r
    /\ api.Body r = Some req
    /\ api.ak_Algorithm req = alg /\ api.ak_PublicKey req = publicKey
    /\ alg <> "" /\ publicKey <> ""
    /\ api.ak_Signature req <> "" /\ api.ak_Challenge req <> ""
    /\ auth.VerifyAndCreateToken lib (api.h_auth h) e (Token.AgentID bearer)
         alg publicKey (api.ak_Challenge req) (api.ak_Signature req) db
       = (Ok token, db1).

(** The answer of [CreateAccount] when [CreateAccountKey] returns an
    error. *)
Definition key_insert_failed : api.Response :=
  api.writeError api.StatusInternalServerError "failed to create account key".

(** The outcomes of POST /api/accounts by what reached the registry.
    - [Rejected]: the request was answered before any insert; accounts and
      keys are as before.
    - [KeyInsertFailed]: the pair was bound to no active key, the account
      row was inserted into [db1] giving [db2], the insert of the key
      failed, and the handler returned; [db2] is what is left.
    - [Created]: the pair was bound to no active key and both rows were
      inserted; the answer is 201. *)
Inductive CreateAccountOutcome (lib : Lib) (h : api.Handler) (e : Env)
  (r : api.Request api.CreateAccountRequest) (db : DB)
  : api.Response * DB -> Prop :=
| Rejected (resp : api.Response) (db1 : DB) :
    same_registry db db1 ->
    resp <> key_insert_failed ->
    api.status_of resp <> Some api.StatusCreated ->
    CreateAccountOutcome lib h e r db (resp, db1)
| KeyInsertFailed (req : api.CreateAccountRequest) (db1 db2 : DB)
    (account : Account.t) (err : error) :
    api.Body r = Some req ->
    same_registry db db1 ->
    ~ bound db1 (api.ca_Algorithm req) (api.ca_PublicKey req) ->
    store.CreateAccount (uuid_New e 2) (time_Now e)
      (Account.mk "" (api.ca_DisplayName req) (api.ca_Bio req)
         (api.ca_HomepageURL req) zeroTime) db1
    = (Ok account, db2) ->
    store.CreateAccountKey (uuid_New e 3) (time_Now e)
      (AccountKey.mk "" (Account.ID account) (api.ca_Algorithm req)
         (api.ca_PublicKey req) zeroTime None) db2
    = (Err err, db2) ->
    CreateAccountOutcome lib h e r db (key_insert_failed, db2)
| Created (req : api.CreateAccountRequest) (db1 db2 db3 : DB)
    (account : Account.t) (key : AccountKey.t) :
    api.Body r = Some req ->
    same_registry db db1 ->
    ~ bound db1 (api.ca_Algorithm req) (api.ca_PublicKey req) ->
    store.CreateAccount (uuid_New e 2) (time_Now e)
      (Account.mk "" (api.ca_DisplayName req) (api.ca_Bio req)
         (api.ca_HomepageURL req) zeroTime) db1
    = (Ok account, db2) ->
    store.CreateAccountKey (uuid_New e 3) (time_Now e)
      (AccountKey.mk "" (Account.ID account) (api.ca_Algorithm req)
         (api.ca_PublicKey req) zeroTime None) db2
    = (Ok key, db3) ->
    CreateAccountOutcome lib h e r db
      (api.writeJSON api.StatusCreated
         (api.CreateAccountResponse (Account.ID account) (AccountKey.ID key)),
       db3).

(** The verification runs while the stored expiry is ahead of both
    clocks. *)
Definition in_time (e : Env) (expires : Time) : Prop :=
  sqlite_now e < sqliteParse (sqliteFormat expires)
  /\ time_Now e <= sqliteParse (sqliteFormat expires).

(** The random source delivers, and neither the UUID nor the token string
    drawn is already in [tokens]. *)
Definition token_fresh (e : Env) (db : DB) : Prop :=
  exists tokenBytes,
    rand_Read e = Ok tokenBytes
    /\ uuid_New e 0 <> ""
    /\ forall t, In t (tbl_tokens db) ->
         tokens.id t <> uuid_New e 0
         /\ tokens.token t <> base64.URLEncoding_EncodeToString tokenBytes.

(** The part of [VerifyAndCreateToken] after the challenge is consumed:
    the lookup of the key, the draw of the token and its insert. *)
Definition issueToken (s : auth.Service) (e : Env)
  (agentID alg publicKey : string) : M Token.t :=
  accountKey <- store.GetAccountKeyByPublicKey alg publicKey ;;
  match rand_Read e with
  | Err err => throw err
  | Ok tokenBytes =>
      match accountKey with
      | Some accountKey =>
          token <- store.CreateToken (uuid_New e 1)
                     (Token.mk (uuid_New e 0) (AccountKey.AccountID accountKey)
                        (AccountKey.ID accountKey) agentID
                        (base64.URLEncoding_EncodeToString tokenBytes)
                        (Add (time_Now e) (auth.tokenTTL s))) ;;
          ret token
      | None =>
          match auth.slice_to_16 publicKey with
          | Err p => throw p
          | Ok prefix =>
              token <- store.CreateToken (uuid_New e 1)
                         (Token.mk (uuid_New e 0) ""
                            (String.append "unregistered:" prefix) agentID
                            (base64.URLEncoding_EncodeToString tokenBytes)
                            (Add (time_Now e) (auth.tokenTTL s))) ;;
              ret token
          end
      end
  end.

(** ** A worked scenario

    Closed inputs for the examples below.  The library [Example.lib] stands
    for a signature scheme in which the signature of a message is the
    message: it accepts exactly the signatures a holder of the key would
    present for the challenge, which is all the examples need from the real
    primitives.  The service has the default TTLs of config.Load. *)
Module Example.

Definition lib : Lib :=
  mkLib
    (fun _ message sig => string_of_list_byte sig == string_of_list_byte message)
    (fun _ => None)
    (fun _ => None)
    (fun message => message)
    (fun _ _ _ => false)
    (fun _ _ _ => false).

Definition svc : auth.Service :=
  auth.NewService (300 * Second) (86400 * Second).

Definition h : api.Handler := api.NewHandler svc.

(** Both clocks at [secs] seconds, 32 random bytes all equal to [seed], and
    UUIDs [tag0], [tag1], ... *)
Definition env (secs : Z) (seed : byte) (tag : string) : Env :=
  mkEnv (secs * Second) (secs * Second) (Ok (repeat seed 32))
    (fun n => String.append tag (String (ascii_of_nat (48 + n)) "")).

(** The string [CreateChallenge] and [VerifyAndCreateToken] draw under
    [env _ seed _]. *)
Definition drawn (seed : byte) : string :=
  base64.URLEncoding_EncodeToString (repeat seed 32).

Definition sign (message : string) : string :=
  base64.StdEncoding_EncodeToString (bytes_of_string message).

Definition pk1 : string := base64.StdEncoding_EncodeToString (repeat x01 32).
Definition pk2 : string := base64.StdEncoding_EncodeToString (repeat x02 32).

Definition post {B : Type} (agent bearer id keyId : string) (body : B)
  : api.Request B :=
  api.mkRequest agent
    (if bearer == "" then "" else String.append "Bearer " bearer)
    id keyId (Some body).

(** Agent one registers [pk1], signs in, adds [pk2], signs in with it. *)
Definition registered : DB :=
  run lib h
    [ OpCreateChallenge (env 1000 x10 "c1") "agent-1" "ed25519";
      OpCreateAccount (env 1001 x11 "a")
        (post "agent-1" "" "" ""
           (api.mkCreateAccountRequest "Agent One" "" "" pk1 "ed25519"
              (sign (drawn x10)) (drawn x10)));
      OpCreateChallenge (env 1002 x12 "c2") "agent-1" "ed25519";
      OpVerifyAndCreateToken (env 1003 x13 "t1") "agent-1" "ed25519" pk1
        (drawn x12) (sign (drawn x12));
      OpCreateChallenge (env 1004 x14 "c3") "agent-1" "ed25519";
      OpAddAccountKey (env 1005 x15 "k")
        (post "" (drawn x13) "a2" ""
           (api.mkAddKeyRequest pk2 "ed25519" (sign (drawn x14)) (drawn x14)));
      OpCreateChallenge (env 1006 x16 "c4") "agent-1" "ed25519";
      OpVerifyAndCreateToken (env 1007 x17 "t2") "agent-1" "ed25519" pk2
        (drawn x16) (sign (drawn x16)) ]
    emptyDB.

(** Two challenges not yet used, one for agent two and one for agent one. *)
Definition challenged : DB :=
  run lib h
    [ OpCreateChallenge (env 1008 x18 "c5") "agent-2" "ed25519";
      OpCreateChallenge (env 1008 x19 "c6") "agent-1" "ed25519" ]
    registered.

(** The first key is revoked by a request signed in with the second. *)
Definition revoked : DB :=
  run lib h
    [ OpDeleteAccountKey (env 1009 x1a "d") (post "" (drawn x17) "a2" "a3" tt) ]
    challenged.

(** Agent two asks for an account under [pk1], signing its challenge. *)
Definition create_with_pk1 : api.Request api.CreateAccountRequest :=
  post "agent-2" "" "" ""
    (api.mkCreateAccountRequest "Agent Two" "" "" pk1 "ed25519"
       (sign (drawn x18)) (drawn x18)).

(** Agent one, signed in with its second key, asks to add [pk1] again. *)
Definition add_pk1 : api.Request api.AddKeyRequest :=
  post "" (drawn x17) "a2" ""
    (api.mkAddKeyRequest pk1 "ed25519" (sign (drawn x19)) (drawn x19)).

End Example.

(** ** Go integers and durations *)

(** A Go [int] is 64 bits wide on the platforms the server is built for;
    [wrapInt z] is the [int] an operation with the exact result [z] leaves. *)
Definition minInt : Z := - 2 ^ 63.
Definition maxInt : Z := 2 ^ 63 - 1.

Definition wrapInt (z : Z) : Z := (z - minInt) mod 2 ^ 64 + minInt.

(** [t.Sub(u)]: the difference, kept within the range of a [Duration]. *)
Definition minDuration : Duration := - 2 ^ 63.
Definition maxDuration : Duration := 2 ^ 63 - 1.

Definition Sub (t u : Time) : Duration :=
  Z.max minDuration (Z.min maxDuration (t - u)).

(** ** internal/ratelimit *)

Module ratelimit.

Record bucket : Type := mkBucket {
  count : Z;
  resetTime : Time
}.

(** [MemoryLimiter]: the map [buckets]; the mutex makes every call run
    alone, so a call is a function of the map and of the clock it reads. *)
Definition MemoryLimiter : Type := string -> option bucket.

Definition NewMemoryLimiter : MemoryLimiter := fun _ => None.

(** [l.buckets[key] = b] *)
Definition store (l : MemoryLimiter) (key : string) (b : bucket)
  : MemoryLimiter :=
  fun k => if k == key then Some b else l k.

(** [Allow]; [now] is what [time.Now()] returns in the call.  [b.count++]
    goes through the pointer the map holds. *)
Definition Allow (now : Time) (key : string) (limit : Z) (window : Duration)
  (l : MemoryLimiter) : bool * MemoryLimiter :=
  match l key with
  | None => (true, store l key (mkBucket 1 (Add now window)))
  | Some b =>
      if After now (resetTime b) then
        (true, store l key (mkBucket 1 (Add now window)))
      else if count b >=? limit then (false, l)
      else (true, store l key (mkBucket (wrapInt (count b + 1)) (resetTime b)))
  end.

Definition Remaining (now : Time) (key : string) (limit : Z)
  (window : Duration) (l : MemoryLimiter) : Z :=
  match l key with
  | None => limit
  | Some b =>
      if After now (resetTime b) then limit
      else
        let remaining := wrapInt (limit - count b) in
        if remaining <? 0 then 0 else remaining
  end.

Definition RetryAfter (now : Time) (key : string) (window : Duration)
  (l : MemoryLimiter) : Duration :=
  match l key with
  | None => 0
  | Some b => if After now (resetTime b) then 0 else Sub (resetTime b) now
  end.

(** [Cleanup]: every key whose bucket the clock has passed is deleted. *)
Definition Cleanup (now : Time) (l : MemoryLimiter) : MemoryLimiter :=
  fun k =>
    match l k with
    | None => None
    | Some b => if After now (resetTime b) then None else Some b
    end.

End ratelimit.

(** A call of [Allow]: the clock it reads and its arguments. *)
Record AllowCall : Type := mkAllowCall {
  call_now : Time;
  call_key : string;
  call_limit : Z;
  call_window : Duration
}.

(** The answers of a sequence of calls of [Allow], and the limiter left. *)
Fixpoint Allows (calls : list AllowCall) (l : ratelimit.MemoryLimiter)
  : list bool * ratelimit.MemoryLimiter :=
  match calls with
  | [] => ([], l)
  | c :: calls =>
      let (ok, l1) :=
        ratelimit.Allow (call_now c) (call_key c) (call_limit c)
          (call_window c) l in
      let (oks, l2) := Allows calls l1 in
      (ok :: oks, l2)
  end.

(** Every counter of the limiter is a positive [int]. *)
Definition counts_positive (l : ratelimit.MemoryLimiter) : Prop :=
  forall key b, l key = Some b -> 1 <= ratelimit.count b <= maxInt.

(** ** internal/store, store.go: stories, comments and votes *)

Module Story.
Record t : Type := mk {
  ID : string;
  Title : string;
  URL : string;
  Text : string;
  Tags : list string;
  Score : Z;
  CommentCount : Z;
  CreatedAt : Time;
  Hidden : bool;
  AgentID : string;
  AgentVerified : bool
}.
End Story.

(** A [*Comment] is the position of the comment in the slice that holds the
    comments of the call; [Children] is a slice of such pointers. *)
Module Comment.
Record t : Type := mk {
  ID : string;
  StoryID : string;
  ParentID : string;
  Text : string;
  Score : Z;
  CreatedAt : Time;
  Hidden : bool;
  AgentID : string;
  AgentVerified : bool;
  Children : list nat
}.
End Comment.

Module Vote.
Record t : Type := mk {
  ID : string;
  TargetType : string;
  TargetID : string;
  Value : Z;
  CreatedAt : Time;
  IPHash : string;
  AgentID : string;
  AgentVerified : bool
}.
End Vote.

(** ** internal/store, sqlite.go: the tables of stories, comments and votes

    The three tables [migrate] creates beside the four of [DB].  [tags]
    holds the JSON text of the tags; [hidden] and [agent_verified] hold the
    integers the inserts bind. *)

Module stories.
Record row : Type := mk {
  id : string;
  title : string;
  url : option string;
  text : option string;
  tags : option string;
  score : Z;
  comment_count : Z;
  created_at : Time;
  hidden : Z;
  agent_id : option string;
  agent_verified : Z
}.
End stories.

Module comments.
Record row : Type := mk {
  id : string;
  story_id : string;
  parent_id : option string;
  text : string;
  score : Z;
  created_at : Time;
  hidden : Z;
  agent_id : option string;
  agent_verified : Z
}.
End comments.

Module votes.
Record row : Type := mk {
  id : string;
  target_type : string;
  target_id : string;
  value : Z;
  created_at : Time;
  ip_hash : option string;
  agent_id : option string;
  agent_verified : Z
}.
End votes.

Record Content : Type := mkContent {
  tbl_stories : list stories.row;
  tbl_comments : list comments.row;
  tbl_votes : list votes.row
}.

Definition emptyContent : Content := mkContent [] [] [].

(** What the content side takes from outside the program, beside [Lib].
    - [json_Unmarshal_strings text]: what [json.Unmarshal] leaves in a nil
      [[]string] (its error is dropped by the caller)
    - [strings_TrimSpace s]
    - [Duration_Seconds_int d]: [int(d.Seconds())]
    - [string_of_rune n]: [string(rune(n))] for an [int] [n]
    - [first_row rows]: the row [QueryRow] scans when the rows of the list
      satisfy the query of [GetVote], which has no [ORDER BY] *)
Record Std : Type := mkStd {
  json_Unmarshal_strings : string -> list string;
  strings_TrimSpace : string -> string;
  Duration_Seconds_int : Duration -> Z;
  string_of_rune : Z -> string;
  first_row : list votes.row -> option votes.row
}.

(** The statements of the content side, on [Content]. *)
Definition MC (A : Type) : Type := Content -> result A * Content.

Module store_content.

Definition boolToInt (b : bool) : Z := if b then 1 else 0.

(** [column = ?] on a nullable column: never true of [NULL]. *)
Definition null_eq (column : option string) (arg : string) : bool :=
  match column with
  | Some v => v == arg
  | None => false
  end.

(** *** Stories *)

Definition scanStory (std : Std) (r : stories.row) : Story.t :=
  Story.mk (stories.id r) (stories.title r)
    (store.NullString_String (stories.url r))
    (store.NullString_String (stories.text r))
    (match stories.tags r with
     | Some s => if s != "" then json_Unmarshal_strings std s else []
     | None => []
     end)
    (stories.score r) (stories.comment_count r) (stories.created_at r)
    (stories.hidden r =? 1)
    (store.NullString_String (stories.agent_id r))
    (stories.agent_verified r =? 1).

(** [... FROM stories WHERE id = ? AND hidden = 0]; no row is [(nil, nil)]. *)
Definition GetStory (std : Std) (id : string) : MC (option Story.t) :=
  fun c =>
    (Ok (option_map (scanStory std)
           (find (fun r => (stories.id r == id) && (stories.hidden r =? 0))
              (tbl_stories c))),
     c).

(** [UPDATE stories SET score = score + ? WHERE id = ?] *)
Definition UpdateStoryScore (id : string) (delta : Z) : MC unit :=
  fun c =>
    (Ok tt,
     mkContent
       (map
          (fun r =>
             if stories.id r == id then
               stories.mk (stories.id r) (stories.title r) (stories.url r)
                 (stories.text r) (stories.tags r) (stories.score r + delta)
                 (stories.comment_count r) (stories.created_at r)
                 (stories.hidden r) (stories.agent_id r)
                 (stories.agent_verified r)
             else r)
          (tbl_stories c))
       (tbl_comments c) (tbl_votes c)).

Definition UpdateStoryCommentCount (id : string) (delta : Z) : MC unit :=
  fun c =>
    (Ok tt,
     mkContent
       (map
          (fun r =>
             if stories.id r == id then
               stories.mk (stories.id r) (stories.title r) (stories.url r)
                 (stories.text r) (stories.tags r) (stories.score r)
                 (stories.comment_count r + delta) (stories.created_at r)
                 (stories.hidden r) (stories.agent_id r)
                 (stories.agent_verified r)
             else r)
          (tbl_stories c))
       (tbl_comments c) (tbl_votes c)).

(** [UPDATE stories SET hidden = 1 WHERE id = ?] *)
Definition HideStory (id : string) : MC unit :=
  fun c =>
    (Ok tt,
     mkContent
       (map
          (fun r =>
             if stories.id r == id then
               stories.mk (stories.id r) (stories.title r) (stories.url r)
                 (stories.text r) (stories.tags r) (stories.score r)
                 (stories.comment_count r) (stories.created_at r) 1
                 (stories.agent_id r) (stories.agent_verified r)
             else r)
          (tbl_stories c))
       (tbl_comments c) (tbl_votes c)).

(** *** Comments *)

(** [comments] has the primary key [id] and a foreign key to
    [stories(id)]. *)
Definition CreateComment (uuid : string) (now : Time) (comment : Comment.t)
  : MC Comment.t :=
  fun c =>
    let ID := if Comment.ID comment == "" then uuid else Comment.ID comment in
    let CreatedAt :=
      if IsZero (Comment.CreatedAt comment) then now
      else Comment.CreatedAt comment in
    if existsb (fun r => comments.id r == ID) (tbl_comments c) then
      (Err (store.constraint_failed "comments.id"), c)
    else if negb (existsb (fun r => stories.id r == Comment.StoryID comment)
                    (tbl_stories c)) then
      (Err (store.constraint_failed "FOREIGN KEY"), c)
    else
      (Ok (Comment.mk ID (Comment.StoryID comment) (Comment.ParentID comment)
             (Comment.Text comment) (Comment.Score comment) CreatedAt
             (Comment.Hidden comment) (Comment.AgentID comment)
             (Comment.AgentVerified comment) (Comment.Children comment)),
       mkContent (tbl_stories c)
         (tbl_comments c ++
          [comments.mk ID (Comment.StoryID comment)
             (store.nullString (Comment.ParentID comment))
             (Comment.Text comment) (Comment.Score comment) CreatedAt
             (boolToInt (Comment.Hidden comment))
             (store.nullString (Comment.AgentID comment))
             (boolToInt (Comment.AgentVerified comment))])
         (tbl_votes c)).

Definition scanComment (r : comments.row) : Comment.t :=
  Comment.mk (comments.id r) (comments.story_id r)
    (store.NullString_String (comments.parent_id r)) (comments.text r)
    (comments.score r) (comments.created_at r) (comments.hidden r =? 1)
    (store.NullString_String (comments.agent_id r))
    (comments.agent_verified r =? 1) [].

(** [... FROM comments WHERE id = ? AND hidden = 0]; no row is
    [(nil, nil)]. *)
Definition GetComment (id : string) : MC (option Comment.t) :=
  fun c =>
    (Ok (option_map scanComment
           (find (fun r => (comments.id r == id) && (comments.hidden r =? 0))
              (tbl_comments c))),
     c).

Definition UpdateCommentScore (id : string) (delta : Z) : MC unit :=
  fun c =>
    (Ok tt,
     mkContent (tbl_stories c)
       (map
          (fun r =>
             if comments.id r == id then
               comments.mk (comments.id r) (comments.story_id r)
                 (comments.parent_id r) (comments.text r)
                 (comments.score r + delta) (comments.created_at r)
                 (comments.hidden r) (comments.agent_id r)
                 (comments.agent_verified r)
             else r)
          (tbl_comments c))
       (tbl_votes c)).

Definition HideComment (id : string) : MC unit :=
  fun c =>
    (Ok tt,
     mkContent (tbl_stories c)
       (map
          (fun r =>
             if comments.id r == id then
               comments.mk (comments.id r) (comments.story_id r)
                 (comments.parent_id r) (comments.text r) (comments.score r)
                 (comments.created_at r) 1 (comments.agent_id r)
                 (comments.agent_verified r)
             else r)
          (tbl_comments c))
       (tbl_votes c)).

(** [buildCommentTree].  The slice [comments] is the heap: the comment at
    position [i] is the object the pointer [i] names.  [byID] maps an id to
    the last position that holds it; a comment with a parent in the map is
    appended to the [Children] of the parent by a write through the
    pointer.  The result is the slice of root pointers, with the heap the
    writes leave. *)
Definition byID (comments : list Comment.t) (id : string) : option nat :=
  fold_left
    (fun found ic => if Comment.ID (snd ic) == id then Some (fst ic) else found)
    (combine (seq 0 (List.length comments)) comments) None.

Definition appendChild (heap : list Comment.t) (parent child : nat)
  : list Comment.t :=
  map
    (fun ic =>
       if Nat.eqb (fst ic) parent then
         Comment.mk (Comment.ID (snd ic)) (Comment.StoryID (snd ic))
           (Comment.ParentID (snd ic)) (Comment.Text (snd ic))
           (Comment.Score (snd ic)) (Comment.CreatedAt (snd ic))
           (Comment.Hidden (snd ic)) (Comment.AgentID (snd ic))
           (Comment.AgentVerified (snd ic))
           (Comment.Children (snd ic) ++ [child])
       else snd ic)
    (combine (seq 0 (List.length heap)) heap).

Definition buildCommentTree (comments : list Comment.t)
  : list nat * list Comment.t :=
  fold_left
    (fun (st : list nat * list Comment.t) (ic : nat * Comment.t) =>
       let (roots, heap) := st in
       let (i, c) := ic in
       if Comment.ParentID c == "" then (roots ++ [i], heap)
       else
         match byID comments (Comment.ParentID c) with
         | Some parent => (roots, appendChild heap parent i)
         | None => (roots, heap)
         end)
    (combine (seq 0 (List.length comments)) comments)
    ([], comments).

(** *** Votes *)

(** [votes] has the primary key [id] and
    [UNIQUE(target_type, target_id, ip_hash, agent_id)], which a [NULL] in
    either of the last two columns never breaks. *)
Definition CreateVote (uuid : string) (now : Time) (vote : Vote.t)
  : MC Vote.t :=
  fun c =>
    let ID := if Vote.ID vote == "" then uuid else Vote.ID vote in
    let CreatedAt :=
      if IsZero (Vote.CreatedAt vote) then now else Vote.CreatedAt vote in
    if existsb (fun r => votes.id r == ID) (tbl_votes c) then
      (Err (store.constraint_failed "votes.id"), c)
    else if existsb
              (fun r =>
                 (votes.target_type r == Vote.TargetType vote)
                 && (votes.target_id r == Vote.TargetID vote)
                 && match votes.ip_hash r, store.nullString (Vote.IPHash vote)
                    with
                    | Some a, Some b => a == b
                    | _, _ => false
                    end
                 && match votes.agent_id r,
                          store.nullString (Vote.AgentID vote) with
                    | Some a, Some b => a == b
                    | _, _ => false
                    end)
              (tbl_votes c) then
      (Err (store.constraint_failed
              "votes.target_type, votes.target_id, votes.ip_hash, votes.agent_id"),
       c)
    else
      (Ok (Vote.mk ID (Vote.TargetType vote) (Vote.TargetID vote)
             (Vote.Value vote) CreatedAt (Vote.IPHash vote)
             (Vote.AgentID vote) (Vote.AgentVerified vote)),
       mkContent (tbl_stories c) (tbl_comments c)
         (tbl_votes c ++
          [votes.mk ID (Vote.TargetType vote) (Vote.TargetID vote)
             (Vote.Value vote) CreatedAt
             (store.nullString (Vote.IPHash vote))
             (store.nullString (Vote.AgentID vote))
             (boolToInt (Vote.AgentVerified vote))])).

(** The [WHERE] clause of [GetVote]. *)
Definition vote_matches (targetType targetID ipHash agentID : string)
  (r : votes.row) : bool :=
  (votes.target_type r == targetType) && (votes.target_id r == targetID)
  && (null_eq (votes.ip_hash r) ipHash || null_eq (votes.agent_id r) agentID).

(** [GetVote].  [Scan] into the [bool] field [AgentVerified] fails on an
    integer other than 0 and 1; no row is [(nil, nil)]. *)
Definition GetVote (std : Std) (targetType targetID ipHash agentID : string)
  : MC (option Vote.t) :=
  fun c =>
    match first_row std
            (filter (vote_matches targetType targetID ipHash agentID)
               (tbl_votes c)) with
    | None => (Ok None, c)
    | Some r =>
        if (votes.agent_verified r =? 0) || (votes.agent_verified r =? 1) then
          (Ok (Some
                 (Vote.mk (votes.id r) (votes.target_type r)
                    (votes.target_id r) (votes.value r) (votes.created_at r)
                    (store.NullString_String (votes.ip_hash r))
                    (store.NullString_String (votes.agent_id r))
                    (votes.agent_verified r =? 1))),
           c)
        else
          (Err (errorString "sql: Scan error on column agent_verified"), c)
    end.

(** [UPDATE votes SET value = ? WHERE id = ?] *)
Definition UpdateVote (id : string) (value : Z) : MC unit :=
  fun c =>
    (Ok tt,
     mkContent (tbl_stories c) (tbl_comments c)
       (map
          (fun r =>
             if votes.id r == id then
               votes.mk (votes.id r) (votes.target_type r) (votes.target_id r)
                 value (votes.created_at r) (votes.ip_hash r)
                 (votes.agent_id r) (votes.agent_verified r)
             else r)
          (tbl_votes c))).

End store_content.

(** ** internal/auth: [HashIP] *)

Definition hexdigit (n : N) : ascii :=
  ascii_of_N (if (n <? 10)%N then n + 48 else n + 87)%N.

(** [hex.EncodeToString] *)
Fixpoint hex_EncodeToString (src : bytes) : string :=
  match src with
  | [] => ""
  | b :: src =>
      String (hexdigit (N.shiftr (N_of_byte b) 4))
        (String (hexdigit (N.land (N_of_byte b) 15)) (hex_EncodeToString src))
  end.

(** [HashIP]: the first 16 bytes of the digest, in hexadecimal. *)
Definition HashIP (lib : Lib) (ip : string) : string :=
  let hash := sha256_Sum256 lib (bytes_of_string ip) in
  hex_EncodeToString (firstn 16 hash).

(** ** internal/config *)

Module config.
Record Config : Type := mkConfig {
  Port : Z;
  Host : string;
  BaseURL : string;
  AdminSecret : string;
  DatabasePath : string;
  StoryRateLimit : Z;
  CommentRateLimit : Z;
  VoteRateLimit : Z;
  RateLimitWindow : Duration;
  ChallengeTTL : Duration;
  TokenTTL : Duration;
  DuplicateWindow : Duration
}.
End config.

(** ** internal/api: the handlers of comments, votes and the admin, and the
    middleware *)

(** What the handlers of this part run on: the database in its two halves
    and the limiter. *)
Record World : Type := mkWorld {
  w_db : DB;
  w_content : Content;
  w_limiter : ratelimit.MemoryLimiter
}.

Module api_content.

(** [context.Context] by the three keys of the package. *)
Record Context : Type := mkContext {
  Value_agent_id : option string;
  Value_verified : option bool;
  Value_account_id : option string
}.

Definition Background : Context := mkContext None None None.

(** The parts of an [*http.Request] these handlers read beside those of
    [api.Request]. *)
Record Request (B : Type) : Type := mkRequest {
  base : api.Request B;
  Header_X_Forwarded_For : string;
  Header_X_Real_IP : string;
  Header_X_Admin_Secret : string;
  RemoteAddr : string;
  Context_ : Context
}.
Arguments mkRequest {B}.
Arguments base {B}.
Arguments Header_X_Forwarded_For {B}.
Arguments Header_X_Real_IP {B}.
Arguments Header_X_Admin_Secret {B}.
Arguments RemoteAddr {B}.
Arguments Context_ {B}.

(** [r.WithContext(ctx)] *)
Definition WithContext {B : Type} (r : Request B) (ctx : Context) : Request B :=
  mkRequest (base r) (Header_X_Forwarded_For r) (Header_X_Real_IP r)
    (Header_X_Admin_Secret r) (RemoteAddr r) ctx.

Record HideRequest : Type := mkHideRequest {
  hr_TargetType : string;
  hr_TargetID : string
}.

Record CreateVoteRequest : Type := mkCreateVoteRequest {
  cv_TargetType : string;
  cv_TargetID : string;
  cv_Value : Z
}.

Record CreateCommentRequest : Type := mkCreateCommentRequest {
  cc_StoryID : string;
  cc_ParentID : string;
  cc_Text : string
}.

(** The values these handlers encode as JSON. *)
Inductive data : Type :=
| ErrorResponse (Error : string) (RetryAfter : Z)
| HideResponse (OK : bool)
| CreateVoteResponse (OK : bool)
| CreateCommentResponse (ID : string)
| StoryJSON (story : Story.t).

(** What a handler leaves on the wire: the [Retry-After] header if it set
    one, the status and the JSON value. *)
Record Response : Type := mkResponse {
  Header_Retry_After : option string;
  status : Z;
  body : data
}.

Definition writeJSON (status : Z) (d : data) : Response :=
  mkResponse None status d.

Definition writeError (status : Z) (message : string) : Response :=
  writeJSON status (ErrorResponse message 0).

Definition StatusTooManyRequests : Z := 429.

Definition writeRateLimited (std : Std) (retryAfter : Z) : Response :=
  mkResponse (Some (string_of_rune std retryAfter)) StatusTooManyRequests
    (ErrorResponse "rate limit exceeded" retryAfter).

(** A handler runs on the world and leaves a response. *)
Definition H : Type := World -> Response * World.

Definition done (r : Response) : H := fun w => (r, w).

(** A statement on the content tables, its error handled. *)
Definition attempt {A : Type} (m : MC A) (onErr : error -> Response)
  (k : A -> H) : H :=
  fun w =>
    match m (w_content w) with
    | (Ok a, c) => k a (mkWorld (w_db w) c (w_limiter w))
    | (Err err, c) => (onErr err, mkWorld (w_db w) c (w_limiter w))
    end.

(** A statement on the content tables as a Go statement: its error is
    dropped. *)
Definition exec {A : Type} (m : MC A) (k : H) : H :=
  fun w => k (mkWorld (w_db w) (snd (m (w_content w))) (w_limiter w)).

(** A call on the four tables of [DB]. *)
Definition attempt_db {A : Type} (m : M A) (onErr : error -> Response)
  (k : A -> H) : H :=
  fun w =>
    match m (w_db w) with
    | (Ok a, db) => k a (mkWorld db (w_content w) (w_limiter w))
    | (Err err, db) => (onErr err, mkWorld db (w_content w) (w_limiter w))
    end.

(** [strings.Split(s, ",")[0]]: what stands before the first comma. *)
Fixpoint before_comma (s : string) : string :=
  match s with
  | EmptyString => ""
  | String c s' =>
      if Ascii.eqb c ","%char then "" else String c (before_comma s')
  end.

(** [strings.LastIndex(s, ":")], [None] for -1. *)
Fixpoint LastIndex_colon (s : string) : option nat :=
  match s with
  | EmptyString => None
  | String c s' =>
      match LastIndex_colon s' with
      | Some i => Some (S i)
      | None => if Ascii.eqb c ":"%char then Some 0%nat else None
      end
  end.

Section Handlers.

Variable lib : Lib.
Variable std : Std.
Variable cfg : config.Config.

Definition getClientIP {B : Type} (r : Request B) : string :=
  let xff := Header_X_Forwarded_For r in
  if xff != "" then strings_TrimSpace std (before_comma xff)
  else
    let xri := Header_X_Real_IP r in
    if xri != "" then xri
    else
      let addr := RemoteAddr r in
      match LastIndex_colon addr with
      | Some idx => substring 0 idx addr
      | None => addr
      end.

(** The key [checkRateLimit] hands to the limiter. *)
Definition rateLimitKey {B : Type} (r : Request B) (action : string) : string :=
  let ip := getClientIP r in
  let agentID := api.getAgentID (base r) in
  let key := String.append action (String.append ":" ip) in
  if agentID != "" then String.append key (String.append ":" agentID)
  else key.

(** [checkRateLimit]; [Allow] and [RetryAfter] each read the clock, the
    second not before the first. *)
Definition checkRateLimit {B : Type} (allow_now retry_now : Time)
  (r : Request B) (action : string) (limit : Z) (l : ratelimit.MemoryLimiter)
  : (bool * Z) * ratelimit.MemoryLimiter :=
  let key := rateLimitKey r action in
  let (allowed, l1) :=
    ratelimit.Allow allow_now key limit (config.RateLimitWindow cfg) l in
  if negb allowed then
    ((false,
      Duration_Seconds_int std
        (ratelimit.RetryAfter retry_now key (config.RateLimitWindow cfg) l1)),
     l1)
  else ((true, 0), l1).

(** The rate limit check at the head of a handler. *)
Definition rateLimited {B : Type} (allow_now retry_now : Time) (r : Request B)
  (action : string) (limit : Z) (k : H) : H :=
  fun w =>
    match checkRateLimit allow_now retry_now r action limit (w_limiter w) with
    | ((false, retryAfter), l) =>
        (writeRateLimited std retryAfter, mkWorld (w_db w) (w_content w) l)
    | ((true, _), l) => k (mkWorld (w_db w) (w_content w) l)
    end.

Definition isAdmin {B : Type} (r : Request B) : bool :=
  let secret := Header_X_Admin_Secret r in
  (config.AdminSecret cfg != "") && (secret == config.AdminSecret cfg).

(** [GetAuthFromContext] *)
Definition GetAuthFromContext (ctx : Context) : string * bool * string :=
  (match Value_agent_id ctx with Some v => v | None => "" end,
   match Value_verified ctx with Some v => v | None => false end,
   match Value_account_id ctx with Some v => v | None => "" end).

(** [RequireAuth] *)
Definition RequireAuth {B : Type} (e : Env) (next : Request B -> H)
  : Request B -> H :=
  fun r =>
    attempt_db (api.validateToken e (base r))
      (fun _ => writeError api.StatusUnauthorized "authentication required")
      (fun token =>
         match token with
         | None =>
             done (writeError api.StatusUnauthorized "authentication required")
         | Some token =>
             let ctx := Context_ r in
             let ctx :=
               mkContext (Some (Token.AgentID token)) (Value_verified ctx)
                 (Value_account_id ctx) in
             let ctx :=
               mkContext (Value_agent_id ctx) (Some true)
                 (Value_account_id ctx) in
             let ctx :=
               if Token.AccountID token != "" then
                 mkContext (Value_agent_id ctx) (Value_verified ctx)
                   (Some (Token.AccountID token))
               else ctx in
             next (WithContext r ctx)
         end).

(** [OptionalAuth]; the error of [validateToken] is dropped. *)
Definition OptionalAuth {B : Type} (e : Env) (next : Request B -> H)
  : Request B -> H :=
  fun r w =>
    let ctx := Context_ r in
    let (res, db) := api.validateToken e (base r) (w_db w) in
    let w := mkWorld db (w_content w) (w_limiter w) in
    let token := match res with Ok token => token | Err _ => None end in
    let ctx :=
      match token with
      | Some token =>
          let ctx :=
            mkContext (Some (Token.AgentID token)) (Value_verified ctx)
              (Value_account_id ctx) in
          let ctx :=
            mkContext (Value_agent_id ctx) (Some true)
              (Value_account_id ctx) in
          if Token.AccountID token != "" then
            mkContext (Value_agent_id ctx) (Value_verified ctx)
              (Some (Token.AccountID token))
          else ctx
      | None =>
          let agentID := api.Header_X_Agent_Id (base r) in
          if agentID != "" then
            let ctx :=
              mkContext (Some agentID) (Value_verified ctx)
                (Value_account_id ctx) in
            mkContext (Value_agent_id ctx) (Some false)
              (Value_account_id ctx)
          else ctx
      end in
    next (WithContext r ctx) w.

(** [Hide] handles POST /api/admin/hide *)
Definition Hide (r : Request HideRequest) : H :=
  if negb (isAdmin r) then
    done (writeError api.StatusUnauthorized "admin authentication required")
  else
    match api.Body (base r) with
    | None => done (writeError api.StatusBadRequest "invalid JSON")
    | Some req =>
        if (hr_TargetType req != "story") && (hr_TargetType req != "comment")
        then
          done (writeError api.StatusBadRequest
                  "target_type must be 'story' or 'comment'")
        else if hr_TargetID req == "" then
          done (writeError api.StatusBadRequest "target_id is required")
        else if hr_TargetType req == "story" then
          attempt (store_content.GetStory std (hr_TargetID req))
            (fun _ =>
               writeError api.StatusInternalServerError "database error")
            (fun story =>
               match story with
               | None =>
                   done (writeError api.StatusNotFound "story not found")
               | Some _ =>
                   attempt (store_content.HideStory (hr_TargetID req))
                     (fun _ =>
                        writeError api.StatusInternalServerError
                          "failed to hide content")
                     (fun _ =>
                        done (writeJSON api.StatusOK (HideResponse true)))
               end)
        else
          attempt (store_content.GetComment (hr_TargetID req))
            (fun _ =>
               writeError api.StatusInternalServerError "database error")
            (fun comment =>
               match comment with
               | None =>
                   done (writeError api.StatusNotFound "comment not found")
               | Some _ =>
                   attempt (store_content.HideComment (hr_TargetID req))
                     (fun _ =>
                        writeError api.StatusInternalServerError
                          "failed to hide content")
                     (fun _ =>
                        done (writeJSON api.StatusOK (HideResponse true)))
               end)
    end.

(** [GetStory] handles GET /api/stories/{id} *)
Definition GetStory (r : Request unit) : H :=
  let id := api.PathValue_id (base r) in
  if id == "" then done (writeError api.StatusBadRequest "story id required")
  else
    attempt (store_content.GetStory std id)
      (fun _ => writeError api.StatusInternalServerError "database error")
      (fun story =>
         match story with
         | None => done (writeError api.StatusNotFound "story not found")
         | Some story => done (writeJSON api.StatusOK (StoryJSON story))
         end).

(** The part of [CreateVote] after the target was found: the vote of the
    caller is looked up, then updated or created, and the score follows. *)
Definition recordVote (e : Env) (r : Request CreateVoteRequest)
  (req : CreateVoteRequest) (agentID : string) (agentVerified : bool) : H :=
  let ipHash := HashIP lib (getClientIP r) in
  attempt
    (store_content.GetVote std (cv_TargetType req) (cv_TargetID req) ipHash
       agentID)
    (fun _ => writeError api.StatusInternalServerError "database error")
    (fun existingVote =>
       match existingVote with
       | Some existingVote =>
           if negb (Vote.Value existingVote =? cv_Value req) then
             attempt
               (store_content.UpdateVote (Vote.ID existingVote) (cv_Value req))
               (fun _ =>
                  writeError api.StatusInternalServerError
                    "failed to update vote")
               (fun _ =>
                  let delta :=
                    wrapInt (cv_Value req - Vote.Value existingVote) in
                  exec
                    (if cv_TargetType req == "story" then
                       store_content.UpdateStoryScore (cv_TargetID req) delta
                     else
                       store_content.UpdateCommentScore (cv_TargetID req)
                         delta)
                    (done (writeJSON api.StatusOK (CreateVoteResponse true))))
           else done (writeJSON api.StatusOK (CreateVoteResponse true))
       | None =>
           attempt
             (store_content.CreateVote (uuid_New e 0) (time_Now e)
                (Vote.mk "" (cv_TargetType req) (cv_TargetID req)
                   (cv_Value req) zeroTime ipHash agentID agentVerified))
             (fun _ =>
                writeError api.StatusInternalServerError
                  "failed to create vote")
             (fun _ =>
                exec
                  (if cv_TargetType req == "story" then
                     store_content.UpdateStoryScore (cv_TargetID req)
                       (cv_Value req)
                   else
                     store_content.UpdateCommentScore (cv_TargetID req)
                       (cv_Value req))
                  (done (writeJSON api.StatusOK (CreateVoteResponse true))))
       end).

(** [CreateVote] handles POST /api/votes *)
Definition CreateVote (e : Env) (allow_now retry_now : Time)
  (r : Request CreateVoteRequest) : H :=
  rateLimited allow_now retry_now r "vote" (config.VoteRateLimit cfg)
    match api.Body (base r) with
    | None => done (writeError api.StatusBadRequest "invalid JSON")
    | Some req =>
        if (cv_TargetType req != "story") && (cv_TargetType req != "comment")
        then
          done (writeError api.StatusBadRequest
                  "target_type must be 'story' or 'comment'")
        else if negb (cv_Value req =? 1) && negb (cv_Value req =? -1) then
          done (writeError api.StatusBadRequest "value must be 1 or -1")
        else
          let '(agentID, agentVerified, _) :=
            GetAuthFromContext (Context_ r) in
          if cv_TargetType req == "story" then
            attempt (store_content.GetStory std (cv_TargetID req))
              (fun _ =>
                 writeError api.StatusInternalServerError "database error")
              (fun story =>
                 match story with
                 | None =>
                     done (writeError api.StatusNotFound "story not found")
                 | Some story =>
                     if (Story.AgentID story != "")
                        && (Story.AgentID story == agentID) then
                       done (writeError api.StatusForbidden
                               "cannot vote on your own content")
                     else recordVote e r req agentID agentVerified
                 end)
          else
            attempt (store_content.GetComment (cv_TargetID req))
              (fun _ =>
                 writeError api.StatusInternalServerError "database error")
              (fun comment =>
                 match comment with
                 | None =>
                     done (writeError api.StatusNotFound "comment not found")
                 | Some comment =>
                     if (Comment.AgentID comment != "")
                        && (Comment.AgentID comment == agentID) then
                       done (writeError api.StatusForbidden
                               "cannot vote on your own content")
                     else recordVote e r req agentID agentVerified
                 end)
    end.

(** The part of [CreateComment] after the story and the parent were
    checked. *)
Definition insertComment (e : Env) (r : Request CreateCommentRequest)
  (req : CreateCommentRequest) : H :=
  let '(agentID, agentVerified, _) := GetAuthFromContext (Context_ r) in
  attempt
    (store_content.CreateComment (uuid_New e 0) (time_Now e)
       (Comment.mk "" (cc_StoryID req) (cc_ParentID req) (cc_Text req) 0
          zeroTime false agentID agentVerified []))
    (fun _ =>
       writeError api.StatusInternalServerError "failed to create comment")
    (fun comment =>
       exec (store_content.UpdateStoryCommentCount (cc_StoryID req) 1)
         (done (writeJSON api.StatusCreated
                  (CreateCommentResponse (Comment.ID comment))))).

(** [CreateComment] handles POST /api/comments *)
Definition CreateComment (e : Env) (allow_now retry_now : Time)
  (r : Request CreateCommentRequest) : H :=
  rateLimited allow_now retry_now r "comment" (config.CommentRateLimit cfg)
    match api.Body (base r) with
    | None => done (writeError api.StatusBadRequest "invalid JSON")
    | Some req =>
        if cc_StoryID req == "" then
          done (writeError api.StatusBadRequest "story_id is required")
        else if cc_Text req == "" then
          done (writeError api.StatusBadRequest "text is required")
        else
          attempt (store_content.GetStory std (cc_StoryID req))
            (fun _ =>
               writeError api.StatusInternalServerError "database error")
            (fun story =>
               match story with
               | None =>
                   done (writeError api.StatusNotFound "story not found")
               | Some _ =>
                   if cc_ParentID req != "" then
                     attempt (store_content.GetComment (cc_ParentID req))
                       (fun _ =>
                          writeError api.StatusInternalServerError
                            "database error")
                       (fun parent =>
                          match parent with
                          | None =>
                              done (writeError api.StatusNotFound
                                      "parent comment not found")
                          | Some parent =>
                              if Comment.StoryID parent != cc_StoryID req then
                                done (writeError api.StatusBadRequest
                                        "parent comment is from a different story")
                              else insertComment e r req
                          end)
                   else insertComment e r req
               end)
    end.

End Handlers.

End api_content.

(** ** Vocabulary of the properties of the content side *)

Definition Zsum (l : list Z) : Z := fold_right Z.add 0 l.

(** The score the table of the target type holds under the id. *)
Definition target_score (c : Content) (targetType targetID : string) : Z :=
  if targetType == "story" then
    Zsum (map stories.score
            (filter (fun r => stories.id r == targetID) (tbl_stories c)))
  else
    Zsum (map comments.score
            (filter (fun r => comments.id r == targetID) (tbl_comments c))).

(** The sum of the votes on the target. *)
Definition votes_sum (c : Content) (targetType targetID : string) : Z :=
  Zsum (map votes.value
          (filter
             (fun r =>
                (votes.target_type r == targetType)
                && (votes.target_id r == targetID))
             (tbl_votes c))).

(** The primary keys of the three tables. *)
Definition content_keys (c : Content) : Prop :=
  NoDup (map stories.id (tbl_stories c))
  /\ NoDup (map comments.id (tbl_comments c))
  /\ NoDup (map votes.id (tbl_votes c)).

(** Every vote is an upvote or a downvote. *)
Definition votes_valued (c : Content) : Prop :=
  forall r, In r (tbl_votes c) -> votes.value r = 1 \/ votes.value r = -1.

(** The row [QueryRow] scans is one of the rows that satisfy the query. *)
Definition first_row_ok (std : Std) : Prop :=
  forall rows,
    match first_row std rows with
    | Some r => In r rows
    | None => rows = []
    end.

(** The number of comments stored under the story. *)
Definition comments_of (c : Content) (storyID : string) : Z :=
  Z.of_nat
    (List.length
       (filter (fun r => comments.story_id r == storyID) (tbl_comments c))).

(** The comment counters the table of stories holds under the id. *)
Definition comment_count_of (c : Content) (storyID : string) : Z :=
  Zsum (map stories.comment_count
          (filter (fun r => stories.id r == storyID) (tbl_stories c))).

(** Every reply stands after its parent in the table, and under the same
    story. *)
Definition replies_follow_parents (c : Content) : Prop :=
  forall before r after p,
    tbl_comments c = before ++ r :: after ->
    comments.parent_id r = Some p ->
    exists q,
      In q before /\ comments.id q = p
      /\ comments.story_id q = comments.story_id r.

(** A pointer is reachable from the roots through [Children]. *)
Inductive reachable (roots : list nat) (heap : list Comment.t) : nat -> Prop :=
| reachable_root (i : nat) : In i roots -> reachable roots heap i
| reachable_child (p i : nat) (c : Comment.t) :
    reachable roots heap p ->
    nth_error heap p = Some c ->
    In i (Comment.Children c) ->
    reachable roots heap i.

(** The update of the score at the end of [recordVote]. *)
Definition updateScore (targetType targetID : string) (delta : Z) : MC unit :=
  if targetType == "story" then store_content.UpdateStoryScore targetID delta
  else store_content.UpdateCommentScore targetID delta.

(** A row of the target's table stands under the id. *)
Definition target_present (c : Content) (targetType targetID : string) : Prop :=
  if targetType == "story" then
    exists r, In r (tbl_stories c) /\ stories.id r = targetID
  else exists r, In r (tbl_comments c) /\ comments.id r = targetID.

(** The target of the vote is there, not hidden, and not the caller's own:
    the checks of [CreateVote] between the validation of the body and
    [recordVote]. *)
Definition vote_target_ok (std : Std) (c : Content)
  (req : api_content.CreateVoteRequest) (agentID : string) : Prop :=
  (api_content.cv_TargetType req = "story"
   /\ exists story,
        fst (store_content.GetStory std (api_content.cv_TargetID req) c)
        = Ok (Some story)
        /\ (Story.AgentID story != "") && (Story.AgentID story == agentID)
           = false)
  \/ (api_content.cv_TargetType req = "comment"
      /\ exists comment,
           fst (store_content.GetComment (api_content.cv_TargetID req) c)
           = Ok (Some comment)
           /\ (Comment.AgentID comment != "")
              && (Comment.AgentID comment == agentID)
              = false).

(** The comment with [more] appended to its [Children]. *)
Definition addChildren (c : Comment.t) (more : list nat) : Comment.t :=
  Comment.mk (Comment.ID c) (Comment.StoryID c) (Comment.ParentID c)
    (Comment.Text c) (Comment.Score c) (Comment.CreatedAt c)
    (Comment.Hidden c) (Comment.AgentID c) (Comment.AgentVerified c)
    (Comment.Children c ++ more).

(** The children [buildCommentTree] hangs under the pointer [p]: the
    positions of the comments that name a parent [byID] finds at [p]. *)
Definition isChildOf (comments : list Comment.t) (p : nat)
  (ic : nat * Comment.t) : bool :=
  (Comment.ParentID (snd ic) != "")
  && match store_content.byID comments (Comment.ParentID (snd ic)) with
     | Some q => Nat.eqb q p
     | None => false
     end.

Definition children_of (comments : list Comment.t) (p : nat) : list nat :=
  map fst
    (filter (isChildOf comments p)
       (combine (seq 0 (List.length comments)) comments)).

(** The positions of the comments without a parent. *)
Definition roots_of (comments : list Comment.t) : list nat :=
  map fst
    (filter (fun ic => Comment.ParentID (snd ic) == "")
       (combine (seq 0 (List.length comments)) comments)).

(** The story is withheld: the table has no row of it that is not hidden. *)
Definition story_withheld (c : Content) (id : string) : Prop :=
  forall r, In r (tbl_stories c) -> stories.id r = id -> stories.hidden r <> 0.

(** The comment is in the table and withheld. *)
Definition comment_withheld (c : Content) (id : string) : Prop :=
  In id (map comments.id (tbl_comments c))
  /\ forall r,
       In r (tbl_comments c) -> comments.id r = id -> comments.hidden r <> 0.

(** ** The routes of the content side

    [main] registers [Hide] and [GetStory] as they are, and [CreateVote] and
    [CreateComment] either as they are or behind [RequireAuth]. *)

(** A handler behind [RequireAuth] ([Some e], with what the middleware reads
    from outside) or as it is. *)
Definition guarded {B : Type} (mw : option Env)
  (next : api_content.Request B -> api_content.H)
  : api_content.Request B -> api_content.H :=
  match mw with
  | Some e => api_content.RequireAuth e next
  | None => next
  end.

Inductive ContentOp : Type :=
| OpHide (r : api_content.Request api_content.HideRequest)
| OpGetStory (r : api_content.Request unit)
| OpCreateVote (mw : option Env) (e : Env) (allow_now retry_now : Time)
    (r : api_content.Request api_content.CreateVoteRequest)
| OpCreateComment (mw : option Env) (e : Env) (allow_now retry_now : Time)
    (r : api_content.Request api_content.CreateCommentRequest).

Definition serve (lib : Lib) (std : Std) (cfg : config.Config)
  (op : ContentOp) : api_content.H :=
  match op with
  | OpHide r => api_content.Hide std cfg r
  | OpGetStory r => api_content.GetStory std r
  | OpCreateVote mw e allow_now retry_now r =>
      guarded mw (api_content.CreateVote lib std cfg e allow_now retry_now) r
  | OpCreateComment mw e allow_now retry_now r =>
      guarded mw (api_content.CreateComment std cfg e allow_now retry_now) r
  end.

(** The world after the requests were served one after the other. *)
Fixpoint serve_all (lib : Lib) (std : Std) (cfg : config.Config)
  (ops : list ContentOp) (w : World) : World :=
  match ops with
  | [] => w
  | op :: ops' => serve_all lib std cfg ops' (snd (serve lib std cfg op w))
  end.

(** What one request of these routes does to the content tables: nothing,
    one of the two hidings, a vote changed or created with the score moved
    after it, or a comment created with the counter moved after it. *)
Inductive content_step (c : Content) : Content -> Prop :=
| step_none : content_step c c
| step_HideStory (id : string) :
    content_step c (snd (store_content.HideStory id c))
| step_HideComment (id : string) :
    content_step c (snd (store_content.HideComment id c))
| step_revote (ty id : string) (v : Z) (row : votes.row) :
    ty = "story" \/ ty = "comment" ->
    v = 1 \/ v = -1 ->
    target_present c ty id ->
    In row (tbl_votes c) ->
    votes.target_type row = ty ->
    votes.target_id row = id ->
    content_step c
      (snd (updateScore ty id (wrapInt (v - votes.value row))
              (snd (store_content.UpdateVote (votes.id row) v c))))
| step_vote (uuid : string) (now : Time) (vote vote' : Vote.t)
    (c1 : Content) :
    Vote.TargetType vote = "story" \/ Vote.TargetType vote = "comment" ->
    Vote.Value vote = 1 \/ Vote.Value vote = -1 ->
    target_present c (Vote.TargetType vote) (Vote.TargetID vote) ->
    store_content.CreateVote uuid now vote c = (Ok vote', c1) ->
    content_step c
      (snd (updateScore (Vote.TargetType vote) (Vote.TargetID vote)
              (Vote.Value vote) c1))
| step_comment (uuid : string) (now : Time) (comment comment' : Comment.t)
    (c1 : Content) :
    Comment.Score comment = 0 ->
    Comment.Hidden comment = false ->
    (Comment.ParentID comment <> "" ->
     exists q,
       In q (tbl_comments c)
       /\ comments.id q = Comment.ParentID comment
       /\ comments.story_id q = Comment.StoryID comment) ->
    store_content.CreateComment uuid now comment c = (Ok comment', c1) ->
    content_step c
      (snd (store_content.UpdateStoryCommentCount (Comment.StoryID comment) 1
              c1)).

(** ** A site for the examples *)

Module ExampleSite.

(** The library on the inputs of the examples: no tags, no blanks to trim,
    whole seconds, one-digit numbers, and the first of the rows. *)
Definition std : Std :=
  mkStd (fun _ => []) (fun s => s) (fun d => Z.quot d Second)
    (fun n => String (ascii_of_N (Z.to_N n)) "")
    (fun rows => hd_error rows).

(** The defaults of [config.Load], with an admin secret. *)
Definition cfg : config.Config :=
  config.mkConfig 8080 "0.0.0.0" "http://localhost:8080" "s3cret"
    "slashclaw.db" 10 60 120 (3600 * Second) (300 * Second) (86400 * Second)
    (2592000 * Second).

(** A story of agent one with a comment of agent two under it, and a
    story that was hidden. *)
Definition content : Content :=
  mkContent
    [ stories.mk "s1" "A first story" (Some "https://example.org/") None None
        0 1 (2000 * Second) 0 (Some "agent-1") 1;
      stories.mk "s2" "A hidden story" None (Some "text") None 0 0
        (2001 * Second) 1 (Some "agent-2") 0 ]
    [ comments.mk "m1" "s1" None "A comment" 0 (2002 * Second) 0
        (Some "agent-2") 1 ]
    [].

Definition world : World :=
  mkWorld Example.registered content ratelimit.NewMemoryLimiter.

(** A request from [addr] under the bearer token [bearer], whose context
    names [agent], verified. *)
Definition from {B : Type} (addr agent bearer secret : string) (body : B)
  : api_content.Request B :=
  api_content.mkRequest (Example.post agent bearer "" "" body) "" "" secret
    addr (api_content.mkContext (Some agent) (Some true) None).

Definition vote (value : Z)
  : api_content.Request api_content.CreateVoteRequest :=
  from "10.0.0.9:4711" "agent-2" "" ""
    (api_content.mkCreateVoteRequest "story" "s1" value).

(** Agent one, signed in with its second key, replies to the comment. *)
Definition reply : api_content.Request api_content.CreateCommentRequest :=
  from "10.0.0.7:4711" "" (Example.drawn x17) ""
    (api_content.mkCreateCommentRequest "s1" "m1" "A reply").

Definition hide : api_content.Request api_content.HideRequest :=
  from "10.0.0.1:4711" "" "" "s3cret" (api_content.mkHideRequest "story" "s1").

Definition read : api_content.Request unit :=
  api_content.mkRequest (Example.post "" "" "s1" "" tt) "" "" ""
    "10.0.0.9:4711" api_content.Background.

(** A vote, a reply behind [RequireAuth], the vote turned, the story read,
    hidden, and read again. *)
Definition requests : list ContentOp :=
  [ OpCreateVote None (Example.env 2010 x20 "v") (2010 * Second)
      (2010 * Second) (vote 1);
    OpCreateComment (Some (Example.env 2011 x21 "g"))
      (Example.env 2011 x21 "m") (2011 * Second) (2011 * Second) reply;
    OpCreateVote None (Example.env 2012 x22 "w") (2012 * Second)
      (2012 * Second) (vote (-1));
    OpGetStory read;
    OpHide hide;
    OpGetStory read ].

(** Four comments as [ListComments] scans them: a root, its reply, a reply
    to a comment that is not among them, and a reply to that reply. *)
Definition thread : list Comment.t :=
  [ Comment.mk "m1" "s1" "" "root" 0 (2002 * Second) false "agent-2" true [];
    Comment.mk "m2" "s1" "m1" "reply" 0 (2003 * Second) false "agent-1" true
      [];
    Comment.mk "m4" "s1" "m3" "orphan" 0 (2005 * Second) false "agent-1" true
      [];
    Comment.mk "m5" "s1" "m4" "below" 0 (2006 * Second) false "agent-2" true
      [] ].

End ExampleSite.

(** * Properties *)

(** ** Time as SQLite compares it *)

Lemma Second_pos : 0 < Second.
Proof. reflexivity. Qed.

(** A stored expiry text is later than [datetime('now')] exactly when the
    clock is before the instant the text names. *)
Lemma sqlite_unexpired_iff (expires_at : Z) (now : Time) :
  (expires_at >? sqliteFormat now) = true <-> now < sqliteParse expires_at.
Proof.
  unfold sqliteFormat, sqliteParse.
  rewrite Z.gtb_lt.
  pose proof Second_pos as HS.
  split; intro H0.
  - destruct (Z.lt_ge_cases now (expires_at * Second)) as [Hlt | Hge]; trivial.
    exfalso.
    assert (expires_at <= now / Second)
      by (apply Z.div_le_lower_bound; lia).
    lia.
  - apply Z.div_lt_upper_bound; lia.
Qed.

Lemma sqlite_expired_iff (expires_at : Z) (now : Time) :
  (expires_at >? sqliteFormat now) = false <-> sqliteParse expires_at <= now.
Proof.
  pose proof (sqlite_unexpired_iff expires_at now) as [H1 H2].
  destruct (expires_at >? sqliteFormat now) eqn:E; split; intro H0;
    try discriminate; try reflexivity.
  - specialize (H1 eq_refl). lia.
  - destruct (Z.lt_ge_cases now (sqliteParse expires_at)) as [Hlt | Hge];
      [ specialize (H2 Hlt); discriminate | lia ].
Qed.

(** ** Tokens: validation is the expiry-aware lookup *)

Lemma ValidateToken_eq (e : Env) (tokenStr : string) (db : DB) :
  auth.ValidateToken e tokenStr db =
  (Ok (option_map store.scanToken
         (find (token_live tokenStr (sqlite_now e)) (tbl_tokens db))),
   db).
Proof. reflexivity. Qed.

Lemma token_live_iff (tokenStr : string) (now : Time) (r : tokens.row) :
  token_live tokenStr now r = true <->
  tokens.token r = tokenStr /\ now < sqliteParse (tokens.expires_at r).
Proof.
  unfold token_live.
  rewrite andb_true_iff, String.eqb_eq, sqlite_unexpired_iff.
  reflexivity.
Qed.

(** C3.  [ValidateToken] never fails and never writes.  It returns a token
    exactly when the table holds a row with that token string whose
    [expires_at] the clock has not reached, and the token it returns is that
    row: the token string asked for, with the id, the account (empty for
    [NULL]), the key, the agent and the expiry of the row.  In every other
    case (unknown string, or expired) the result is [nil] without an error.
    Nothing but the row's existence and its expiry enters the answer. *)
Theorem C3_ValidateToken_lookup :
  forall (e : Env) (tokenStr : string) (db : DB),
    snd (auth.ValidateToken e tokenStr db) = db
    /\ (forall err, fst (auth.ValidateToken e tokenStr db) <> Err err)
    /\ (forall t,
          fst (auth.ValidateToken e tokenStr db) = Ok (Some t) ->
          exists r,
            In r (tbl_tokens db) /\ tokens.token r = tokenStr
            /\ sqlite_now e < sqliteParse (tokens.expires_at r)
            /\ t = Token.mk (tokens.id r)
                     (match tokens.account_id r with
                      | Some a => a
                      | None => ""
                      end)
                     (tokens.key_id r) (tokens.agent_id r) tokenStr
                     (sqliteParse (tokens.expires_at r)))
    /\ ((exists r,
           In r (tbl_tokens db) /\ tokens.token r = tokenStr
           /\ sqlite_now e < sqliteParse (tokens.expires_at r)) ->
        exists t, fst (auth.ValidateToken e tokenStr db) = Ok (Some t))
    /\ (~ (exists r,
             In r (tbl_tokens db) /\ tokens.token r = tokenStr
             /\ sqlite_now e < sqliteParse (tokens.expires_at r)) ->
        fst (auth.ValidateToken e tokenStr db) = Ok None).
Proof.
  intros e tokenStr db.
  rewrite ValidateToken_eq; cbn [fst snd].
  destruct (find (token_live tokenStr (sqlite_now e)) (tbl_tokens db))
    as [r |] eqn:Hfind; cbn [option_map].
  - apply find_some in Hfind as [Hin Hlive].
    apply token_live_iff in Hlive as [Htok Hexp].
    split; [reflexivity |]. split; [discriminate |].
    split; [| split].
    + intros t Ht. injection Ht as <-. exists r.
      split; [exact Hin |]. split; [exact Htok |]. split; [exact Hexp |].
      unfold store.scanToken, store.NullString_String. rewrite Htok.
      destruct (tokens.account_id r); reflexivity.
    + intros _. eexists. reflexivity.
    + intros Hnone. exfalso. apply Hnone. exists r. auto.
  - split; [reflexivity |]. split; [discriminate |].
    split; [| split].
    + intros t Ht. discriminate.
    + intros (r & Hin & Htok & Hexp). exfalso.
      pose proof (find_none _ _ Hfind r Hin) as Hdead.
      assert (token_live tokenStr (sqlite_now e) r = true)
        by (apply token_live_iff; auto).
      congruence.
    + reflexivity.
Qed.

(** In [Example.registered] the first token of agent one, bound to the key
    "a3" of the account "a2", expires at second 87403: before that second
    [ValidateToken] returns it as the table holds it, and at that second it
    returns [nil]. *)
Lemma C3_ValidateToken_lookup_witness :
  let db := Example.registered in
  (exists r,
      In r (tbl_tokens db) /\ tokens.token r = Example.drawn x13
      /\ sqlite_now (Example.env 1010 x1c "v")
         < sqliteParse (tokens.expires_at r)
      /\ Token.mk "t10" "a2" "a3" "agent-1" (Example.drawn x13)
           (sqliteParse 87403)
         = Token.mk (tokens.id r)
             (match tokens.account_id r with
              | Some a => a
              | None => ""
              end)
             (tokens.key_id r) (tokens.agent_id r) (Example.drawn x13)
             (sqliteParse (tokens.expires_at r)))
  /\ fst (auth.ValidateToken (Example.env 87403 x1c "v") (Example.drawn x13)
            db)
     = Ok None.
Proof.
  cbv zeta. split.
  - destruct (C3_ValidateToken_lookup (Example.env 1010 x1c "v")
                (Example.drawn x13) Example.registered)
      as (_ & _ & Hsome & _).
    apply Hsome. vm_compute. reflexivity.
  - destruct (C3_ValidateToken_lookup (Example.env 87403 x1c "v")
                (Example.drawn x13) Example.registered)
      as (_ & _ & _ & _ & Hnone).
    apply Hnone. intros (r & Hin & Htok & Hexp).
    vm_compute in Hin.
    destruct Hin as [<- | [<- | [<- | [<- | []]]]];
      vm_compute in Htok, Hexp; discriminate.
Defined.

(** ** Challenges: the lookup of [VerifyAndCreateToken] *)

Lemma challenge_live_iff (challengeStr : string) (now : Time)
  (r : challenges.row) :
  challenge_live challengeStr now r = true <->
  challenges.challenge r = challengeStr
  /\ now < sqliteParse (challenges.expires_at r).
Proof.
  unfold challenge_live.
  rewrite andb_true_iff, String.eqb_eq, sqlite_unexpired_iff.
  reflexivity.
Qed.

Section VerifySteps.

Variable lib : Lib.
Variable s : auth.Service.
Variable e : Env.
Variables agentID alg publicKey challengeStr signature : string.
Variable db : DB.

(** No live row under the challenge string: [ErrChallengeNotFound], and the
    database is as before. *)
Lemma verify_not_found :
  find (challenge_live challengeStr (sqlite_now e)) (tbl_challenges db) = None ->
  auth.VerifyAndCreateToken lib s e agentID alg publicKey challengeStr
    signature db
  = (Err ErrChallengeNotFound, db).
Proof.
  intro Hfind.
  unfold auth.VerifyAndCreateToken, bind, store.GetChallenge.
  fold (challenge_live challengeStr (sqlite_now e)).
  rewrite Hfind. reflexivity.
Qed.

(** A live row that Go's clock has passed: [ErrChallengeExpired]. *)
Lemma verify_expired (r : challenges.row) :
  find (challenge_live challengeStr (sqlite_now e)) (tbl_challenges db)
  = Some r ->
  After (time_Now e) (sqliteParse (challenges.expires_at r)) = true ->
  auth.VerifyAndCreateToken lib s e agentID alg publicKey challengeStr
    signature db
  = (Err ErrChallengeExpired, db).
Proof.
  intros Hfind Hafter.
  unfold auth.VerifyAndCreateToken, bind, store.GetChallenge.
  fold (challenge_live challengeStr (sqlite_now e)).
  rewrite Hfind. cbn. rewrite Hafter. reflexivity.
Qed.

(** A live row created for another agent or algorithm:
    [ErrChallengeNotFound]. *)
Lemma verify_mismatch (r : challenges.row) :
  find (challenge_live challengeStr (sqlite_now e)) (tbl_challenges db)
  = Some r ->
  After (time_Now e) (sqliteParse (challenges.expires_at r)) = false ->
  (challenges.agent_id r != agentID) || (challenges.algorithm r != alg) = true ->
  auth.VerifyAndCreateToken lib s e agentID alg publicKey challengeStr
    signature db
  = (Err ErrChallengeNotFound, db).
Proof.
  intros Hfind Hafter Hmis.
  unfold auth.VerifyAndCreateToken, bind, store.GetChallenge.
  fold (challenge_live challengeStr (sqlite_now e)).
  rewrite Hfind. cbn. rewrite Hafter, Hmis. reflexivity.
Qed.

(** A live, matching row: the outcome is the verifier's, and only an
    accepted signature goes on to consume the challenge. *)
Lemma verify_rejected (r : challenges.row) (err : error) :
  find (challenge_live challengeStr (sqlite_now e)) (tbl_challenges db)
  = Some r ->
  After (time_Now e) (sqliteParse (challenges.expires_at r)) = false ->
  (challenges.agent_id r != agentID) || (challenges.algorithm r != alg) = false ->
  auth.verifySignature lib alg publicKey challengeStr signature = Err err ->
  auth.VerifyAndCreateToken lib s e agentID alg publicKey challengeStr
    signature db
  = (Err err, db).
Proof.
  intros Hfind Hafter Hmis Hsig.
  unfold auth.VerifyAndCreateToken, bind, store.GetChallenge.
  fold (challenge_live challengeStr (sqlite_now e)).
  rewrite Hfind. cbn. rewrite Hafter, Hmis, Hsig. reflexivity.
Qed.

Lemma verify_wrong_signature (r : challenges.row) :
  find (challenge_live challengeStr (sqlite_now e)) (tbl_challenges db)
  = Some r ->
  After (time_Now e) (sqliteParse (challenges.expires_at r)) = false ->
  (challenges.agent_id r != agentID) || (challenges.algorithm r != alg) = false ->
  auth.verifySignature lib alg publicKey challengeStr signature = Ok false ->
  auth.VerifyAndCreateToken lib s e agentID alg publicKey challengeStr
    signature db
  = (Err ErrInvalidSignature, db).
Proof.
  intros Hfind Hafter Hmis Hsig.
  unfold auth.VerifyAndCreateToken, bind, store.GetChallenge.
  fold (challenge_live challengeStr (sqlite_now e)).
  rewrite Hfind. cbn. rewrite Hafter, Hmis, Hsig. reflexivity.
Qed.

End VerifySteps.

(** C4.  When every row stored under the challenge string has its
    [expires_at] in the past, by the clock of the lookup or by the clock of
    the Go check after it, [VerifyAndCreateToken] fails with
    [ErrChallengeNotFound] (the lookup left the row out) or with
    [ErrChallengeExpired] (the lookup still saw it, the check did not pass);
    it issues no token and leaves the database as it was. *)
Theorem C4_expired_challenge_never_verifies :
  forall (lib : Lib) (s : auth.Service) (e : Env)
         (agentID alg publicKey challengeStr signature : string) (db : DB),
    (forall r,
        In r (tbl_challenges db) ->
        challenges.challenge r = challengeStr ->
        sqliteParse (challenges.expires_at r) < sqlite_now e
        \/ sqliteParse (challenges.expires_at r) < time_Now e) ->
    (fst (auth.VerifyAndCreateToken lib s e agentID alg publicKey challengeStr
            signature db) = Err ErrChallengeNotFound
     \/ fst (auth.VerifyAndCreateToken lib s e agentID alg publicKey
               challengeStr signature db) = Err ErrChallengeExpired)
    /\ snd (auth.VerifyAndCreateToken lib s e agentID alg publicKey
              challengeStr signature db) = db.
Proof.
  intros lib s e agentID alg publicKey challengeStr signature db Hpast.
  destruct (find (challenge_live challengeStr (sqlite_now e))
              (tbl_challenges db)) as [r |] eqn:Hfind.
  - pose proof (find_some _ _ Hfind) as [Hin Hlive].
    apply challenge_live_iff in Hlive as [Hstr Hnow].
    destruct (Hpast r Hin Hstr) as [Hsql | Hgo]; [lia |].
    rewrite (verify_expired lib s e agentID alg publicKey challengeStr
               signature db r Hfind).
    + cbn. auto.
    + unfold After. apply Z.ltb_lt. exact Hgo.
  - rewrite (verify_not_found lib s e agentID alg publicKey challengeStr
               signature db Hfind).
    cbn. auto.
Qed.

Lemma C4_expired_challenge_never_verifies_witness :
  (fst (auth.VerifyAndCreateToken Example.lib Example.svc
          (Example.env 2000 x1b "t") "agent-2" "ed25519" Example.pk1
          (Example.drawn x18) (Example.sign (Example.drawn x18))
          Example.challenged) = Err ErrChallengeNotFound
   \/ fst (auth.VerifyAndCreateToken Example.lib Example.svc
             (Example.env 2000 x1b "t") "agent-2" "ed25519" Example.pk1
             (Example.drawn x18) (Example.sign (Example.drawn x18))
             Example.challenged) = Err ErrChallengeExpired)
  /\ snd (auth.VerifyAndCreateToken Example.lib Example.svc
            (Example.env 2000 x1b "t") "agent-2" "ed25519" Example.pk1
            (Example.drawn x18) (Example.sign (Example.drawn x18))
            Example.challenged) = Example.challenged.
Proof.
  apply C4_expired_challenge_never_verifies.
  intros r Hin Hstr.
  vm_compute in Hin.
  destruct Hin as [<- | [<- | []]].
  - left. vm_compute. reflexivity.
  - vm_compute in Hstr. discriminate.
Defined.

(** Both failures of C4 occur.  In [Example.challenged] the challenge of
    agent two expires at second 1308.  At second 1307 it verifies; read by
    SQLite just before second 1308 and by Go just after, it is
    [ErrChallengeExpired]; from second 1308 on it is [ErrChallengeNotFound]. *)
Example expired_challenge_outcomes :
  let verify sqlite go :=
    fst (auth.VerifyAndCreateToken Example.lib Example.svc
           (mkEnv sqlite go (Ok (repeat x1b 32)) (fun _ => "t"))
           "agent-2" "ed25519" Example.pk1 (Example.drawn x18)
           (Example.sign (Example.drawn x18)) Example.challenged) in
  (exists token, verify (1307 * Second) (1307 * Second) = Ok token)
  /\ verify (1308 * Second - 1) (1308 * Second + 1) = Err ErrChallengeExpired
  /\ verify (1308 * Second) (1308 * Second) = Err ErrChallengeNotFound.
Proof.
  cbv zeta. split; [| split].
  - eexists. vm_compute. reflexivity.
  - vm_compute. reflexivity.
  - vm_compute. reflexivity.
Qed.

(** ** The verifier *)

(** C5.  The secp256k1 case of [verifySignature] is a stub: the algorithm is
    accepted by [isValidAlgorithm], so challenges are issued for it, but for
    every library, key, message and signature the verifier returns the error
    "secp256k1 not yet implemented"; no EIP-191 digest is formed and no
    signature is ever found valid. *)
Theorem C5_secp256k1_verifier_is_a_stub :
  forall (lib : Lib) (publicKeyStr message signatureStr : string),
    auth.isValidAlgorithm auth.AlgSecp256k1 = true
    /\ auth.verifySignature lib auth.AlgSecp256k1 publicKeyStr message
         signatureStr
       = Err (errorString "secp256k1 not yet implemented").
Proof.
  intros. split; reflexivity.
Qed.

(** C1, at the algorithm the source leaves out.  With the algorithm
    secp256k1, which [CreateChallenge] accepts, [VerifyAndCreateToken]
    returns an error for every library, database, environment, agent, key,
    challenge string and signature, and leaves the database as it was: no
    signature makes it succeed even once, and the challenge is not
    consumed. *)
Theorem C1_secp256k1_never_issues_a_token :
  forall (lib : Lib) (s : auth.Service) (e : Env)
         (agentID publicKey challengeStr signature : string) (db : DB),
    auth.isValidAlgorithm auth.AlgSecp256k1 = true
    /\ (exists err,
          fst (auth.VerifyAndCreateToken lib s e agentID auth.AlgSecp256k1
                 publicKey challengeStr signature db) = Err err)
    /\ snd (auth.VerifyAndCreateToken lib s e agentID auth.AlgSecp256k1
              publicKey challengeStr signature db) = db.
Proof.
  intros lib s e agentID publicKey challengeStr signature db.
  split; [reflexivity |].
  destruct (find (challenge_live challengeStr (sqlite_now e))
              (tbl_challenges db)) as [r |] eqn:Hfind.
  - destruct (After (time_Now e) (sqliteParse (challenges.expires_at r)))
      eqn:Hafter.
    + rewrite (verify_expired lib s e agentID auth.AlgSecp256k1 publicKey
                 challengeStr signature db r Hfind Hafter).
      cbn. eauto.
    + destruct ((challenges.agent_id r != agentID)
                || (challenges.algorithm r != auth.AlgSecp256k1)) eqn:Hmis.
      * rewrite (verify_mismatch lib s e agentID auth.AlgSecp256k1 publicKey
                   challengeStr signature db r Hfind Hafter Hmis).
        cbn. eauto.
      * rewrite (verify_rejected lib s e agentID auth.AlgSecp256k1 publicKey
                   challengeStr signature db r
                   (errorString "secp256k1 not yet implemented")
                   Hfind Hafter Hmis eq_refl).
        cbn. eauto.
  - rewrite (verify_not_found lib s e agentID auth.AlgSecp256k1 publicKey
               challengeStr signature db Hfind).
    cbn. eauto.
Qed.

(** The failing run.  A challenge is issued to agent "a1" for secp256k1;
    whatever key and signature come with it, the verification answers with
    the stub's error and the challenge row stays, so a repeat answers the
    same, not [ErrChallengeNotFound]. *)
Example secp256k1_challenge_issued_never_verified :
  let issued :=
    auth.CreateChallenge Example.svc (Example.env 1000 x10 "c") "a1"
      "secp256k1" emptyDB in
  fst issued
  = Ok (Challenge.mk "c0" "a1" "secp256k1" (Example.drawn x10) (1300 * Second))
  /\ (forall lib publicKey signature,
        auth.VerifyAndCreateToken lib Example.svc (Example.env 1001 x11 "t")
          "a1" "secp256k1" publicKey (Example.drawn x10) signature (snd issued)
        = (Err (errorString "secp256k1 not yet implemented"), snd issued)).
Proof.
  cbv zeta. split; [vm_compute; reflexivity |].
  intros lib publicKey signature.
  apply (verify_rejected lib Example.svc (Example.env 1001 x11 "t") "a1"
           "secp256k1" publicKey (Example.drawn x10) signature _
           (challenges.mk "c0" "a1" "secp256k1" (Example.drawn x10) 1300));
    vm_compute; reflexivity.
Qed.


(** C6, as the code has it.  Under ed25519, rsa-pss and rsa-sha256, with a
    public key that decodes, a signature string that is not standard base64
    makes the verifier fail with [ErrInvalidSignature]: the one signature
    error of the package, which [VerifyAndCreateToken] also returns when the
    verifier answers [false] on a well-encoded signature
    ([verify_wrong_signature]). *)
Theorem C6_malformed_signature_is_ErrInvalidSignature :
  forall (lib : Lib) (alg publicKeyStr message signatureStr : string),
    publicKey_wellformed lib alg publicKeyStr ->
    base64.StdEncoding_DecodeString signatureStr = None ->
    auth.verifySignature lib alg publicKeyStr message signatureStr
    = Err ErrInvalidSignature.
Proof.
  intros lib alg publicKeyStr message signatureStr Hkey Hsig.
  destruct Hkey as [[-> (bs & Hdec & Hlen)] | [[-> | ->] (k & Hparse)]].
  - cbn. unfold auth.verifyEd25519.
    rewrite Hdec, Hlen, Hsig. reflexivity.
  - cbn. unfold auth.verifyRSAPSS.
    rewrite Hparse, Hsig. reflexivity.
  - cbn. unfold auth.verifyRSASHA256.
    rewrite Hparse, Hsig. reflexivity.
Qed.

Lemma C6_malformed_signature_witness :
  auth.verifySignature Example.lib "ed25519" Example.pk1 "challenge" "!!!"
  = Err ErrInvalidSignature.
Proof.
  apply C6_malformed_signature_is_ErrInvalidSignature.
  - left. split; [reflexivity |].
    exists (repeat x01 32). split; vm_compute; reflexivity.
  - vm_compute. reflexivity.
Defined.

(** The claim of a separate encoding error fails at the signature ["!!!"]:
    it is not base64, the key is a well-formed Ed25519 key, and the error is
    [ErrInvalidSignature] itself, whatever the library. *)
Lemma C6_no_separate_encoding_error :
  base64.StdEncoding_DecodeString "!!!" = None
  /\ (forall lib : Lib,
        auth.verifySignature lib "ed25519" Example.pk1 "challenge" "!!!"
        = Err ErrInvalidSignature).
Proof.
  split.
  - vm_compute. reflexivity.
  - intro lib. vm_compute. reflexivity.
Qed.

(** ** Revocation *)

Lemma RevokeAccountKey_eq (now : Time) (id : string) (db : DB) :
  store.RevokeAccountKey now id db =
  (Ok tt,
   mkDB (tbl_accounts db) (map (revoke_row now id) (tbl_account_keys db))
     (tbl_challenges db) (tbl_tokens db)).
Proof. reflexivity. Qed.

Lemma revoke_row_spec (now : Time) (id : string) (r : account_keys.row) :
  key_columns (revoke_row now id r) = key_columns r
  /\ (account_keys.id r <> id -> revoke_row now id r = r)
  /\ (account_keys.id r = id ->
      account_keys.revoked_at (revoke_row now id r) = Some now).
Proof.
  unfold revoke_row.
  destruct (account_keys.id r == id) eqn:E.
  - apply String.eqb_eq in E.
    split; [reflexivity | split; [congruence | reflexivity]].
  - apply String.eqb_neq in E.
    split; [reflexivity | split; [reflexivity | congruence]].
Qed.

Lemma Forall2_map_r {A B : Type} (R : A -> B -> Prop) (f : A -> B) (l : list A) :
  (forall x, In x l -> R x (f x)) -> Forall2 R l (map f l).
Proof.
  induction l as [| x l IH]; intro HR; cbn.
  - constructor.
  - constructor.
    + apply HR. left. reflexivity.
    + apply IH. intros y Hy. apply HR. right. exact Hy.
Qed.

(** C9.  [RevokeAccountKey] succeeds and touches one column of one table:
    accounts, challenges and tokens are as before; the key rows keep their
    order and every column but [revoked_at]; a row with another id is
    unchanged, and a row with the target id has [revoked_at] set.  After it,
    [GetAccountKeyByPublicKey] never returns the target key, and
    [ValidateToken] answers as before for every token string and clock: the
    tokens issued under the key still validate. *)
Theorem C9_RevokeAccountKey_frame :
  forall (now : Time) (id : string) (db : DB),
    let db' := snd (store.RevokeAccountKey now id db) in
    fst (store.RevokeAccountKey now id db) = Ok tt
    /\ tbl_accounts db' = tbl_accounts db
    /\ tbl_challenges db' = tbl_challenges db
    /\ tbl_tokens db' = tbl_tokens db
    /\ Forall2
         (fun r r' =>
            key_columns r' = key_columns r
            /\ (account_keys.id r <> id -> r' = r)
            /\ (account_keys.id r = id -> account_keys.revoked_at r' = Some now))
         (tbl_account_keys db) (tbl_account_keys db')
    /\ (forall alg publicKey key,
          fst (store.GetAccountKeyByPublicKey alg publicKey db') = Ok (Some key) ->
          AccountKey.ID key <> id)
    /\ (forall e tokenStr,
          fst (auth.ValidateToken e tokenStr db')
          = fst (auth.ValidateToken e tokenStr db)).
Proof.
  intros now id db db'.
  subst db'. rewrite RevokeAccountKey_eq. cbn [fst snd].
  cbn [tbl_accounts tbl_challenges tbl_tokens tbl_account_keys].
  repeat split.
  - apply Forall2_map_r. intros r _. apply revoke_row_spec.
  - intros alg publicKey key. unfold store.GetAccountKeyByPublicKey.
    cbn [fst tbl_account_keys].
    match goal with
    | |- context [find ?p ?l] => destruct (find p l) as [r' |] eqn:Hfind
    end; cbn [option_map]; [| discriminate].
    intro Hkey. injection Hkey as <-.
    apply find_some in Hfind as [Hin Hp].
    apply in_map_iff in Hin as (r & <- & _).
    apply andb_true_iff in Hp as [_ Hnull].
    cbn [store.scanAccountKey AccountKey.ID].
    destruct (revoke_row_spec now id r) as (Hcols & _ & Hset).
    intro Hid.
    assert (account_keys.id r = id) as Hr.
    { unfold key_columns in Hcols. congruence. }
    rewrite (Hset Hr) in Hnull. discriminate.
Qed.

(** ** The bearer token and the key of a request *)

Lemma validateToken_pure {B : Type} (e : Env) (r : api.Request B) (db : DB) :
  snd (api.validateToken e r db) = db.
Proof.
  unfold api.validateToken.
  destruct (api.getToken r == ""); reflexivity.
Qed.

Lemma validateToken_run {B : Type} (e : Env) (r : api.Request B) (db : DB)
  (v : result (option Token.t)) :
  fst (api.validateToken e r db) = v -> api.validateToken e r db = (v, db).
Proof.
  intro Hv.
  pose proof (validateToken_pure e r db) as Hdb.
  destruct (api.validateToken e r db) as [v' db']. cbn in *. congruence.
Qed.

Lemma GetAccountKey_id (id : string) (db : DB) (key : AccountKey.t) :
  fst (store.GetAccountKey id db) = Ok (Some key) -> AccountKey.ID key = id.
Proof.
  unfold store.GetAccountKey.
  destruct (find (fun r => account_keys.id r == id) (tbl_account_keys db))
    as [r |] eqn:Hfind; cbn [fst]; [| discriminate].
  intro Hkey. injection Hkey as <-.
  apply find_some in Hfind as [_ Hid].
  apply String.eqb_eq in Hid. exact Hid.
Qed.

(** A branch of a handler that answers with an error and returns. *)
Ltac answered :=
  cbn [api.done fst snd api.status_of api.writeError];
  split; [reflexivity | split; [discriminate |]].

(** ** What each call writes

    [writes R f]: a run of [f] takes every database to one related to it by
    [R].  For a reflexive and transitive [R] the property goes through the
    sequencing of calls, so it is enough to know it of the store's calls. *)

Section Writes.

Variable R : DB -> DB -> Prop.
Hypothesis R_refl : forall db, R db db.
Hypothesis R_trans : forall db1 db2 db3, R db1 db2 -> R db2 db3 -> R db1 db3.

Lemma writes_ret {A : Type} (a : A) : writes R (ret a).
Proof. intro db. apply R_refl. Qed.

Lemma writes_throw {A : Type} (err : error) : writes R (@throw A err).
Proof. intro db. apply R_refl. Qed.

Lemma writes_bind {A B : Type} (m : M A) (k : A -> M B) :
  writes R m -> (forall a, writes R (k a)) -> writes R (bind m k).
Proof.
  intros Hm Hk db. unfold bind.
  specialize (Hm db).
  destruct (m db) as [[a | err] db1]; cbn [snd] in *.
  - eapply R_trans; [exact Hm | apply Hk].
  - exact Hm.
Qed.

Lemma writes_discard {A : Type} (m : M A) : writes R m -> writes R (discard m).
Proof. intros Hm db. apply Hm. Qed.

Lemma writes_done (r : api.Response) : writes R (api.done r).
Proof. intro db. apply R_refl. Qed.

Lemma writes_attempt {A : Type} (m : M A) (onErr : error -> api.Response)
  (k : A -> api.H) :
  writes R m -> (forall a, writes R (k a)) -> writes R (api.attempt m onErr k).
Proof.
  intros Hm Hk db. unfold api.attempt.
  specialize (Hm db).
  destruct (m db) as [[a | err] db1]; cbn [snd] in *.
  - eapply R_trans; [exact Hm | apply Hk].
  - exact Hm.
Qed.

End Writes.

(** One step of a proof of [writes]: through the sequencing, or by cases on
    the [match] or [if] at the head, or by a fact about a call of the store
    from the hint database [writes]. *)
Create HintDb writes.

Ltac writes_step :=
  cbv zeta;
  match goal with
  | |- writes _ (ret _) => apply writes_ret; assumption
  | |- writes _ (throw _) => apply writes_throw; assumption
  | |- writes _ (api.done _) => apply writes_done; assumption
  | |- writes _ (discard _) => apply writes_discard
  | |- writes _ (bind _ _) => apply writes_bind; [assumption | | intro]
  | |- writes _ (api.attempt _ _ _) =>
      apply writes_attempt; [assumption | | intro]
  | |- writes _ (match ?x with _ => _ end) => destruct x
  | |- writes _ _ => solve [auto with writes]
  end.

Ltac writes_auto := repeat writes_step.

Lemma same_registry_refl (db : DB) : same_registry db db.
Proof. split; reflexivity. Qed.

Lemma same_registry_trans (db1 db2 db3 : DB) :
  same_registry db1 db2 -> same_registry db2 db3 -> same_registry db1 db3.
Proof. unfold same_registry. intros [] []. split; congruence. Qed.

Section RegistryFrames.

Variable R : DB -> DB -> Prop.
Hypothesis R_refl : forall db, R db db.
Hypothesis R_trans : forall db1 db2 db3, R db1 db2 -> R db2 db3 -> R db1 db3.
Hypothesis R_same : forall db db', same_registry db db' -> R db db'.

Lemma writes_GetChallenge (now : Time) (challengeStr : string) :
  writes R (store.GetChallenge now challengeStr).
Proof. intro db. apply R_refl. Qed.

Lemma writes_GetToken (now : Time) (tokenStr : string) :
  writes R (store.GetToken now tokenStr).
Proof. intro db. apply R_refl. Qed.

Lemma writes_GetAccountKeyByPublicKey (alg publicKey : string) :
  writes R (store.GetAccountKeyByPublicKey alg publicKey).
Proof. intro db. apply R_refl. Qed.

Lemma writes_GetAccountKey (id : string) : writes R (store.GetAccountKey id).
Proof.
  intro db. unfold store.GetAccountKey.
  destruct (find _ _); apply R_refl.
Qed.

Lemma writes_GetAccount (id : string) : writes R (store.GetAccount id).
Proof.
  intro db. unfold store.GetAccount.
  destruct (find _ _); apply R_refl.
Qed.

Lemma writes_DeleteChallenge (id : string) :
  writes R (store.DeleteChallenge id).
Proof. intro db. apply R_same. split; reflexivity. Qed.

Lemma writes_CreateChallenge (uuid : string) (challenge : Challenge.t) :
  writes R (store.CreateChallenge uuid challenge).
Proof.
  intro db. unfold store.CreateChallenge.
  repeat match goal with
         | |- context [if ?b then _ else _] => destruct b
         end; cbn [snd];
    first [apply R_refl | apply R_same; split; reflexivity].
Qed.

Lemma writes_CreateToken (uuid : string) (token : Token.t) :
  writes R (store.CreateToken uuid token).
Proof.
  intro db. unfold store.CreateToken.
  repeat match goal with
         | |- context [if ?b then _ else _] => destruct b
         end; cbn [snd];
    first [apply R_refl | apply R_same; split; reflexivity].
Qed.

Lemma writes_ValidateToken (e : Env) (tokenStr : string) :
  writes R (auth.ValidateToken e tokenStr).
Proof. intro db. apply R_refl. Qed.

Lemma writes_validateToken {B : Type} (e : Env) (r : api.Request B) :
  writes R (api.validateToken e r).
Proof.
  intro db. rewrite validateToken_pure. apply R_refl.
Qed.

#[local] Hint Resolve writes_GetChallenge writes_GetToken
  writes_GetAccountKeyByPublicKey writes_GetAccountKey writes_GetAccount
  writes_DeleteChallenge writes_CreateChallenge writes_CreateToken
  writes_ValidateToken writes_validateToken : writes.

Lemma writes_auth_CreateChallenge (s : auth.Service) (e : Env)
  (agentID alg : string) :
  writes R (auth.CreateChallenge s e agentID alg).
Proof.
  unfold auth.CreateChallenge. writes_auto.
Qed.

Lemma writes_VerifyAndCreateToken (lib : Lib) (s : auth.Service) (e : Env)
  (agentID alg publicKey challengeStr signature : string) :
  writes R
    (auth.VerifyAndCreateToken lib s e agentID alg publicKey challengeStr
       signature).
Proof.
  unfold auth.VerifyAndCreateToken. writes_auto.
Qed.

#[local] Hint Resolve writes_auth_CreateChallenge
  writes_VerifyAndCreateToken : writes.

(** The three calls of the store that write to accounts and keys. *)
Hypothesis R_CreateAccount :
  forall uuid now account, writes R (store.CreateAccount uuid now account).
Hypothesis R_CreateAccountKey :
  forall uuid now key, writes R (store.CreateAccountKey uuid now key).
Hypothesis R_RevokeAccountKey :
  forall now id, writes R (store.RevokeAccountKey now id).

Variable lib : Lib.
Variable h : api.Handler.

Lemma writes_api_CreateAccount (e : Env)
  (r : api.Request api.CreateAccountRequest) :
  writes R (api.CreateAccount lib h e r).
Proof. unfold api.CreateAccount. writes_auto. Qed.

Lemma writes_api_AddAccountKey (e : Env) (r : api.Request api.AddKeyRequest) :
  writes R (api.AddAccountKey lib h e r).
Proof. unfold api.AddAccountKey. writes_auto. Qed.

Lemma writes_api_DeleteAccountKey (e : Env) (r : api.Request unit) :
  writes R (api.DeleteAccountKey e r).
Proof. unfold api.DeleteAccountKey. writes_auto. Qed.

Lemma step_related (op : Op) (db : DB) : R db (step lib h op db).
Proof.
  destruct op; cbn [step].
  - apply writes_auth_CreateChallenge.
  - apply writes_VerifyAndCreateToken.
  - apply writes_api_CreateAccount.
  - apply writes_api_AddAccountKey.
  - apply writes_api_DeleteAccountKey.
  - apply R_CreateAccount.
  - apply R_CreateAccountKey.
  - apply R_RevokeAccountKey.
Qed.

Lemma run_related (ops : list Op) (db : DB) : R db (run lib h ops db).
Proof.
  revert db. induction ops as [| op ops IH]; intro db; cbn [run fold_left].
  - apply R_refl.
  - eapply R_trans; [apply step_related | apply IH].
Qed.

End RegistryFrames.

(** ** Uniqueness of key pairs *)

Lemma existsb_pair_false (alg publicKey : string) (l : list account_keys.row) :
  existsb
    (fun r =>
       (account_keys.algorithm r == alg) && (account_keys.public_key r == publicKey))
    l = false ->
  ~ In (alg, publicKey) (map key_pair l).
Proof.
  intros Hex Hin.
  apply in_map_iff in Hin as (r & Hpair & Hin).
  assert (existsb
            (fun r =>
               (account_keys.algorithm r == alg)
               && (account_keys.public_key r == publicKey)) l = true) as Htrue.
  { apply existsb_exists. exists r. split; [exact Hin |].
    unfold key_pair in Hpair. injection Hpair as -> ->.
    rewrite !String.eqb_refl. reflexivity. }
  congruence.
Qed.

Lemma NoDup_snoc {A : Type} (l : list A) (x : A) :
  NoDup l -> ~ In x l -> NoDup (l ++ [x]).
Proof.
  intros Hl Hx. apply NoDup_app.
  - exact Hl.
  - constructor; [intros [] | constructor].
  - intros a Ha [<- | []]. contradiction.
Qed.

(** Uniqueness over the whole table gives uniqueness among the active
    rows. *)
Lemma active_pairs_unique (keys : list account_keys.row) :
  NoDup (map key_pair keys) -> NoDup (map key_pair (filter active keys)).
Proof.
  intro Hall.
  induction keys as [| k keys IH]; cbn [filter map]; [constructor |].
  cbn [map] in Hall. apply NoDup_cons_iff in Hall as [Hfresh Hrest].
  destruct (active k); cbn [map]; [| exact (IH Hrest)].
  apply NoDup_cons; [| exact (IH Hrest)].
  intro Hin. apply Hfresh.
  apply in_map_iff in Hin as (k' & Hpair & Hin).
  apply filter_In in Hin as [Hin _].
  apply in_map_iff. exists k'. split; assumption.
Qed.

Lemma keeps_refl (db : DB) : keeps_keys_unique db db.
Proof. intro H. exact H. Qed.

Lemma keeps_trans (db1 db2 db3 : DB) :
  keeps_keys_unique db1 db2 -> keeps_keys_unique db2 db3 ->
  keeps_keys_unique db1 db3.
Proof. unfold keeps_keys_unique. auto. Qed.

Lemma keeps_same (db db' : DB) :
  same_registry db db' -> keeps_keys_unique db db'.
Proof.
  intros [_ Hkeys] H. unfold keys_unique in *. rewrite Hkeys. exact H.
Qed.

Lemma keeps_CreateAccount (uuid : string) (now : Time) (account : Account.t) :
  writes keeps_keys_unique (store.CreateAccount uuid now account).
Proof.
  intros db H. unfold store.CreateAccount.
  destruct (existsb _ _); exact H.
Qed.

Lemma keeps_CreateAccountKey (uuid : string) (now : Time) (key : AccountKey.t) :
  writes keeps_keys_unique (store.CreateAccountKey uuid now key).
Proof.
  intros db H. unfold store.CreateAccountKey.
  destruct (existsb _ (tbl_account_keys db)); [exact H |].
  destruct (existsb _ (tbl_account_keys db)) eqn:Hpair; [exact H |].
  destruct (negb _); [exact H |].
  cbn [snd]. unfold keys_unique. cbn [tbl_account_keys].
  rewrite map_app. cbn [map key_pair account_keys.algorithm
                          account_keys.public_key].
  apply NoDup_snoc; [exact H |].
  apply existsb_pair_false. exact Hpair.
Qed.

Lemma key_pair_revoke_row (now : Time) (id : string) (l : list account_keys.row) :
  map key_pair (map (revoke_row now id) l) = map key_pair l.
Proof.
  rewrite map_map. apply map_ext. intro r.
  unfold revoke_row. destruct (account_keys.id r == id); reflexivity.
Qed.

Lemma keeps_RevokeAccountKey (now : Time) (id : string) :
  writes keeps_keys_unique (store.RevokeAccountKey now id).
Proof.
  intros db H. rewrite RevokeAccountKey_eq.
  unfold keys_unique. cbn [snd tbl_account_keys].
  rewrite key_pair_revoke_row. exact H.
Qed.

(** The constraint holds after every sequence of operations on a database
    on which it holds. *)
Lemma run_keys_unique (lib : Lib) (h : api.Handler) (ops : list Op) (db : DB) :
  keys_unique db -> keys_unique (run lib h ops db).
Proof.
  apply (run_related keeps_keys_unique keeps_refl keeps_trans keeps_same
           keeps_CreateAccount keeps_CreateAccountKey keeps_RevokeAccountKey).
Qed.

Lemma emptyDB_keys_unique : keys_unique emptyDB.
Proof. constructor. Qed.

(** ** Registering a pair that is bound *)

Lemma bound_lookup (db : DB) (alg publicKey : string) :
  bound db alg publicKey <->
  exists key,
    store.GetAccountKeyByPublicKey alg publicKey db = (Ok (Some key), db).
Proof.
  unfold bound, store.GetAccountKeyByPublicKey.
  match goal with
  | |- context [find ?p ?l] => destruct (find p l) as [r |] eqn:Hfind
  end; cbn [option_map].
  - split; [intros _; eexists; reflexivity |].
    intros _. apply find_some in Hfind as [Hin Hp].
    apply andb_true_iff in Hp as [Hp Hnull].
    apply andb_true_iff in Hp as [Halg Hpk].
    apply String.eqb_eq in Halg, Hpk.
    exists r. unfold active, key_pair. repeat split; congruence.
  - split; [| intros [key Hkey]; discriminate].
    intros (r & Hin & Hact & Hpair). exfalso.
    pose proof (find_none _ _ Hfind r Hin) as Hp. cbv beta in Hp.
    unfold key_pair in Hpair. injection Hpair as Halg Hpk.
    unfold active in Hact.
    rewrite Halg, Hpk, !String.eqb_refl, Hact in Hp. discriminate.
Qed.

Lemma bound_same_registry (db db' : DB) (alg publicKey : string) :
  same_registry db db' -> bound db alg publicKey -> bound db' alg publicKey.
Proof.
  intros [_ Hkeys] (r & Hin & H). exists r. rewrite Hkeys. auto.
Qed.

Lemma eqb_empty_false (s : string) : s <> "" -> (s == "") = false.
Proof. intro H. apply String.eqb_neq. exact H. Qed.

Lemma CreateAccount_conflict (lib : Lib) (h : api.Handler) (e : Env)
  (r : api.Request api.CreateAccountRequest) (alg publicKey : string)
  (db db1 : DB) :
  bound db alg publicKey ->
  create_account_verified lib h e r alg publicKey db db1 ->
  api.CreateAccount lib h e r db
  = (api.writeError api.StatusConflict
       "public key is already registered to an account",
     db1).
Proof.
  intros Hbound (req & token & Hbody & <- & <- & Hname & Halg & Hpk & Hsig
                 & Hch & Hverify).
  assert (same_registry db db1) as Hsame.
  { pose proof (writes_VerifyAndCreateToken same_registry same_registry_refl
                  same_registry_trans (fun _ _ H => H) lib (api.h_auth h) e
                  (if api.getAgentID r == "" then api.ca_DisplayName req
                   else api.getAgentID r)
                  (api.ca_Algorithm req) (api.ca_PublicKey req)
                  (api.ca_Challenge req) (api.ca_Signature req) db) as Hw.
    rewrite Hverify in Hw. exact Hw. }
  apply (bound_same_registry _ _ _ _ Hsame) in Hbound.
  apply bound_lookup in Hbound as [key Hkey].
  unfold api.CreateAccount.
  rewrite Hbody.
  rewrite (eqb_empty_false _ Hname), (eqb_empty_false _ Halg),
    (eqb_empty_false _ Hpk), (eqb_empty_false _ Hsig), (eqb_empty_false _ Hch).
  cbv zeta. cbn [orb].
  unfold api.attempt at 1. rewrite Hverify.
  unfold api.attempt at 1. rewrite Hkey.
  reflexivity.
Qed.

Lemma AddAccountKey_conflict (lib : Lib) (h : api.Handler) (e : Env)
  (r : api.Request api.AddKeyRequest) (alg publicKey : string)
  (db db1 : DB) :
  bound db alg publicKey ->
  add_key_verified lib h e r alg publicKey db db1 ->
  api.AddAccountKey lib h e r db
  = (api.writeError api.StatusConflict "public key is already registered",
     db1).
Proof.
  intros Hbound (account & bearer & req & token & Hid & Haccount & Hbearer
                 & Howner & Hbody & <- & <- & Halg & Hpk & Hsig & Hch
                 & Hverify).
  assert (same_registry db db1) as Hsame.
  { pose proof (writes_VerifyAndCreateToken same_registry same_registry_refl
                  same_registry_trans (fun _ _ H => H) lib (api.h_auth h) e
                  (Token.AgentID bearer)
                  (api.ak_Algorithm req) (api.ak_PublicKey req)
                  (api.ak_Challenge req) (api.ak_Signature req) db) as Hw.
    rewrite Hverify in Hw. exact Hw. }
  apply (bound_same_registry _ _ _ _ Hsame) in Hbound.
  apply bound_lookup in Hbound as [key Hkey].
  apply validateToken_run in Hbearer.
  assert (store.GetAccount (api.PathValue_id r) db = (Ok (Some account), db))
    as Hget.
  { unfold store.GetAccount in *. destruct (find _ _); cbn [fst] in Haccount;
      congruence. }
  unfold api.AddAccountKey.
  rewrite (eqb_empty_false _ Hid). cbv zeta.
  unfold api.attempt at 1. rewrite Hget.
  unfold api.attempt at 1. rewrite Hbearer.
  rewrite Howner, String.eqb_refl. cbn [negb].
  rewrite Hbody.
  rewrite (eqb_empty_false _ Halg),
    (eqb_empty_false _ Hpk), (eqb_empty_false _ Hsig), (eqb_empty_false _ Hch).
  cbn [orb].
  unfold api.attempt at 1. rewrite Hverify.
  unfold api.attempt at 1. rewrite Hkey.
  reflexivity.
Qed.

(** ** The two inserts of [CreateAccount] *)

Lemma CreateAccountKey_error_keeps (uuid : string) (now : Time)
  (key : AccountKey.t) (db db' : DB) (err : error) :
  store.CreateAccountKey uuid now key db = (Err err, db') -> db' = db.
Proof.
  unfold store.CreateAccountKey.
  repeat match goal with
         | |- context [if ?b then _ else _] => destruct b
         end; congruence.
Qed.

Lemma CreateAccount_error_keeps (uuid : string) (now : Time)
  (account : Account.t) (db db' : DB) (err : error) :
  store.CreateAccount uuid now account db = (Err err, db') -> db' = db.
Proof.
  unfold store.CreateAccount.
  repeat match goal with
         | |- context [if ?b then _ else _] => destruct b
         end; congruence.
Qed.

Ltac rejected :=
  apply Rejected;
  [ first [apply same_registry_refl | assumption]
  | cbv; discriminate
  | cbv; discriminate ].

Lemma CreateAccount_outcome (lib : Lib) (h : api.Handler) (e : Env)
  (r : api.Request api.CreateAccountRequest) (db : DB) :
  CreateAccountOutcome lib h e r db (api.CreateAccount lib h e r db).
Proof.
  unfold api.CreateAccount.
  destruct (api.Body r) as [req |] eqn:Hbody; [| rejected].
  destruct (api.ca_DisplayName req == ""); [rejected |].
  destruct ((api.ca_PublicKey req == "") || (api.ca_Algorithm req == "")
            || (api.ca_Signature req == "") || (api.ca_Challenge req == ""));
    [rejected |].
  cbv zeta. unfold api.attempt at 1.
  match goal with
  | |- context [auth.VerifyAndCreateToken lib ?s e ?a ?alg ?pk ?c ?sg db] =>
      pose proof (writes_VerifyAndCreateToken same_registry
                    same_registry_refl same_registry_trans (fun _ _ H => H)
                    lib s e a alg pk c sg db) as Hsame;
      destruct (auth.VerifyAndCreateToken lib s e a alg pk c sg db)
        as [[token | err] db1]
  end; cbn [snd] in Hsame.
  2:{ destruct err; rejected. }
  unfold api.attempt at 1.
  unfold store.GetAccountKeyByPublicKey at 1.
  destruct (option_map store.scanAccountKey _) as [existingKey |] eqn:Hlookup;
    [rejected |].
  assert (~ bound db1 (api.ca_Algorithm req) (api.ca_PublicKey req)) as Hfree.
  { intro Hb. apply bound_lookup in Hb as [key Hkey].
    unfold store.GetAccountKeyByPublicKey in Hkey.
    rewrite Hlookup in Hkey. discriminate Hkey. }
  unfold api.attempt at 1.
  destruct (store.CreateAccount _ _ _ db1) as [[account | err] db2] eqn:Hacc.
  2:{ apply CreateAccount_error_keeps in Hacc as ->. rejected. }
  unfold api.attempt at 1.
  destruct (store.CreateAccountKey _ _ _ db2) as [[key | err] db3] eqn:Hkey.
  - eapply Created; eassumption.
  - pose proof (CreateAccountKey_error_keeps _ _ _ _ _ _ Hkey) as ->.
    eapply KeyInsertFailed; eassumption.
Qed.

Lemma find_snoc_fresh {A : Type} (p : A -> bool) (l : list A) (x : A) :
  (forall y, In y l -> p y = false) -> p x = true ->
  find p (l ++ [x]) = Some x.
Proof.
  intros Hl Hx. induction l as [| y l IH]; cbn.
  - rewrite Hx. reflexivity.
  - rewrite (Hl y (or_introl eq_refl)). apply IH.
    intros z Hz. apply Hl. right. exact Hz.
Qed.

Lemma existsb_false_all {A : Type} (p : A -> bool) (l : list A) :
  existsb p l = false -> forall y, In y l -> p y = false.
Proof.
  intros Hex y Hy. destruct (p y) eqn:Hp; [| reflexivity].
  assert (existsb p l = true) by (apply existsb_exists; eauto).
  congruence.
Qed.

(** A successful insert of an account appends one row, findable by its id,
    and leaves the keys alone. *)
Lemma CreateAccount_ok (uuid : string) (now : Time) (account account' : Account.t)
  (db db' : DB) :
  store.CreateAccount uuid now account db = (Ok account', db') ->
  exists row,
    tbl_accounts db' = tbl_accounts db ++ [row]
    /\ tbl_account_keys db' = tbl_account_keys db
    /\ accounts.id row = Account.ID account'
    /\ fst (store.GetAccount (accounts.id row) db')
       = Ok (Some (store.scanAccount row)).
Proof.
  unfold store.CreateAccount.
  destruct (existsb _ _) eqn:Hdup; [discriminate |].
  intro Hok. injection Hok as <- <-.
  eexists. cbn [tbl_accounts tbl_account_keys accounts.id Account.ID].
  split; [reflexivity | split; [reflexivity | split; [reflexivity |]]].
  unfold store.GetAccount. cbn [tbl_accounts].
  rewrite find_snoc_fresh.
  - reflexivity.
  - apply existsb_false_all. exact Hdup.
  - cbn [accounts.id]. apply String.eqb_refl.
Qed.

(** A successful insert of a key appends one active row under the pair,
    and leaves the accounts alone. *)
Lemma CreateAccountKey_ok (uuid : string) (now : Time) (key key' : AccountKey.t)
  (db db' : DB) :
  store.CreateAccountKey uuid now key db = (Ok key', db') ->
  exists row,
    tbl_account_keys db' = tbl_account_keys db ++ [row]
    /\ tbl_accounts db' = tbl_accounts db
    /\ active row = true
    /\ key_pair row = (AccountKey.Algorithm key, AccountKey.PublicKey key).
Proof.
  unfold store.CreateAccountKey.
  repeat match goal with
         | |- context [if ?b then _ else _] => destruct b
         end;
    intro Hok; try discriminate Hok; injection Hok as <- <-;
    eexists; cbn [tbl_accounts tbl_account_keys]; repeat split.
Qed.

(** C7, as the code has it.  [CreateAccount] inserts the account and then
    its first key as two statements, with no transaction around them and no
    delete after a failure.  When the handler answers that the insert of the
    key failed, the database it leaves holds the new account row, which
    [GetAccount] returns, and no key was added. *)
Theorem C7_key_insert_failure_leaves_account :
  forall (lib : Lib) (h : api.Handler) (e : Env)
         (r : api.Request api.CreateAccountRequest) (db : DB),
    fst (api.CreateAccount lib h e r db) = key_insert_failed ->
    exists row,
      tbl_accounts (snd (api.CreateAccount lib h e r db))
      = tbl_accounts db ++ [row]
      /\ tbl_account_keys (snd (api.CreateAccount lib h e r db))
         = tbl_account_keys db
      /\ fst (store.GetAccount (accounts.id row)
                (snd (api.CreateAccount lib h e r db)))
         = Ok (Some (store.scanAccount row)).
Proof.
  intros lib h e r db Hresp.
  pose proof (CreateAccount_outcome lib h e r db) as Hout.
  destruct (api.CreateAccount lib h e r db) as [resp db'].
  cbn [fst snd] in *. subst resp.
  inversion Hout as [resp db1 Hsame Hne Hstatus
                    | req db1 db2 account err Hbody Hsame Hfree Hacc Hkey
                    | req db1 db2 db3 account key Hbody Hsame Hfree Hacc Hkey];
    subst.
  - contradiction.
  - destruct (CreateAccount_ok _ _ _ _ _ _ Hacc)
      as (row & Haccounts & Hkeys & _ & Hget).
    destruct Hsame as [Hsame_a Hsame_k].
    exists row. rewrite Haccounts, Hkeys, Hsame_a, Hsame_k. auto.
Qed.
Lemma C7_key_insert_failure_witness :
  exists row,
    tbl_accounts
      (snd (api.CreateAccount Example.lib Example.h (Example.env 1011 x1b "b")
              Example.create_with_pk1 Example.revoked))
    = tbl_accounts Example.revoked ++ [row]
    /\ tbl_account_keys
         (snd (api.CreateAccount Example.lib Example.h
                 (Example.env 1011 x1b "b") Example.create_with_pk1
                 Example.revoked))
       = tbl_account_keys Example.revoked
    /\ fst (store.GetAccount (accounts.id row)
              (snd (api.CreateAccount Example.lib Example.h
                      (Example.env 1011 x1b "b") Example.create_with_pk1
                      Example.revoked)))
       = Ok (Some (store.scanAccount row)).
Proof.
  apply C7_key_insert_failure_leaves_account.
  vm_compute. reflexivity.
Defined.

(** The claim of a single unit fails in [Example.revoked], where the key
    [pk1] of agent one is revoked.  Agent two asks for an account under
    [pk1] with a signed challenge: verification passes, the lookup of active
    keys finds nothing, the account "b2" is inserted, the insert of the key
    breaks [UNIQUE(algorithm, public_key)] against the revoked row, and the
    handler answers 500.  The account "b2" stays: GET /api/accounts/b2
    answers 200 with it, and it has no key. *)
Lemma C7_account_left_without_key :
  let after :=
    api.CreateAccount Example.lib Example.h (Example.env 1011 x1b "b")
      Example.create_with_pk1 Example.revoked in
  fst after = key_insert_failed
  /\ tbl_accounts (snd after)
     = tbl_accounts Example.revoked
       ++ [accounts.mk "b2" "Agent Two" None None (1011 * Second)]
  /\ fst (api.GetAccount (Example.post "" "" "b2" "" tt) (snd after))
     = api.writeJSON api.StatusOK
         (api.AccountJSON
            (Account.mk "b2" "Agent Two" "" "" (1011 * Second)))
  /\ fst (store.ListAccountKeys "b2" (snd after)) = Ok [].
Proof.
  cbv zeta. repeat split; vm_compute; reflexivity.
Qed.

(** While a pair is bound to an active key, no POST /api/accounts for it
    writes to accounts or keys, and none is answered 201. *)
Lemma CreateAccount_bound_rejected (lib : Lib) (h : api.Handler) (e : Env)
  (r : api.Request api.CreateAccountRequest) (db : DB)
  (req : api.CreateAccountRequest) :
  api.Body r = Some req ->
  bound db (api.ca_Algorithm req) (api.ca_PublicKey req) ->
  same_registry db (snd (api.CreateAccount lib h e r db))
  /\ api.status_of (fst (api.CreateAccount lib h e r db))
     <> Some api.StatusCreated.
Proof.
  intros Hbody Hbound.
  pose proof (CreateAccount_outcome lib h e r db) as Hout.
  destruct (api.CreateAccount lib h e r db) as [resp db'].
  cbn [fst snd].
  inversion Hout as [resp' db1 Hsame Hne Hstatus
                    | req' db1 db2 account err Hbody' Hsame Hfree Hacc Hkey
                    | req' db1 db2 db3 account key Hbody' Hsame Hfree Hacc
                        Hkey];
    subst.
  - split; assumption.
  - exfalso. assert (req' = req) as -> by congruence.
    apply Hfree. apply (bound_same_registry db db1); assumption.
  - exfalso. assert (req' = req) as -> by congruence.
    apply Hfree. apply (bound_same_registry db db1); assumption.
Qed.

(** Likewise for POST /api/accounts/{id}/keys. *)
Lemma AddAccountKey_bound_rejected (lib : Lib) (h : api.Handler) (e : Env)
  (r : api.Request api.AddKeyRequest) (db : DB) (req : api.AddKeyRequest) :
  api.Body r = Some req ->
  bound db (api.ak_Algorithm req) (api.ak_PublicKey req) ->
  same_registry db (snd (api.AddAccountKey lib h e r db))
  /\ api.status_of (fst (api.AddAccountKey lib h e r db))
     <> Some api.StatusCreated.
Proof.
  intros Hbody Hbound.
  destruct (api.AddAccountKey lib h e r db) as [resp db'] eqn:HR.
  cbn [fst snd].
  unfold api.AddAccountKey in HR. rewrite Hbody in HR.
  destruct (api.PathValue_id r == "").
  { injection HR as <- <-. split; [apply same_registry_refl | discriminate]. }
  unfold api.attempt at 1 in HR.
  pose proof (writes_GetAccount same_registry same_registry_refl
                (api.PathValue_id r) db) as Hsame1.
  destruct (store.GetAccount (api.PathValue_id r) db)
    as [[[account |] | err] db1]; cbn [snd] in Hsame1;
    try (injection HR as <- <-; split; [exact Hsame1 | discriminate]).
  unfold api.attempt at 1 in HR.
  pose proof (validateToken_pure e r db1) as Hsame2.
  destruct (api.validateToken e r db1) as [[[token |] | err] db2];
    cbn [snd] in Hsame2; subst db2;
    try (injection HR as <- <-; split; [exact Hsame1 | discriminate]).
  destruct (Token.AccountID token != api.PathValue_id r);
    [injection HR as <- <-; split; [exact Hsame1 | discriminate] |].
  destruct ((api.ak_PublicKey req == "") || (api.ak_Algorithm req == "")
            || (api.ak_Signature req == "") || (api.ak_Challenge req == ""));
    [injection HR as <- <-; split; [exact Hsame1 | discriminate] |].
  unfold api.attempt at 1 in HR.
  pose proof (writes_VerifyAndCreateToken same_registry same_registry_refl
                same_registry_trans (fun _ _ H => H) lib (api.h_auth h) e
                (Token.AgentID token) (api.ak_Algorithm req)
                (api.ak_PublicKey req) (api.ak_Challenge req)
                (api.ak_Signature req) db1) as Hsame3.
  destruct (auth.VerifyAndCreateToken lib (api.h_auth h) e
              (Token.AgentID token) (api.ak_Algorithm req)
              (api.ak_PublicKey req) (api.ak_Challenge req)
              (api.ak_Signature req) db1) as [[issued | err] db3];
    cbn [snd] in Hsame3;
    pose proof (same_registry_trans _ _ _ Hsame1 Hsame3) as Hsame.
  2:{ injection HR as <- <-. split; [exact Hsame |].
      destruct err; discriminate. }
  apply (bound_same_registry _ _ _ _ Hsame) in Hbound.
  apply bound_lookup in Hbound as [key Hkey].
  unfold api.attempt at 1 in HR. rewrite Hkey in HR.
  injection HR as <- <-. split; [exact Hsame | discriminate].
Qed.

(** A POST /api/accounts/{id}/keys answered 201 has inserted an active key
    under the pair of its body. *)
Lemma AddAccountKey_created_binds (lib : Lib) (h : api.Handler) (e : Env)
  (r : api.Request api.AddKeyRequest) (db : DB) (req : api.AddKeyRequest)
  (keyID : string) :
  api.Body r = Some req ->
  fst (api.AddAccountKey lib h e r db)
  = api.writeJSON api.StatusCreated (api.AddKeyResponse keyID) ->
  bound (snd (api.AddAccountKey lib h e r db))
    (api.ak_Algorithm req) (api.ak_PublicKey req).
Proof.
  intros Hbody Hresp.
  destruct (api.AddAccountKey lib h e r db) as [resp db'] eqn:HR.
  cbn [fst snd] in *. subst resp.
  unfold api.AddAccountKey in HR. rewrite Hbody in HR.
  destruct (api.PathValue_id r == ""); [discriminate HR |].
  unfold api.attempt at 1 in HR.
  destruct (store.GetAccount (api.PathValue_id r) db)
    as [[[account |] | err] db1]; try discriminate HR.
  unfold api.attempt at 1 in HR.
  destruct (api.validateToken e r db1) as [[[token |] | err] db2];
    try discriminate HR.
  destruct (Token.AccountID token != api.PathValue_id r);
    [discriminate HR |].
  destruct ((api.ak_PublicKey req == "") || (api.ak_Algorithm req == "")
            || (api.ak_Signature req == "") || (api.ak_Challenge req == ""));
    [discriminate HR |].
  unfold api.attempt at 1 in HR.
  destruct (auth.VerifyAndCreateToken lib (api.h_auth h) e
              (Token.AgentID token) (api.ak_Algorithm req)
              (api.ak_PublicKey req) (api.ak_Challenge req)
              (api.ak_Signature req) db2) as [[issued | err] db3].
  2:{ destruct err; discriminate HR. }
  unfold api.attempt at 1, store.GetAccountKeyByPublicKey at 1 in HR.
  destruct (option_map store.scanAccountKey _) as [existingKey |];
    [discriminate HR |].
  unfold api.attempt at 1 in HR.
  destruct (store.CreateAccountKey (uuid_New e 2) (time_Now e)
              (AccountKey.mk "" (api.PathValue_id r) (api.ak_Algorithm req)
                 (api.ak_PublicKey req) zeroTime None) db3)
    as [[key | err] db4] eqn:Hkey; [| discriminate HR].
  injection HR as _ <-.
  destruct (CreateAccountKey_ok _ _ _ _ _ _ Hkey)
    as (row & Hkeys & _ & Hactive & Hpair).
  exists row. rewrite Hkeys. split; [| split; assumption].
  apply in_or_app. right. left. reflexivity.
Qed.

(** C2.  After every sequence of operations on a new database no two
    active keys share [(algorithm, public_key)].  When a pair is bound to an
    active key, a POST /api/accounts and a POST /api/accounts/{id}/keys for
    that pair that carry a verified credential (and, for the second, the
    bearer token of the account) are both answered 409 Conflict and add
    neither account nor key; whatever credential it carries, no request
    of either kind for a bound pair is answered 201 or writes to accounts
    or keys.  A registration answered 201, by either handler, leaves its
    pair bound, so of the requests registering one pair the first to
    succeed is the only one while the key stays active. *)
Theorem C2_active_key_pairs_unique :
  forall (lib : Lib) (h : api.Handler) (ops : list Op),
    NoDup
      (map key_pair
         (filter active (tbl_account_keys (run lib h ops emptyDB))))
    /\ (forall db alg publicKey,
          bound db alg publicKey ->
          (forall e r db1,
              create_account_verified lib h e r alg publicKey db db1 ->
              api.CreateAccount lib h e r db
              = (api.writeError api.StatusConflict
                   "public key is already registered to an account",
                 db1)
              /\ same_registry db db1)
          /\ (forall e r db1,
                add_key_verified lib h e r alg publicKey db db1 ->
                api.AddAccountKey lib h e r db
                = (api.writeError api.StatusConflict
                     "public key is already registered",
                   db1)
                /\ same_registry db db1))
    /\ (forall db e r req,
          api.Body r = Some req ->
          bound db (api.ca_Algorithm req) (api.ca_PublicKey req) ->
          same_registry db (snd (api.CreateAccount lib h e r db))
          /\ api.status_of (fst (api.CreateAccount lib h e r db))
             <> Some api.StatusCreated)
    /\ (forall db e r req,
          api.Body r = Some req ->
          bound db (api.ak_Algorithm req) (api.ak_PublicKey req) ->
          same_registry db (snd (api.AddAccountKey lib h e r db))
          /\ api.status_of (fst (api.AddAccountKey lib h e r db))
             <> Some api.StatusCreated)
    /\ (forall db e r req accountID keyID,
          api.Body r = Some req ->
          fst (api.CreateAccount lib h e r db)
          = api.writeJSON api.StatusCreated
              (api.CreateAccountResponse accountID keyID) ->
          bound (snd (api.CreateAccount lib h e r db))
            (api.ca_Algorithm req) (api.ca_PublicKey req))
    /\ (forall db e r req keyID,
          api.Body r = Some req ->
          fst (api.AddAccountKey lib h e r db)
          = api.writeJSON api.StatusCreated (api.AddKeyResponse keyID) ->
          bound (snd (api.AddAccountKey lib h e r db))
            (api.ak_Algorithm req) (api.ak_PublicKey req)).
Proof.
  intros lib h ops. split; [| split; [| split; [| split; [| split]]]].
  - apply active_pairs_unique.
    apply (run_keys_unique lib h ops emptyDB emptyDB_keys_unique).
  - intros db alg publicKey Hbound. split.
    + intros e r db1 Hverified.
      split;
        [exact (CreateAccount_conflict lib h e r alg publicKey db db1 Hbound
                  Hverified) |].
      destruct Hverified as (req & token & _ & _ & _ & _ & _ & _ & _ & _ & Hv).
      match type of Hv with
      | auth.VerifyAndCreateToken lib ?s e ?a ?alg ?pk ?c ?sg db = _ =>
          pose proof (writes_VerifyAndCreateToken same_registry
                        same_registry_refl same_registry_trans
                        (fun _ _ H => H) lib s e a alg pk c sg db) as Hw
      end.
      rewrite Hv in Hw. exact Hw.
    + intros e r db1 Hverified.
      split;
        [exact (AddAccountKey_conflict lib h e r alg publicKey db db1 Hbound
                  Hverified) |].
      destruct Hverified
        as (account & bearer & req & token & _ & _ & _ & _ & _ & _ & _ & _ & _
            & _ & _ & Hv).
      match type of Hv with
      | auth.VerifyAndCreateToken lib ?s e ?a ?alg ?pk ?c ?sg db = _ =>
          pose proof (writes_VerifyAndCreateToken same_registry
                        same_registry_refl same_registry_trans
                        (fun _ _ H => H) lib s e a alg pk c sg db) as Hw
      end.
      rewrite Hv in Hw. exact Hw.
  - intros db e r req. apply CreateAccount_bound_rejected.
  - intros db e r req. apply AddAccountKey_bound_rejected.
  - intros db e r req accountID keyID Hbody Hresp.
    pose proof (CreateAccount_outcome lib h e r db) as Hout.
    destruct (api.CreateAccount lib h e r db) as [resp db'].
    cbn [fst snd] in *. subst resp.
    inversion Hout as [resp db1 Hsame Hne Hstatus
                      | req' db1 db2 account err Hbody' Hsame Hfree Hacc Hkey
                      | req' db1 db2 db3 account key Hbody' Hsame Hfree Hacc
                          Hkey];
      subst.
    + exfalso. apply Hstatus. reflexivity.
    + assert (req' = req) as -> by congruence.
      destruct (CreateAccountKey_ok _ _ _ _ _ _ Hkey)
        as (row & Hkeys & _ & Hactive & Hpair).
      exists row. rewrite Hkeys. split; [| split; assumption].
      apply in_or_app. right. left. reflexivity.
  - intros db e r req keyID.
    apply AddAccountKey_created_binds.
Qed.

Lemma C2_active_key_pairs_unique_witness :
  NoDup (map key_pair (filter active (tbl_account_keys Example.challenged)))
  /\ fst (api.CreateAccount Example.lib Example.h (Example.env 1011 x1b "b")
            Example.create_with_pk1 Example.challenged)
     = api.writeError api.StatusConflict
         "public key is already registered to an account"
  /\ fst (api.AddAccountKey Example.lib Example.h (Example.env 1012 x1c "m")
            Example.add_pk1 Example.challenged)
     = api.writeError api.StatusConflict "public key is already registered".
Proof.
  destruct
    (C2_active_key_pairs_unique Example.lib Example.h
       [ OpCreateChallenge (Example.env 1000 x10 "c1") "agent-1" "ed25519";
         OpCreateAccount (Example.env 1001 x11 "a")
           (Example.post "agent-1" "" "" ""
              (api.mkCreateAccountRequest "Agent One" "" "" Example.pk1
                 "ed25519" (Example.sign (Example.drawn x10))
                 (Example.drawn x10)));
         OpCreateChallenge (Example.env 1002 x12 "c2") "agent-1" "ed25519";
         OpVerifyAndCreateToken (Example.env 1003 x13 "t1") "agent-1"
           "ed25519" Example.pk1 (Example.drawn x12)
           (Example.sign (Example.drawn x12));
         OpCreateChallenge (Example.env 1004 x14 "c3") "agent-1" "ed25519";
         OpAddAccountKey (Example.env 1005 x15 "k")
           (Example.post "" (Example.drawn x13) "a2" ""
              (api.mkAddKeyRequest Example.pk2 "ed25519"
                 (Example.sign (Example.drawn x14)) (Example.drawn x14)));
         OpCreateChallenge (Example.env 1006 x16 "c4") "agent-1" "ed25519";
         OpVerifyAndCreateToken (Example.env 1007 x17 "t2") "agent-1"
           "ed25519" Example.pk2 (Example.drawn x16)
           (Example.sign (Example.drawn x16));
         OpCreateChallenge (Example.env 1008 x18 "c5") "agent-2" "ed25519";
         OpCreateChallenge (Example.env 1008 x19 "c6") "agent-1" "ed25519" ])
    as (Hunique & Hconflict & _).
  split.
  { match type of Hunique with
    | context [run ?l ?h ?ops emptyDB] =>
        replace (run l h ops emptyDB) with Example.challenged in Hunique
          by (vm_compute; reflexivity)
    end.
    exact Hunique. }
  assert (bound Example.challenged "ed25519" Example.pk1) as Hbound.
  { apply bound_lookup. eexists. vm_compute. reflexivity. }
  destruct (Hconflict Example.challenged "ed25519" Example.pk1 Hbound)
    as [Hcreate Hadd].
  split.
  - destruct (auth.VerifyAndCreateToken Example.lib Example.svc
                (Example.env 1011 x1b "b") "agent-2" "ed25519" Example.pk1
                (Example.drawn x18) (Example.sign (Example.drawn x18))
                Example.challenged) as [[token | err] db1] eqn:Hverify;
      [| vm_compute in Hverify; discriminate Hverify].
    destruct (Hcreate (Example.env 1011 x1b "b") Example.create_with_pk1 db1)
      as [-> _]; [| reflexivity].
    exists (api.mkCreateAccountRequest "Agent Two" "" "" Example.pk1 "ed25519"
              (Example.sign (Example.drawn x18)) (Example.drawn x18)), token.
    split; [reflexivity |]. split; [reflexivity |]. split; [reflexivity |].
    split; [discriminate |]. split; [discriminate |].
    split; [vm_compute; discriminate |].
    split; [vm_compute; discriminate |].
    split; [vm_compute; discriminate |].
    exact Hverify.
  - destruct (auth.VerifyAndCreateToken Example.lib Example.svc
                (Example.env 1012 x1c "m") "agent-1" "ed25519" Example.pk1
                (Example.drawn x19) (Example.sign (Example.drawn x19))
                Example.challenged) as [[token | err] db1] eqn:Hverify;
      [| vm_compute in Hverify; discriminate Hverify].
    destruct (Hadd (Example.env 1012 x1c "m") Example.add_pk1 db1)
      as [-> _]; [| reflexivity].
    exists (Account.mk "a2" "Agent One" "" "" (1001 * Second)),
      (Token.mk "t20" "a2" "k2" "agent-1" (Example.drawn x17)
         (sqliteParse 87407)),
      (api.mkAddKeyRequest Example.pk1 "ed25519"
         (Example.sign (Example.drawn x19)) (Example.drawn x19)),
      token.
    split; [discriminate |].
    split; [vm_compute; reflexivity |].
    split; [vm_compute; reflexivity |].
    split; [reflexivity |]. split; [reflexivity |].
    split; [reflexivity |]. split; [reflexivity |].
    split; [discriminate |].
    split; [vm_compute; discriminate |].
    split; [vm_compute; discriminate |].
    split; [vm_compute; discriminate |].
    exact Hverify.
Defined.

(** ** A challenge verifies once *)

Lemma filter_all {A : Type} (p : A -> bool) (l : list A) :
  (forall y, In y l -> p y = true) -> filter p l = l.
Proof.
  induction l as [| y l IH]; cbn; intro Hl; [reflexivity |].
  rewrite (Hl y (or_introl eq_refl)). f_equal.
  apply IH. intros z Hz. apply Hl. right. exact Hz.
Qed.

Lemma find_all_false {A : Type} (p : A -> bool) (l : list A) :
  (forall y, In y l -> p y = false) -> find p l = None.
Proof.
  induction l as [| y l IH]; cbn; intro Hl; [reflexivity |].
  rewrite (Hl y (or_introl eq_refl)).
  apply IH. intros z Hz. apply Hl. right. exact Hz.
Qed.

(** What a successful [CreateChallenge] leaves: one new row, under an id and
    a challenge string no other row has. *)
Lemma auth_CreateChallenge_ok (s : auth.Service) (e : Env)
  (agentID alg : string) (db db1 : DB) (c : Challenge.t) :
  auth.CreateChallenge s e agentID alg db = (Ok c, db1) ->
  Challenge.AgentID c = agentID /\ Challenge.Algorithm c = alg
  /\ tbl_accounts db1 = tbl_accounts db
  /\ tbl_account_keys db1 = tbl_account_keys db
  /\ tbl_tokens db1 = tbl_tokens db
  /\ tbl_challenges db1
     = tbl_challenges db
       ++ [challenges.mk (Challenge.ID c) agentID alg (Challenge.Challenge c)
             (sqliteFormat (Challenge.ExpiresAt c))]
  /\ (forall r, In r (tbl_challenges db) ->
        (challenges.id r == Challenge.ID c) = false
        /\ (challenges.challenge r == Challenge.Challenge c) = false).
Proof.
  unfold auth.CreateChallenge.
  destruct (negb (auth.isValidAlgorithm alg)); [discriminate |].
  destruct (rand_Read e) as [challengeBytes | err]; [| discriminate].
  unfold bind, ret, store.CreateChallenge.
  cbn [Challenge.ID Challenge.AgentID Challenge.Algorithm Challenge.Challenge
         Challenge.ExpiresAt].
  destruct (existsb (fun r => challenges.id r == _) (tbl_challenges db))
    eqn:Hid; [discriminate |].
  destruct (existsb (fun r => challenges.challenge r == _) (tbl_challenges db))
    eqn:Hstr; [discriminate |].
  cbv beta iota. intro Hok. injection Hok as <- <-.
  cbn [Challenge.ID Challenge.AgentID Challenge.Algorithm Challenge.Challenge
         Challenge.ExpiresAt tbl_accounts tbl_account_keys tbl_tokens
         tbl_challenges].
  repeat split.
  - apply (existsb_false_all _ _ Hid r H).
  - apply (existsb_false_all _ _ Hstr r H).
Qed.

(** A live, matching row and an accepted signature: the challenge is
    deleted by its id and the token is issued on what is left. *)
Lemma verify_accepted (lib : Lib) (s : auth.Service) (e : Env)
  (agentID alg publicKey challengeStr signature : string) (db : DB)
  (r : challenges.row) :
  find (challenge_live challengeStr (sqlite_now e)) (tbl_challenges db)
  = Some r ->
  After (time_Now e) (sqliteParse (challenges.expires_at r)) = false ->
  (challenges.agent_id r != agentID) || (challenges.algorithm r != alg) = false ->
  auth.verifySignature lib alg publicKey challengeStr signature = Ok true ->
  auth.VerifyAndCreateToken lib s e agentID alg publicKey challengeStr
    signature db
  = issueToken s e agentID alg publicKey
      (snd (store.DeleteChallenge (challenges.id r) db)).
Proof.
  intros Hfind Hafter Hmis Hsig.
  unfold auth.VerifyAndCreateToken, bind at 1, store.GetChallenge.
  fold (challenge_live challengeStr (sqlite_now e)).
  rewrite Hfind. cbn [option_map store.scanChallenge Challenge.ExpiresAt
                        Challenge.AgentID Challenge.Algorithm Challenge.ID].
  rewrite Hafter, Hmis, Hsig.
  reflexivity.
Qed.

Lemma CreateToken_fresh (uuid : string) (token : Token.t) (db : DB) :
  Token.ID token <> "" ->
  (forall t, In t (tbl_tokens db) ->
     tokens.id t <> Token.ID token /\ tokens.token t <> Token.Token token) ->
  exists db',
    store.CreateToken uuid token db = (Ok token, db')
    /\ tbl_challenges db' = tbl_challenges db.
Proof.
  destruct token as [ID AccountID KeyID AgentID Token ExpiresAt].
  cbn [Token.ID Token.Token].
  intros Hid Hfresh. unfold store.CreateToken.
  cbn [Token.ID Token.Token Token.AccountID Token.KeyID Token.AgentID
         Token.ExpiresAt].
  rewrite (eqb_empty_false _ Hid).
  destruct (existsb (fun r => tokens.id r == ID) (tbl_tokens db)) eqn:Hdup.
  { apply existsb_exists in Hdup as (t & Ht & Heq).
    apply String.eqb_eq in Heq. destruct (Hfresh t Ht). contradiction. }
  destruct (existsb (fun r => tokens.token r == Token) (tbl_tokens db))
    eqn:Hdup'.
  { apply existsb_exists in Hdup' as (t & Ht & Heq).
    apply String.eqb_eq in Heq. destruct (Hfresh t Ht). contradiction. }
  eexists. split; reflexivity.
Qed.

Lemma issueToken_fresh (s : auth.Service) (e : Env)
  (agentID alg publicKey : string) (db : DB) :
  token_fresh e db ->
  (16 <= String.length publicKey)%nat ->
  exists token db',
    issueToken s e agentID alg publicKey db = (Ok token, db')
    /\ Token.AgentID token = agentID
    /\ tbl_challenges db' = tbl_challenges db.
Proof.
  intros (tokenBytes & Hrand & Huuid & Hfresh) Hlen.
  unfold issueToken, bind at 1, store.GetAccountKeyByPublicKey.
  rewrite Hrand.
  destruct (option_map store.scanAccountKey _) as [accountKey |].
  - edestruct (CreateToken_fresh (uuid_New e 1)) as (db' & Hok & Hch);
      [| | unfold bind, ret; rewrite Hok; eexists; eexists;
           split; [reflexivity | split; [reflexivity | exact Hch]]];
      [exact Huuid | exact Hfresh].
  - unfold auth.slice_to_16.
    replace (String.length publicKey <? 16)%nat with false
      by (symmetry; apply Nat.ltb_ge; exact Hlen).
    edestruct (CreateToken_fresh (uuid_New e 1)) as (db' & Hok & Hch);
      [| | unfold bind, ret; rewrite Hok; eexists; eexists;
           split; [reflexivity | split; [reflexivity | exact Hch]]];
      [exact Huuid | exact Hfresh].
Qed.

(** X1.  The single use of a challenge, on the algorithms the verifier
    implements.  A challenge just created, verified in time with a signature
    the verifier accepts, by a key of at least 16 characters and with a fresh
    token, yields a token for the agent and is gone from the table; every
    later verification under its string, whoever asks and whatever the
    signature, is [ErrChallengeNotFound]. *)
Theorem challenge_verifies_once :
  forall (lib : Lib) (s : auth.Service) (e1 e2 : Env)
         (agentID alg publicKey signature : string) (db db1 : DB)
         (c : Challenge.t),
    auth.CreateChallenge s e1 agentID alg db = (Ok c, db1) ->
    in_time e2 (Challenge.ExpiresAt c) ->
    auth.verifySignature lib alg publicKey (Challenge.Challenge c) signature
    = Ok true ->
    (16 <= String.length publicKey)%nat ->
    token_fresh e2 db1 ->
    exists token db2,
      auth.VerifyAndCreateToken lib s e2 agentID alg publicKey
        (Challenge.Challenge c) signature db1
      = (Ok token, db2)
      /\ Token.AgentID token = agentID
      /\ (forall r, In r (tbl_challenges db2) ->
            challenges.challenge r <> Challenge.Challenge c)
      /\ (forall e3 agentID' alg' publicKey' signature',
            auth.VerifyAndCreateToken lib s e3 agentID' alg' publicKey'
              (Challenge.Challenge c) signature' db2
            = (Err ErrChallengeNotFound, db2)).
Proof.
  intros lib s e1 e2 agentID alg publicKey signature db db1 c
    Hcreate [Hsql Hgo] Hsig Hlen Hfresh.
  destruct (auth_CreateChallenge_ok s e1 agentID alg db db1 c Hcreate)
    as (Hagent & Halg & _ & _ & Htokens & Hrows & Hold).
  set (row := challenges.mk (Challenge.ID c) agentID alg (Challenge.Challenge c)
                (sqliteFormat (Challenge.ExpiresAt c))) in *.
  assert (find (challenge_live (Challenge.Challenge c) (sqlite_now e2))
            (tbl_challenges db1) = Some row) as Hfind.
  { rewrite Hrows. apply find_snoc_fresh.
    - intros r Hr. unfold challenge_live.
      destruct (Hold r Hr) as [_ ->]. reflexivity.
    - apply challenge_live_iff. split; [reflexivity | exact Hsql]. }
  assert (tbl_challenges (snd (store.DeleteChallenge (challenges.id row) db1))
          = tbl_challenges db) as Hdelete.
  { unfold store.DeleteChallenge. cbn [snd tbl_challenges].
    rewrite Hrows, filter_app. cbn [filter row challenges.id].
    rewrite String.eqb_refl. cbn [negb]. rewrite app_nil_r.
    apply filter_all. intros r Hr. destruct (Hold r Hr) as [-> _].
    reflexivity. }
  rewrite (verify_accepted lib s e2 agentID alg publicKey
             (Challenge.Challenge c) signature db1 row Hfind).
  2:{ apply Z.ltb_ge. exact Hgo. }
  2:{ cbn [row challenges.agent_id challenges.algorithm].
      rewrite !String.eqb_refl. reflexivity. }
  2:{ exact Hsig. }
  destruct (issueToken_fresh s e2 agentID alg publicKey
              (snd (store.DeleteChallenge (challenges.id row) db1)))
    as (token & db2 & Hok & Hag & Hch).
  { destruct Hfresh as (tokenBytes & Hrand & Huuid & Hfresh).
    exists tokenBytes. auto. }
  { exact Hlen. }
  rewrite Hdelete in Hch.
  exists token, db2.
  split; [exact Hok |]. split; [exact Hag |]. split.
  - rewrite Hch. intros r Hr. destruct (Hold r Hr) as [_ Hne].
    apply String.eqb_neq. exact Hne.
  - intros e3 agentID' alg' publicKey' signature'.
    apply verify_not_found. rewrite Hch.
    apply find_all_false. intros r Hr. unfold challenge_live.
    destruct (Hold r Hr) as [_ ->]. reflexivity.
Qed.

Lemma challenge_verifies_once_witness :
  exists token db2,
    auth.VerifyAndCreateToken Example.lib Example.svc
      (Example.env 1001 x11 "t") "agent-1" "ed25519" Example.pk1
      (Example.drawn x10) (Example.sign (Example.drawn x10))
      (snd (auth.CreateChallenge Example.svc (Example.env 1000 x10 "c")
              "agent-1" "ed25519" emptyDB))
    = (Ok token, db2)
    /\ Token.AgentID token = "agent-1"
    /\ (forall r, In r (tbl_challenges db2) ->
          challenges.challenge r <> Example.drawn x10)
    /\ (forall e3 agentID' alg' publicKey' signature',
          auth.VerifyAndCreateToken Example.lib Example.svc e3 agentID' alg'
            publicKey' (Example.drawn x10) signature' db2
          = (Err ErrChallengeNotFound, db2)).
Proof.
  apply (challenge_verifies_once Example.lib Example.svc
           (Example.env 1000 x10 "c") (Example.env 1001 x11 "t")
           "agent-1" "ed25519" Example.pk1 (Example.sign (Example.drawn x10))
           emptyDB
           (snd (auth.CreateChallenge Example.svc (Example.env 1000 x10 "c")
                   "agent-1" "ed25519" emptyDB))
           (Challenge.mk "c0" "agent-1" "ed25519" (Example.drawn x10)
              (1300 * Second))).
  - vm_compute. reflexivity.
  - split; vm_compute; [reflexivity | discriminate].
  - vm_compute. reflexivity.
  - apply Nat.leb_le. vm_compute. reflexivity.
  - exists (repeat x11 32).
    split; [reflexivity |]. split; [discriminate |].
    intros t Ht. vm_compute in Ht. destruct Ht.
Defined.

(** ** A challenge belongs to its agent and algorithm *)

(** X2.  A challenge string whose rows were all created for another agent
    or another algorithm cannot be verified: the call fails with
    [ErrChallengeNotFound] (or [ErrChallengeExpired], when the row is past
    Go's clock) and the database is as it was, so the challenge stays
    available to the agent it was issued to. *)
Theorem challenge_bound_to_agent_and_algorithm :
  forall (lib : Lib) (s : auth.Service) (e : Env)
         (agentID alg publicKey challengeStr signature : string) (db : DB),
    (forall r,
        In r (tbl_challenges db) ->
        challenges.challenge r = challengeStr ->
        challenges.agent_id r <> agentID \/ challenges.algorithm r <> alg) ->
    (fst (auth.VerifyAndCreateToken lib s e agentID alg publicKey challengeStr
            signature db) = Err ErrChallengeNotFound
     \/ fst (auth.VerifyAndCreateToken lib s e agentID alg publicKey
               challengeStr signature db) = Err ErrChallengeExpired)
    /\ snd (auth.VerifyAndCreateToken lib s e agentID alg publicKey
              challengeStr signature db) = db.
Proof.
  intros lib s e agentID alg publicKey challengeStr signature db Hother.
  destruct (find (challenge_live challengeStr (sqlite_now e))
              (tbl_challenges db)) as [r |] eqn:Hfind.
  - pose proof (find_some _ _ Hfind) as [Hin Hlive].
    apply challenge_live_iff in Hlive as [Hstr _].
    destruct (After (time_Now e) (sqliteParse (challenges.expires_at r)))
      eqn:Hafter.
    + rewrite (verify_expired lib s e agentID alg publicKey challengeStr
                 signature db r Hfind Hafter).
      cbn. auto.
    + rewrite (verify_mismatch lib s e agentID alg publicKey challengeStr
                 signature db r Hfind Hafter).
      * cbn. auto.
      * apply orb_true_iff.
        destruct (Hother r Hin Hstr) as [Hagent | Halg]; [left | right];
          apply negb_true_iff, String.eqb_neq; assumption.
  - rewrite (verify_not_found lib s e agentID alg publicKey challengeStr
               signature db Hfind).
    cbn. auto.
Qed.

Lemma challenge_bound_to_agent_and_algorithm_witness :
  (fst (auth.VerifyAndCreateToken Example.lib Example.svc
          (Example.env 1011 x1b "t") "agent-1" "ed25519" Example.pk1
          (Example.drawn x18) (Example.sign (Example.drawn x18))
          Example.challenged) = Err ErrChallengeNotFound
   \/ fst (auth.VerifyAndCreateToken Example.lib Example.svc
             (Example.env 1011 x1b "t") "agent-1" "ed25519" Example.pk1
             (Example.drawn x18) (Example.sign (Example.drawn x18))
             Example.challenged) = Err ErrChallengeExpired)
  /\ snd (auth.VerifyAndCreateToken Example.lib Example.svc
            (Example.env 1011 x1b "t") "agent-1" "ed25519" Example.pk1
            (Example.drawn x18) (Example.sign (Example.drawn x18))
            Example.challenged) = Example.challenged.
Proof.
  apply challenge_bound_to_agent_and_algorithm.
  intros r Hin Hstr.
  vm_compute in Hin.
  destruct Hin as [<- | [<- | []]].
  - left. discriminate.
  - vm_compute in Hstr. discriminate.
Defined.

(** * Properties of the rest of the server *)

(** ** Tokens, keys and accounts *)

Lemma NullString_roundtrip (s : string) :
  store.NullString_String (store.nullString s) = s.
Proof.
  unfold store.nullString. destruct (s == "") eqn:E; [| reflexivity].
  apply String.eqb_eq in E. subst s. reflexivity.
Qed.

(** What a successful [CreateToken] leaves: one new row at the end of
    [tokens], under a token string no other row has. *)
Lemma CreateToken_ok_inv (uuid : string) (t0 token : Token.t) (db0 db1 : DB) :
  store.CreateToken uuid t0 db0 = (Ok token, db1) ->
  Token.AccountID token = Token.AccountID t0
  /\ Token.KeyID token = Token.KeyID t0
  /\ Token.AgentID token = Token.AgentID t0
  /\ Token.Token token = Token.Token t0
  /\ Token.ExpiresAt token = Token.ExpiresAt t0
  /\ tbl_accounts db1 = tbl_accounts db0
  /\ tbl_account_keys db1 = tbl_account_keys db0
  /\ tbl_challenges db1 = tbl_challenges db0
  /\ tbl_tokens db1
     = tbl_tokens db0
       ++ [tokens.mk (Token.ID token) (store.nullString (Token.AccountID t0))
             (Token.KeyID t0) (Token.AgentID t0) (Token.Token t0)
             (sqliteFormat (Token.ExpiresAt t0))]
  /\ (forall t, In t (tbl_tokens db0) ->
        (tokens.token t == Token.Token t0) = false).
Proof.
  unfold store.CreateToken.
  destruct (existsb (fun r => tokens.id r == _) (tbl_tokens db0));
    [discriminate |].
  destruct (existsb (fun r => tokens.token r == _) (tbl_tokens db0)) eqn:Hstr;
    [discriminate |].
  intro Hok. injection Hok as <- <-.
  cbn [Token.ID Token.AccountID Token.KeyID Token.AgentID Token.Token
         Token.ExpiresAt tbl_accounts tbl_account_keys tbl_challenges
         tbl_tokens].
  repeat split.
  intros t Ht. apply (existsb_false_all _ _ Hstr t Ht).
Qed.

(** A successful [VerifyAndCreateToken] went through every check: a live
    row for the agent and the algorithm, an accepted signature, the delete
    of the challenge, and the issue of the token on what is left. *)
Lemma VerifyAndCreateToken_ok_inv (lib : Lib) (s : auth.Service) (e : Env)
  (agentID alg publicKey challengeStr signature : string) (db db1 : DB)
  (token : Token.t) :
  auth.VerifyAndCreateToken lib s e agentID alg publicKey challengeStr
    signature db = (Ok token, db1) ->
  exists r,
    find (challenge_live challengeStr (sqlite_now e)) (tbl_challenges db)
    = Some r
    /\ After (time_Now e) (sqliteParse (challenges.expires_at r)) = false
    /\ (challenges.agent_id r != agentID) || (challenges.algorithm r != alg)
       = false
    /\ auth.verifySignature lib alg publicKey challengeStr signature = Ok true
    /\ issueToken s e agentID alg publicKey
         (snd (store.DeleteChallenge (challenges.id r) db))
       = (Ok token, db1).
Proof.
  intro Hok.
  destruct (find (challenge_live challengeStr (sqlite_now e))
              (tbl_challenges db)) as [r |] eqn:Hfind.
  2:{ rewrite (verify_not_found lib s e agentID alg publicKey challengeStr
                 signature db Hfind) in Hok. discriminate Hok. }
  destruct (After (time_Now e) (sqliteParse (challenges.expires_at r)))
    eqn:Hafter.
  { rewrite (verify_expired lib s e agentID alg publicKey challengeStr
               signature db r Hfind Hafter) in Hok. discriminate Hok. }
  destruct ((challenges.agent_id r != agentID)
            || (challenges.algorithm r != alg)) eqn:Hmis.
  { rewrite (verify_mismatch lib s e agentID alg publicKey challengeStr
               signature db r Hfind Hafter Hmis) in Hok. discriminate Hok. }
  destruct (auth.verifySignature lib alg publicKey challengeStr signature)
    as [[|] | err] eqn:Hsig.
  - rewrite (verify_accepted lib s e agentID alg publicKey challengeStr
               signature db r Hfind Hafter Hmis Hsig) in Hok.
    exists r. auto.
  - rewrite (verify_wrong_signature lib s e agentID alg publicKey challengeStr
               signature db r Hfind Hafter Hmis Hsig) in Hok.
    discriminate Hok.
  - rewrite (verify_rejected lib s e agentID alg publicKey challengeStr
               signature db r err Hfind Hafter Hmis Hsig) in Hok.
    discriminate Hok.
Qed.

(** The token [issueToken] hands to [CreateToken]. *)
Lemma issueToken_ok_inv (s : auth.Service) (e : Env)
  (agentID alg publicKey : string) (db0 db1 : DB) (token : Token.t) :
  issueToken s e agentID alg publicKey db0 = (Ok token, db1) ->
  exists tokenBytes AccountID KeyID,
    rand_Read e = Ok tokenBytes
    /\ store.CreateToken (uuid_New e 1)
         (Token.mk (uuid_New e 0) AccountID KeyID agentID
            (base64.URLEncoding_EncodeToString tokenBytes)
            (Add (time_Now e) (auth.tokenTTL s))) db0
       = (Ok token, db1)
    /\ ((exists r,
           In r (tbl_account_keys db0) /\ active r = true
           /\ key_pair r = (alg, publicKey)
           /\ AccountID = account_keys.account_id r
           /\ KeyID = account_keys.id r)
        \/ (~ bound db0 alg publicKey
            /\ AccountID = ""
            /\ KeyID = String.append "unregistered:" (substring 0 16 publicKey)
            /\ (16 <= String.length publicKey)%nat)).
Proof.
  unfold issueToken, bind at 1.
  destruct (store.GetAccountKeyByPublicKey alg publicKey db0)
    as [[accountKey | err] db0'] eqn:Hlookup.
  2:{ unfold store.GetAccountKeyByPublicKey in Hlookup. discriminate Hlookup. }
  assert (db0' = db0) as ->.
  { unfold store.GetAccountKeyByPublicKey in Hlookup. congruence. }
  destruct (rand_Read e) as [tokenBytes | err]; [| discriminate].
  destruct accountKey as [accountKey |].
  - unfold bind, ret.
    destruct (store.CreateToken _ _ db0) as [[token' | err] db'] eqn:Hcreate;
      [| discriminate].
    intro Hok. injection Hok as <- <-.
    exists tokenBytes, (AccountKey.AccountID accountKey),
      (AccountKey.ID accountKey).
    split; [reflexivity |]. split; [exact Hcreate |]. left.
    unfold store.GetAccountKeyByPublicKey in Hlookup.
    match type of Hlookup with
    | context [find ?p ?l] => destruct (find p l) as [r |] eqn:Hfind
    end; cbn [option_map] in Hlookup; [| discriminate Hlookup].
    injection Hlookup as <-.
    apply find_some in Hfind as [Hin Hp].
    apply andb_true_iff in Hp as [Hp Hnull].
    apply andb_true_iff in Hp as [Halg Hpk].
    apply String.eqb_eq in Halg, Hpk.
    exists r. unfold active, key_pair.
    repeat split; try assumption; congruence.
  - unfold auth.slice_to_16.
    destruct (String.length publicKey <? 16)%nat eqn:Hlen; [discriminate |].
    unfold bind, ret.
    destruct (store.CreateToken _ _ db0) as [[token' | err] db'] eqn:Hcreate;
      [| discriminate].
    intro Hok. injection Hok as <- <-.
    exists tokenBytes, "",
      (String.append "unregistered:" (substring 0 16 publicKey)).
    split; [reflexivity |]. split; [exact Hcreate |]. right.
    split; [| split; [reflexivity | split; [reflexivity |]]].
    + intro Hb. apply bound_lookup in Hb as [key Hkey].
      rewrite Hkey in Hlookup. discriminate Hlookup.
    + apply Nat.ltb_ge. exact Hlen.
Qed.

(** A token as issued, and the row of it that [ValidateToken] reads. *)
Lemma issued_token_validates_until_expiry_aux :
  forall (lib : Lib) (s : auth.Service) (e : Env)
         (agentID alg publicKey challengeStr signature : string)
         (db db1 : DB) (token : Token.t),
    auth.VerifyAndCreateToken lib s e agentID alg publicKey challengeStr
      signature db = (Ok token, db1) ->
    Token.AgentID token = agentID
    /\ Token.ExpiresAt token = Add (time_Now e) (auth.tokenTTL s)
    /\ forall e' : Env,
         (sqlite_now e' < sqliteParse (sqliteFormat (Token.ExpiresAt token)) ->
          auth.ValidateToken e' (Token.Token token) db1
          = (Ok (Some
                   (Token.mk (Token.ID token) (Token.AccountID token)
                      (Token.KeyID token) (Token.AgentID token)
                      (Token.Token token)
                      (sqliteParse (sqliteFormat (Token.ExpiresAt token))))),
             db1))
         /\ (sqliteParse (sqliteFormat (Token.ExpiresAt token)) <= sqlite_now e' ->
             auth.ValidateToken e' (Token.Token token) db1 = (Ok None, db1)).
Proof.
  intros lib s e agentID alg publicKey challengeStr signature db db1 token Hok.
  apply VerifyAndCreateToken_ok_inv in Hok
    as (r & _ & _ & _ & _ & Hissue).
  apply issueToken_ok_inv in Hissue
    as (tokenBytes & AccountID & KeyID & _ & Hcreate & _).
  apply CreateToken_ok_inv in Hcreate
    as (Hacc & Hkey & Hagent & Hstr & Hexp & _ & _ & _ & Hrows & Hold).
  cbn [Token.AccountID Token.KeyID Token.AgentID Token.Token Token.ExpiresAt]
    in *.
  split; [exact Hagent |]. split; [exact Hexp |].
  intro e'. rewrite !ValidateToken_eq, Hrows.
  split; intro Hclock.
  - rewrite find_snoc_fresh.
    + unfold store.scanToken.
      cbn [option_map tokens.id tokens.account_id tokens.key_id
             tokens.agent_id tokens.token tokens.expires_at].
      rewrite NullString_roundtrip, Hacc, Hkey, Hagent, Hstr, Hexp.
      reflexivity.
    + intros t Ht. unfold token_live. rewrite Hstr, (Hold t Ht). reflexivity.
    + apply token_live_iff. cbn [tokens.token tokens.expires_at].
      split; [congruence |]. rewrite <- Hexp. exact Hclock.
  - rewrite find_all_false; [reflexivity |].
    intros t Ht. apply in_app_or in Ht as [Ht | [<- | []]].
    + unfold token_live. rewrite Hstr, (Hold t Ht). reflexivity.
    + unfold token_live. cbn [tokens.token tokens.expires_at].
      apply andb_false_iff. right. apply sqlite_expired_iff.
      rewrite <- Hexp. exact Hclock.
Qed.

(** X3.  A token issued by [VerifyAndCreateToken] names the agent of the
    call and expires [tokenTTL] after [time.Now()].  [ValidateToken] returns
    it, with the expiry as the table holds it, as long as the database clock
    is before that expiry, and returns no token and no error from then on. *)
Theorem issued_token_validates_until_expiry :
  forall (lib : Lib) (s : auth.Service) (e : Env)
         (agentID alg publicKey challengeStr signature : string)
         (db db1 : DB) (token : Token.t),
    auth.VerifyAndCreateToken lib s e agentID alg publicKey challengeStr
      signature db = (Ok token, db1) ->
    Token.AgentID token = agentID
    /\ Token.ExpiresAt token = Add (time_Now e) (auth.tokenTTL s)
    /\ forall e' : Env,
         (sqlite_now e' < sqliteParse (sqliteFormat (Token.ExpiresAt token)) ->
          auth.ValidateToken e' (Token.Token token) db1
          = (Ok (Some
                   (Token.mk (Token.ID token) (Token.AccountID token)
                      (Token.KeyID token) (Token.AgentID token)
                      (Token.Token token)
                      (sqliteParse (sqliteFormat (Token.ExpiresAt token))))),
             db1))
         /\ (sqliteParse (sqliteFormat (Token.ExpiresAt token)) <= sqlite_now e' ->
             auth.ValidateToken e' (Token.Token token) db1 = (Ok None, db1)).
Proof. exact issued_token_validates_until_expiry_aux. Qed.

(** X4.  A token issued by [VerifyAndCreateToken] is bound in one of two
    ways: to an active key row with the algorithm and public key of the
    call, whose account and id it carries; or, when no active row has the
    pair, to no account and to the key id "unregistered:" followed by the
    first 16 characters of the public key, which then has at least 16. *)
Theorem token_bound_to_registered_key :
  forall (lib : Lib) (s : auth.Service) (e : Env)
         (agentID alg publicKey challengeStr signature : string)
         (db db1 : DB) (token : Token.t),
    auth.VerifyAndCreateToken lib s e agentID alg publicKey challengeStr
      signature db = (Ok token, db1) ->
    (exists r,
        In r (tbl_account_keys db) /\ active r = true
        /\ key_pair r = (alg, publicKey)
        /\ Token.AccountID token = account_keys.account_id r
        /\ Token.KeyID token = account_keys.id r)
    \/ (~ bound db alg publicKey
        /\ Token.AccountID token = ""
        /\ Token.KeyID token
           = String.append "unregistered:" (substring 0 16 publicKey)
        /\ (16 <= String.length publicKey)%nat).
Proof.
  intros lib s e agentID alg publicKey challengeStr signature db db1 token Hok.
  apply VerifyAndCreateToken_ok_inv in Hok
    as (r & _ & _ & _ & _ & Hissue).
  apply issueToken_ok_inv in Hissue
    as (tokenBytes & AccountID & KeyID & _ & Hcreate & Hkey).
  apply CreateToken_ok_inv in Hcreate as (Hacc & Hkid & _).
  cbn [Token.AccountID Token.KeyID] in Hacc, Hkid.
  destruct Hkey as [(k & Hin & Hact & Hpair & -> & ->)
                   | (Hfree & -> & -> & Hlen)].
  - left. exists k. auto.
  - right. auto.
Qed.

(** X5.  DELETE /api/accounts/{id}/keys/{keyId} answers 200 only to a bearer
    token of the account in the path, for a key of that account other than
    the key of the token, and then the database is what [RevokeAccountKey]
    leaves; with any other answer the database is as it was. *)
Theorem key_revoked_only_by_owner :
  forall (e : Env) (r : api.Request unit) (db : DB),
    (api.status_of (fst (api.DeleteAccountKey e r db)) = Some api.StatusOK ->
     exists token key,
       fst (api.validateToken e r db) = Ok (Some token)
       /\ api.PathValue_id r <> ""
       /\ Token.AccountID token = api.PathValue_id r
       /\ fst (store.GetAccountKey (api.PathValue_keyId r) db) = Ok (Some key)
       /\ AccountKey.AccountID key = api.PathValue_id r
       /\ Token.KeyID token <> api.PathValue_keyId r
       /\ api.DeleteAccountKey e r db
          = (api.writeJSON api.StatusOK (api.DeleteKeyResponse true),
             snd (store.RevokeAccountKey (time_Now e) (api.PathValue_keyId r)
                    db)))
    /\ (api.status_of (fst (api.DeleteAccountKey e r db)) <> Some api.StatusOK ->
        snd (api.DeleteAccountKey e r db) = db).
Proof.
  intros e r db.
  destruct (api.DeleteAccountKey e r db) as [resp db'] eqn:HR.
  cbn [fst snd].
  unfold api.DeleteAccountKey in HR. cbv zeta in HR.
  destruct (api.PathValue_id r == "") eqn:Hid; cbn [orb] in HR.
  { injection HR as <- <-. split; [discriminate | reflexivity]. }
  destruct (api.PathValue_keyId r == "") eqn:Hkid.
  { injection HR as <- <-. split; [discriminate | reflexivity]. }
  unfold api.attempt at 1 in HR.
  pose proof (validateToken_pure e r db) as Hpure.
  destruct (api.validateToken e r db) as [[[token |] | err] db1] eqn:Hvalid;
    cbn [snd] in Hpure; subst db1;
    try (injection HR as <- <-; split; [discriminate | reflexivity]).
  destruct (Token.AccountID token != api.PathValue_id r) eqn:Howner.
  { injection HR as <- <-. split; [discriminate | reflexivity]. }
  unfold api.attempt at 1 in HR.
  destruct (store.GetAccountKey (api.PathValue_keyId r) db)
    as [[[key |] | err] db1] eqn:Hget;
    assert (db1 = db) as -> by
      (unfold store.GetAccountKey in Hget; destruct (find _ _) in Hget;
       congruence);
    try (injection HR as <- <-; split; [discriminate | reflexivity]).
  destruct (AccountKey.AccountID key != api.PathValue_id r) eqn:Hbelongs.
  { injection HR as <- <-. split; [discriminate | reflexivity]. }
  destruct (AccountKey.ID key == Token.KeyID token) eqn:Hinuse.
  { injection HR as <- <-. split; [discriminate | reflexivity]. }
  unfold api.attempt at 1 in HR. rewrite RevokeAccountKey_eq in HR.
  cbn [api.done] in HR. injection HR as <- <-.
  split; [| intro Hne; exfalso; apply Hne; reflexivity].
  intros _. exists token, key.
  apply negb_false_iff, String.eqb_eq in Howner, Hbelongs.
  apply String.eqb_neq in Hid, Hinuse.
  pose proof (GetAccountKey_id (api.PathValue_keyId r) db key) as Hkeyid.
  rewrite Hget in Hkeyid. specialize (Hkeyid eq_refl).
  rewrite RevokeAccountKey_eq. cbn [fst snd].
  repeat split; try assumption; try reflexivity.
  congruence.
Qed.

(** The row a successful [CreateAccountKey] appends, and the constraints
    it passed. *)
Lemma CreateAccountKey_ok_inv (uuid : string) (now : Time)
  (key key' : AccountKey.t) (db db' : DB) :
  store.CreateAccountKey uuid now key db = (Ok key', db') ->
  AccountKey.AccountID key' = AccountKey.AccountID key
  /\ AccountKey.Algorithm key' = AccountKey.Algorithm key
  /\ AccountKey.PublicKey key' = AccountKey.PublicKey key
  /\ tbl_accounts db' = tbl_accounts db
  /\ tbl_challenges db' = tbl_challenges db
  /\ tbl_tokens db' = tbl_tokens db
  /\ tbl_account_keys db'
     = tbl_account_keys db
       ++ [account_keys.mk (AccountKey.ID key') (AccountKey.AccountID key)
             (AccountKey.Algorithm key) (AccountKey.PublicKey key)
             (AccountKey.CreatedAt key') None]
  /\ ~ In (AccountKey.Algorithm key, AccountKey.PublicKey key)
         (map key_pair (tbl_account_keys db))
  /\ (exists a, In a (tbl_accounts db)
                /\ accounts.id a = AccountKey.AccountID key).
Proof.
  unfold store.CreateAccountKey.
  destruct (existsb (fun r => account_keys.id r == _) (tbl_account_keys db));
    [discriminate |].
  destruct (existsb _ (tbl_account_keys db)) eqn:Hpair; [discriminate |].
  destruct (existsb _ (tbl_accounts db)) eqn:Hfk; cbn [negb]; [| discriminate].
  intro Hok. injection Hok as <- <-.
  cbn [AccountKey.ID AccountKey.AccountID AccountKey.Algorithm
         AccountKey.PublicKey AccountKey.CreatedAt tbl_accounts
         tbl_account_keys tbl_challenges tbl_tokens].
  repeat split.
  - apply existsb_pair_false. exact Hpair.
  - apply existsb_exists in Hfk as (a & Ha & Hid).
    apply String.eqb_eq in Hid. exists a. auto.
Qed.

(** The outcomes of POST /api/accounts/{id}/keys: answered before the
    insert, with accounts and keys as they were, or 201 after every check
    and the insert. *)
Lemma AddAccountKey_outcome (lib : Lib) (h : api.Handler) (e : Env)
  (r : api.Request api.AddKeyRequest) (db : DB) :
  (api.status_of (fst (api.AddAccountKey lib h e r db))
   <> Some api.StatusCreated
   /\ same_registry db (snd (api.AddAccountKey lib h e r db)))
  \/ (exists account bearer req issued db1 key,
        api.PathValue_id r <> ""
        /\ fst (store.GetAccount (api.PathValue_id r) db) = Ok (Some account)
        /\ fst (api.validateToken e r db) = Ok (Some bearer)
        /\ Token.AccountID bearer = api.PathValue_id r
        /\ api.Body r = Some req
        /\ auth.VerifyAndCreateToken lib (api.h_auth h) e
             (Token.AgentID bearer) (api.ak_Algorithm req)
             (api.ak_PublicKey req) (api.ak_Challenge req)
             (api.ak_Signature req) db
           = (Ok issued, db1)
        /\ store.CreateAccountKey (uuid_New e 2) (time_Now e)
             (AccountKey.mk "" (api.PathValue_id r) (api.ak_Algorithm req)
                (api.ak_PublicKey req) zeroTime None) db1
           = (Ok key, snd (api.AddAccountKey lib h e r db))
        /\ fst (api.AddAccountKey lib h e r db)
           = api.writeJSON api.StatusCreated
               (api.AddKeyResponse (AccountKey.ID key))).
Proof.
  destruct (api.AddAccountKey lib h e r db) as [resp db'] eqn:HR.
  cbn [fst snd].
  unfold api.AddAccountKey in HR. cbv zeta in HR.
  destruct (api.PathValue_id r == "") eqn:Hid.
  { injection HR as <- <-. left.
    split; [discriminate | apply same_registry_refl]. }
  unfold api.attempt at 1 in HR.
  destruct (store.GetAccount (api.PathValue_id r) db)
    as [[[account |] | err] db0] eqn:Hget;
    assert (db0 = db) as -> by
      (unfold store.GetAccount in Hget; destruct (find _ _) in Hget;
       congruence);
    try (injection HR as <- <-; left;
         split; [discriminate | apply same_registry_refl]).
  unfold api.attempt at 1 in HR.
  pose proof (validateToken_pure e r db) as Hpure.
  destruct (api.validateToken e r db) as [[[bearer |] | err] db0] eqn:Hvalid;
    cbn [snd] in Hpure; subst db0;
    try (injection HR as <- <-; left;
         split; [discriminate | apply same_registry_refl]).
  destruct (Token.AccountID bearer != api.PathValue_id r) eqn:Howner.
  { injection HR as <- <-. left.
    split; [discriminate | apply same_registry_refl]. }
  destruct (api.Body r) as [req |] eqn:Hbody.
  2:{ injection HR as <- <-. left.
      split; [discriminate | apply same_registry_refl]. }
  destruct ((api.ak_PublicKey req == "") || (api.ak_Algorithm req == "")
            || (api.ak_Signature req == "") || (api.ak_Challenge req == "")).
  { injection HR as <- <-. left.
    split; [discriminate | apply same_registry_refl]. }
  unfold api.attempt at 1 in HR.
  pose proof (writes_VerifyAndCreateToken same_registry same_registry_refl
                same_registry_trans (fun _ _ H => H) lib (api.h_auth h) e
                (Token.AgentID bearer) (api.ak_Algorithm req)
                (api.ak_PublicKey req) (api.ak_Challenge req)
                (api.ak_Signature req) db) as Hsame.
  destruct (auth.VerifyAndCreateToken lib (api.h_auth h) e
              (Token.AgentID bearer) (api.ak_Algorithm req)
              (api.ak_PublicKey req) (api.ak_Challenge req)
              (api.ak_Signature req) db) as [[issued | err] db1] eqn:Hverify;
    cbn [snd] in Hsame.
  2:{ injection HR as <- <-. left.
      split; [destruct err; discriminate | exact Hsame]. }
  unfold api.attempt at 1, store.GetAccountKeyByPublicKey at 1 in HR.
  destruct (option_map store.scanAccountKey _) as [existingKey |].
  { injection HR as <- <-. left. split; [discriminate | exact Hsame]. }
  unfold api.attempt at 1 in HR.
  destruct (store.CreateAccountKey (uuid_New e 2) (time_Now e)
              (AccountKey.mk "" (api.PathValue_id r) (api.ak_Algorithm req)
                 (api.ak_PublicKey req) zeroTime None) db1)
    as [[key | err] db2] eqn:Hkey.
  2:{ apply CreateAccountKey_error_keeps in Hkey as ->.
      injection HR as <- <-. left. split; [discriminate | exact Hsame]. }
  injection HR as <- <-. right.
  exists account, bearer, req, issued, db1, key.
  apply negb_false_iff, String.eqb_eq in Howner.
  apply String.eqb_neq in Hid.
  repeat split; try assumption; reflexivity.
Qed.

(** X6.  POST /api/accounts/{id}/keys answers 201 only when the account
    exists, the bearer token belongs to it and [VerifyAndCreateToken]
    accepted the new key for the agent of the token; then exactly one key
    row, of that account, is appended.  With any other answer the accounts
    and the keys are as they were. *)
Theorem key_added_only_by_owner :
  forall (lib : Lib) (h : api.Handler) (e : Env)
         (r : api.Request api.AddKeyRequest) (db : DB),
    (api.status_of (fst (api.AddAccountKey lib h e r db))
     = Some api.StatusCreated ->
     exists account bearer req issued db1 keyID createdAt,
       fst (store.GetAccount (api.PathValue_id r) db) = Ok (Some account)
       /\ fst (api.validateToken e r db) = Ok (Some bearer)
       /\ Token.AccountID bearer = api.PathValue_id r
       /\ api.Body r = Some req
       /\ auth.VerifyAndCreateToken lib (api.h_auth h) e
            (Token.AgentID bearer) (api.ak_Algorithm req)
            (api.ak_PublicKey req) (api.ak_Challenge req)
            (api.ak_Signature req) db
          = (Ok issued, db1)
       /\ fst (api.AddAccountKey lib h e r db)
          = api.writeJSON api.StatusCreated (api.AddKeyResponse keyID)
       /\ tbl_accounts (snd (api.AddAccountKey lib h e r db)) = tbl_accounts db
       /\ tbl_account_keys (snd (api.AddAccountKey lib h e r db))
          = tbl_account_keys db
            ++ [account_keys.mk keyID (api.PathValue_id r)
                  (api.ak_Algorithm req) (api.ak_PublicKey req) createdAt
                  None])
    /\ (api.status_of (fst (api.AddAccountKey lib h e r db))
        <> Some api.StatusCreated ->
        same_registry db (snd (api.AddAccountKey lib h e r db))).
Proof.
  intros lib h e r db.
  destruct (AddAccountKey_outcome lib h e r db)
    as [[Hne Hsame]
       | (account & bearer & req & issued & db1 & key & Hid & Hget & Hvalid
          & Howner & Hbody & Hverify & Hkey & Hresp)].
  - split; [intro Hok; contradiction | intros _; exact Hsame].
  - split; [| intro Hne; rewrite Hresp in Hne; exfalso; apply Hne; reflexivity].
    intros _.
    pose proof (writes_VerifyAndCreateToken same_registry same_registry_refl
                  same_registry_trans (fun _ _ H => H) lib (api.h_auth h) e
                  (Token.AgentID bearer) (api.ak_Algorithm req)
                  (api.ak_PublicKey req) (api.ak_Challenge req)
                  (api.ak_Signature req) db) as [Hsame_a Hsame_k].
    rewrite Hverify in Hsame_a, Hsame_k. cbn [snd] in Hsame_a, Hsame_k.
    apply CreateAccountKey_ok_inv in Hkey
      as (_ & _ & _ & Haccounts & _ & _ & Hkeys & _).
    cbn [AccountKey.AccountID AccountKey.Algorithm AccountKey.PublicKey]
      in Hkeys.
    exists account, bearer, req, issued, db1, (AccountKey.ID key),
      (AccountKey.CreatedAt key).
    rewrite Haccounts, Hkeys, Hsame_a, Hsame_k.
    repeat split; assumption.
Qed.

(** ** A registered pair stays taken *)

Lemma CreateAccountKey_taken (uuid : string) (now : Time) (key : AccountKey.t)
  (db : DB) :
  In (AccountKey.Algorithm key, AccountKey.PublicKey key)
    (map key_pair (tbl_account_keys db)) ->
  exists err, store.CreateAccountKey uuid now key db = (Err err, db).
Proof.
  intro Hin. unfold store.CreateAccountKey.
  destruct (existsb (fun r => account_keys.id r == _) (tbl_account_keys db));
    [eexists; reflexivity |].
  destruct (existsb _ (tbl_account_keys db)) eqn:Hpair;
    [eexists; reflexivity |].
  apply existsb_pair_false in Hpair. contradiction.
Qed.

Lemma run_keeps_pair (lib : Lib) (h : api.Handler) (alg publicKey : string)
  (ops : list Op) (db : DB) :
  In (alg, publicKey) (map key_pair (tbl_account_keys db)) ->
  In (alg, publicKey) (map key_pair (tbl_account_keys (run lib h ops db))).
Proof.
  apply (run_related
           (fun db db' =>
              In (alg, publicKey) (map key_pair (tbl_account_keys db)) ->
              In (alg, publicKey) (map key_pair (tbl_account_keys db')))).
  - intros db0 H. exact H.
  - intros db1 db2 db3 H12 H23 H. auto.
  - intros db0 db' [_ Hkeys] H. rewrite Hkeys. exact H.
  - intros uuid now account db0 H. unfold store.CreateAccount.
    destruct (existsb _ _); exact H.
  - intros uuid now key db0 H. unfold store.CreateAccountKey.
    destruct (existsb _ (tbl_account_keys db0)); [exact H |].
    destruct (existsb _ (tbl_account_keys db0)); [exact H |].
    destruct (negb _); [exact H |].
    cbn [snd tbl_account_keys].
    rewrite map_app. apply in_or_app. left. exact H.
  - intros now id db0 H. rewrite RevokeAccountKey_eq.
    cbn [snd tbl_account_keys]. rewrite key_pair_revoke_row. exact H.
Qed.

(** X7.  A pair of algorithm and public key that is in the table of keys,
    revoked or not, stays in it along every run of operations;
    [CreateAccountKey] fails for it, and neither POST /api/accounts nor POST
    /api/accounts/{id}/keys answers 201 for it. *)
Theorem registered_pair_stays_taken :
  forall (lib : Lib) (h : api.Handler) (alg publicKey : string) (db : DB)
         (ops : list Op),
    In (alg, publicKey) (map key_pair (tbl_account_keys db)) ->
    In (alg, publicKey)
      (map key_pair (tbl_account_keys (run lib h ops db)))
    /\ (forall uuid now key,
          AccountKey.Algorithm key = alg ->
          AccountKey.PublicKey key = publicKey ->
          exists err,
            store.CreateAccountKey uuid now key (run lib h ops db)
            = (Err err, run lib h ops db))
    /\ (forall e r req,
          api.Body r = Some req ->
          api.ca_Algorithm req = alg -> api.ca_PublicKey req = publicKey ->
          api.status_of (fst (api.CreateAccount lib h e r (run lib h ops db)))
          <> Some api.StatusCreated)
    /\ (forall e r req,
          api.Body r = Some req ->
          api.ak_Algorithm req = alg -> api.ak_PublicKey req = publicKey ->
          api.status_of (fst (api.AddAccountKey lib h e r (run lib h ops db)))
          <> Some api.StatusCreated).
Proof.
  intros lib h alg publicKey db ops Hin0.
  pose proof (run_keeps_pair lib h alg publicKey ops db Hin0) as Hin.
  set (db' := run lib h ops db) in *. clearbody db'.
  split; [exact Hin |]. split; [| split].
  - intros uuid now key <- <-. apply CreateAccountKey_taken. exact Hin.
  - intros e r req Hbody <- <- Hcreated.
    pose proof (CreateAccount_outcome lib h e r db') as Hout.
    destruct (api.CreateAccount lib h e r db') as [resp db2].
    cbn [fst] in Hcreated.
    inversion Hout as [resp' db1 Hsame Hne Hstatus
                      | req' db1 db2' account err Hbody' Hsame Hfree Hacc Hkey
                      | req' db1 db2' db3 account key Hbody' Hsame Hfree Hacc
                          Hkey];
      subst.
    + contradiction.
    + discriminate Hcreated.
    + assert (req' = req) as -> by congruence.
      apply CreateAccountKey_ok_inv in Hkey
        as (_ & _ & _ & _ & _ & _ & _ & Hfresh & _).
      cbn [AccountKey.Algorithm AccountKey.PublicKey] in Hfresh.
      apply CreateAccount_ok in Hacc as (row & _ & Hkeys & _).
      destruct Hsame as [_ Hsame]. apply Hfresh.
      rewrite Hkeys, Hsame. exact Hin.
  - intros e r req Hbody <- <- Hcreated.
    destruct (AddAccountKey_outcome lib h e r db')
      as [[Hne _]
         | (account & bearer & req' & issued & db1 & key & _ & _ & _ & _
            & Hbody' & Hverify & Hkey & _)];
      [contradiction |].
    assert (req' = req) as -> by congruence.
    apply CreateAccountKey_ok_inv in Hkey
      as (_ & _ & _ & _ & _ & _ & _ & Hfresh & _).
    cbn [AccountKey.Algorithm AccountKey.PublicKey] in Hfresh.
    pose proof (writes_VerifyAndCreateToken same_registry same_registry_refl
                  same_registry_trans (fun _ _ H => H) lib (api.h_auth h) e
                  (Token.AgentID bearer) (api.ak_Algorithm req)
                  (api.ak_PublicKey req) (api.ak_Challenge req)
                  (api.ak_Signature req) db') as [_ Hsame].
    rewrite Hverify in Hsame. cbn [snd] in Hsame.
    apply Hfresh. rewrite Hsame. exact Hin.
Qed.

Lemma registered_pair_stays_taken_witness :
  In ("ed25519", Example.pk1)
    (map key_pair (tbl_account_keys Example.revoked))
  /\ api.status_of
       (fst (api.CreateAccount Example.lib Example.h
               (Example.env 1011 x1b "b") Example.create_with_pk1
               Example.revoked))
     <> Some api.StatusCreated.
Proof.
  destruct (registered_pair_stays_taken Example.lib Example.h "ed25519"
              Example.pk1 Example.challenged
              [ OpDeleteAccountKey (Example.env 1009 x1a "d")
                  (Example.post "" (Example.drawn x17) "a2" "a3" tt) ])
    as (Hin & _ & Hcreate & _).
  - vm_compute. left. reflexivity.
  - split; [exact Hin |].
    apply (Hcreate (Example.env 1011 x1b "b") Example.create_with_pk1
             (api.mkCreateAccountRequest "Agent Two" "" "" Example.pk1
                "ed25519" (Example.sign (Example.drawn x18))
                (Example.drawn x18)));
      reflexivity.
Defined.

(** ** A missing account or key *)

Lemma GetAccount_missing (id : string) (db : DB) :
  (forall a, In a (tbl_accounts db) -> accounts.id a <> id) ->
  store.GetAccount id db = (Err sql_ErrNoRows, db).
Proof.
  intro Hnone. unfold store.GetAccount.
  rewrite find_all_false; [reflexivity |].
  intros a Ha. apply String.eqb_neq. exact (Hnone a Ha).
Qed.

Lemma GetAccountKey_missing (id : string) (db : DB) :
  (forall k, In k (tbl_account_keys db) -> account_keys.id k <> id) ->
  store.GetAccountKey id db = (Err sql_ErrNoRows, db).
Proof.
  intro Hnone. unfold store.GetAccountKey.
  rewrite find_all_false; [reflexivity |].
  intros k Hk. apply String.eqb_neq. exact (Hnone k Hk).
Qed.

(** X8.  For an account or a key that is not in its table the store returns
    [sql.ErrNoRows], so GET /api/accounts/{id}, POST /api/accounts/{id}/keys
    and DELETE /api/accounts/{id}/keys/{keyId} answer 500 with "database
    error" and leave the database as it was; none of the three ever answers
    404. *)
Theorem missing_account_or_key_is_a_database_error :
  forall (lib : Lib) (h : api.Handler) (e : Env) (db : DB),
    (forall r : api.Request unit,
        api.PathValue_id r <> "" ->
        (forall a, In a (tbl_accounts db) -> accounts.id a <> api.PathValue_id r) ->
        api.GetAccount r db
        = (api.writeError api.StatusInternalServerError "database error", db))
    /\ (forall r : api.Request api.AddKeyRequest,
          api.PathValue_id r <> "" ->
          (forall a, In a (tbl_accounts db) ->
                     accounts.id a <> api.PathValue_id r) ->
          api.AddAccountKey lib h e r db
          = (api.writeError api.StatusInternalServerError "database error",
             db))
    /\ (forall (r : api.Request unit) (token : Token.t),
          api.PathValue_id r <> "" -> api.PathValue_keyId r <> "" ->
          fst (api.validateToken e r db) = Ok (Some token) ->
          Token.AccountID token = api.PathValue_id r ->
          (forall k, In k (tbl_account_keys db) ->
                     account_keys.id k <> api.PathValue_keyId r) ->
          api.DeleteAccountKey e r db
          = (api.writeError api.StatusInternalServerError "database error",
             db))
    /\ (forall (rg rd : api.Request unit) (ra : api.Request api.AddKeyRequest),
          api.status_of (fst (api.GetAccount rg db))
          <> Some api.StatusNotFound
          /\ api.status_of (fst (api.AddAccountKey lib h e ra db))
             <> Some api.StatusNotFound
          /\ api.status_of (fst (api.DeleteAccountKey e rd db))
             <> Some api.StatusNotFound).
Proof.
  intros lib h e db. split; [| split; [| split]].
  - intros r Hid Hnone. unfold api.GetAccount. cbv zeta.
    rewrite (eqb_empty_false _ Hid). unfold api.attempt.
    rewrite (GetAccount_missing _ _ Hnone). reflexivity.
  - intros r Hid Hnone. unfold api.AddAccountKey. cbv zeta.
    rewrite (eqb_empty_false _ Hid). unfold api.attempt at 1.
    rewrite (GetAccount_missing _ _ Hnone). reflexivity.
  - intros r token Hid Hkid Hvalid Howner Hnone.
    apply validateToken_run in Hvalid.
    unfold api.DeleteAccountKey. cbv zeta.
    rewrite (eqb_empty_false _ Hid), (eqb_empty_false _ Hkid). cbn [orb].
    unfold api.attempt at 1. rewrite Hvalid.
    rewrite Howner, String.eqb_refl. cbn [negb].
    unfold api.attempt at 1.
    rewrite (GetAccountKey_missing _ _ Hnone). reflexivity.
  - intros rg rd ra. split; [| split].
    + unfold api.GetAccount. cbv zeta.
      destruct (api.PathValue_id rg == ""); [discriminate |].
      unfold api.attempt, store.GetAccount.
      destruct (find _ _); discriminate.
    + destruct (api.AddAccountKey lib h e ra db) as [resp db'] eqn:HR.
      cbn [fst] in *.
      unfold api.AddAccountKey in HR. cbv zeta in HR.
      destruct (api.PathValue_id ra == "");
        [injection HR as <- <-; discriminate |].
      unfold api.attempt at 1, store.GetAccount in HR.
      destruct (find _ _); [| injection HR as <- <-; discriminate].
      unfold api.attempt at 1 in HR.
      destruct (api.validateToken e ra db) as [[[bearer |] | err] db0];
        try (injection HR as <- <-; discriminate).
      destruct (Token.AccountID bearer != api.PathValue_id ra);
        [injection HR as <- <-; discriminate |].
      destruct (api.Body ra) as [req |];
        [| injection HR as <- <-; discriminate].
      destruct ((api.ak_PublicKey req == "") || (api.ak_Algorithm req == "")
                || (api.ak_Signature req == "")
                || (api.ak_Challenge req == ""));
        [injection HR as <- <-; discriminate |].
      unfold api.attempt at 1 in HR.
      destruct (auth.VerifyAndCreateToken _ _ _ _ _ _ _ _ _)
        as [[issued | err] db1];
        [| injection HR as <- <-; destruct err; discriminate].
      unfold api.attempt at 1, store.GetAccountKeyByPublicKey at 1 in HR.
      destruct (option_map store.scanAccountKey _);
        [injection HR as <- <-; discriminate |].
      unfold api.attempt at 1 in HR.
      destruct (store.CreateAccountKey _ _ _ _) as [[key | err] db2];
        injection HR as <- <-; discriminate.
    + destruct (api.DeleteAccountKey e rd db) as [resp db'] eqn:HR.
      cbn [fst].
      unfold api.DeleteAccountKey in HR. cbv zeta in HR.
      destruct ((api.PathValue_id rd == "") || (api.PathValue_keyId rd == ""));
        [injection HR as <- <-; discriminate |].
      unfold api.attempt at 1 in HR.
      destruct (api.validateToken e rd db) as [[[token |] | err] db0];
        try (injection HR as <- <-; discriminate).
      destruct (Token.AccountID token != api.PathValue_id rd);
        [injection HR as <- <-; discriminate |].
      unfold api.attempt at 1, store.GetAccountKey in HR.
      destruct (find _ _) as [k |]; [| injection HR as <- <-; discriminate].
      destruct (AccountKey.AccountID (store.scanAccountKey k)
                != api.PathValue_id rd);
        [injection HR as <- <-; discriminate |].
      destruct (AccountKey.ID (store.scanAccountKey k) == Token.KeyID token);
        [injection HR as <- <-; discriminate |].
      unfold api.attempt at 1 in HR. rewrite RevokeAccountKey_eq in HR.
      injection HR as <- <-. discriminate.
Qed.

(** ** A verification that fails, and one that is accepted *)

Lemma CreateToken_frame (uuid : string) (token : Token.t) (db0 : DB) :
  tbl_accounts (snd (store.CreateToken uuid token db0)) = tbl_accounts db0
  /\ tbl_account_keys (snd (store.CreateToken uuid token db0))
     = tbl_account_keys db0
  /\ tbl_challenges (snd (store.CreateToken uuid token db0))
     = tbl_challenges db0.
Proof.
  unfold store.CreateToken.
  destruct (existsb _ _); [repeat split |].
  destruct (existsb _ _); repeat split.
Qed.

(** [issueToken] writes to [tokens] only. *)
Lemma issueToken_frame (s : auth.Service) (e : Env)
  (agentID alg publicKey : string) (db0 : DB) :
  tbl_accounts (snd (issueToken s e agentID alg publicKey db0))
  = tbl_accounts db0
  /\ tbl_account_keys (snd (issueToken s e agentID alg publicKey db0))
     = tbl_account_keys db0
  /\ tbl_challenges (snd (issueToken s e agentID alg publicKey db0))
     = tbl_challenges db0.
Proof.
  destruct (issueToken s e agentID alg publicKey db0) as [res db1] eqn:HI.
  cbn [snd].
  unfold issueToken, bind at 1, store.GetAccountKeyByPublicKey in HI.
  destruct (rand_Read e) as [tokenBytes | err];
    [| injection HI as _ <-; repeat split].
  destruct (option_map store.scanAccountKey _) as [accountKey |].
  - unfold bind, ret in HI.
    match type of HI with
    | context [store.CreateToken ?u ?t db0] =>
        pose proof (CreateToken_frame u t db0) as Hframe;
        destruct (store.CreateToken u t db0) as [[token | err] db2]
    end; injection HI as _ <-; exact Hframe.
  - destruct (auth.slice_to_16 publicKey) as [prefix | p];
      [| injection HI as _ <-; repeat split].
    unfold bind, ret in HI.
    match type of HI with
    | context [store.CreateToken ?u ?t db0] =>
        pose proof (CreateToken_frame u t db0) as Hframe;
        destruct (store.CreateToken u t db0) as [[token | err] db2]
    end; injection HI as _ <-; exact Hframe.
Qed.

(** X9.  When [verifySignature] does not accept the signature,
    [VerifyAndCreateToken] returns an error and leaves the database, the
    challenge included, as it was. *)
Theorem rejected_verification_keeps_the_challenge :
  forall (lib : Lib) (s : auth.Service) (e : Env)
         (agentID alg publicKey challengeStr signature : string) (db : DB),
    auth.verifySignature lib alg publicKey challengeStr signature <> Ok true ->
    snd (auth.VerifyAndCreateToken lib s e agentID alg publicKey challengeStr
           signature db) = db
    /\ exists err,
         fst (auth.VerifyAndCreateToken lib s e agentID alg publicKey
                challengeStr signature db) = Err err.
Proof.
  intros lib s e agentID alg publicKey challengeStr signature db Hsig.
  destruct (find (challenge_live challengeStr (sqlite_now e))
              (tbl_challenges db)) as [r |] eqn:Hfind.
  2:{ rewrite (verify_not_found lib s e agentID alg publicKey challengeStr
                 signature db Hfind). cbn. eauto. }
  destruct (After (time_Now e) (sqliteParse (challenges.expires_at r)))
    eqn:Hafter.
  { rewrite (verify_expired lib s e agentID alg publicKey challengeStr
               signature db r Hfind Hafter). cbn. eauto. }
  destruct ((challenges.agent_id r != agentID)
            || (challenges.algorithm r != alg)) eqn:Hmis.
  { rewrite (verify_mismatch lib s e agentID alg publicKey challengeStr
               signature db r Hfind Hafter Hmis). cbn. eauto. }
  destruct (auth.verifySignature lib alg publicKey challengeStr signature)
    as [[|] | err] eqn:Hv.
  - contradiction.
  - rewrite (verify_wrong_signature lib s e agentID alg publicKey challengeStr
               signature db r Hfind Hafter Hmis Hv). cbn. eauto.
  - rewrite (verify_rejected lib s e agentID alg publicKey challengeStr
               signature db r err Hfind Hafter Hmis Hv). cbn. eauto.
Qed.

Lemma rejected_verification_keeps_the_challenge_witness :
  snd (auth.VerifyAndCreateToken Example.lib Example.svc
         (Example.env 1011 x1b "t") "agent-2" "ed25519" Example.pk1
         (Example.drawn x18) (Example.sign "forged") Example.challenged)
  = Example.challenged
  /\ exists err,
       fst (auth.VerifyAndCreateToken Example.lib Example.svc
              (Example.env 1011 x1b "t") "agent-2" "ed25519" Example.pk1
              (Example.drawn x18) (Example.sign "forged") Example.challenged)
       = Err err.
Proof.
  apply rejected_verification_keeps_the_challenge.
  vm_compute. discriminate.
Defined.

(** X10.  When the challenge is found, in time and of the agent and
    algorithm of the call, and the signature is accepted,
    [VerifyAndCreateToken] deletes the challenge and leaves the accounts and
    the keys alone; the challenge is gone even when the random source then
    fails and no token is issued. *)
Theorem accepted_signature_consumes_the_challenge :
  forall (lib : Lib) (s : auth.Service) (e : Env)
         (agentID alg publicKey challengeStr signature : string) (db : DB)
         (c : Challenge.t),
    fst (store.GetChallenge (sqlite_now e) challengeStr db) = Ok (Some c) ->
    After (time_Now e) (Challenge.ExpiresAt c) = false ->
    Challenge.AgentID c = agentID -> Challenge.Algorithm c = alg ->
    auth.verifySignature lib alg publicKey challengeStr signature = Ok true ->
    tbl_challenges
      (snd (auth.VerifyAndCreateToken lib s e agentID alg publicKey
              challengeStr signature db))
    = filter (fun r => negb (challenges.id r == Challenge.ID c))
        (tbl_challenges db)
    /\ same_registry db
         (snd (auth.VerifyAndCreateToken lib s e agentID alg publicKey
                 challengeStr signature db))
    /\ (forall err,
          rand_Read e = Err err ->
          fst (auth.VerifyAndCreateToken lib s e agentID alg publicKey
                 challengeStr signature db) = Err err).
Proof.
  intros lib s e agentID alg publicKey challengeStr signature db c
    Hget Hafter Hagent Halg Hsig.
  unfold store.GetChallenge in Hget. cbn [fst] in Hget.
  fold (challenge_live challengeStr (sqlite_now e)) in Hget.
  destruct (find (challenge_live challengeStr (sqlite_now e))
              (tbl_challenges db)) as [r |] eqn:Hfind;
    cbn [option_map] in Hget; [| discriminate Hget].
  injection Hget as <-.
  cbn [store.scanChallenge Challenge.ExpiresAt Challenge.AgentID
         Challenge.Algorithm Challenge.ID] in *.
  rewrite (verify_accepted lib s e agentID alg publicKey challengeStr
             signature db r Hfind Hafter).
  2:{ rewrite Hagent, Halg, !String.eqb_refl. reflexivity. }
  2:{ exact Hsig. }
  destruct (issueToken_frame s e agentID alg publicKey
              (snd (store.DeleteChallenge (challenges.id r) db)))
    as (Ha & Hk & Hc).
  split; [rewrite Hc; reflexivity |].
  split; [split; [rewrite Ha | rewrite Hk]; reflexivity |].
  intros err Hrand. unfold issueToken, bind at 1,
    store.GetAccountKeyByPublicKey.
  rewrite Hrand. reflexivity.
Qed.

Lemma accepted_signature_consumes_the_challenge_witness :
  let e := mkEnv (1011 * Second) (1011 * Second)
             (Err (errorString "unexpected EOF")) (fun _ => "t") in
  let out :=
    auth.VerifyAndCreateToken Example.lib Example.svc e "agent-2" "ed25519"
      Example.pk1 (Example.drawn x18) (Example.sign (Example.drawn x18))
      Example.challenged in
  tbl_challenges (snd out)
  = filter (fun r => negb (challenges.id r == "c50"))
      (tbl_challenges Example.challenged)
  /\ same_registry Example.challenged (snd out)
  /\ (forall err,
        rand_Read e = Err err ->
        fst out = Err err).
Proof.
  cbv zeta.
  apply (accepted_signature_consumes_the_challenge Example.lib Example.svc
           (mkEnv (1011 * Second) (1011 * Second)
              (Err (errorString "unexpected EOF")) (fun _ => "t"))
           "agent-2" "ed25519" Example.pk1 (Example.drawn x18)
           (Example.sign (Example.drawn x18)) Example.challenged
           (Challenge.mk "c50" "agent-2" "ed25519" (Example.drawn x18)
              (sqliteParse 1308)));
    vm_compute; reflexivity.
Defined.

(** ** The prefix of an Ed25519 key *)

(** Four characters decode to at most three bytes. *)
Lemma decodeQuanta_length (c62 c63 : N) (src : list ascii) :
  forall bs,
    base64.decodeQuanta c62 c63 src = Some bs ->
    (4 * List.length bs <= 3 * List.length src)%nat.
Proof.
  assert (forall n src bs,
             (List.length src <= n)%nat ->
             base64.decodeQuanta c62 c63 src = Some bs ->
             (4 * List.length bs <= 3 * List.length src)%nat) as Hall.
  { clear src. induction n as [| n IH]; intros src bs Hn Hdec.
    - destruct src; [| cbn in Hn; lia].
      cbn in Hdec. injection Hdec as <-. cbn. lia.
    - destruct src as [| a [| b [| c [| d rest]]]]; cbn in Hdec;
        try discriminate Hdec.
      + injection Hdec as <-. cbn. lia.
      + destruct (base64.decodeMap c62 c63 a) as [x |]; [| discriminate Hdec].
        destruct (base64.decodeMap c62 c63 b) as [y |]; [| discriminate Hdec].
        destruct (base64.decodeMap c62 c63 c) as [z |].
        * destruct (base64.decodeMap c62 c63 d) as [w |].
          -- destruct (base64.decodeQuanta c62 c63 rest) as [tl |] eqn:Hrest;
               [| discriminate Hdec].
             injection Hdec as <-.
             assert (4 * List.length tl <= 3 * List.length rest)%nat.
             { apply IH; [cbn in Hn; lia | exact Hrest]. }
             cbn [List.length]. lia.
          -- destruct (Ascii.eqb d base64.padChar); [| discriminate Hdec].
             destruct rest; [| discriminate Hdec].
             injection Hdec as <-. cbn. lia.
        * destruct (Ascii.eqb c base64.padChar && Ascii.eqb d base64.padChar);
            [| discriminate Hdec].
          destruct rest; [| discriminate Hdec].
          injection Hdec as <-. cbn. lia. }
  intros bs. apply (Hall (List.length src)). lia.
Qed.

Lemma length_list_ascii_of_string (s : string) :
  List.length (list_ascii_of_string s) = String.length s.
Proof. induction s as [| c s IH]; cbn; congruence. Qed.

Lemma DecodeString_length (c62 c63 : N) (s : string) (bs : bytes) :
  base64.DecodeString c62 c63 s = Some bs ->
  (4 * List.length bs <= 3 * String.length s)%nat.
Proof.
  unfold base64.DecodeString. intro Hdec.
  apply decodeQuanta_length in Hdec.
  pose proof (filter_length_le (fun c => negb (base64.isNewline c))
                (list_ascii_of_string s)) as Hle.
  rewrite length_list_ascii_of_string in Hle. lia.
Qed.

(** A key the Ed25519 verifier gets past has at least 43 characters. *)
Lemma verifyEd25519_key_length (lib : Lib)
  (publicKeyStr message signatureStr : string) (b : bool) :
  auth.verifyEd25519 lib publicKeyStr message signatureStr = Ok b ->
  (43 <= String.length publicKeyStr)%nat.
Proof.
  unfold auth.verifyEd25519.
  destruct (base64.StdEncoding_DecodeString publicKeyStr)
    as [publicKeyBytes |] eqn:Hdec; [| discriminate].
  destruct (Nat.eqb (List.length publicKeyBytes) ed25519_PublicKeySize)
    eqn:Hlen; cbn [negb]; [| discriminate].
  intros _. apply Nat.eqb_eq in Hlen. unfold ed25519_PublicKeySize in Hlen.
  apply DecodeString_length in Hdec. lia.
Qed.

Lemma verifyEd25519_errors (lib : Lib)
  (publicKeyStr message signatureStr : string) (err : error) :
  auth.verifyEd25519 lib publicKeyStr message signatureStr = Err err ->
  err = ErrInvalidPublicKey \/ err = ErrInvalidSignature.
Proof.
  unfold auth.verifyEd25519.
  destruct (base64.StdEncoding_DecodeString publicKeyStr);
    [| intro H; injection H as <-; auto].
  destruct (negb _); [intro H; injection H as <-; auto |].
  destruct (base64.StdEncoding_DecodeString signatureStr);
    [discriminate | intro H; injection H as <-; auto].
Qed.

Lemma CreateToken_errors (uuid : string) (token : Token.t) (db db' : DB)
  (err : error) :
  store.CreateToken uuid token db = (Err err, db') ->
  exists what, err = store.constraint_failed what.
Proof.
  unfold store.CreateToken.
  destruct (existsb _ _);
    [intro H; injection H as <- _; eexists; reflexivity |].
  destruct (existsb _ _);
    [intro H; injection H as <- _; eexists; reflexivity | discriminate].
Qed.

(** X11.  With the algorithm ed25519, [VerifyAndCreateToken] does not panic,
    whatever the public key, the challenge and the signature are, unless the
    random source does: the slice [publicKey[:16]] is taken only of a key
    that passed the length check of [verifyEd25519]. *)
Theorem ed25519_verification_never_panics :
  forall (lib : Lib) (s : auth.Service) (e : Env)
         (agentID publicKey challengeStr signature : string) (db : DB),
    (forall msg, rand_Read e <> Err (runtime_panic msg)) ->
    forall msg,
      fst (auth.VerifyAndCreateToken lib s e agentID auth.AlgEd25519 publicKey
             challengeStr signature db)
      <> Err (runtime_panic msg).
Proof.
  intros lib s e agentID publicKey challengeStr signature db Hrand msg.
  destruct (find (challenge_live challengeStr (sqlite_now e))
              (tbl_challenges db)) as [r |] eqn:Hfind.
  2:{ rewrite (verify_not_found lib s e agentID auth.AlgEd25519 publicKey
                 challengeStr signature db Hfind). discriminate. }
  destruct (After (time_Now e) (sqliteParse (challenges.expires_at r)))
    eqn:Hafter.
  { rewrite (verify_expired lib s e agentID auth.AlgEd25519 publicKey
               challengeStr signature db r Hfind Hafter). discriminate. }
  destruct ((challenges.agent_id r != agentID)
            || (challenges.algorithm r != auth.AlgEd25519)) eqn:Hmis.
  { rewrite (verify_mismatch lib s e agentID auth.AlgEd25519 publicKey
               challengeStr signature db r Hfind Hafter Hmis). discriminate. }
  assert (auth.verifySignature lib auth.AlgEd25519 publicKey challengeStr
            signature
          = auth.verifyEd25519 lib publicKey challengeStr signature) as Hsw
    by reflexivity.
  destruct (auth.verifySignature lib auth.AlgEd25519 publicKey challengeStr
              signature) as [[|] | err] eqn:Hv.
  - rewrite (verify_accepted lib s e agentID auth.AlgEd25519 publicKey
               challengeStr signature db r Hfind Hafter Hmis Hv).
    symmetry in Hsw. apply verifyEd25519_key_length in Hsw.
    destruct (issueToken s e agentID auth.AlgEd25519 publicKey
                (snd (store.DeleteChallenge (challenges.id r) db)))
      as [[token | err] db1] eqn:HI; cbn [fst]; [discriminate |].
    unfold issueToken, bind at 1, store.GetAccountKeyByPublicKey in HI.
    destruct (rand_Read e) as [tokenBytes | err'] eqn:Hr.
    2:{ injection HI as <- _. intro Hp. injection Hp as ->.
        apply (Hrand msg). reflexivity. }
    destruct (option_map store.scanAccountKey _) as [accountKey |].
    + unfold bind, ret in HI.
      destruct (store.CreateToken _ _ _) as [[token | err'] db2] eqn:Hc;
        [discriminate HI |].
      injection HI as <- _.
      apply CreateToken_errors in Hc as [what ->]. discriminate.
    + unfold auth.slice_to_16 in HI.
      replace (String.length publicKey <? 16)%nat with false in HI
        by (symmetry; apply Nat.ltb_ge; lia).
      unfold bind, ret in HI.
      destruct (store.CreateToken _ _ _) as [[token | err'] db2] eqn:Hc;
        [discriminate HI |].
      injection HI as <- _.
      apply CreateToken_errors in Hc as [what ->]. discriminate.
  - rewrite (verify_wrong_signature lib s e agentID auth.AlgEd25519 publicKey
               challengeStr signature db r Hfind Hafter Hmis Hv).
    discriminate.
  - rewrite (verify_rejected lib s e agentID auth.AlgEd25519 publicKey
               challengeStr signature db r err Hfind Hafter Hmis Hv).
    symmetry in Hsw. apply verifyEd25519_errors in Hsw as [-> | ->];
      discriminate.
Qed.

Lemma ed25519_verification_never_panics_witness :
  fst (auth.VerifyAndCreateToken Example.lib Example.svc
         (Example.env 1011 x1b "t") "agent-2" auth.AlgEd25519 Example.pk1
         (Example.drawn x18) (Example.sign (Example.drawn x18))
         Example.challenged)
  <> Err (runtime_panic "slice bounds out of range").
Proof.
  apply ed25519_verification_never_panics.
  intro msg. discriminate.
Defined.

(** ** Deleting expired tokens *)

Lemma find_filter {A : Type} (p q : A -> bool) (l : list A) :
  (forall x, In x l -> p x = true -> q x = true) ->
  find p (filter q l) = find p l.
Proof.
  induction l as [| x l IH]; intro Hpq; [reflexivity |].
  cbn [filter find].
  assert (find p (filter q l) = find p l) as IH'
    by (apply IH; intros y Hy; apply Hpq; right; exact Hy).
  destruct (p x) eqn:Hp.
  - rewrite (Hpq x (or_introl eq_refl) Hp). cbn [find]. rewrite Hp.
    reflexivity.
  - destruct (q x); cbn [find]; [rewrite Hp |]; exact IH'.
Qed.

Lemma sqliteFormat_mono (t u : Time) : t <= u -> sqliteFormat t <= sqliteFormat u.
Proof.
  intro H. unfold sqliteFormat. apply Z.div_le_mono; [reflexivity | exact H].
Qed.

(** X12.  [DeleteExpiredTokens] returns no error, touches only the table of
    tokens, keeps exactly the rows that do not expire before the second of
    the database clock, and no [ValidateToken] at that time or later can
    tell the difference. *)
Theorem DeleteExpiredTokens_keeps_live_tokens :
  forall (now : Time) (db : DB),
    let db' := snd (store.DeleteExpiredTokens now db) in
    fst (store.DeleteExpiredTokens now db) = Ok tt
    /\ tbl_accounts db' = tbl_accounts db
    /\ tbl_account_keys db' = tbl_account_keys db
    /\ tbl_challenges db' = tbl_challenges db
    /\ (forall r,
          In r (tbl_tokens db') <->
          In r (tbl_tokens db) /\ sqliteFormat now <= tokens.expires_at r)
    /\ (forall e tokenStr,
          now <= sqlite_now e ->
          fst (auth.ValidateToken e tokenStr db')
          = fst (auth.ValidateToken e tokenStr db)).
Proof.
  intros now db db'. subst db'. unfold store.DeleteExpiredTokens.
  cbn [fst snd tbl_accounts tbl_account_keys tbl_challenges tbl_tokens].
  repeat split.
  - apply filter_In in H. apply H.
  - apply filter_In in H as [_ H]. apply negb_true_iff, Z.ltb_ge in H.
    exact H.
  - intros [Hin Hle]. apply filter_In. split; [exact Hin |].
    apply negb_true_iff, Z.ltb_ge. exact Hle.
  - intros e tokenStr Hclock. rewrite !ValidateToken_eq.
    cbn [fst tbl_tokens]. f_equal. f_equal.
    apply find_filter. intros r _ Hlive.
    unfold token_live in Hlive. apply andb_true_iff in Hlive as [_ Hexp].
    apply Z.gtb_lt in Hexp. apply negb_true_iff, Z.ltb_ge.
    pose proof (sqliteFormat_mono now (sqlite_now e) Hclock). lia.
Qed.

(** ** An account that was created is served *)

(** X13.  After POST /api/accounts answered 201 with an account id that is
    not empty, GET /api/accounts/{id} serves the account with the display
    name, the bio and the homepage of the request,
    [GetAccountKeyByPublicKey] finds the new key under the pair of the
    request, and [ListAccountKeys] lists it. *)
Theorem created_account_is_served :
  forall (lib : Lib) (h : api.Handler) (e : Env)
         (r : api.Request api.CreateAccountRequest) (db : DB)
         (req : api.CreateAccountRequest) (accountID keyID : string),
    api.Body r = Some req ->
    fst (api.CreateAccount lib h e r db)
    = api.writeJSON api.StatusCreated
        (api.CreateAccountResponse accountID keyID) ->
    accountID <> "" ->
    let db' := snd (api.CreateAccount lib h e r db) in
    (forall r' : api.Request unit,
        api.PathValue_id r' = accountID ->
        api.GetAccount r' db'
        = (api.writeJSON api.StatusOK
             (api.AccountJSON
                (Account.mk accountID (api.ca_DisplayName req)
                   (api.ca_Bio req) (api.ca_HomepageURL req) (time_Now e))),
           db'))
    /\ fst (store.GetAccountKeyByPublicKey (api.ca_Algorithm req)
              (api.ca_PublicKey req) db')
       = Ok (Some (AccountKey.mk keyID accountID (api.ca_Algorithm req)
                     (api.ca_PublicKey req) (time_Now e) None))
    /\ (exists keys,
          fst (store.ListAccountKeys accountID db') = Ok keys
          /\ In (AccountKey.mk keyID accountID (api.ca_Algorithm req)
                   (api.ca_PublicKey req) (time_Now e) None) keys).
Proof.
  intros lib h e r db req accountID keyID Hbody Hresp Hid db'. subst db'.
  pose proof (CreateAccount_outcome lib h e r db) as Hout.
  destruct (api.CreateAccount lib h e r db) as [resp db'].
  cbn [fst snd] in *. subst resp.
  inversion Hout as [resp db1 Hsame Hne Hstatus
                    | req' db1 db2 account err Hbody' Hsame Hfree Hacc Hkey
                    | req' db1 db2 db3 account key Hbody' Hsame Hfree Hacc
                        Hkey];
    subst.
  { exfalso. apply Hstatus. reflexivity. }
  assert (req' = req) as -> by congruence.
  unfold store.CreateAccount in Hacc.
  cbn [Account.ID Account.CreatedAt Account.DisplayName Account.Bio
         Account.HomepageURL] in Hacc.
  change (IsZero zeroTime) with true in Hacc.
  change ("" == "") with true in Hacc. cbv iota in Hacc.
  destruct (existsb _ (tbl_accounts db1)) eqn:Hdup; [discriminate Hacc |].
  injection Hacc as <- <-.
  cbn [Account.ID] in *.
  unfold store.CreateAccountKey in Hkey.
  cbn [AccountKey.ID AccountKey.CreatedAt AccountKey.AccountID
         AccountKey.Algorithm AccountKey.PublicKey AccountKey.RevokedAt
         tbl_account_keys tbl_accounts tbl_challenges tbl_tokens] in Hkey.
  change (IsZero zeroTime) with true in Hkey.
  change ("" == "") with true in Hkey. cbv iota in Hkey.
  destruct (existsb (fun r => account_keys.id r == _) (tbl_account_keys db1));
    [discriminate Hkey |].
  destruct (existsb _ (tbl_account_keys db1)); [discriminate Hkey |].
  destruct (negb _); [discriminate Hkey |].
  injection Hkey as <- <-.
  cbn [AccountKey.ID].
  split; [| split].
  - intros r' Hr'. unfold api.GetAccount. cbv zeta. rewrite Hr'.
    rewrite (eqb_empty_false _ Hid).
    unfold api.attempt, store.GetAccount. cbn [tbl_accounts].
    rewrite find_snoc_fresh.
    + unfold store.scanAccount.
      cbn [accounts.id accounts.display_name accounts.bio
             accounts.homepage_url accounts.created_at].
      rewrite !NullString_roundtrip. reflexivity.
    + apply existsb_false_all. exact Hdup.
    + cbn [accounts.id]. apply String.eqb_refl.
  - unfold store.GetAccountKeyByPublicKey. cbn [fst tbl_account_keys].
    rewrite find_snoc_fresh.
    + reflexivity.
    + intros k Hk.
      destruct ((account_keys.algorithm k == api.ca_Algorithm req)
                && (account_keys.public_key k == api.ca_PublicKey req)
                && store.isNull (account_keys.revoked_at k)) eqn:Hp;
        [| reflexivity].
      exfalso. apply Hfree.
      apply andb_true_iff in Hp as [Hp Hnull].
      apply andb_true_iff in Hp as [Halg Hpk].
      apply String.eqb_eq in Halg, Hpk.
      exists k. unfold active, key_pair. repeat split; congruence.
    + cbn [account_keys.algorithm account_keys.public_key
             account_keys.revoked_at store.isNull].
      rewrite !String.eqb_refl. reflexivity.
  - unfold store.ListAccountKeys. cbn [fst tbl_account_keys].
    eexists. split; [reflexivity |].
    apply in_map_iff. eexists. split; [| apply filter_In; split].
    2:{ apply in_or_app. right. left. reflexivity. }
    + reflexivity.
    + cbn [account_keys.account_id]. apply String.eqb_refl.
Qed.

Lemma created_account_is_served_witness :
  let db :=
    run Example.lib Example.h
      [ OpCreateChallenge (Example.env 1000 x10 "c1") "agent-1" "ed25519" ]
      emptyDB in
  let e := Example.env 1001 x11 "a" in
  let r :=
    Example.post "agent-1" "" "" ""
      (api.mkCreateAccountRequest "Agent One" "bio" "" Example.pk1 "ed25519"
         (Example.sign (Example.drawn x10)) (Example.drawn x10)) in
  let db' := snd (api.CreateAccount Example.lib Example.h e r db) in
  (forall r' : api.Request unit,
      api.PathValue_id r' = "a2" ->
      api.GetAccount r' db'
      = (api.writeJSON api.StatusOK
           (api.AccountJSON
              (Account.mk "a2" "Agent One" "bio" "" (1001 * Second))),
         db'))
  /\ fst (store.GetAccountKeyByPublicKey "ed25519" Example.pk1 db')
     = Ok (Some (AccountKey.mk "a3" "a2" "ed25519" Example.pk1
                   (1001 * Second) None))
  /\ (exists keys,
        fst (store.ListAccountKeys "a2" db') = Ok keys
        /\ In (AccountKey.mk "a3" "a2" "ed25519" Example.pk1
                 (1001 * Second) None) keys).
Proof.
  cbv zeta.
  apply (created_account_is_served Example.lib Example.h
           (Example.env 1001 x11 "a")
           (Example.post "agent-1" "" "" ""
              (api.mkCreateAccountRequest "Agent One" "bio" "" Example.pk1
                 "ed25519" (Example.sign (Example.drawn x10))
                 (Example.drawn x10)))
           (run Example.lib Example.h
              [ OpCreateChallenge (Example.env 1000 x10 "c1") "agent-1"
                  "ed25519" ]
              emptyDB)
           (api.mkCreateAccountRequest "Agent One" "bio" "" Example.pk1
              "ed25519" (Example.sign (Example.drawn x10))
              (Example.drawn x10))
           "a2" "a3").
  - reflexivity.
  - vm_compute. reflexivity.
  - discriminate.
Defined.

(** ** The two lists of algorithms *)

Lemma parseRSAPublicKey_errors (lib : Lib) (publicKeyStr : string)
  (err : error) :
  auth.parseRSAPublicKey lib publicKeyStr = Err err -> err = ErrInvalidPublicKey.
Proof.
  unfold auth.parseRSAPublicKey.
  destruct (pem_Decode lib _) as [block_Bytes |].
  - destruct (x509_ParsePKIXPublicKey lib block_Bytes) as [[k |] |];
      intro H; try discriminate H; injection H as <-; reflexivity.
  - destruct (base64.StdEncoding_DecodeString publicKeyStr) as [derBytes |];
      [| intro H; injection H as <-; reflexivity].
    destruct (x509_ParsePKIXPublicKey lib derBytes) as [[k |] |];
      intro H; try discriminate H; injection H as <-; reflexivity.
Qed.

(** X14.  [verifySignature] returns [ErrInvalidAlgorithm] exactly for the
    algorithms [isValidAlgorithm] rejects, whatever the key, the message and
    the signature are. *)
Theorem algorithm_lists_agree :
  forall (lib : Lib) (alg publicKeyStr message signatureStr : string),
    auth.isValidAlgorithm alg = false
    <-> auth.verifySignature lib alg publicKeyStr message signatureStr
        = Err ErrInvalidAlgorithm.
Proof.
  intros lib alg publicKeyStr message signatureStr.
  unfold auth.isValidAlgorithm, auth.verifySignature.
  destruct (alg == auth.AlgEd25519) eqn:E1; cbn [orb].
  { split; [discriminate |]. intro H.
    apply verifyEd25519_errors in H as [H | H]; discriminate H. }
  destruct (alg == auth.AlgSecp256k1) eqn:E2; cbn [orb].
  { split; [discriminate |].
    destruct (alg == auth.AlgRSAPSS) eqn:E3.
    { apply String.eqb_eq in E2, E3. subst alg. discriminate E3. }
    destruct (alg == auth.AlgRSASHA256) eqn:E4.
    { apply String.eqb_eq in E2, E4. subst alg. discriminate E4. }
    discriminate. }
  destruct (alg == auth.AlgRSAPSS) eqn:E3; cbn [orb].
  { split; [discriminate |]. unfold auth.verifyRSAPSS.
    destruct (auth.parseRSAPublicKey lib publicKeyStr) as [k | err] eqn:Hp.
    - destruct (base64.StdEncoding_DecodeString signatureStr); discriminate.
    - apply parseRSAPublicKey_errors in Hp as ->. discriminate. }
  destruct (alg == auth.AlgRSASHA256) eqn:E4; cbn [orb].
  { split; [discriminate |]. unfold auth.verifyRSASHA256.
    destruct (auth.parseRSAPublicKey lib publicKeyStr) as [k | err] eqn:Hp.
    - destruct (base64.StdEncoding_DecodeString signatureStr); discriminate.
    - apply parseRSAPublicKey_errors in Hp as ->. discriminate. }
  split; reflexivity.
Qed.

(** ** The access token, sent back *)

Lemma substring_all (s : string) : substring 0 (String.length s) s = s.
Proof. induction s as [| c s IH]; cbn; [reflexivity | rewrite IH; reflexivity]. Qed.

(** [getToken] on a header ["Bearer " ++ t] is [t]. *)
Lemma getToken_Bearer {B : Type} (r : api.Request B) (t : string) :
  api.Header_Authorization r = String.append "Bearer " t ->
  api.getToken r = t.
Proof.
  intro Hh. unfold api.getToken. rewrite Hh. cbn.
  replace (prefix "" t) with true by (destruct t; reflexivity).
  rewrite Nat.sub_0_r. apply substring_all.
Qed.

(** X15.  An access token, not empty, that POST /api/auth/verify returns
    with 200 authenticates later requests: a request that sends it as bearer
    token validates to a token with the key id and the account id of the
    answer and the agent of the verify request while the database clock is
    before the expiry, and to no token from the expiry on. *)
Theorem access_token_authenticates :
  forall (lib : Lib) (h : api.Handler) (e : Env)
         (r : api.Request api.VerifyRequest) (db : DB)
         (accessToken keyID accountID : string) (expiresAt : Time),
    fst (api.VerifyChallenge lib h e r db)
    = api.writeJSON api.StatusOK
        (api.VerifyResponse accessToken expiresAt keyID accountID) ->
    accessToken <> "" ->
    forall (B : Type) (r' : api.Request B) (e' : Env),
      api.Header_Authorization r' = String.append "Bearer " accessToken ->
      (sqlite_now e' < sqliteParse (sqliteFormat expiresAt) ->
       exists token,
         fst (api.validateToken e' r'
                (snd (api.VerifyChallenge lib h e r db)))
         = Ok (Some token)
         /\ Token.Token token = accessToken
         /\ Token.KeyID token = keyID
         /\ Token.AccountID token = accountID
         /\ (forall req, api.Body r = Some req ->
                         Token.AgentID token = api.vr_AgentID req))
      /\ (sqliteParse (sqliteFormat expiresAt) <= sqlite_now e' ->
          fst (api.validateToken e' r'
                 (snd (api.VerifyChallenge lib h e r db)))
          = Ok None).
Proof.
  intros lib h e r db accessToken keyID accountID expiresAt Hresp Hne
    B r' e' Hheader.
  destruct (api.VerifyChallenge lib h e r db) as [resp db'] eqn:HR.
  cbn [fst snd] in *. subst resp.
  unfold api.VerifyChallenge in HR.
  destruct (api.Body r) as [req |]; [| discriminate HR].
  destruct ((api.vr_AgentID req == "") || (api.vr_Algorithm req == "")
            || (api.vr_PublicKey req == "") || (api.vr_Challenge req == "")
            || (api.vr_Signature req == "")); [discriminate HR |].
  unfold api.attempt in HR.
  destruct (auth.VerifyAndCreateToken lib (api.h_auth h) e (api.vr_AgentID req)
              (api.vr_Algorithm req) (api.vr_PublicKey req)
              (api.vr_Challenge req) (api.vr_Signature req) db)
    as [[token | err] db1] eqn:Hverify.
  2:{ destruct err; discriminate HR. }
  cbn [api.done] in HR. injection HR as <- <- <- <- <-.
  destruct (issued_token_validates_until_expiry_aux lib (api.h_auth h) e
              (api.vr_AgentID req) (api.vr_Algorithm req)
              (api.vr_PublicKey req) (api.vr_Challenge req)
              (api.vr_Signature req) db db1 token Hverify)
    as (Hagent & _ & Hvalidate).
  destruct (Hvalidate e') as [Hlive Hdead].
  unfold api.validateToken. rewrite (getToken_Bearer r' _ Hheader).
  rewrite (eqb_empty_false _ Hne).
  split; intro Hclock.
  - rewrite (Hlive Hclock). cbn [fst]. eexists. split; [reflexivity |].
    cbn [Token.Token Token.KeyID Token.AccountID Token.AgentID].
    repeat split. intros req' Hreq'. injection Hreq' as <-. exact Hagent.
  - rewrite (Hdead Hclock). reflexivity.
Qed.

Lemma access_token_authenticates_witness :
  let r :=
    Example.post "" "" "" ""
      (api.mkVerifyRequest "agent-2" "ed25519" Example.pk1 (Example.drawn x18)
         (Example.sign (Example.drawn x18))) in
  let db' :=
    snd (api.VerifyChallenge Example.lib Example.h (Example.env 1011 x1b "t")
           r Example.challenged) in
  let r' := Example.post "" (Example.drawn x1b) "" "" tt in
  let e' := Example.env 2000 x00 "v" in
  (sqlite_now e' < sqliteParse (sqliteFormat (87411 * Second)) ->
   exists token,
     fst (api.validateToken e' r' db') = Ok (Some token)
     /\ Token.Token token = Example.drawn x1b
     /\ Token.KeyID token = "a3"
     /\ Token.AccountID token = "a2"
     /\ (forall req, api.Body r = Some req ->
                     Token.AgentID token = api.vr_AgentID req))
  /\ (sqliteParse (sqliteFormat (87411 * Second)) <= sqlite_now e' ->
      fst (api.validateToken e' r' db') = Ok None).
Proof.
  cbv zeta.
  apply (access_token_authenticates Example.lib Example.h
           (Example.env 1011 x1b "t")
           (Example.post "" "" "" ""
              (api.mkVerifyRequest "agent-2" "ed25519" Example.pk1
                 (Example.drawn x18) (Example.sign (Example.drawn x18))))
           Example.challenged (Example.drawn x1b) "a3" "a2" (87411 * Second)).
  - vm_compute. reflexivity.
  - vm_compute. discriminate.
  - vm_compute. reflexivity.
Defined.

Lemma issued_token_validates_until_expiry_witness :
  let out :=
    auth.VerifyAndCreateToken Example.lib Example.svc
      (Example.env 1011 x1b "t") "agent-2" "ed25519" Example.pk1
      (Example.drawn x18) (Example.sign (Example.drawn x18))
      Example.challenged in
  let token :=
    Token.mk "t0" "a2" "a3" "agent-2" (Example.drawn x1b) (87411 * Second) in
  Token.AgentID token = "agent-2"
  /\ Token.ExpiresAt token
     = Add (time_Now (Example.env 1011 x1b "t")) (auth.tokenTTL Example.svc)
  /\ forall e' : Env,
       (sqlite_now e' < sqliteParse (sqliteFormat (Token.ExpiresAt token)) ->
        auth.ValidateToken e' (Token.Token token) (snd out)
        = (Ok (Some
                 (Token.mk (Token.ID token) (Token.AccountID token)
                    (Token.KeyID token) (Token.AgentID token)
                    (Token.Token token)
                    (sqliteParse (sqliteFormat (Token.ExpiresAt token))))),
           snd out))
       /\ (sqliteParse (sqliteFormat (Token.ExpiresAt token)) <= sqlite_now e' ->
           auth.ValidateToken e' (Token.Token token) (snd out)
           = (Ok None, snd out)).
Proof.
  cbv zeta.
  apply (issued_token_validates_until_expiry Example.lib Example.svc
           (Example.env 1011 x1b "t") "agent-2" "ed25519" Example.pk1
           (Example.drawn x18) (Example.sign (Example.drawn x18))
           Example.challenged).
  vm_compute. reflexivity.
Defined.

Lemma token_bound_to_registered_key_witness :
  let token :=
    Token.mk "t0" "a2" "a3" "agent-2" (Example.drawn x1b) (87411 * Second) in
  (exists r,
      In r (tbl_account_keys Example.challenged) /\ active r = true
      /\ key_pair r = ("ed25519", Example.pk1)
      /\ Token.AccountID token = account_keys.account_id r
      /\ Token.KeyID token = account_keys.id r)
  \/ (~ bound Example.challenged "ed25519" Example.pk1
      /\ Token.AccountID token = ""
      /\ Token.KeyID token
         = String.append "unregistered:" (substring 0 16 Example.pk1)
      /\ (16 <= String.length Example.pk1)%nat).
Proof.
  cbv zeta.
  apply (token_bound_to_registered_key Example.lib Example.svc
           (Example.env 1011 x1b "t") "agent-2" "ed25519" Example.pk1
           (Example.drawn x18) (Example.sign (Example.drawn x18))
           Example.challenged
           (snd (auth.VerifyAndCreateToken Example.lib Example.svc
                   (Example.env 1011 x1b "t") "agent-2" "ed25519" Example.pk1
                   (Example.drawn x18) (Example.sign (Example.drawn x18))
                   Example.challenged))).
  vm_compute. reflexivity.
Defined.

(** ** The key of a token

    A token with an account is issued on a key of that account, and keys
    are never deleted: in every database the operations reach from the empty
    one, the key a token is bound to is a key of the token's account. *)

Lemma keeps_names_refl (db : DB) : keeps_tokens_name_keys db db.
Proof. intro H. exact H. Qed.

Lemma keeps_names_trans (db1 db2 db3 : DB) :
  keeps_tokens_name_keys db1 db2 -> keeps_tokens_name_keys db2 db3 ->
  keeps_tokens_name_keys db1 db3.
Proof. unfold keeps_tokens_name_keys. auto. Qed.

(** A call that leaves the keys and the tokens as they were. *)
Lemma keeps_names_same (db db' : DB) :
  tbl_account_keys db' = tbl_account_keys db ->
  tbl_tokens db' = tbl_tokens db ->
  keeps_tokens_name_keys db db'.
Proof.
  intros Hkeys Htokens [Hids Hnames]. unfold tokens_name_keys, token_names_key.
  rewrite Hkeys, Htokens. auto.
Qed.

Lemma names_GetChallenge (now : Time) (challengeStr : string) :
  writes keeps_tokens_name_keys (store.GetChallenge now challengeStr).
Proof. intro db. apply keeps_names_refl. Qed.

Lemma names_GetToken (now : Time) (tokenStr : string) :
  writes keeps_tokens_name_keys (store.GetToken now tokenStr).
Proof. intro db. apply keeps_names_refl. Qed.

Lemma names_GetAccountKeyByPublicKey (alg publicKey : string) :
  writes keeps_tokens_name_keys (store.GetAccountKeyByPublicKey alg publicKey).
Proof. intro db. apply keeps_names_refl. Qed.

Lemma names_GetAccountKey (id : string) :
  writes keeps_tokens_name_keys (store.GetAccountKey id).
Proof.
  intro db. unfold store.GetAccountKey.
  destruct (find _ _); apply keeps_names_refl.
Qed.

Lemma names_GetAccount (id : string) :
  writes keeps_tokens_name_keys (store.GetAccount id).
Proof.
  intro db. unfold store.GetAccount.
  destruct (find _ _); apply keeps_names_refl.
Qed.

Lemma names_DeleteChallenge (id : string) :
  writes keeps_tokens_name_keys (store.DeleteChallenge id).
Proof. intro db. apply keeps_names_same; reflexivity. Qed.

Lemma names_CreateChallenge (uuid : string) (challenge : Challenge.t) :
  writes keeps_tokens_name_keys (store.CreateChallenge uuid challenge).
Proof.
  intro db. unfold store.CreateChallenge.
  repeat match goal with
         | |- context [if ?b then _ else _] => destruct b
         end; cbn [snd];
    first [apply keeps_names_refl | apply keeps_names_same; reflexivity].
Qed.

Lemma names_validateToken {B : Type} (e : Env) (r : api.Request B) :
  writes keeps_tokens_name_keys (api.validateToken e r).
Proof. intro db. rewrite validateToken_pure. apply keeps_names_refl. Qed.

Lemma names_CreateAccount (uuid : string) (now : Time) (account : Account.t) :
  writes keeps_tokens_name_keys (store.CreateAccount uuid now account).
Proof.
  intro db. unfold store.CreateAccount.
  destruct (existsb _ _); cbn [snd];
    [apply keeps_names_refl | apply keeps_names_same; reflexivity].
Qed.

(** A new key comes under an id no key has, and the keys there stay. *)
Lemma names_CreateAccountKey (uuid : string) (now : Time) (key : AccountKey.t) :
  writes keeps_tokens_name_keys (store.CreateAccountKey uuid now key).
Proof.
  intros db [Hids Hnames]. unfold store.CreateAccountKey.
  destruct (existsb _ (tbl_account_keys db)) eqn:Hid;
    [exact (conj Hids Hnames) |].
  match goal with
  | |- context [if existsb ?f (tbl_account_keys db) then _ else _] =>
      destruct (existsb f (tbl_account_keys db))
  end; [exact (conj Hids Hnames) |].
  destruct (negb _); [exact (conj Hids Hnames) |].
  cbn [snd]. split; cbn [tbl_account_keys tbl_tokens].
  - rewrite map_app. cbn [map account_keys.id].
    apply NoDup_snoc; [exact Hids |].
    intro Hin. apply in_map_iff in Hin as (k & Hk & Hkin).
    pose proof (existsb_false_all _ _ Hid k Hkin) as Hne. cbv beta in Hne.
    rewrite Hk, String.eqb_refl in Hne. discriminate Hne.
  - intros t Ht a Ha. destruct (Hnames t Ht a Ha) as (k & Hk & Hkid & Hka).
    exists k. split; [apply in_or_app; left; exact Hk | auto].
Qed.

(** A revocation keeps the id and the account of every key. *)
Lemma names_RevokeAccountKey (now : Time) (id : string) :
  writes keeps_tokens_name_keys (store.RevokeAccountKey now id).
Proof.
  intros db [Hids Hnames]. rewrite RevokeAccountKey_eq.
  cbn [snd]. split; cbn [tbl_account_keys tbl_tokens].
  - rewrite map_map. erewrite map_ext; [exact Hids |].
    intro r. unfold revoke_row.
    destruct (account_keys.id r == id); reflexivity.
  - intros t Ht a Ha. destruct (Hnames t Ht a Ha) as (k & Hk & Hkid & Hka).
    exists (revoke_row now id k).
    split; [apply in_map; exact Hk |].
    unfold revoke_row. destruct (account_keys.id k == id); auto.
Qed.

Lemma issueToken_error_keeps (s : auth.Service) (e : Env)
  (agentID alg publicKey : string) (db0 db1 : DB) (err : error) :
  issueToken s e agentID alg publicKey db0 = (Err err, db1) -> db1 = db0.
Proof.
  unfold issueToken, bind at 1, store.GetAccountKeyByPublicKey.
  destruct (rand_Read e) as [tokenBytes | err0];
    [| intro H; injection H as _ <-; reflexivity].
  assert (forall uuid t res db2,
             store.CreateToken uuid t db0 = (res, db2) ->
             (exists err', res = Err err') -> db2 = db0) as Hcreate.
  { intros uuid t res db2. unfold store.CreateToken.
    destruct (existsb _ _); [congruence |].
    destruct (existsb _ _); [congruence |].
    intros H (err' & ->). discriminate H. }
  destruct (option_map store.scanAccountKey _) as [accountKey |].
  - unfold bind, ret.
    destruct (store.CreateToken _ _ db0) as [[token | err1] db2] eqn:HC;
      [discriminate |].
    intro H. injection H as _ <-.
    apply (Hcreate _ _ _ _ HC). eexists. reflexivity.
  - destruct (auth.slice_to_16 publicKey) as [prefix | p];
      [| intro H; injection H as _ <-; reflexivity].
    unfold bind, ret.
    destruct (store.CreateToken _ _ db0) as [[token | err1] db2] eqn:HC;
      [discriminate |].
    intro H. injection H as _ <-.
    apply (Hcreate _ _ _ _ HC). eexists. reflexivity.
Qed.

(** The token [issueToken] stores names the key the lookup found, or no
    account. *)
Lemma names_issueToken (s : auth.Service) (e : Env)
  (agentID alg publicKey : string) :
  writes keeps_tokens_name_keys (issueToken s e agentID alg publicKey).
Proof.
  intros db [Hids Hnames].
  destruct (issueToken s e agentID alg publicKey db) as [[token | err] db1]
    eqn:HI; cbn [snd].
  - apply issueToken_ok_inv in HI
      as (tokenBytes & AccountID & KeyID & _ & Hcreate & Hkey).
    apply CreateToken_ok_inv in Hcreate
      as (_ & _ & _ & _ & _ & _ & Hkeys & _ & Htokens & _).
    cbn [Token.AccountID Token.KeyID Token.AgentID Token.Token
           Token.ExpiresAt] in Htokens.
    split; [rewrite Hkeys; exact Hids |].
    intros t Ht a Ha. rewrite Hkeys. rewrite Htokens in Ht.
    apply in_app_or in Ht as [Ht | [<- | []]].
    + exact (Hnames t Ht a Ha).
    + cbn [tokens.account_id tokens.key_id] in *.
      unfold store.nullString in Ha.
      destruct (AccountID == "") eqn:E; [discriminate Ha |].
      injection Ha as <-.
      destruct Hkey as [(k & Hk & _ & _ & -> & ->) | (_ & -> & _)].
      * exists k. auto.
      * discriminate E.
  - apply issueToken_error_keeps in HI. subst db1. exact (conj Hids Hnames).
Qed.

(** One step of a proof of [writes keeps_tokens_name_keys]. *)
Ltac names_step :=
  cbv zeta;
  match goal with
  | |- writes _ (ret _) => apply writes_ret; exact keeps_names_refl
  | |- writes _ (throw _) => apply writes_throw; exact keeps_names_refl
  | |- writes _ (api.done _) => apply writes_done; exact keeps_names_refl
  | |- writes _ (discard _) => apply writes_discard
  | |- writes _ (bind _ _) =>
      apply writes_bind; [exact keeps_names_trans | | intro]
  | |- writes _ (api.attempt _ _ _) =>
      apply writes_attempt; [exact keeps_names_trans | | intro]
  | |- writes _ (match ?x with _ => _ end) => destruct x
  | |- writes _ _ =>
      first
        [ apply names_GetChallenge | apply names_GetToken
        | apply names_GetAccountKeyByPublicKey | apply names_GetAccountKey
        | apply names_GetAccount | apply names_DeleteChallenge
        | apply names_CreateChallenge | apply names_validateToken
        | apply names_CreateAccount | apply names_CreateAccountKey
        | apply names_RevokeAccountKey ]
  end.

Lemma names_auth_CreateChallenge (s : auth.Service) (e : Env)
  (agentID alg : string) :
  writes keeps_tokens_name_keys (auth.CreateChallenge s e agentID alg).
Proof. unfold auth.CreateChallenge. repeat names_step. Qed.

Lemma names_VerifyAndCreateToken (lib : Lib) (s : auth.Service) (e : Env)
  (agentID alg publicKey challengeStr signature : string) :
  writes keeps_tokens_name_keys
    (auth.VerifyAndCreateToken lib s e agentID alg publicKey challengeStr
       signature).
Proof.
  unfold auth.VerifyAndCreateToken.
  apply writes_bind; [exact keeps_names_trans | apply names_GetChallenge |].
  intros [challenge |]; [| names_step].
  destruct (After _ _); [names_step |].
  destruct (_ || _); [names_step |].
  destruct (auth.verifySignature _ _ _ _ _) as [[|] | err];
    [| names_step | names_step].
  apply writes_bind;
    [exact keeps_names_trans
    | apply writes_discard; apply names_DeleteChallenge |].
  intros _. apply names_issueToken.
Qed.

Lemma names_api_CreateAccount (lib : Lib) (h : api.Handler) (e : Env)
  (r : api.Request api.CreateAccountRequest) :
  writes keeps_tokens_name_keys (api.CreateAccount lib h e r).
Proof.
  unfold api.CreateAccount.
  repeat first [apply names_VerifyAndCreateToken | names_step].
Qed.

Lemma names_api_AddAccountKey (lib : Lib) (h : api.Handler) (e : Env)
  (r : api.Request api.AddKeyRequest) :
  writes keeps_tokens_name_keys (api.AddAccountKey lib h e r).
Proof.
  unfold api.AddAccountKey.
  repeat first [apply names_VerifyAndCreateToken | names_step].
Qed.

Lemma names_api_DeleteAccountKey (e : Env) (r : api.Request unit) :
  writes keeps_tokens_name_keys (api.DeleteAccountKey e r).
Proof. unfold api.DeleteAccountKey. repeat names_step. Qed.

(** Every database the operations reach from the empty one has the
    property. *)
Lemma run_tokens_name_keys (lib : Lib) (h : api.Handler) (ops : list Op) :
  tokens_name_keys (run lib h ops emptyDB).
Proof.
  assert (forall db, keeps_tokens_name_keys db (run lib h ops db)) as Hrun.
  { induction ops as [| op ops IH]; intro db; cbn [run fold_left].
    - apply keeps_names_refl.
    - eapply keeps_names_trans; [| apply IH].
      destruct op; cbn [step].
      + apply names_auth_CreateChallenge.
      + apply names_VerifyAndCreateToken.
      + apply names_api_CreateAccount.
      + apply names_api_AddAccountKey.
      + apply names_api_DeleteAccountKey.
      + apply names_CreateAccount.
      + apply names_CreateAccountKey.
      + apply names_RevokeAccountKey. }
  apply Hrun. split; [constructor | intros t []].
Qed.

(** The key of a token of an account is found, and is a key of that
    account. *)
Lemma token_key_found {B : Type} (e : Env) (r : api.Request B) (db : DB)
  (token : Token.t) :
  tokens_name_keys db ->
  fst (api.validateToken e r db) = Ok (Some token) ->
  Token.AccountID token <> "" ->
  exists key,
    fst (store.GetAccountKey (Token.KeyID token) db) = Ok (Some key)
    /\ AccountKey.AccountID key = Token.AccountID token.
Proof.
  intros [Hids Hnames] Hvalid Hacc.
  unfold api.validateToken in Hvalid.
  destruct (api.getToken r == ""); [discriminate Hvalid |].
  rewrite ValidateToken_eq in Hvalid. cbn [fst] in Hvalid.
  destruct (find _ (tbl_tokens db)) as [t |] eqn:Hfind;
    cbn [option_map] in Hvalid; [| discriminate Hvalid].
  injection Hvalid as <-.
  apply find_some in Hfind as [Ht _].
  cbn [store.scanToken Token.AccountID Token.KeyID] in *.
  destruct (tokens.account_id t) as [a |] eqn:Ha;
    cbn [store.NullString_String] in *; [| contradiction].
  destruct (Hnames t Ht a Ha) as (k & Hk & Hkid & Hka).
  unfold store.GetAccountKey.
  destruct (find (fun r0 => account_keys.id r0 == tokens.key_id t)
              (tbl_account_keys db)) as [k' |] eqn:Hfind.
  - exists (store.scanAccountKey k'). split; [reflexivity |].
    cbn [store.scanAccountKey AccountKey.AccountID].
    apply find_some in Hfind as [Hk' Hid']. apply String.eqb_eq in Hid'.
    assert (k' = k) as ->; [| exact Hka].
    clear - Hids Hk Hk' Hkid Hid'.
    induction (tbl_account_keys db) as [| x l IH]; [destruct Hk |].
    cbn [map] in Hids. apply NoDup_cons_iff in Hids as [Hfresh Hrest].
    destruct Hk as [-> | Hk]; destruct Hk' as [-> | Hk'].
    + reflexivity.
    + exfalso. apply Hfresh. rewrite Hkid, <- Hid'. apply in_map. exact Hk'.
    + exfalso. apply Hfresh. rewrite Hid', <- Hkid. apply in_map. exact Hk.
    + exact (IH Hrest Hk Hk').
  - exfalso. pose proof (find_none _ _ Hfind k Hk) as Hne. cbv beta in Hne.
    rewrite Hkid, String.eqb_refl in Hne. discriminate Hne.
Qed.

(** C8.  A DELETE of a key by a request whose bearer token validates and is
    bound to that very key never revokes it: the database is left as it was
    and the answer is not 200.  For the owner, that is when the token's
    account is the account of the path, the answer is 400 (InvalidRequest)
    in every database the operations reach from the empty one; in any
    database it is 400 when the key is found and is a key of that account. *)
Theorem C8_key_in_use_is_not_revoked :
  forall (lib : Lib) (h : api.Handler) (ops : list Op) (e : Env)
         (r : api.Request unit) (db : DB) (token : Token.t),
    fst (api.validateToken e r db) = Ok (Some token) ->
    Token.KeyID token = api.PathValue_keyId r ->
    snd (api.DeleteAccountKey e r db) = db
    /\ api.status_of (fst (api.DeleteAccountKey e r db)) <> Some api.StatusOK
    /\ (Token.AccountID token = api.PathValue_id r ->
        (exists key,
           fst (store.GetAccountKey (api.PathValue_keyId r) db) = Ok (Some key)
           /\ AccountKey.AccountID key = api.PathValue_id r) ->
        api.status_of (fst (api.DeleteAccountKey e r db))
        = Some api.StatusBadRequest)
    /\ (db = run lib h ops emptyDB ->
        Token.AccountID token = api.PathValue_id r ->
        api.status_of (fst (api.DeleteAccountKey e r db))
        = Some api.StatusBadRequest).
Proof.
  intros lib h ops e r db token Hvalid Hbound.
  assert (snd (api.DeleteAccountKey e r db) = db
          /\ api.status_of (fst (api.DeleteAccountKey e r db))
             <> Some api.StatusOK
          /\ (Token.AccountID token = api.PathValue_id r ->
              (exists key,
                  fst (store.GetAccountKey (api.PathValue_keyId r) db)
                  = Ok (Some key)
                  /\ AccountKey.AccountID key = api.PathValue_id r) ->
              api.status_of (fst (api.DeleteAccountKey e r db))
              = Some api.StatusBadRequest)) as (Hdb & Hnot & H400).
  { pose proof Hvalid as Hrun. apply validateToken_run in Hrun.
    remember (api.DeleteAccountKey e r db) as R eqn:HR.
    unfold api.DeleteAccountKey in HR.
    destruct ((api.PathValue_id r == "") || (api.PathValue_keyId r == "")).
    { subst R. answered; reflexivity. }
    unfold api.attempt at 1 in HR. rewrite Hrun in HR.
    destruct (Token.AccountID token != api.PathValue_id r) eqn:Howner.
    { subst R. answered.
      intros Hacc _. apply negb_true_iff, String.eqb_neq in Howner.
      contradiction. }
    unfold api.attempt at 1 in HR.
    destruct (store.GetAccountKey (api.PathValue_keyId r) db)
      as [[[key |] | err] db1] eqn:Hget.
    - assert (db1 = db) as ->.
      { unfold store.GetAccountKey in Hget.
        destruct (find _ _) in Hget; congruence. }
      pose proof (GetAccountKey_id (api.PathValue_keyId r) db key) as Hid.
      rewrite Hget in Hid. specialize (Hid eq_refl).
      destruct (AccountKey.AccountID key != api.PathValue_id r) eqn:Hbelongs.
      { subst R. answered.
        intros _ (key' & Hkey' & Hacc').
        cbn [fst] in Hkey'. injection Hkey' as <-.
        apply negb_true_iff, String.eqb_neq in Hbelongs. contradiction. }
      assert ((AccountKey.ID key == Token.KeyID token) = true) as Hsame.
      { apply String.eqb_eq. congruence. }
      rewrite Hsame in HR.
      subst R. answered; reflexivity.
    - exfalso. unfold store.GetAccountKey in Hget.
      destruct (find _ _) in Hget; discriminate.
    - assert (db1 = db) as ->.
      { unfold store.GetAccountKey in Hget.
        destruct (find _ _) in Hget; congruence. }
      subst R. answered.
      intros _ (key' & Hkey' & _). cbn [fst] in Hkey'. discriminate. }
  split; [exact Hdb |]. split; [exact Hnot |]. split; [exact H400 |].
  intros Hreach Howner.
  destruct (api.PathValue_id r == "") eqn:Hempty.
  { unfold api.DeleteAccountKey. rewrite Hempty. reflexivity. }
  apply String.eqb_neq in Hempty.
  apply (H400 Howner).
  destruct (token_key_found e r db token) as (key & Hkey & Hacc).
  - rewrite Hreach. apply run_tokens_name_keys.
  - exact Hvalid.
  - congruence.
  - exists key. rewrite <- Hbound, <- Howner. auto.
Qed.

Lemma C8_key_in_use_is_not_revoked_witness :
  snd (api.DeleteAccountKey (Example.env 1011 x1b "d")
         (Example.post "" (Example.drawn x17) "a2" "k2" tt) Example.registered)
  = Example.registered
  /\ api.status_of
       (fst (api.DeleteAccountKey (Example.env 1011 x1b "d")
               (Example.post "" (Example.drawn x17) "a2" "k2" tt)
               Example.registered))
     = Some api.StatusBadRequest.
Proof.
  destruct
    (C8_key_in_use_is_not_revoked Example.lib Example.h
       [ OpCreateChallenge (Example.env 1000 x10 "c1") "agent-1" "ed25519";
         OpCreateAccount (Example.env 1001 x11 "a")
           (Example.post "agent-1" "" "" ""
              (api.mkCreateAccountRequest "Agent One" "" "" Example.pk1
                 "ed25519" (Example.sign (Example.drawn x10))
                 (Example.drawn x10)));
         OpCreateChallenge (Example.env 1002 x12 "c2") "agent-1" "ed25519";
         OpVerifyAndCreateToken (Example.env 1003 x13 "t1") "agent-1"
           "ed25519" Example.pk1 (Example.drawn x12)
           (Example.sign (Example.drawn x12));
         OpCreateChallenge (Example.env 1004 x14 "c3") "agent-1" "ed25519";
         OpAddAccountKey (Example.env 1005 x15 "k")
           (Example.post "" (Example.drawn x13) "a2" ""
              (api.mkAddKeyRequest Example.pk2 "ed25519"
                 (Example.sign (Example.drawn x14)) (Example.drawn x14)));
         OpCreateChallenge (Example.env 1006 x16 "c4") "agent-1" "ed25519";
         OpVerifyAndCreateToken (Example.env 1007 x17 "t2") "agent-1"
           "ed25519" Example.pk2 (Example.drawn x16)
           (Example.sign (Example.drawn x16)) ]
       (Example.env 1011 x1b "d")
       (Example.post "" (Example.drawn x17) "a2" "k2" tt) Example.registered
       (Token.mk "t20" "a2" "k2" "agent-1" (Example.drawn x17)
          (sqliteParse 87407)))
    as (Hdb & _ & _ & H400).
  - vm_compute. reflexivity.
  - reflexivity.
  - split; [exact Hdb |].
    apply H400; reflexivity.
Defined.

(** The order of the checks.  In [Example.registered] the second token of
    agent one is bound to the key "k2" of account "a2".  A DELETE of "k2"
    under the path of another account, "a9", with that token is answered 403
    by the check of ownership, which comes before the check of the key in
    use; the key is not revoked. *)
Lemma DeleteAccountKey_checks_ownership_first :
  let r := Example.post "" (Example.drawn x17) "a9" "k2" tt in
  let e := Example.env 1011 x1b "d" in
  (exists token,
      fst (api.validateToken e r Example.registered) = Ok (Some token)
      /\ Token.KeyID token = api.PathValue_keyId r)
  /\ api.DeleteAccountKey e r Example.registered
     = (api.writeError api.StatusForbidden
          "not authorized to modify this account",
        Example.registered).
Proof.
  cbv zeta. split.
  - eexists. split; vm_compute; reflexivity.
  - vm_compute. reflexivity.
Qed.

(** ** The rate limiter *)

Lemma wrapInt_id (z : Z) : minInt <= z <= maxInt -> wrapInt z = z.
Proof.
  unfold wrapInt, minInt, maxInt. intro H.
  rewrite Z.mod_small; lia.
Qed.

Lemma After_false_iff (t u : Time) : After t u = false <-> t <= u.
Proof. unfold After. rewrite Z.ltb_ge. reflexivity. Qed.

Lemma After_true_iff (t u : Time) : After t u = true <-> u < t.
Proof. unfold After. rewrite Z.ltb_lt. reflexivity. Qed.

Lemma store_same (l : ratelimit.MemoryLimiter) (key : string)
  (b : ratelimit.bucket) :
  ratelimit.store l key b key = Some b.
Proof. unfold ratelimit.store. rewrite String.eqb_refl. reflexivity. Qed.

Lemma store_other (l : ratelimit.MemoryLimiter) (key k : string)
  (b : ratelimit.bucket) :
  k <> key -> ratelimit.store l key b k = l k.
Proof.
  intro H. unfold ratelimit.store.
  apply String.eqb_neq in H. rewrite H. reflexivity.
Qed.

(** The calls on one key with one limit and window, at the given clocks. *)
Lemma Allows_cons (c : AllowCall) (calls : list AllowCall)
  (l : ratelimit.MemoryLimiter) :
  Allows (c :: calls) l
  = (fst (ratelimit.Allow (call_now c) (call_key c) (call_limit c)
            (call_window c) l)
     :: fst (Allows calls
               (snd (ratelimit.Allow (call_now c) (call_key c) (call_limit c)
                       (call_window c) l))),
     snd (Allows calls
            (snd (ratelimit.Allow (call_now c) (call_key c) (call_limit c)
                    (call_window c) l)))).
Proof.
  cbn [Allows].
  destruct (ratelimit.Allow _ _ _ _ l) as [ok l1]. cbn [fst snd].
  destruct (Allows calls l1) as [oks l2]. reflexivity.
Qed.

(** Inside a window: with the counter at [c], the [i]-th call from here is
    admitted exactly when [c + i] is below the limit. *)
Lemma Allows_in_window (key : string) (limit : Z) (window : Duration)
  (T : Time) (ts : list Time) :
  limit <= maxInt ->
  Forall (fun t => t <= T) ts ->
  forall (c : Z) (l : ratelimit.MemoryLimiter),
    1 <= c ->
    l key = Some (ratelimit.mkBucket c T) ->
    fst (Allows (map (fun t => mkAllowCall t key limit window) ts) l)
    = map (fun i => c + Z.of_nat i <? limit) (seq 0 (List.length ts)).
Proof.
  intros Hlimit Hts. induction Hts as [| t ts Ht Hts IH]; intros c l Hc Hl.
  - reflexivity.
  - cbn [map List.length]. rewrite Allows_cons. cbn [fst snd].
    cbn [call_now call_key call_limit call_window].
    unfold ratelimit.Allow at 1 2. rewrite Hl.
    cbn [ratelimit.resetTime ratelimit.count].
    apply After_false_iff in Ht. rewrite Ht.
    cbn [seq map]. rewrite <- seq_shift, map_map.
    destruct (c >=? limit) eqn:Hfull; cbn [fst snd].
    + f_equal.
      * symmetry. apply Z.ltb_ge. apply Z.geb_le in Hfull. lia.
      * rewrite (IH c l Hc Hl). apply map_ext. intro i.
        apply Z.geb_le in Hfull.
        transitivity false; [| symmetry]; apply Z.ltb_ge; lia.
    + assert (c < limit) as Hlt.
      { destruct (Z.lt_ge_cases c limit) as [H | H]; [exact H |].
        apply Z.geb_le in H. congruence. }
      rewrite wrapInt_id by (unfold minInt, maxInt in *; lia).
      f_equal.
      * symmetry. apply Z.ltb_lt. lia.
      * rewrite (IH (c + 1)); [| lia | apply store_same].
        apply map_ext. intro i. f_equal. lia.
Qed.

(** X16.  Under one key, from a bucket that is missing or past its window,
    the calls of [Allow] within the window are admitted up to the limit and
    refused after it; a limit below one admits one call. *)
Theorem window_admits_the_first_limit_calls :
  forall (l : ratelimit.MemoryLimiter) (key : string) (limit : Z)
         (window : Duration) (t0 : Time) (ts : list Time),
    limit <= maxInt ->
    (forall b, l key = Some b -> After t0 (ratelimit.resetTime b) = true) ->
    Forall (fun t => t <= Add t0 window) ts ->
    fst (Allows (map (fun t => mkAllowCall t key limit window) (t0 :: ts)) l)
    = map (fun i => Z.of_nat i <? Z.max 1 limit)
        (seq 0 (S (List.length ts))).
Proof.
  intros l key limit window t0 ts Hlimit Hopen Hts.
  cbn [map]. rewrite Allows_cons. cbn [fst snd].
  cbn [call_now call_key call_limit call_window].
  assert (ratelimit.Allow t0 key limit window l
          = (true,
             ratelimit.store l key (ratelimit.mkBucket 1 (Add t0 window))))
    as ->.
  { unfold ratelimit.Allow. destruct (l key) as [b |] eqn:Hb; [| reflexivity].
    rewrite (Hopen b eq_refl). reflexivity. }
  cbn [fst snd].
  rewrite (Allows_in_window key limit window (Add t0 window) ts Hlimit Hts 1);
    [| lia | apply store_same].
  cbn [seq map]. f_equal.
  - symmetry. apply Z.ltb_lt. lia.
  - rewrite <- seq_shift, map_map. apply map_ext. intro i.
    destruct (1 + Z.of_nat i <? limit) eqn:E; symmetry.
    + apply Z.ltb_lt in E. apply Z.ltb_lt. lia.
    + apply Z.ltb_ge in E. apply Z.ltb_ge. lia.
Qed.

Lemma window_admits_the_first_limit_calls_witness :
  fst (Allows
         (map (fun t => mkAllowCall t "vote:10.0.0.1" 2 (3600 * Second))
            [5 * Second; 6 * Second; 7 * Second; 3605 * Second])
         ratelimit.NewMemoryLimiter)
  = map (fun i => Z.of_nat i <? Z.max 1 2) (seq 0 4).
Proof.
  apply (window_admits_the_first_limit_calls ratelimit.NewMemoryLimiter
           "vote:10.0.0.1" 2 (3600 * Second) (5 * Second)
           [6 * Second; 7 * Second; 3605 * Second]).
  - vm_compute. discriminate.
  - intros b Hb. discriminate Hb.
  - repeat constructor; vm_compute; discriminate.
Defined.

(** X17.  A refused call of [Allow] leaves the limiter as it was;
    [RetryAfter] is then not negative, every call up to that delay later is
    refused as well, and, unless the delay is the largest [Duration], every
    call later than the delay is admitted. *)
Theorem refused_until_the_window_ends :
  forall (l : ratelimit.MemoryLimiter) (key : string) (limit : Z)
         (window : Duration) (now : Time),
    fst (ratelimit.Allow now key limit window l) = false ->
    snd (ratelimit.Allow now key limit window l) = l
    /\ 0 <= ratelimit.RetryAfter now key window l
    /\ (forall d,
          0 <= d <= ratelimit.RetryAfter now key window l ->
          ratelimit.Allow (Add now d) key limit window l = (false, l))
    /\ (ratelimit.RetryAfter now key window l < maxDuration ->
        forall d,
          ratelimit.RetryAfter now key window l < d ->
          fst (ratelimit.Allow (Add now d) key limit window l) = true).
Proof.
  intros l key limit window now.
  unfold ratelimit.Allow, ratelimit.RetryAfter, Add.
  destruct (l key) as [b |]; [| discriminate].
  destruct (After now (ratelimit.resetTime b)) eqn:Hnow; [discriminate |].
  destruct (ratelimit.count b >=? limit) eqn:Hfull; [| discriminate].
  intros _. apply After_false_iff in Hnow.
  unfold Sub, minDuration, maxDuration.
  split; [reflexivity |]. split; [lia |]. split.
  - intros d Hd.
    replace (After (now + d) (ratelimit.resetTime b)) with false
      by (symmetry; apply After_false_iff; lia).
    reflexivity.
  - intros Hsat d Hd.
    replace (After (now + d) (ratelimit.resetTime b)) with true
      by (symmetry; apply After_true_iff; lia).
    reflexivity.
Qed.

Lemma refused_until_the_window_ends_witness :
  let l :=
    snd (Allows
           [ mkAllowCall (5 * Second) "story:10.0.0.1" 1 (3600 * Second) ]
           ratelimit.NewMemoryLimiter) in
  let now := 65 * Second in
  snd (ratelimit.Allow now "story:10.0.0.1" 1 (3600 * Second) l) = l
  /\ 0 <= ratelimit.RetryAfter now "story:10.0.0.1" (3600 * Second) l
  /\ (forall d,
        0 <= d <= ratelimit.RetryAfter now "story:10.0.0.1" (3600 * Second) l ->
        ratelimit.Allow (Add now d) "story:10.0.0.1" 1 (3600 * Second) l
        = (false, l))
  /\ (ratelimit.RetryAfter now "story:10.0.0.1" (3600 * Second) l
      < maxDuration ->
      forall d,
        ratelimit.RetryAfter now "story:10.0.0.1" (3600 * Second) l < d ->
        fst (ratelimit.Allow (Add now d) "story:10.0.0.1" 1 (3600 * Second) l)
        = true).
Proof.
  cbv zeta.
  apply refused_until_the_window_ends.
  vm_compute. reflexivity.
Defined.

(** [Allow] keeps the counters positive [int]s. *)
Lemma Allow_counts_positive (now : Time) (key : string) (limit : Z)
  (window : Duration) (l : ratelimit.MemoryLimiter) :
  limit <= maxInt ->
  counts_positive l ->
  counts_positive (snd (ratelimit.Allow now key limit window l)).
Proof.
  intros Hlimit Hl k b. unfold ratelimit.Allow.
  destruct (l key) as [b0 |] eqn:Hb0.
  - destruct (After now (ratelimit.resetTime b0)).
    + cbn [snd]. unfold ratelimit.store.
      destruct (k == key); [| apply Hl].
      intro H. injection H as <-. cbn. unfold maxInt. lia.
    + destruct (ratelimit.count b0 >=? limit) eqn:Hfull; cbn [snd];
        [apply Hl |].
      unfold ratelimit.store.
      destruct (k == key); [| apply Hl].
      intro H. injection H as <-. cbn [ratelimit.count].
      pose proof (Hl key b0 Hb0) as Hc.
      assert (ratelimit.count b0 < limit) as Hlt.
      { destruct (Z.lt_ge_cases (ratelimit.count b0) limit) as [H | H];
          [exact H |].
        apply Z.geb_le in H. congruence. }
      rewrite wrapInt_id by (unfold minInt, maxInt in *; lia). lia.
  - cbn [snd]. unfold ratelimit.store.
    destruct (k == key); [| apply Hl].
    intro H. injection H as <-. cbn. unfold maxInt. lia.
Qed.

Lemma Allows_counts_positive (calls : list AllowCall)
  (l : ratelimit.MemoryLimiter) :
  Forall (fun c => call_limit c <= maxInt) calls ->
  counts_positive l ->
  counts_positive (snd (Allows calls l)).
Proof.
  intro Hcalls. revert l.
  induction Hcalls as [| c calls Hc Hcalls IH]; intros l Hl; [exact Hl |].
  rewrite Allows_cons. cbn [snd].
  apply IH. apply Allow_counts_positive; assumption.
Qed.

Lemma NewMemoryLimiter_counts_positive :
  counts_positive ratelimit.NewMemoryLimiter.
Proof. intros key b Hb. discriminate Hb. Qed.

(** X18.  With a positive limit and on a limiter whose counters are
    positive, [Allow] admits a call exactly when [Remaining] is positive, and
    [Remaining] lies between zero and the limit.  When the window is not
    negative, an admitted call lowers [Remaining] by one.  When the window
    is negative, a call on a bucket that is missing or past its window is
    admitted and leaves [Remaining] at the limit: the bucket it makes is
    past its window already. *)
Theorem Remaining_counts_the_calls_left :
  forall (l : ratelimit.MemoryLimiter) (key : string) (limit : Z)
         (window : Duration) (now : Time),
    0 < limit <= maxInt ->
    counts_positive l ->
    (fst (ratelimit.Allow now key limit window l) = true
     <-> 0 < ratelimit.Remaining now key limit window l)
    /\ (0 <= window ->
        fst (ratelimit.Allow now key limit window l) = true ->
        ratelimit.Remaining now key limit window
          (snd (ratelimit.Allow now key limit window l))
        = ratelimit.Remaining now key limit window l - 1)
    /\ 0 <= ratelimit.Remaining now key limit window l <= limit
    /\ (window < 0 ->
        (forall b,
            l key = Some b -> After now (ratelimit.resetTime b) = true) ->
        fst (ratelimit.Allow now key limit window l) = true
        /\ ratelimit.Remaining now key limit window l = limit
        /\ ratelimit.Remaining now key limit window
             (snd (ratelimit.Allow now key limit window l))
           = limit).
Proof.
  intros l key limit window now Hlimit Hl.
  assert (0 <= window -> After now (Add now window) = false) as Hfresh
    by (intro Hw; apply After_false_iff; unfold Add; lia).
  assert (window < 0 -> After now (Add now window) = true) as Hpast
    by (intro Hw; apply After_true_iff; unfold Add; lia).
  unfold ratelimit.Allow, ratelimit.Remaining.
  destruct (l key) as [b |] eqn:Hb.
  - destruct (After now (ratelimit.resetTime b)) eqn:Hnow.
    + cbn [fst snd]. rewrite store_same.
      cbn [ratelimit.resetTime ratelimit.count]. cbv zeta.
      rewrite wrapInt_id by (unfold minInt, maxInt in *; lia).
      replace (limit - 1 <? 0) with false by (symmetry; apply Z.ltb_ge; lia).
      split; [split; [lia | reflexivity] |].
      split; [intros Hw _; rewrite (Hfresh Hw); reflexivity |].
      split; [lia |].
      intros Hw _. rewrite (Hpast Hw). auto.
    + pose proof (Hl key b Hb) as Hc. cbv zeta.
      rewrite (wrapInt_id (limit - ratelimit.count b))
        by (unfold minInt, maxInt in *; lia).
      destruct (ratelimit.count b >=? limit) eqn:Hfull; cbn [fst snd].
      * apply Z.geb_le in Hfull.
        replace (limit - ratelimit.count b <? 0)
          with (negb (limit =? ratelimit.count b)).
        2:{ destruct (limit =? ratelimit.count b) eqn:E; cbn [negb];
              symmetry; [apply Z.eqb_eq in E; apply Z.ltb_ge
                        | apply Z.eqb_neq in E; apply Z.ltb_lt]; lia. }
        destruct (limit =? ratelimit.count b) eqn:E; cbn [negb].
        -- apply Z.eqb_eq in E.
           split; [split; [discriminate | lia] |].
           split; [intros _ H; discriminate H |].
           split; [lia |].
           intros _ Hexp. specialize (Hexp b eq_refl). congruence.
        -- split; [split; [discriminate | lia] |].
           split; [intros _ H; discriminate H |].
           split; [lia |].
           intros _ Hexp. specialize (Hexp b eq_refl). congruence.
      * assert (ratelimit.count b < limit) as Hlt.
        { destruct (Z.lt_ge_cases (ratelimit.count b) limit) as [H | H];
            [exact H |].
          apply Z.geb_le in H. congruence. }
        rewrite store_same. cbn [ratelimit.resetTime ratelimit.count].
        rewrite Hnow.
        rewrite (wrapInt_id (ratelimit.count b + 1))
          by (unfold minInt, maxInt in *; lia).
        rewrite wrapInt_id by (unfold minInt, maxInt in *; lia).
        replace (limit - ratelimit.count b <? 0) with false
          by (symmetry; apply Z.ltb_ge; lia).
        replace (limit - (ratelimit.count b + 1) <? 0) with false
          by (symmetry; apply Z.ltb_ge; lia).
        split; [split; [lia | reflexivity] |].
        split; [intros _ _; lia |].
        split; [lia |].
        intros _ Hexp. specialize (Hexp b eq_refl). congruence.
  - cbn [fst snd]. rewrite store_same.
    cbn [ratelimit.resetTime ratelimit.count]. cbv zeta.
    rewrite wrapInt_id by (unfold minInt, maxInt in *; lia).
    replace (limit - 1 <? 0) with false by (symmetry; apply Z.ltb_ge; lia).
    split; [split; [lia | reflexivity] |].
    split; [intros Hw _; rewrite (Hfresh Hw); reflexivity |].
    split; [lia |].
    intros Hw _. rewrite (Hpast Hw). auto.
Qed.

(** A second call within the window lowers [Remaining] from 59 to 58; with a
    window of minus one second the first call leaves [Remaining] at 60. *)
Lemma Remaining_counts_the_calls_left_witness :
  let l :=
    snd (Allows
           [ mkAllowCall (5 * Second) "comment:10.0.0.1" 60 (3600 * Second) ]
           ratelimit.NewMemoryLimiter) in
  let now := 65 * Second in
  ratelimit.Remaining now "comment:10.0.0.1" 60 (3600 * Second)
    (snd (ratelimit.Allow now "comment:10.0.0.1" 60 (3600 * Second) l))
  = ratelimit.Remaining now "comment:10.0.0.1" 60 (3600 * Second) l - 1
  /\ ratelimit.Remaining now "comment:10.0.0.1" 60 (- Second)
       (snd (ratelimit.Allow now "comment:10.0.0.1" 60 (- Second)
               ratelimit.NewMemoryLimiter))
     = 60.
Proof.
  cbv zeta. split.
  - destruct (Remaining_counts_the_calls_left
                (snd (Allows
                        [ mkAllowCall (5 * Second) "comment:10.0.0.1" 60
                            (3600 * Second) ]
                        ratelimit.NewMemoryLimiter))
                "comment:10.0.0.1" 60 (3600 * Second) (65 * Second))
      as (_ & Hlower & _).
    + vm_compute. split; [reflexivity | discriminate].
    + apply Allows_counts_positive.
      * repeat constructor; vm_compute; discriminate.
      * apply NewMemoryLimiter_counts_positive.
    + apply Hlower; [vm_compute; discriminate | vm_compute; reflexivity].
  - destruct (Remaining_counts_the_calls_left ratelimit.NewMemoryLimiter
                "comment:10.0.0.1" 60 (- Second) (65 * Second))
      as (_ & _ & _ & Hneg).
    + vm_compute. split; [reflexivity | discriminate].
    + apply NewMemoryLimiter_counts_positive.
    + apply Hneg; [vm_compute; reflexivity |].
      intros b Hb. discriminate Hb.
Defined.

(** ** Cleaning the limiter up *)

(** Two limiters that differ only in buckets the clock [t] has passed. *)
Lemma Allow_after_Cleanup (t now : Time) (key : string) (limit : Z)
  (window : Duration) (l l' : ratelimit.MemoryLimiter) :
  t <= now ->
  (forall k, ratelimit.Cleanup t l' k = ratelimit.Cleanup t l k) ->
  fst (ratelimit.Allow now key limit window l')
  = fst (ratelimit.Allow now key limit window l)
  /\ (forall k,
        ratelimit.Cleanup t (snd (ratelimit.Allow now key limit window l')) k
        = ratelimit.Cleanup t (snd (ratelimit.Allow now key limit window l)) k).
Proof.
  intros Hnow Hsame.
  assert (forall b, After t (ratelimit.resetTime b) = true ->
                    After now (ratelimit.resetTime b) = true) as Hpast.
  { intros b H. apply After_true_iff in H. apply After_true_iff. lia. }
  pose proof (Hsame key) as Hkey.
  unfold ratelimit.Cleanup in Hkey.
  assert (forall b0 k,
             ratelimit.Cleanup t (ratelimit.store l' key b0) k
             = ratelimit.Cleanup t (ratelimit.store l key b0) k) as Hstore.
  { intros b0 k. specialize (Hsame k). unfold ratelimit.Cleanup in *.
    unfold ratelimit.store. destruct (k == key); [reflexivity | exact Hsame]. }
  unfold ratelimit.Allow.
  destruct (l' key) as [b' |] eqn:Hb'; destruct (l key) as [b |] eqn:Hb.
  - destruct (After t (ratelimit.resetTime b')) eqn:Ht';
      destruct (After t (ratelimit.resetTime b)) eqn:Ht;
      try discriminate Hkey.
    + rewrite (Hpast b' Ht'), (Hpast b Ht). cbn [fst snd].
      split; [reflexivity | apply Hstore].
    + injection Hkey as ->.
      destruct (After now (ratelimit.resetTime b)); cbn [fst snd];
        [split; [reflexivity | apply Hstore] |].
      destruct (ratelimit.count b >=? limit); cbn [fst snd];
        split; try reflexivity; [exact Hsame | apply Hstore].
  - destruct (After t (ratelimit.resetTime b')) eqn:Ht';
      [| discriminate Hkey].
    rewrite (Hpast b' Ht'). cbn [fst snd].
    split; [reflexivity | apply Hstore].
  - destruct (After t (ratelimit.resetTime b)) eqn:Ht;
      [| discriminate Hkey].
    rewrite (Hpast b Ht). cbn [fst snd].
    split; [reflexivity | apply Hstore].
  - cbn [fst snd]. split; [reflexivity | apply Hstore].
Qed.

Lemma Cleanup_idem (t : Time) (l : ratelimit.MemoryLimiter) (k : string) :
  ratelimit.Cleanup t (ratelimit.Cleanup t l) k = ratelimit.Cleanup t l k.
Proof.
  unfold ratelimit.Cleanup. destruct (l k) as [b |]; [| reflexivity].
  destruct (After t (ratelimit.resetTime b)) eqn:E; [reflexivity |].
  rewrite E. reflexivity.
Qed.

(** X19.  [Cleanup] removes exactly the buckets whose window has ended, and
    no call of [Allow] made at the time of the cleanup or later is answered
    differently for it. *)
Theorem Cleanup_is_not_observed :
  forall (t : Time) (l : ratelimit.MemoryLimiter) (calls : list AllowCall),
    Forall (fun c => t <= call_now c) calls ->
    fst (Allows calls (ratelimit.Cleanup t l)) = fst (Allows calls l)
    /\ (forall key b,
          l key = Some b ->
          ratelimit.Cleanup t l key
          = if After t (ratelimit.resetTime b) then None else Some b)
    /\ (forall key, l key = None -> ratelimit.Cleanup t l key = None).
Proof.
  intros t l calls Hcalls. split; [| split].
  - assert (forall l' l0,
               (forall k, ratelimit.Cleanup t l' k = ratelimit.Cleanup t l0 k) ->
               fst (Allows calls l') = fst (Allows calls l0)) as Hall.
    { induction Hcalls as [| c calls Hc Hcalls IH]; intros l' l0 Hsame;
        [reflexivity |].
      rewrite !Allows_cons. cbn [fst].
      destruct (Allow_after_Cleanup t (call_now c) (call_key c) (call_limit c)
                  (call_window c) l0 l' Hc Hsame) as [Hfst Hsnd].
      rewrite Hfst. f_equal. apply IH. exact Hsnd. }
    apply Hall. intro k. apply Cleanup_idem.
  - intros key b Hb. unfold ratelimit.Cleanup. rewrite Hb. reflexivity.
  - intros key Hb. unfold ratelimit.Cleanup. rewrite Hb. reflexivity.
Qed.

Lemma Cleanup_is_not_observed_witness :
  let l :=
    snd (Allows
           [ mkAllowCall (5 * Second) "vote:10.0.0.1" 2 (60 * Second);
             mkAllowCall (6 * Second) "vote:10.0.0.2" 2 (3600 * Second) ]
           ratelimit.NewMemoryLimiter) in
  let calls :=
    [ mkAllowCall (301 * Second) "vote:10.0.0.1" 2 (60 * Second);
      mkAllowCall (302 * Second) "vote:10.0.0.2" 2 (3600 * Second);
      mkAllowCall (303 * Second) "vote:10.0.0.2" 2 (3600 * Second) ] in
  fst (Allows calls (ratelimit.Cleanup (300 * Second) l)) = fst (Allows calls l)
  /\ (forall key b,
        l key = Some b ->
        ratelimit.Cleanup (300 * Second) l key
        = if After (300 * Second) (ratelimit.resetTime b) then None
          else Some b)
  /\ (forall key, l key = None ->
                  ratelimit.Cleanup (300 * Second) l key = None).
Proof.
  cbv zeta.
  apply Cleanup_is_not_observed.
  repeat constructor; vm_compute; discriminate.
Defined.

(** ** Keys do not share a budget *)

(** The answers a key gets in a run are the answers it gets when the calls
    on other keys are left out. *)
Lemma Allow_other_key (now : Time) (key k : string) (limit : Z)
  (window : Duration) (l : ratelimit.MemoryLimiter) :
  k <> key -> snd (ratelimit.Allow now key limit window l) k = l k.
Proof.
  intro Hk. unfold ratelimit.Allow.
  destruct (l key) as [b |]; [| apply store_other; exact Hk].
  destruct (After now (ratelimit.resetTime b));
    [apply store_other; exact Hk |].
  destruct (ratelimit.count b >=? limit);
    [reflexivity | apply store_other; exact Hk].
Qed.

Lemma Allow_ext (now : Time) (key : string) (limit : Z) (window : Duration)
  (l l' : ratelimit.MemoryLimiter) :
  l' key = l key ->
  fst (ratelimit.Allow now key limit window l')
  = fst (ratelimit.Allow now key limit window l)
  /\ snd (ratelimit.Allow now key limit window l') key
     = snd (ratelimit.Allow now key limit window l) key.
Proof.
  intro H. unfold ratelimit.Allow. rewrite H.
  destruct (l key) as [b |] eqn:Hb; cbn [fst snd];
    [| rewrite !store_same; split; reflexivity].
  destruct (After now (ratelimit.resetTime b)); cbn [fst snd];
    [rewrite !store_same; split; reflexivity |].
  destruct (ratelimit.count b >=? limit); cbn [fst snd];
    [split; [reflexivity | congruence]
    | rewrite !store_same; split; reflexivity].
Qed.

(** X20.  The answers [Allow] gives under one key in a run of calls are the
    answers it gives when the calls under the other keys are left out: keys
    do not share a budget. *)
Theorem keys_do_not_share_a_budget :
  forall (key : string) (calls : list AllowCall)
         (l : ratelimit.MemoryLimiter),
    map snd
      (filter (fun co => call_key (fst co) == key)
         (combine calls (fst (Allows calls l))))
    = fst (Allows (filter (fun c => call_key c == key) calls) l).
Proof.
  intros key calls.
  assert (forall l l',
             l' key = l key ->
             map snd
               (filter (fun co => call_key (fst co) == key)
                  (combine calls (fst (Allows calls l'))))
             = fst (Allows (filter (fun c => call_key c == key) calls) l))
    as Hall.
  { induction calls as [| c calls IH]; intros l l' Hl; [reflexivity |].
    rewrite Allows_cons. cbn [fst combine filter].
    destruct (call_key c == key) eqn:Hc.
    - apply String.eqb_eq in Hc.
      rewrite Allows_cons. cbn [fst map snd].
      destruct (Allow_ext (call_now c) (call_key c) (call_limit c)
                  (call_window c) l l') as [Hfst Hsnd];
        [rewrite Hc; exact Hl |].
      rewrite Hfst. f_equal. apply IH. rewrite <- Hc. exact Hsnd.
    - apply String.eqb_neq in Hc.
      apply IH. rewrite Allow_other_key by congruence. exact Hl. }
  intro l. apply Hall. reflexivity.
Qed.

(** ** The middleware *)

Lemma World_eta (w : World) : mkWorld (w_db w) (w_content w) (w_limiter w) = w.
Proof. destruct w. reflexivity. Qed.

(** X21.  [RequireAuth] runs the handler when the bearer token validates, on
    the same world and with a context that names the agent of the token,
    marks it verified and carries the account of the token if it has one;
    when no token validates it answers 401 and leaves the world as it was. *)
Theorem RequireAuth_admits_valid_tokens_only :
  forall (B : Type) (e : Env)
         (next : api_content.Request B -> api_content.H)
         (r : api_content.Request B) (w : World),
    (forall token,
        fst (api.validateToken e (api_content.base r) (w_db w))
        = Ok (Some token) ->
        exists ctx,
          api_content.RequireAuth e next r w
          = next (api_content.WithContext r ctx) w
          /\ api_content.GetAuthFromContext ctx
             = (Token.AgentID token, true,
                if Token.AccountID token != "" then Token.AccountID token
                else snd (api_content.GetAuthFromContext
                            (api_content.Context_ r))))
    /\ ((forall token,
            fst (api.validateToken e (api_content.base r) (w_db w))
            <> Ok (Some token)) ->
        api_content.RequireAuth e next r w
        = (api_content.writeError api.StatusUnauthorized
             "authentication required",
           w)).
Proof.
  intros B e next r w.
  unfold api_content.RequireAuth, api_content.attempt_db.
  pose proof (validateToken_pure e (api_content.base r) (w_db w)) as Hpure.
  destruct (api.validateToken e (api_content.base r) (w_db w))
    as [[[token |] | err] db]; cbn [fst snd] in *; subst db;
    rewrite World_eta; split.
  - intros token' Htoken. injection Htoken as <-. cbv zeta.
    eexists. split; [reflexivity |].
    unfold api_content.GetAuthFromContext.
    destruct (Token.AccountID token != ""); reflexivity.
  - intro Hnone. exfalso. apply (Hnone token). reflexivity.
  - intros token' Htoken. discriminate Htoken.
  - intros _. reflexivity.
  - intros token' Htoken. discriminate Htoken.
  - intros _. reflexivity.
Qed.

(** X22.  [OptionalAuth] always runs the handler, on the same world: with
    the agent of the token, verified, when the bearer token validates; else
    with the agent of the [X-Agent-Id] header, not verified, when the header
    is there; else with the context of the request. *)
Theorem OptionalAuth_marks_only_tokens_verified :
  forall (B : Type) (e : Env)
         (next : api_content.Request B -> api_content.H)
         (r : api_content.Request B) (w : World),
    exists ctx,
      api_content.OptionalAuth e next r w
      = next (api_content.WithContext r ctx) w
      /\ match fst (api.validateToken e (api_content.base r) (w_db w)) with
         | Ok (Some token) =>
             fst (api_content.GetAuthFromContext ctx)
             = (Token.AgentID token, true)
         | _ =>
             if api.Header_X_Agent_Id (api_content.base r) != "" then
               fst (api_content.GetAuthFromContext ctx)
               = (api.Header_X_Agent_Id (api_content.base r), false)
             else ctx = api_content.Context_ r
         end.
Proof.
  intros B e next r w.
  unfold api_content.OptionalAuth.
  pose proof (validateToken_pure e (api_content.base r) (w_db w)) as Hpure.
  destruct (api.validateToken e (api_content.base r) (w_db w))
    as [[[token |] | err] db]; cbn [fst snd] in *; subst db;
    rewrite World_eta; cbv zeta.
  - eexists. split; [reflexivity |].
    unfold api_content.GetAuthFromContext.
    destruct (Token.AccountID token != ""); reflexivity.
  - eexists. split; [reflexivity |].
    destruct (api.Header_X_Agent_Id (api_content.base r) != ""); reflexivity.
  - eexists. split; [reflexivity |].
    destruct (api.Header_X_Agent_Id (api_content.base r) != ""); reflexivity.
Qed.

(** ** Votes and scores *)

Lemma Zsum_cons (x : Z) (l : list Z) : Zsum (x :: l) = x + Zsum l.
Proof. reflexivity. Qed.

Lemma Zsum_app (l1 l2 : list Z) : Zsum (l1 ++ l2) = Zsum l1 + Zsum l2.
Proof.
  induction l1 as [| x l1 IH]; [reflexivity |].
  cbn [app]. rewrite !Zsum_cons, IH. lia.
Qed.

(** One row of a keyed table is updated: a sum over rows selected by
    columns the update keeps moves by the change of that row, if it is
    selected. *)
Lemma Zsum_update {A : Type} (id : A -> string) (val : A -> Z)
  (p : A -> bool) (upd : A -> A) (i : string) (l : list A) (r0 : A) :
  NoDup (map id l) -> In r0 l -> id r0 = i ->
  (forall r, p (upd r) = p r) ->
  Zsum (map val (filter p (map (fun r => if id r == i then upd r else r) l)))
  = Zsum (map val (filter p l))
    + (if p r0 then val (upd r0) - val r0 else 0).
Proof.
  intros Hnodup Hin Hid Hp.
  induction l as [| r l IH]; [destruct Hin |].
  cbn [map] in Hnodup. apply NoDup_cons_iff in Hnodup as [Hfresh Hnodup].
  cbn [map filter].
  destruct Hin as [-> | Hin].
  - rewrite Hid, String.eqb_refl, Hp.
    assert (map (fun r => if id r == i then upd r else r) l = l) as ->.
    { rewrite <- (map_id l) at 2. apply map_ext_in. intros r Hr.
      destruct (id r == i) eqn:E; [| reflexivity].
      apply String.eqb_eq in E. exfalso. apply Hfresh.
      rewrite Hid, <- E. apply in_map. exact Hr. }
    destruct (p r0); cbn [map]; rewrite ?Zsum_cons; lia.
  - assert (id r <> i) as Hne.
    { intro E. apply Hfresh. rewrite E, <- Hid. apply in_map. exact Hin. }
    apply String.eqb_neq in Hne. rewrite Hne.
    specialize (IH Hnodup Hin).
    destruct (p r); cbn [map]; rewrite ?Zsum_cons; lia.
Qed.

(** An update that keeps the selection and the values of the selected rows
    leaves the sum. *)
Lemma Zsum_update_other {A : Type} (val : A -> Z) (p : A -> bool)
  (f : A -> A) (l : list A) :
  (forall r, p (f r) = p r) ->
  (forall r, p r = true -> val (f r) = val r) ->
  Zsum (map val (filter p (map f l))) = Zsum (map val (filter p l)).
Proof.
  intros Hp Hval. induction l as [| r l IH]; [reflexivity |].
  cbn [map filter]. rewrite Hp.
  destruct (p r) eqn:E; cbn [map]; [| exact IH].
  rewrite !Zsum_cons, (Hval r E), IH. reflexivity.
Qed.

Lemma map_id_update {A : Type} (id : A -> string) (upd : A -> A) (i : string)
  (l : list A) :
  (forall r, id (upd r) = id r) ->
  map id (map (fun r => if id r == i then upd r else r) l) = map id l.
Proof.
  intro Hid. rewrite map_map. apply map_ext. intro r.
  destruct (id r == i); [apply Hid | reflexivity].
Qed.

Lemma GetStory_row (std : Std) (id : string) (c : Content) (story : Story.t) :
  fst (store_content.GetStory std id c) = Ok (Some story) ->
  exists r,
    In r (tbl_stories c) /\ stories.id r = id /\ stories.hidden r = 0
    /\ story = store_content.scanStory std r.
Proof.
  unfold store_content.GetStory. cbn [fst].
  destruct (find _ (tbl_stories c)) as [r |] eqn:Hfind; cbn [option_map];
    [| discriminate].
  intro H. injection H as <-.
  apply find_some in Hfind as [Hin Hp].
  apply andb_true_iff in Hp as [Hid Hhidden].
  apply String.eqb_eq in Hid. apply Z.eqb_eq in Hhidden.
  exists r. auto.
Qed.

Lemma GetComment_row (id : string) (c : Content) (comment : Comment.t) :
  fst (store_content.GetComment id c) = Ok (Some comment) ->
  exists r,
    In r (tbl_comments c) /\ comments.id r = id /\ comments.hidden r = 0
    /\ comment = store_content.scanComment r.
Proof.
  unfold store_content.GetComment. cbn [fst].
  destruct (find _ (tbl_comments c)) as [r |] eqn:Hfind; cbn [option_map];
    [| discriminate].
  intro H. injection H as <-.
  apply find_some in Hfind as [Hin Hp].
  apply andb_true_iff in Hp as [Hid Hhidden].
  apply String.eqb_eq in Hid. apply Z.eqb_eq in Hhidden.
  exists r. auto.
Qed.

(** [updateScore] moves the score of its target by [delta], and nothing
    else. *)
Lemma updateScore_effect (c : Content) (targetType targetID : string)
  (delta : Z) :
  targetType = "story" \/ targetType = "comment" ->
  content_keys c ->
  target_present c targetType targetID ->
  let c' := snd (updateScore targetType targetID delta c) in
  tbl_votes c' = tbl_votes c
  /\ map stories.id (tbl_stories c') = map stories.id (tbl_stories c)
  /\ map comments.id (tbl_comments c') = map comments.id (tbl_comments c)
  /\ (forall ty id,
        ty = "story" \/ ty = "comment" ->
        target_score c' ty id
        = target_score c ty id
          + (if (ty == targetType) && (id == targetID) then delta else 0)).
Proof.
  intros Hty (Hstories & Hcomments & _) Hpresent c'. subst c'.
  unfold updateScore, target_present in *.
  destruct Hty as [-> | ->]; cbn [String.eqb Ascii.eqb Bool.eqb] in *.
  - destruct Hpresent as (r0 & Hin & Hid).
    unfold store_content.UpdateStoryScore.
    cbn [snd tbl_votes tbl_stories tbl_comments].
    split; [reflexivity |]. split; [| split; [reflexivity |]].
    { apply (map_id_update stories.id). intro r. reflexivity. }
    intros ty id [-> | ->]; unfold target_score; cbn [String.eqb Ascii.eqb
      Bool.eqb andb tbl_stories tbl_comments].
    + rewrite (Zsum_update stories.id stories.score
                 (fun r => stories.id r == id) _ targetID (tbl_stories c) r0
                 Hstories Hin Hid); [| intro r; reflexivity].
      cbn [stories.score stories.id]. rewrite Hid, (String.eqb_sym id).
      destruct (targetID == id); lia.
    + lia.
  - destruct Hpresent as (r0 & Hin & Hid).
    unfold store_content.UpdateCommentScore.
    cbn [snd tbl_votes tbl_stories tbl_comments].
    split; [reflexivity |]. split; [reflexivity | split].
    { apply (map_id_update comments.id). intro r. reflexivity. }
    intros ty id [-> | ->]; unfold target_score; cbn [String.eqb Ascii.eqb
      Bool.eqb andb tbl_stories tbl_comments].
    + lia.
    + rewrite (Zsum_update comments.id comments.score
                 (fun r => comments.id r == id) _ targetID (tbl_comments c) r0
                 Hcomments Hin Hid); [| intro r; reflexivity].
      cbn [comments.score comments.id]. rewrite Hid, (String.eqb_sym id).
      destruct (targetID == id); lia.
Qed.

(** [UpdateVote] on the id of a stored vote moves the sum of its target by
    the change of the value. *)
Lemma UpdateVote_effect (c : Content) (r0 : votes.row) (value : Z) :
  content_keys c ->
  In r0 (tbl_votes c) ->
  let c' := snd (store_content.UpdateVote (votes.id r0) value c) in
  tbl_stories c' = tbl_stories c
  /\ tbl_comments c' = tbl_comments c
  /\ map votes.id (tbl_votes c') = map votes.id (tbl_votes c)
  /\ (forall r', In r' (tbl_votes c') ->
                 In r' (tbl_votes c) \/ votes.value r' = value)
  /\ (forall ty id,
        votes_sum c' ty id
        = votes_sum c ty id
          + (if (votes.target_type r0 == ty) && (votes.target_id r0 == id)
             then value - votes.value r0 else 0)).
Proof.
  intros (_ & _ & Hvotes) Hin c'. subst c'.
  unfold store_content.UpdateVote.
  cbn [snd tbl_votes tbl_stories tbl_comments].
  split; [reflexivity |]. split; [reflexivity |]. split; [| split].
  - apply (map_id_update votes.id). intro r. reflexivity.
  - intros r' Hr'. apply in_map_iff in Hr' as (r & <- & Hr).
    destruct (votes.id r == votes.id r0); [right; reflexivity | left; exact Hr].
  - intros ty id. unfold votes_sum. cbn [tbl_votes].
    rewrite (Zsum_update votes.id votes.value
               (fun r => (votes.target_type r == ty) && (votes.target_id r == id))
               _ (votes.id r0) (tbl_votes c) r0 Hvotes Hin eq_refl);
      [| intro r; reflexivity].
    reflexivity.
Qed.

(** A successful [CreateVote] appends one row; the sum of its target moves
    by its value. *)
Lemma CreateVote_effect (uuid : string) (now : Time) (vote vote' : Vote.t)
  (c c' : Content) :
  store_content.CreateVote uuid now vote c = (Ok vote', c') ->
  tbl_stories c' = tbl_stories c
  /\ tbl_comments c' = tbl_comments c
  /\ tbl_votes c'
     = tbl_votes c
       ++ [votes.mk (Vote.ID vote') (Vote.TargetType vote)
             (Vote.TargetID vote) (Vote.Value vote) (Vote.CreatedAt vote')
             (store.nullString (Vote.IPHash vote))
             (store.nullString (Vote.AgentID vote))
             (store_content.boolToInt (Vote.AgentVerified vote))]
  /\ ~ In (Vote.ID vote') (map votes.id (tbl_votes c))
  /\ (forall ty id,
        votes_sum c' ty id
        = votes_sum c ty id
          + (if (Vote.TargetType vote == ty) && (Vote.TargetID vote == id)
             then Vote.Value vote else 0)).
Proof.
  unfold store_content.CreateVote.
  destruct (existsb (fun r => votes.id r == _) (tbl_votes c)) eqn:Hid;
    [discriminate |].
  match goal with
  | |- context [if existsb ?f (tbl_votes c) then _ else _] =>
      destruct (existsb f (tbl_votes c))
  end; [discriminate |].
  intro H. injection H as <- <-.
  cbn [Vote.ID Vote.CreatedAt tbl_stories tbl_comments tbl_votes].
  split; [reflexivity |]. split; [reflexivity |]. split; [reflexivity |].
  split.
  - intro Hin. apply in_map_iff in Hin as (r & Hr & Hin).
    pose proof (existsb_false_all _ _ Hid r Hin) as Hne. cbv beta in Hne.
    rewrite Hr, String.eqb_refl in Hne. discriminate Hne.
  - intros ty id. unfold votes_sum. cbn [tbl_votes].
    rewrite filter_app, map_app, Zsum_app. cbn [filter votes.target_type
      votes.target_id].
    destruct ((Vote.TargetType vote == ty) && (Vote.TargetID vote == id));
      cbn [map Zsum fold_right votes.value]; lia.
Qed.

Lemma CreateVote_error_keeps (uuid : string) (now : Time) (vote : Vote.t)
  (c c' : Content) (err : error) :
  store_content.CreateVote uuid now vote c = (Err err, c') -> c' = c.
Proof.
  unfold store_content.CreateVote.
  repeat match goal with
         | |- context [if existsb ?f (tbl_votes c) then _ else _] =>
             destruct (existsb f (tbl_votes c))
         end; congruence.
Qed.

Section VoteOutcomes.

Variable lib : Lib.
Variable std : Std.
Variable cfg : config.Config.
Hypothesis Hfirst : first_row_ok std.

(** The outcomes of [recordVote]: an error with the tables as they were, or
    200 after one of three courses: the caller's vote already has the
    value; it is changed and the score moves by the difference; a vote is
    created and the score moves by its value. *)
Lemma recordVote_outcome (e : Env)
  (r : api_content.Request api_content.CreateVoteRequest)
  (req : api_content.CreateVoteRequest) (agentID : string)
  (agentVerified : bool) (w : World) :
  let ty := api_content.cv_TargetType req in
  let id := api_content.cv_TargetID req in
  let v := api_content.cv_Value req in
  let ipHash := HashIP lib (api_content.getClientIP std r) in
  let out := api_content.recordVote lib std e r req agentID agentVerified w in
  let c := w_content w in
  w_db (snd out) = w_db w /\ w_limiter (snd out) = w_limiter w
  /\ ((api_content.status (fst out) = api.StatusInternalServerError
       /\ w_content (snd out) = c)
      \/ (fst out
          = api_content.writeJSON api.StatusOK
              (api_content.CreateVoteResponse true)
          /\ ((exists row,
                  In row (tbl_votes c)
                  /\ store_content.vote_matches ty id ipHash agentID row = true
                  /\ votes.value row = v
                  /\ w_content (snd out) = c)
              \/ (exists row,
                     In row (tbl_votes c)
                     /\ store_content.vote_matches ty id ipHash agentID row
                        = true
                     /\ votes.value row <> v
                     /\ w_content (snd out)
                        = snd (updateScore ty id
                                 (wrapInt (v - votes.value row))
                                 (snd (store_content.UpdateVote (votes.id row)
                                         v c))))
              \/ (filter (store_content.vote_matches ty id ipHash agentID)
                    (tbl_votes c) = []
                  /\ exists vote c1,
                       store_content.CreateVote (uuid_New e 0) (time_Now e)
                         (Vote.mk "" ty id v zeroTime ipHash agentID
                            agentVerified) c
                       = (Ok vote, c1)
                       /\ w_content (snd out) = snd (updateScore ty id v c1))))).
Proof.
  intros ty id v ipHash out c. subst out.
  destruct (api_content.recordVote lib std e r req agentID agentVerified w)
    as [resp w'] eqn:HR.
  cbn [fst snd].
  unfold api_content.recordVote in HR. cbv zeta in HR.
  fold ty id v ipHash in HR.
  unfold api_content.attempt at 1, store_content.GetVote in HR. fold c in HR.
  pose proof (Hfirst (filter (store_content.vote_matches ty id ipHash agentID)
                        (tbl_votes c))) as Hpick.
  destruct (first_row std _) as [row |].
  - apply filter_In in Hpick as [Hin Hmatch].
    destruct ((votes.agent_verified row =? 0) || (votes.agent_verified row =? 1)).
    2:{ injection HR as <- <-. cbn [w_db w_limiter w_content].
        split; [reflexivity |]. split; [reflexivity |]. left.
        split; reflexivity. }
    cbn [Vote.Value Vote.ID] in HR.
    destruct (votes.value row =? v) eqn:Hsame; cbn [negb] in HR.
    + apply Z.eqb_eq in Hsame.
      injection HR as <- <-. cbn [w_db w_limiter w_content].
      split; [reflexivity |]. split; [reflexivity |]. right.
      split; [reflexivity |]. left. exists row. auto.
    + apply Z.eqb_neq in Hsame.
      unfold api_content.attempt, api_content.exec, api_content.done in HR.
      cbn [fst snd w_db w_limiter w_content store_content.UpdateVote] in HR.
      injection HR as <- <-. cbn [w_db w_limiter w_content].
      split; [reflexivity |]. split; [reflexivity |]. right.
      split; [reflexivity |]. right. left. exists row.
      split; [exact Hin |]. split; [exact Hmatch |]. split; [exact Hsame |].
      unfold updateScore. subst ty.
      destruct (api_content.cv_TargetType req == "story"); reflexivity.
  - unfold api_content.attempt at 1 in HR.
    cbn [w_content] in HR.
    destruct (store_content.CreateVote (uuid_New e 0) (time_Now e)
                (Vote.mk "" ty id v zeroTime ipHash agentID agentVerified) c)
      as [[vote | err] c1] eqn:Hcreate.
    + unfold api_content.exec, api_content.done in HR.
      cbn [fst snd w_db w_limiter w_content] in HR.
      injection HR as <- <-. cbn [w_db w_limiter w_content].
      split; [reflexivity |]. split; [reflexivity |]. right.
      split; [reflexivity |]. right. right.
      split; [exact Hpick |]. exists vote, c1.
      split; [reflexivity |].
      unfold updateScore. subst ty.
      destruct (api_content.cv_TargetType req == "story"); reflexivity.
    + apply CreateVote_error_keeps in Hcreate as ->.
      injection HR as <- <-. cbn [w_db w_limiter w_content].
      split; [reflexivity |]. split; [reflexivity |]. left.
      split; reflexivity.
Qed.

(** The outcomes of POST /api/votes: answered before [recordVote], with
    the database as it was, or handed to [recordVote] after the limiter
    admitted the request and the body and the target passed the checks. *)
Lemma CreateVote_outcome (e : Env) (allow_now retry_now : Time)
  (r : api_content.Request api_content.CreateVoteRequest) (w : World) :
  let out := api_content.CreateVote lib std cfg e allow_now retry_now r w in
  let limited :=
    api_content.checkRateLimit std cfg allow_now retry_now r "vote"
      (config.VoteRateLimit cfg) (w_limiter w) in
  let w1 := mkWorld (w_db w) (w_content w) (snd limited) in
  (api_content.status (fst out) <> api.StatusOK /\ snd out = w1)
  \/ (exists req,
         fst (fst limited) = true
         /\ api.Body (api_content.base r) = Some req
         /\ (api_content.cv_TargetType req = "story"
             \/ api_content.cv_TargetType req = "comment")
         /\ (api_content.cv_Value req = 1 \/ api_content.cv_Value req = -1)
         /\ vote_target_ok std (w_content w) req
              (fst (fst (api_content.GetAuthFromContext
                           (api_content.Context_ r))))
         /\ out
            = api_content.recordVote lib std e r req
                (fst (fst (api_content.GetAuthFromContext
                             (api_content.Context_ r))))
                (snd (fst (api_content.GetAuthFromContext
                             (api_content.Context_ r))))
                w1).
Proof.
  intros out limited w1. subst out.
  destruct (api_content.CreateVote lib std cfg e allow_now retry_now r w)
    as [resp w'] eqn:HR.
  cbn [fst snd].
  unfold api_content.CreateVote, api_content.rateLimited in HR.
  fold limited in HR.
  destruct limited as [[[|] retryAfter] l1] eqn:Hlimited; cbn [fst snd] in *.
  2:{ injection HR as <- <-. left. split; [discriminate | reflexivity]. }
  fold w1 in HR.
  destruct (api.Body (api_content.base r)) as [req |] eqn:Hbody.
  2:{ injection HR as <- <-. left. split; [discriminate | reflexivity]. }
  destruct ((api_content.cv_TargetType req != "story")
            && (api_content.cv_TargetType req != "comment")) eqn:Hty.
  { injection HR as <- <-. left. split; [discriminate | reflexivity]. }
  destruct (negb (api_content.cv_Value req =? 1)
            && negb (api_content.cv_Value req =? -1)) eqn:Hval.
  { injection HR as <- <-. left. split; [discriminate | reflexivity]. }
  assert (api_content.cv_TargetType req = "story"
          \/ api_content.cv_TargetType req = "comment") as Hty'.
  { apply andb_false_iff in Hty as [H | H];
      apply negb_false_iff, String.eqb_eq in H; auto. }
  assert (api_content.cv_Value req = 1 \/ api_content.cv_Value req = -1)
    as Hval'.
  { apply andb_false_iff in Hval as [H | H];
      apply negb_false_iff, Z.eqb_eq in H; auto. }
  destruct (api_content.GetAuthFromContext (api_content.Context_ r))
    as [[agentID agentVerified] accountID].
  cbn [fst snd].
  destruct (api_content.cv_TargetType req == "story") eqn:Hstory.
  - apply String.eqb_eq in Hstory.
    unfold api_content.attempt at 1 in HR. cbn [w_content w1] in HR.
    destruct (store_content.GetStory std (api_content.cv_TargetID req)
                (w_content w)) as [[[story |] | err] c0] eqn:Hget;
      assert (c0 = w_content w) as -> by
        (unfold store_content.GetStory in Hget; congruence);
      try (injection HR as <- <-; left; split; [discriminate | reflexivity]).
    fold w1 in HR.
    destruct ((Story.AgentID story != "") && (Story.AgentID story == agentID))
      eqn:Hown.
    { injection HR as <- <-. left. split; [discriminate | reflexivity]. }
    right. exists req.
    split; [reflexivity |]. split; [reflexivity |]. split; [exact Hty' |].
    split; [exact Hval' |]. split; [| symmetry; exact HR].
    left. split; [exact Hstory |]. exists story. rewrite Hget. auto.
  - destruct Hty' as [Hty' | Hty'];
      [rewrite Hty' in Hstory; discriminate Hstory |].
    unfold api_content.attempt at 1 in HR. cbn [w_content w1] in HR.
    destruct (store_content.GetComment (api_content.cv_TargetID req)
                (w_content w)) as [[[comment |] | err] c0] eqn:Hget;
      assert (c0 = w_content w) as -> by
        (unfold store_content.GetComment in Hget; congruence);
      try (injection HR as <- <-; left; split; [discriminate | reflexivity]).
    fold w1 in HR.
    destruct ((Comment.AgentID comment != "")
              && (Comment.AgentID comment == agentID)) eqn:Hown.
    { injection HR as <- <-. left. split; [discriminate | reflexivity]. }
    right. exists req.
    split; [reflexivity |]. split; [reflexivity |]. split; [auto |].
    split; [exact Hval' |]. split; [| symmetry; exact HR].
    right. split; [exact Hty' |]. exists comment. rewrite Hget. auto.
Qed.

End VoteOutcomes.

Lemma vote_target_present (std : Std) (c : Content)
  (req : api_content.CreateVoteRequest) (agentID : string) :
  vote_target_ok std c req agentID ->
  target_present c (api_content.cv_TargetType req)
    (api_content.cv_TargetID req).
Proof.
  unfold target_present.
  intros [[-> (story & Hget & _)] | [-> (comment & Hget & _)]];
    cbn [String.eqb Ascii.eqb Bool.eqb].
  - apply GetStory_row in Hget as (r & Hin & Hid & _). exists r. auto.
  - apply GetComment_row in Hget as (r & Hin & Hid & _). exists r. auto.
Qed.

Lemma vote_matches_target (ty id ipHash agentID : string) (row : votes.row) :
  store_content.vote_matches ty id ipHash agentID row = true ->
  votes.target_type row = ty /\ votes.target_id row = id.
Proof.
  unfold store_content.vote_matches. intro H.
  apply andb_true_iff in H as [H _]. apply andb_true_iff in H as [H1 H2].
  apply String.eqb_eq in H1, H2. auto.
Qed.

Lemma target_present_keys (c c' : Content) (ty id : string) :
  tbl_stories c' = tbl_stories c -> tbl_comments c' = tbl_comments c ->
  target_present c ty id -> target_present c' ty id.
Proof.
  unfold target_present. intros -> ->. auto.
Qed.

Lemma wrapInt_small (z : Z) : -2 <= z <= 2 -> wrapInt z = z.
Proof. intro H. apply wrapInt_id. unfold minInt, maxInt. lia. Qed.

(** What [recordVote] leaves when it answers 200, by the three courses. *)
Lemma recordVote_keeps_tally (lib : Lib) (std : Std) (e : Env)
  (r : api_content.Request api_content.CreateVoteRequest)
  (req : api_content.CreateVoteRequest) (agentID : string)
  (agentVerified : bool) (w : World) :
  first_row_ok std ->
  content_keys (w_content w) -> votes_valued (w_content w) ->
  api_content.cv_TargetType req = "story"
  \/ api_content.cv_TargetType req = "comment" ->
  api_content.cv_Value req = 1 \/ api_content.cv_Value req = -1 ->
  target_present (w_content w) (api_content.cv_TargetType req)
    (api_content.cv_TargetID req) ->
  let c := w_content w in
  let c' :=
    w_content
      (snd (api_content.recordVote lib std e r req agentID agentVerified w)) in
  content_keys c' /\ votes_valued c'
  /\ (forall ty id,
        ty = "story" \/ ty = "comment" ->
        target_score c' ty id - votes_sum c' ty id
        = target_score c ty id - votes_sum c ty id).
Proof.
  intros Hfirst Hkeys Hvalued Hty Hval Hpresent c c'. subst c'.
  destruct (recordVote_outcome lib std Hfirst e r req agentID agentVerified w)
    as (_ & _ & Hout).
  fold c in Hout.
  destruct Hout
    as [[_ ->]
       | [_ [(row & _ & _ & _ & ->)
            | [(row & Hin & Hmatch & Hne & ->)
              | (_ & vote & c1 & Hcreate & ->)]]]];
    try (split; [exact Hkeys | split; [exact Hvalued | reflexivity]]).
  - (* the vote is changed *)
    apply vote_matches_target in Hmatch as [Hrty Hrid].
    destruct (UpdateVote_effect c row (api_content.cv_Value req) Hkeys Hin)
      as (Hs2 & Hc2 & Hids2 & Hval2 & Hsum2).
    set (c2 := snd (store_content.UpdateVote (votes.id row)
                      (api_content.cv_Value req) c)) in *.
    assert (content_keys c2) as Hkeys2.
    { destruct Hkeys as (Hk1 & Hk2 & Hk3).
      unfold content_keys. rewrite Hs2, Hc2, Hids2. auto. }
    destruct (updateScore_effect c2 (api_content.cv_TargetType req)
                (api_content.cv_TargetID req)
                (wrapInt (api_content.cv_Value req - votes.value row))
                Hty Hkeys2
                (target_present_keys c c2 _ _ Hs2 Hc2 Hpresent))
      as (Hv3 & Hsid3 & Hcid3 & Hscore3).
    split; [| split].
    + destruct Hkeys2 as (Hk1 & Hk2 & Hk3).
      unfold content_keys. rewrite Hv3, Hsid3, Hcid3. auto.
    + intros r' Hr'. rewrite Hv3 in Hr'.
      destruct (Hval2 r' Hr') as [Hold | ->]; [exact (Hvalued r' Hold) | exact Hval].
    + intros ty id Htyid.
      rewrite (Hscore3 ty id Htyid).
      unfold votes_sum at 1. rewrite Hv3. fold (votes_sum c2 ty id).
      rewrite Hsum2, Hrty, Hrid.
      assert (target_score c2 ty id = target_score c ty id) as ->.
      { unfold target_score. rewrite Hs2, Hc2. reflexivity. }
      rewrite wrapInt_small
        by (destruct (Hvalued row Hin) as [-> | ->];
            destruct Hval as [-> | ->]; lia).
      rewrite (String.eqb_sym ty), (String.eqb_sym id).
      destruct ((api_content.cv_TargetType req == ty)
                && (api_content.cv_TargetID req == id)); lia.
  - (* a vote is created *)
    destruct (CreateVote_effect _ _ _ _ _ _ Hcreate)
      as (Hs1 & Hc1 & Hv1 & Hfresh & Hsum1).
    cbn [Vote.TargetType Vote.TargetID Vote.Value Vote.IPHash Vote.AgentID
           Vote.AgentVerified] in *.
    assert (content_keys c1) as Hkeys1.
    { destruct Hkeys as (Hk1 & Hk2 & Hk3).
      unfold content_keys. rewrite Hs1, Hc1, Hv1, map_app.
      split; [exact Hk1 |]. split; [exact Hk2 |].
      apply NoDup_snoc; [exact Hk3 | exact Hfresh]. }
    destruct (updateScore_effect c1 (api_content.cv_TargetType req)
                (api_content.cv_TargetID req) (api_content.cv_Value req)
                Hty Hkeys1
                (target_present_keys c c1 _ _ Hs1 Hc1 Hpresent))
      as (Hv3 & Hsid3 & Hcid3 & Hscore3).
    split; [| split].
    + destruct Hkeys1 as (Hk1 & Hk2 & Hk3).
      unfold content_keys. rewrite Hv3, Hsid3, Hcid3. auto.
    + intros r' Hr'. rewrite Hv3, Hv1 in Hr'.
      apply in_app_or in Hr' as [Hold | [<- | []]];
        [exact (Hvalued r' Hold) | exact Hval].
    + intros ty id Htyid.
      rewrite (Hscore3 ty id Htyid).
      unfold votes_sum at 1. rewrite Hv3. fold (votes_sum c1 ty id).
      rewrite Hsum1.
      assert (target_score c1 ty id = target_score c ty id) as ->.
      { unfold target_score. rewrite Hs1, Hc1. reflexivity. }
      rewrite (String.eqb_sym ty), (String.eqb_sym id).
      destruct ((api_content.cv_TargetType req == ty)
                && (api_content.cv_TargetID req == id)); lia.
Qed.

Lemma CreateVote_keeps_tally :
  forall (lib : Lib) (std : Std) (cfg : config.Config) (e : Env)
         (allow_now retry_now : Time)
         (r : api_content.Request api_content.CreateVoteRequest) (w : World),
    first_row_ok std ->
    content_keys (w_content w) -> votes_valued (w_content w) ->
    let w' :=
      snd (api_content.CreateVote lib std cfg e allow_now retry_now r w) in
    w_db w' = w_db w
    /\ content_keys (w_content w') /\ votes_valued (w_content w')
    /\ (forall ty id,
          ty = "story" \/ ty = "comment" ->
          target_score (w_content w') ty id - votes_sum (w_content w') ty id
          = target_score (w_content w) ty id - votes_sum (w_content w) ty id).
Proof.
  intros lib std cfg e allow_now retry_now r w Hfirst Hkeys Hvalued w'.
  subst w'.
  destruct (CreateVote_outcome lib std cfg e allow_now retry_now r w)
    as [[_ ->]
       | (req & _ & _ & Hty & Hval & Htarget & ->)];
    cbn [w_db w_content].
  { split; [reflexivity |]. split; [exact Hkeys |].
    split; [exact Hvalued | reflexivity]. }
  set (w1 := mkWorld (w_db w) (w_content w) _).
  destruct (recordVote_outcome lib std Hfirst e r req
              (fst (fst (api_content.GetAuthFromContext
                           (api_content.Context_ r))))
              (snd (fst (api_content.GetAuthFromContext
                           (api_content.Context_ r)))) w1)
    as (Hdb & _ & _).
  split; [exact Hdb |].
  apply (recordVote_keeps_tally lib std e r req _ _ w1 Hfirst Hkeys Hvalued
           Hty Hval).
  exact (vote_target_present std _ req _ Htarget).
Qed.

(** X24.  POST /api/votes answers 200 only when the limiter admitted the
    call, the value is 1 or -1 and the target is a story or comment that is
    there, not hidden and not the caller's own; with any other answer the
    content tables are as they were, and the identity tables are as they
    were in any case. *)
Theorem vote_is_recorded_only_on_a_visible_target_of_another :
  forall (lib : Lib) (std : Std) (cfg : config.Config) (e : Env)
         (allow_now retry_now : Time)
         (r : api_content.Request api_content.CreateVoteRequest) (w : World),
    first_row_ok std ->
    let out := api_content.CreateVote lib std cfg e allow_now retry_now r w in
    (api_content.status (fst out) = api.StatusOK ->
     exists req,
       api.Body (api_content.base r) = Some req
       /\ fst (fst (api_content.checkRateLimit std cfg allow_now retry_now r
                      "vote" (config.VoteRateLimit cfg) (w_limiter w)))
          = true
       /\ (api_content.cv_Value req = 1 \/ api_content.cv_Value req = -1)
       /\ vote_target_ok std (w_content w) req
            (fst (fst (api_content.GetAuthFromContext
                         (api_content.Context_ r)))))
    /\ (api_content.status (fst out) <> api.StatusOK ->
        w_content (snd out) = w_content w)
    /\ w_db (snd out) = w_db w.
Proof.
  intros lib std cfg e allow_now retry_now r w Hfirst out. subst out.
  destruct (CreateVote_outcome lib std cfg e allow_now retry_now r w)
    as [[Hne ->]
       | (req & Hadmit & Hbody & Hty & Hval & Htarget & ->)];
    cbn [w_db w_content].
  { split; [intro H; contradiction |]. split; reflexivity. }
  set (w1 := mkWorld (w_db w) (w_content w) _).
  destruct (recordVote_outcome lib std Hfirst e r req
              (fst (fst (api_content.GetAuthFromContext
                           (api_content.Context_ r))))
              (snd (fst (api_content.GetAuthFromContext
                           (api_content.Context_ r)))) w1)
    as (Hdb & _ & Hout).
  split; [| split; [| exact Hdb]].
  - intros _. exists req. auto.
  - intro Hne. destruct Hout as [[_ Hc] | [Hok _]]; [exact Hc |].
    exfalso. apply Hne. rewrite Hok. reflexivity.
Qed.

Lemma null_eq_nullString (s : string) :
  s <> "" -> store_content.null_eq (store.nullString s) s = true.
Proof.
  intro H. unfold store.nullString. rewrite (eqb_empty_false _ H).
  cbn. apply String.eqb_refl.
Qed.

Lemma map_update_fresh {A : Type} (id : A -> string) (upd : A -> A)
  (i : string) (l : list A) :
  ~ In i (map id l) ->
  map (fun r => if id r == i then upd r else r) l = l.
Proof.
  intro Hfresh. rewrite <- (map_id l) at 2. apply map_ext_in.
  intros r Hr. destruct (id r == i) eqn:E; [| reflexivity].
  apply String.eqb_eq in E. exfalso. apply Hfresh. rewrite <- E.
  apply in_map. exact Hr.
Qed.

(** X25.  When a caller without a vote on a target, whose address has a hash
    that is not empty, votes on it twice and is answered 200 both times, the
    table of votes has one more row, with the value of the second request,
    and the score of the target is the score before plus that value: the
    second vote replaces the first. *)
Theorem second_vote_replaces_the_first :
  forall (lib : Lib) (std : Std) (cfg : config.Config) (e1 e2 : Env)
         (allow1 retry1 allow2 retry2 : Time)
         (r1 r2 : api_content.Request api_content.CreateVoteRequest)
         (req1 req2 : api_content.CreateVoteRequest) (w0 : World),
    first_row_ok std ->
    content_keys (w_content w0) ->
    api.Body (api_content.base r1) = Some req1 ->
    api.Body (api_content.base r2) = Some req2 ->
    api_content.cv_TargetType req2 = api_content.cv_TargetType req1 ->
    api_content.cv_TargetID req2 = api_content.cv_TargetID req1 ->
    api_content.getClientIP std r2 = api_content.getClientIP std r1 ->
    api_content.Context_ r2 = api_content.Context_ r1 ->
    HashIP lib (api_content.getClientIP std r1) <> "" ->
    filter
      (store_content.vote_matches (api_content.cv_TargetType req1)
         (api_content.cv_TargetID req1)
         (HashIP lib (api_content.getClientIP std r1))
         (fst (fst (api_content.GetAuthFromContext (api_content.Context_ r1)))))
      (tbl_votes (w_content w0))
    = [] ->
    api_content.status
      (fst (api_content.CreateVote lib std cfg e1 allow1 retry1 r1 w0))
    = api.StatusOK ->
    api_content.status
      (fst (api_content.CreateVote lib std cfg e2 allow2 retry2 r2
              (snd (api_content.CreateVote lib std cfg e1 allow1 retry1 r1
                      w0))))
    = api.StatusOK ->
    let c2 :=
      w_content
        (snd (api_content.CreateVote lib std cfg e2 allow2 retry2 r2
                (snd (api_content.CreateVote lib std cfg e1 allow1 retry1 r1
                        w0)))) in
    exists row,
      tbl_votes c2 = tbl_votes (w_content w0) ++ [row]
      /\ votes.value row = api_content.cv_Value req2
      /\ votes.ip_hash row
         = Some (HashIP lib (api_content.getClientIP std r1))
      /\ target_score c2 (api_content.cv_TargetType req1)
           (api_content.cv_TargetID req1)
         = target_score (w_content w0) (api_content.cv_TargetType req1)
             (api_content.cv_TargetID req1)
           + api_content.cv_Value req2.
Proof.
  intros lib std cfg e1 e2 allow1 retry1 allow2 retry2 r1 r2 req1 req2 w0
    Hfirst Hkeys Hbody1 Hbody2 Hty2 Hid2 Hip Hctx Hhash Hnone Hok1 Hok2 c2.
  subst c2.
  set (ty := api_content.cv_TargetType req1) in *.
  set (id := api_content.cv_TargetID req1) in *.
  set (ipHash := HashIP lib (api_content.getClientIP std r1)) in *.
  set (auth1 := api_content.GetAuthFromContext (api_content.Context_ r1)) in *.
  (* the first request creates the vote *)
  destruct (CreateVote_outcome lib std cfg e1 allow1 retry1 r1 w0)
    as [[Hne _] | (req & _ & Hbody & Hty & Hval1 & Htarget1 & Hout1)];
    [contradiction |].
  assert (req = req1) as -> by congruence.
  fold auth1 in Htarget1, Hout1.
  set (w1 := mkWorld (w_db w0) (w_content w0) _) in Hout1.
  destruct (recordVote_outcome lib std Hfirst e1 r1 req1 (fst (fst auth1))
              (snd (fst auth1)) w1) as (_ & _ & Hrec1).
  rewrite <- Hout1 in Hrec1. cbn [w_content w1] in Hrec1.
  fold ty id ipHash in Hrec1.
  destruct Hrec1 as [[H500 _] | [_ Hcases]];
    [rewrite H500 in Hok1; discriminate Hok1 |].
  destruct Hcases
    as [(row & Hin & Hmatch & _) | [(row & Hin & Hmatch & _)
                                   | (_ & vote & cA & Hcreate & HcB)]];
    try (exfalso;
         assert (In row (filter (store_content.vote_matches ty id ipHash
                                   (fst (fst auth1)))
                           (tbl_votes (w_content w0))))
           by (apply filter_In; auto);
         rewrite Hnone in *; contradiction).
  destruct (CreateVote_effect _ _ _ _ _ _ Hcreate)
    as (HsA & HcA & HvA & Hfresh & _).
  cbn [Vote.TargetType Vote.TargetID Vote.Value Vote.IPHash Vote.AgentID
         Vote.AgentVerified] in HvA.
  set (N := votes.mk (Vote.ID vote) ty id (api_content.cv_Value req1)
              (Vote.CreatedAt vote) (store.nullString ipHash)
              (store.nullString (fst (fst auth1)))
              (store_content.boolToInt (snd (fst auth1)))) in *.
  assert (content_keys cA) as HkeysA.
  { destruct Hkeys as (Hk1 & Hk2 & Hk3).
    unfold content_keys. rewrite HsA, HcA, HvA, map_app.
    split; [exact Hk1 |]. split; [exact Hk2 |].
    apply NoDup_snoc; [exact Hk3 | exact Hfresh]. }
  pose proof (vote_target_present std _ req1 _ Htarget1) as Hpresent.
  fold ty id in Hpresent.
  destruct (updateScore_effect cA ty id (api_content.cv_Value req1) Hty HkeysA
              (target_present_keys _ cA _ _ HsA HcA Hpresent))
    as (HvB & HsidB & HcidB & HscoreB).
  set (cB := snd (updateScore ty id (api_content.cv_Value req1) cA)) in *.
  assert (content_keys cB) as HkeysB.
  { destruct HkeysA as (Hk1 & Hk2 & Hk3).
    unfold content_keys. rewrite HvB, HsidB, HcidB. auto. }
  assert (target_present cB ty id) as HpresentB.
  { unfold target_present in *. subst ty.
    destruct (api_content.cv_TargetType req1 == "story").
    - destruct Hpresent as (x & Hx & Hxid).
      assert (In id (map stories.id (tbl_stories cB))) as Hi.
      { rewrite HsidB, HsA, <- Hxid. apply in_map. exact Hx. }
      apply in_map_iff in Hi as (y & Hy & Hyin). exists y. auto.
    - destruct Hpresent as (x & Hx & Hxid).
      assert (In id (map comments.id (tbl_comments cB))) as Hi.
      { rewrite HcidB, HcA, <- Hxid. apply in_map. exact Hx. }
      apply in_map_iff in Hi as (y & Hy & Hyin). exists y. auto. }
  assert (target_score cB ty id
          = target_score (w_content w0) ty id + api_content.cv_Value req1)
    as HscoreB'.
  { rewrite (HscoreB ty id Hty), !String.eqb_refl. cbn [andb].
    unfold target_score. rewrite HsA, HcA. reflexivity. }
  assert (store_content.vote_matches ty id ipHash (fst (fst auth1)) N = true)
    as HmatchN.
  { unfold store_content.vote_matches, N.
    cbn [votes.target_type votes.target_id votes.ip_hash votes.agent_id].
    rewrite !String.eqb_refl, (null_eq_nullString _ Hhash). reflexivity. }
  assert (filter (store_content.vote_matches ty id ipHash (fst (fst auth1)))
            (tbl_votes cB) = [N]) as HfilterB.
  { rewrite HvB, HvA, filter_app, Hnone. cbn [filter app].
    rewrite HmatchN. reflexivity. }
  (* the second request finds it *)
  assert (snd (api_content.CreateVote lib std cfg e1 allow1 retry1 r1 w0)
          = mkWorld (w_db w0) cB (w_limiter (snd (api_content.CreateVote lib
              std cfg e1 allow1 retry1 r1 w0)))) as Hw1.
  { destruct (recordVote_outcome lib std Hfirst e1 r1 req1 (fst (fst auth1))
                (snd (fst auth1)) w1) as (Hdb & _ & _).
    rewrite <- Hout1 in Hdb.
    destruct (snd (api_content.CreateVote lib std cfg e1 allow1 retry1 r1 w0))
      as [db' c' l']. cbn [w_db w_content w_limiter] in *.
    subst. reflexivity. }
  set (wB := snd (api_content.CreateVote lib std cfg e1 allow1 retry1 r1 w0))
    in *.
  assert (w_content wB = cB) as HcwB by (rewrite Hw1; reflexivity).
  destruct (CreateVote_outcome lib std cfg e2 allow2 retry2 r2 wB)
    as [[Hne _] | (req & _ & Hbody' & _ & Hval2 & _ & Hout2)];
    [contradiction |].
  assert (req = req2) as -> by congruence.
  rewrite Hctx in Hout2. fold auth1 in Hout2.
  set (w2 := mkWorld (w_db wB) (w_content wB) _) in Hout2.
  destruct (recordVote_outcome lib std Hfirst e2 r2 req2 (fst (fst auth1))
              (snd (fst auth1)) w2) as (_ & _ & Hrec2).
  rewrite <- Hout2 in Hrec2. cbn [w_content w2] in Hrec2.
  rewrite Hty2, Hid2, Hip, HcwB in Hrec2. fold ty id ipHash in Hrec2.
  destruct Hrec2 as [[H500 _] | [_ Hcases]];
    [rewrite H500 in Hok2; discriminate Hok2 |].
  destruct Hcases
    as [(row & Hin & Hmatch & Hsame & ->)
       | [(row & Hin & Hmatch & Hdiff & ->)
         | (Hempty & _)]].
  - assert (row = N) as ->.
    { assert (In row [N]) as Hr
        by (rewrite <- HfilterB; apply filter_In; auto).
      destruct Hr as [<- | []]. reflexivity. }
    exists N. rewrite HvB, HvA.
    split; [reflexivity |]. split; [exact Hsame |].
    split.
    + unfold N. cbn [votes.ip_hash]. unfold store.nullString.
      rewrite (eqb_empty_false _ Hhash). reflexivity.
    + rewrite HscoreB'. cbn [N votes.value] in Hsame. lia.
  - assert (row = N) as ->.
    { assert (In row [N]) as Hr
        by (rewrite <- HfilterB; apply filter_In; auto).
      destruct Hr as [<- | []]. reflexivity. }
    destruct (UpdateVote_effect cB N (api_content.cv_Value req2) HkeysB Hin)
      as (HsC & HcC & HidsC & _ & _).
    set (cC := snd (store_content.UpdateVote (votes.id N)
                      (api_content.cv_Value req2) cB)) in *.
    assert (content_keys cC) as HkeysC.
    { destruct HkeysB as (Hk1 & Hk2 & Hk3).
      unfold content_keys. rewrite HsC, HcC, HidsC. auto. }
    destruct (updateScore_effect cC ty id
                (wrapInt (api_content.cv_Value req2 - votes.value N)) Hty
                HkeysC (target_present_keys cB cC _ _ HsC HcC HpresentB))
      as (HvD & _ & _ & HscoreD).
    exists (votes.mk (votes.id N) ty id (api_content.cv_Value req2)
              (votes.created_at N) (votes.ip_hash N) (votes.agent_id N)
              (votes.agent_verified N)).
    split; [| split; [reflexivity | split]].
    + rewrite HvD. unfold cC, store_content.UpdateVote.
      cbn [snd tbl_votes]. rewrite HvB, HvA, map_app.
      rewrite (map_update_fresh votes.id) by exact Hfresh.
      cbn [map N votes.id]. rewrite String.eqb_refl. reflexivity.
    + unfold N. cbn [votes.ip_hash]. unfold store.nullString.
      rewrite (eqb_empty_false _ Hhash). reflexivity.
    + rewrite (HscoreD ty id Hty), !String.eqb_refl. cbn [andb].
      assert (target_score cC ty id = target_score cB ty id) as ->.
      { unfold target_score. rewrite HsC, HcC. reflexivity. }
      rewrite HscoreB'. cbn [N votes.value].
      rewrite wrapInt_small
        by (destruct Hval1 as [-> | ->]; destruct Hval2 as [-> | ->]; lia).
      lia.
  - rewrite HfilterB in Hempty. discriminate Hempty.
Qed.

(** ** The routes of the content side *)

(** A guarded handler runs with some context on the same world, or the
    middleware answers 401 and the world is as it was. *)
Lemma guarded_outcome {B : Type} (mw : option Env)
  (next : api_content.Request B -> api_content.H)
  (r : api_content.Request B) (w : World) :
  (exists ctx, guarded mw next r w = next (api_content.WithContext r ctx) w)
  \/ guarded mw next r w
     = (api_content.writeError api.StatusUnauthorized
          "authentication required",
        w).
Proof.
  destruct mw as [e |]; cbn [guarded].
  - unfold api_content.RequireAuth, api_content.attempt_db.
    pose proof (validateToken_pure e (api_content.base r) (w_db w)) as Hpure.
    destruct (api.validateToken e (api_content.base r) (w_db w))
      as [[[token |] | err] db]; cbn [fst snd] in *; subst db;
      rewrite World_eta.
    + left. cbv zeta. eexists. reflexivity.
    + right. reflexivity.
    + right. reflexivity.
  - left. exists (api_content.Context_ r). destruct r. reflexivity.
Qed.

Lemma Hide_outcome (std : Std) (cfg : config.Config)
  (r : api_content.Request api_content.HideRequest) (w : World) :
  let out := api_content.Hide std cfg r w in
  let c := w_content w in
  (api_content.status (fst out) <> api.StatusOK /\ snd out = w)
  \/ (fst out = api_content.writeJSON api.StatusOK
                  (api_content.HideResponse true)
      /\ api_content.isAdmin cfg r = true
      /\ exists req,
           api.Body (api_content.base r) = Some req
           /\ api_content.hr_TargetID req <> ""
           /\ ((api_content.hr_TargetType req = "story"
                /\ (exists story,
                       fst (store_content.GetStory std
                              (api_content.hr_TargetID req) c)
                       = Ok (Some story))
                /\ snd out
                   = mkWorld (w_db w)
                       (snd (store_content.HideStory
                               (api_content.hr_TargetID req) c))
                       (w_limiter w))
               \/ (api_content.hr_TargetType req = "comment"
                   /\ (exists comment,
                          fst (store_content.GetComment
                                 (api_content.hr_TargetID req) c)
                          = Ok (Some comment))
                   /\ snd out
                      = mkWorld (w_db w)
                          (snd (store_content.HideComment
                                  (api_content.hr_TargetID req) c))
                          (w_limiter w)))).
Proof.
  intros out c. subst out c.
  destruct (api_content.Hide std cfg r w) as [resp w'] eqn:HR.
  cbn [fst snd].
  unfold api_content.Hide in HR.
  destruct (api_content.isAdmin cfg r) eqn:Hadmin; cbn [negb] in HR.
  2:{ injection HR as <- <-. left. split; [discriminate | reflexivity]. }
  destruct (api.Body (api_content.base r)) as [req |] eqn:Hbody.
  2:{ injection HR as <- <-. left. split; [discriminate | reflexivity]. }
  destruct ((api_content.hr_TargetType req != "story")
            && (api_content.hr_TargetType req != "comment")) eqn:Hty.
  { injection HR as <- <-. left. split; [discriminate | reflexivity]. }
  destruct (api_content.hr_TargetID req == "") eqn:Hid.
  { injection HR as <- <-. left. split; [discriminate | reflexivity]. }
  destruct (api_content.hr_TargetType req == "story") eqn:Hstory.
  - apply String.eqb_eq in Hstory.
    unfold api_content.attempt at 1 in HR.
    destruct (store_content.GetStory std (api_content.hr_TargetID req)
                (w_content w)) as [[[story |] | err] c0] eqn:Hget;
      assert (c0 = w_content w) as -> by
        (unfold store_content.GetStory in Hget; congruence);
      rewrite ?World_eta in HR;
      try (injection HR as <- <-; left; split; [discriminate | reflexivity]).
    unfold api_content.attempt, store_content.HideStory in HR.
    cbn [fst snd w_content w_db w_limiter] in HR.
    injection HR as <- <-.
    right. split; [reflexivity |]. split; [reflexivity |].
    exists req. split; [reflexivity |].
    split; [apply String.eqb_neq; exact Hid |]. left.
    split; [exact Hstory |]. split; [exists story; rewrite Hget; reflexivity |].
    reflexivity.
  - assert (api_content.hr_TargetType req = "comment") as Hcomment.
    { apply andb_false_iff in Hty as [H | H].
      - apply negb_false_iff in H. congruence.
      - apply negb_false_iff, String.eqb_eq in H. exact H. }
    unfold api_content.attempt at 1 in HR.
    destruct (store_content.GetComment (api_content.hr_TargetID req)
                (w_content w)) as [[[comment |] | err] c0] eqn:Hget;
      assert (c0 = w_content w) as -> by
        (unfold store_content.GetComment in Hget; congruence);
      rewrite ?World_eta in HR;
      try (injection HR as <- <-; left; split; [discriminate | reflexivity]).
    unfold api_content.attempt, store_content.HideComment in HR.
    cbn [fst snd w_content w_db w_limiter] in HR.
    injection HR as <- <-.
    right. split; [reflexivity |]. split; [reflexivity |].
    exists req. split; [reflexivity |].
    split; [apply String.eqb_neq; exact Hid |]. right.
    split; [exact Hcomment |]. split; [exists comment; rewrite Hget; reflexivity |].
    reflexivity.
Qed.

Lemma CreateComment_error_keeps (uuid : string) (now : Time)
  (comment : Comment.t) (c c' : Content) (err : error) :
  store_content.CreateComment uuid now comment c = (Err err, c') -> c' = c.
Proof.
  unfold store_content.CreateComment.
  destruct (existsb _ (tbl_comments c)); [congruence |].
  destruct (negb _); [congruence | discriminate].
Qed.

Lemma CreateComment_effect (uuid : string) (now : Time)
  (comment comment' : Comment.t) (c c' : Content) :
  store_content.CreateComment uuid now comment c = (Ok comment', c') ->
  tbl_stories c' = tbl_stories c
  /\ tbl_votes c' = tbl_votes c
  /\ tbl_comments c'
     = tbl_comments c
       ++ [comments.mk (Comment.ID comment') (Comment.StoryID comment)
             (store.nullString (Comment.ParentID comment))
             (Comment.Text comment) (Comment.Score comment)
             (Comment.CreatedAt comment')
             (store_content.boolToInt (Comment.Hidden comment))
             (store.nullString (Comment.AgentID comment))
             (store_content.boolToInt (Comment.AgentVerified comment))]
  /\ ~ In (Comment.ID comment') (map comments.id (tbl_comments c))
  /\ (exists s, In s (tbl_stories c) /\ stories.id s = Comment.StoryID comment)
  /\ Comment.ID comment'
     = (if Comment.ID comment == "" then uuid else Comment.ID comment)
  /\ Comment.CreatedAt comment'
     = (if IsZero (Comment.CreatedAt comment) then now
        else Comment.CreatedAt comment).
Proof.
  unfold store_content.CreateComment.
  destruct (existsb _ (tbl_comments c)) eqn:Hid; [discriminate |].
  destruct (negb _) eqn:Hfk; [discriminate |].
  intro H. injection H as <- <-.
  cbn [tbl_stories tbl_comments tbl_votes Comment.ID Comment.CreatedAt].
  split; [reflexivity |]. split; [reflexivity |]. split; [reflexivity |].
  split; [| split; [| split; reflexivity]].
  - intro Hin. apply in_map_iff in Hin as (x & Hx & Hxin).
    assert (existsb
              (fun r =>
                 comments.id r
                 == (if Comment.ID comment == "" then uuid
                     else Comment.ID comment)) (tbl_comments c) = true) as E.
    { apply existsb_exists. exists x. split; [exact Hxin |].
      rewrite Hx. apply String.eqb_refl. }
    rewrite E in Hid. discriminate Hid.
  - apply negb_false_iff, existsb_exists in Hfk as (s & Hs & Hsid).
    apply String.eqb_eq in Hsid. exists s. auto.
Qed.

Lemma CreateComment_outcome (std : Std) (cfg : config.Config) (e : Env)
  (allow_now retry_now : Time)
  (r : api_content.Request api_content.CreateCommentRequest) (w : World) :
  let out := api_content.CreateComment std cfg e allow_now retry_now r w in
  let limited :=
    api_content.checkRateLimit std cfg allow_now retry_now r "comment"
      (config.CommentRateLimit cfg) (w_limiter w) in
  let w1 := mkWorld (w_db w) (w_content w) (snd limited) in
  let auth := api_content.GetAuthFromContext (api_content.Context_ r) in
  (api_content.status (fst out) <> api.StatusCreated /\ snd out = w1)
  \/ (exists req comment c1,
         fst (fst limited) = true
         /\ api.Body (api_content.base r) = Some req
         /\ api_content.cc_StoryID req <> ""
         /\ api_content.cc_Text req <> ""
         /\ (exists story,
                fst (store_content.GetStory std (api_content.cc_StoryID req)
                       (w_content w))
                = Ok (Some story))
         /\ (api_content.cc_ParentID req <> "" ->
             exists parent,
               fst (store_content.GetComment (api_content.cc_ParentID req)
                      (w_content w))
               = Ok (Some parent)
               /\ Comment.StoryID parent = api_content.cc_StoryID req)
         /\ store_content.CreateComment (uuid_New e 0) (time_Now e)
              (Comment.mk "" (api_content.cc_StoryID req)
                 (api_content.cc_ParentID req) (api_content.cc_Text req) 0
                 zeroTime false (fst (fst auth)) (snd (fst auth)) [])
              (w_content w)
            = (Ok comment, c1)
         /\ out
            = (api_content.writeJSON api.StatusCreated
                 (api_content.CreateCommentResponse (Comment.ID comment)),
               mkWorld (w_db w)
                 (snd (store_content.UpdateStoryCommentCount
                         (api_content.cc_StoryID req) 1 c1))
                 (snd limited))).
Proof.
  intros out limited w1 auth. subst out.
  destruct (api_content.CreateComment std cfg e allow_now retry_now r w)
    as [resp w'] eqn:HR.
  cbn [fst snd].
  unfold api_content.CreateComment, api_content.rateLimited in HR.
  fold limited in HR.
  destruct limited as [[[|] retryAfter] l1] eqn:Hlimited; cbn [fst snd] in *.
  2:{ injection HR as <- <-. left. split; [discriminate | reflexivity]. }
  fold w1 in HR.
  destruct (api.Body (api_content.base r)) as [req |] eqn:Hbody.
  2:{ injection HR as <- <-. left. split; [discriminate | reflexivity]. }
  destruct (api_content.cc_StoryID req == "") eqn:Hsid.
  { injection HR as <- <-. left. split; [discriminate | reflexivity]. }
  destruct (api_content.cc_Text req == "") eqn:Htext.
  { injection HR as <- <-. left. split; [discriminate | reflexivity]. }
  apply String.eqb_neq in Hsid, Htext.
  unfold api_content.attempt at 1 in HR. cbn [w_content w1] in HR.
  destruct (store_content.GetStory std (api_content.cc_StoryID req)
              (w_content w)) as [[[story |] | err] c0] eqn:Hget;
    assert (c0 = w_content w) as -> by
      (unfold store_content.GetStory in Hget; congruence);
    try (injection HR as <- <-; left; split; [discriminate | reflexivity]).
  fold w1 in HR.
  assert (forall (Hparent :
                    api_content.cc_ParentID req <> "" ->
                    exists parent,
                      fst (store_content.GetComment
                             (api_content.cc_ParentID req) (w_content w))
                      = Ok (Some parent)
                      /\ Comment.StoryID parent = api_content.cc_StoryID req),
             api_content.insertComment e r req w1 = (resp, w') ->
             (api_content.status resp <> api.StatusCreated /\ w' = w1)
             \/ (exists req0 comment c1,
                    true = true
                    /\ Some req = Some req0
                    /\ api_content.cc_StoryID req0 <> ""
                    /\ api_content.cc_Text req0 <> ""
                    /\ (exists story0,
                           fst (store_content.GetStory std
                                  (api_content.cc_StoryID req0) (w_content w))
                           = Ok (Some story0))
                    /\ (api_content.cc_ParentID req0 <> "" ->
                        exists parent,
                          fst (store_content.GetComment
                                 (api_content.cc_ParentID req0) (w_content w))
                          = Ok (Some parent)
                          /\ Comment.StoryID parent
                             = api_content.cc_StoryID req0)
                    /\ store_content.CreateComment (uuid_New e 0) (time_Now e)
                         (Comment.mk "" (api_content.cc_StoryID req0)
                            (api_content.cc_ParentID req0)
                            (api_content.cc_Text req0) 0 zeroTime false
                            (fst (fst auth)) (snd (fst auth)) [])
                         (w_content w)
                       = (Ok comment, c1)
                    /\ (resp, w')
                       = (api_content.writeJSON api.StatusCreated
                            (api_content.CreateCommentResponse
                               (Comment.ID comment)),
                          mkWorld (w_db w)
                            (snd (store_content.UpdateStoryCommentCount
                                    (api_content.cc_StoryID req0) 1 c1))
                            l1))) as Hinsert.
  { intros Hparent HI.
    unfold api_content.insertComment in HI. fold auth in HI.
    destruct auth as [[agentID agentVerified] accountID]. cbn [fst snd].
    unfold api_content.attempt in HI. cbn [w_content w1] in HI.
    destruct (store_content.CreateComment (uuid_New e 0) (time_Now e) _
                (w_content w)) as [[comment | err] c1] eqn:Hcreate.
    - unfold api_content.exec, api_content.done in HI.
      cbn [w_db w_content w_limiter] in HI.
      injection HI as <- <-.
      right. exists req, comment, c1.
      split; [reflexivity |]. split; [reflexivity |].
      split; [exact Hsid |]. split; [exact Htext |].
      split; [exists story; rewrite Hget; reflexivity |].
      split; [exact Hparent |]. split; [exact Hcreate | reflexivity].
    - apply CreateComment_error_keeps in Hcreate. subst c1.
      injection HI as <- <-. left. split; [discriminate | reflexivity]. }
  destruct (api_content.cc_ParentID req != "") eqn:Hpid.
  - unfold api_content.attempt at 1 in HR. cbn [w_content w1] in HR.
    destruct (store_content.GetComment (api_content.cc_ParentID req)
                (w_content w)) as [[[parent |] | err] c0] eqn:Hgetc;
      assert (c0 = w_content w) as -> by
        (unfold store_content.GetComment in Hgetc; congruence);
      try (injection HR as <- <-; left; split; [discriminate | reflexivity]).
    fold w1 in HR.
    destruct (Comment.StoryID parent != api_content.cc_StoryID req) eqn:Hsame.
    { injection HR as <- <-. left. split; [discriminate | reflexivity]. }
    apply negb_false_iff, String.eqb_eq in Hsame.
    apply Hinsert; [| exact HR].
    intros _. exists parent. rewrite ?Hgetc. cbn [fst]. auto.
  - apply negb_false_iff, String.eqb_eq in Hpid.
    apply Hinsert; [| exact HR].
    intro Hne. contradiction.
Qed.

(** *** What a request does to the content tables *)

Lemma Hide_step (std : Std) (cfg : config.Config)
  (r : api_content.Request api_content.HideRequest) (w : World) :
  content_step (w_content w) (w_content (snd (api_content.Hide std cfg r w)))
  /\ w_db (snd (api_content.Hide std cfg r w)) = w_db w.
Proof.
  destruct (Hide_outcome std cfg r w)
    as [[_ ->]
       | (_ & _ & req & _ & _ & [(_ & _ & ->) | (_ & _ & ->)])];
    cbn [w_content w_db]; split; try reflexivity; constructor.
Qed.

Lemma CreateVote_step (lib : Lib) (std : Std) (cfg : config.Config) (e : Env)
  (allow_now retry_now : Time)
  (r : api_content.Request api_content.CreateVoteRequest) (w : World) :
  first_row_ok std ->
  content_step (w_content w)
    (w_content
       (snd (api_content.CreateVote lib std cfg e allow_now retry_now r w)))
  /\ w_db (snd (api_content.CreateVote lib std cfg e allow_now retry_now r w))
     = w_db w.
Proof.
  intro Hfirst.
  destruct (CreateVote_outcome lib std cfg e allow_now retry_now r w)
    as [[_ ->]
       | (req & _ & _ & Hty & Hval & Htarget & ->)];
    cbn [w_db w_content].
  { split; [constructor | reflexivity]. }
  set (w1 := mkWorld (w_db w) (w_content w) _).
  destruct (recordVote_outcome lib std Hfirst e r req
              (fst (fst (api_content.GetAuthFromContext
                           (api_content.Context_ r))))
              (snd (fst (api_content.GetAuthFromContext
                           (api_content.Context_ r)))) w1)
    as (Hdb & _ & Hout).
  split; [| exact Hdb].
  pose proof (vote_target_present std _ req _ Htarget) as Hpresent.
  cbn [w_content w1] in Hout.
  destruct Hout
    as [[_ ->]
       | [_ [(row & _ & _ & _ & ->)
            | [(row & Hin & Hmatch & Hne & ->)
              | (_ & vote & c1 & Hcreate & ->)]]]];
    try apply step_none.
  - apply vote_matches_target in Hmatch as [Hrty Hrid].
    apply step_revote; assumption.
  - apply (step_vote (w_content w) (uuid_New e 0) (time_Now e)
             (Vote.mk "" (api_content.cv_TargetType req)
                (api_content.cv_TargetID req) (api_content.cv_Value req)
                zeroTime (HashIP lib (api_content.getClientIP std r))
                (fst (fst (api_content.GetAuthFromContext
                             (api_content.Context_ r))))
                (snd (fst (api_content.GetAuthFromContext
                             (api_content.Context_ r))))) vote c1);
      cbn [Vote.TargetType Vote.TargetID Vote.Value]; assumption.
Qed.

Lemma CreateComment_step (std : Std) (cfg : config.Config) (e : Env)
  (allow_now retry_now : Time)
  (r : api_content.Request api_content.CreateCommentRequest) (w : World) :
  content_step (w_content w)
    (w_content
       (snd (api_content.CreateComment std cfg e allow_now retry_now r w)))
  /\ w_db (snd (api_content.CreateComment std cfg e allow_now retry_now r w))
     = w_db w.
Proof.
  destruct (CreateComment_outcome std cfg e allow_now retry_now r w)
    as [[_ ->]
       | (req & comment & c1 & _ & _ & _ & _ & _ & Hparent & Hcreate & ->)];
    cbn [w_db w_content snd].
  { split; [constructor | reflexivity]. }
  split; [| reflexivity].
  apply (step_comment (w_content w) (uuid_New e 0) (time_Now e)
           (Comment.mk "" (api_content.cc_StoryID req)
              (api_content.cc_ParentID req) (api_content.cc_Text req) 0
              zeroTime false
              (fst (fst (api_content.GetAuthFromContext
                           (api_content.Context_ r))))
              (snd (fst (api_content.GetAuthFromContext
                           (api_content.Context_ r)))) []) comment c1);
    cbn [Comment.Score Comment.Hidden Comment.ParentID Comment.StoryID];
    try reflexivity; try assumption.
  intro Hne. destruct (Hparent Hne) as (parent & Hget & Hsame).
  apply GetComment_row in Hget as (q & Hq & Hqid & _ & ->).
  exists q. cbn [store_content.scanComment Comment.StoryID] in Hsame. auto.
Qed.

Lemma serve_step (lib : Lib) (std : Std) (cfg : config.Config)
  (op : ContentOp) (w : World) :
  first_row_ok std ->
  content_step (w_content w) (w_content (snd (serve lib std cfg op w)))
  /\ w_db (snd (serve lib std cfg op w)) = w_db w.
Proof.
  intro Hfirst. destruct op as [r | r | mw e a n r | mw e a n r]; cbn [serve].
  - apply Hide_step.
  - unfold api_content.GetStory.
    destruct (api.PathValue_id (api_content.base r) == "");
      [split; [constructor | reflexivity] |].
    unfold api_content.attempt, store_content.GetStory.
    destruct (option_map _ _); cbn [snd w_content w_db];
      split; constructor.
  - destruct (guarded_outcome mw (api_content.CreateVote lib std cfg e a n) r
                w) as [[ctx ->] | ->].
    + apply CreateVote_step. exact Hfirst.
    + split; [constructor | reflexivity].
  - destruct (guarded_outcome mw (api_content.CreateComment std cfg e a n) r w)
      as [[ctx ->] | ->].
    + apply CreateComment_step.
    + split; [constructor | reflexivity].
Qed.

(** *** What the steps keep *)

Lemma score_story_frame (c c' : Content) (g : stories.row -> stories.row) :
  tbl_stories c' = map g (tbl_stories c) ->
  (forall r,
      stories.id (g r) = stories.id r /\ stories.score (g r) = stories.score r) ->
  forall x, target_score c' "story" x = target_score c "story" x.
Proof.
  intros Hmap Hg x. unfold target_score.
  cbn [String.eqb Ascii.eqb Bool.eqb]. rewrite Hmap.
  apply Zsum_update_other.
  - intro r. destruct (Hg r) as [-> _]. reflexivity.
  - intros r _. apply Hg.
Qed.

Lemma score_comment_frame (c c' : Content)
  (f : comments.row -> comments.row) :
  tbl_comments c' = map f (tbl_comments c) ->
  (forall r,
      comments.id (f r) = comments.id r
      /\ comments.score (f r) = comments.score r) ->
  forall x, target_score c' "comment" x = target_score c "comment" x.
Proof.
  intros Hmap Hf x. unfold target_score.
  cbn [String.eqb Ascii.eqb Bool.eqb]. rewrite Hmap.
  apply Zsum_update_other.
  - intro r. destruct (Hf r) as [-> _]. reflexivity.
  - intros r _. apply Hf.
Qed.

Lemma count_story_frame (c c' : Content) (g : stories.row -> stories.row) :
  tbl_stories c' = map g (tbl_stories c) ->
  (forall r,
      stories.id (g r) = stories.id r
      /\ stories.comment_count (g r) = stories.comment_count r) ->
  forall x, comment_count_of c' x = comment_count_of c x.
Proof.
  intros Hmap Hg x. unfold comment_count_of. rewrite Hmap.
  apply Zsum_update_other.
  - intro r. destruct (Hg r) as [-> _]. reflexivity.
  - intros r _. apply Hg.
Qed.

Lemma comments_of_frame (c c' : Content) (f : comments.row -> comments.row) :
  tbl_comments c' = map f (tbl_comments c) ->
  (forall r, comments.story_id (f r) = comments.story_id r) ->
  forall x, comments_of c' x = comments_of c x.
Proof.
  intros Hmap Hf x. unfold comments_of. rewrite Hmap. clear Hmap.
  apply (f_equal Z.of_nat).
  induction (tbl_comments c) as [| r l IH]; [reflexivity |].
  cbn [map filter]. rewrite Hf.
  destruct (comments.story_id r == x); cbn [List.length]; rewrite IH;
    reflexivity.
Qed.

Lemma same_table_score (c c' : Content) (ty x : string) :
  tbl_stories c' = tbl_stories c -> tbl_comments c' = tbl_comments c ->
  target_score c' ty x = target_score c ty x.
Proof. intros Hs Hc. unfold target_score. rewrite Hs, Hc. reflexivity. Qed.

Lemma same_table_votes (c c' : Content) (ty x : string) :
  tbl_votes c' = tbl_votes c -> votes_sum c' ty x = votes_sum c ty x.
Proof. intros Hv. unfold votes_sum. rewrite Hv. reflexivity. Qed.

Lemma updateScore_counts (ty id : string) (delta : Z) (c : Content) (x : string) :
  comment_count_of (snd (updateScore ty id delta c)) x = comment_count_of c x
  /\ comments_of (snd (updateScore ty id delta c)) x = comments_of c x.
Proof.
  unfold updateScore. destruct (ty == "story").
  - split; [| reflexivity].
    eapply count_story_frame; [reflexivity |].
    intro r. cbn beta. destruct (stories.id r == id); split; reflexivity.
  - split; [reflexivity |].
    eapply comments_of_frame; [reflexivity |].
    intro r. cbn beta. destruct (comments.id r == id); reflexivity.
Qed.

Lemma content_step_keeps (c c' : Content) :
  content_step c c' ->
  content_keys c ->
  content_keys c'
  /\ (votes_valued c -> votes_valued c')
  /\ (votes_valued c ->
      forall ty id,
        ty = "story" \/ ty = "comment" ->
        target_score c' ty id - votes_sum c' ty id
        = target_score c ty id - votes_sum c ty id)
  /\ (forall id,
        comment_count_of c' id - comments_of c' id
        = comment_count_of c id - comments_of c id).
Proof.
  intros Hstep Hkeys.
  destruct Hstep
    as [| id | id
        | ty id v row Hty Hval Hpresent Hin Hrty Hrid
        | uuid now vote vote' c1 Hty Hval Hpresent Hcreate
        | uuid now comment comment' c1 Hscore Hhidden Hparent Hcreate].
  - auto.
  - (* a story is hidden *)
    set (c' := snd (store_content.HideStory id c)).
    assert (forall r,
               let g := fun r =>
                 if stories.id r == id then
                   stories.mk (stories.id r) (stories.title r) (stories.url r)
                     (stories.text r) (stories.tags r) (stories.score r)
                     (stories.comment_count r) (stories.created_at r) 1
                     (stories.agent_id r) (stories.agent_verified r)
                 else r in
               stories.id (g r) = stories.id r
               /\ stories.score (g r) = stories.score r
               /\ stories.comment_count (g r) = stories.comment_count r)
      as Hg.
    { intro r. cbv beta zeta. destruct (stories.id r == id); repeat split. }
    split; [| split; [intro Hvalued; exact Hvalued | split; [intros _ |]]].
    + destruct Hkeys as (Hk1 & Hk2 & Hk3). unfold content_keys.
      split; [| split; [exact Hk2 | exact Hk3]].
      unfold c', store_content.HideStory. cbn [snd tbl_stories].
      rewrite map_map.
      erewrite map_ext; [exact Hk1 |]. intro r. apply (Hg r).
    + intros ty x [-> | ->].
      * rewrite (score_story_frame c c' _ eq_refl); [reflexivity |].
        intro r. destruct (Hg r) as (H1 & H2 & _). auto.
      * reflexivity.
    + intro x.
      rewrite (count_story_frame c c' _ eq_refl); [reflexivity |].
      intro r. destruct (Hg r) as (H1 & _ & H3). auto.
  - (* a comment is hidden *)
    set (c' := snd (store_content.HideComment id c)).
    assert (forall r,
               let f := fun r =>
                 if comments.id r == id then
                   comments.mk (comments.id r) (comments.story_id r)
                     (comments.parent_id r) (comments.text r)
                     (comments.score r) (comments.created_at r) 1
                     (comments.agent_id r) (comments.agent_verified r)
                 else r in
               comments.id (f r) = comments.id r
               /\ comments.score (f r) = comments.score r
               /\ comments.story_id (f r) = comments.story_id r)
      as Hf.
    { intro r. cbv beta zeta. destruct (comments.id r == id); repeat split. }
    split; [| split; [intro Hvalued; exact Hvalued | split; [intros _ |]]].
    + destruct Hkeys as (Hk1 & Hk2 & Hk3). unfold content_keys.
      split; [exact Hk1 | split; [| exact Hk3]].
      unfold c', store_content.HideComment. cbn [snd tbl_comments].
      rewrite map_map.
      erewrite map_ext; [exact Hk2 |]. intro r. apply (Hf r).
    + intros ty x [-> | ->].
      * reflexivity.
      * rewrite (score_comment_frame c c' _ eq_refl); [reflexivity |].
        intro r. destruct (Hf r) as (H1 & H2 & _). auto.
    + intro x.
      rewrite (comments_of_frame c c' _ eq_refl); [reflexivity |].
      intro r. apply (Hf r).
  - (* a vote is changed *)
    destruct (UpdateVote_effect c row v Hkeys Hin)
      as (Hs2 & Hc2 & Hids2 & Hval2 & Hsum2).
    set (c2 := snd (store_content.UpdateVote (votes.id row) v c)) in *.
    assert (content_keys c2) as Hkeys2.
    { destruct Hkeys as (Hk1 & Hk2 & Hk3).
      unfold content_keys. rewrite Hs2, Hc2, Hids2. auto. }
    destruct (updateScore_effect c2 ty id (wrapInt (v - votes.value row))
                Hty Hkeys2 (target_present_keys c c2 _ _ Hs2 Hc2 Hpresent))
      as (Hv3 & Hsid3 & Hcid3 & Hscore3).
    split; [| split; [intro Hvalued | split; [intro Hvalued |]]].
    + destruct Hkeys2 as (Hk1 & Hk2 & Hk3).
      unfold content_keys. rewrite Hv3, Hsid3, Hcid3. auto.
    + intros r' Hr'. rewrite Hv3 in Hr'.
      destruct (Hval2 r' Hr') as [Hold | ->];
        [exact (Hvalued r' Hold) | exact Hval].
    + intros ty' id' Htyid.
      rewrite (Hscore3 ty' id' Htyid).
      rewrite (same_table_votes c2 _ ty' id' Hv3).
      rewrite Hsum2, Hrty, Hrid.
      rewrite (same_table_score c c2 ty' id' Hs2 Hc2).
      rewrite wrapInt_small
        by (destruct (Hvalued row Hin) as [-> | ->];
            destruct Hval as [-> | ->]; lia).
      rewrite (String.eqb_sym ty'), (String.eqb_sym id').
      destruct ((ty == ty') && (id == id')); lia.
    + intro x.
      destruct (updateScore_counts ty id (wrapInt (v - votes.value row)) c2 x)
        as [-> ->].
      unfold comment_count_of, comments_of. rewrite Hs2, Hc2. reflexivity.
  - (* a vote is created *)
    destruct (CreateVote_effect _ _ _ _ _ _ Hcreate)
      as (Hs1 & Hc1 & Hv1 & Hfresh & Hsum1).
    assert (content_keys c1) as Hkeys1.
    { destruct Hkeys as (Hk1 & Hk2 & Hk3).
      unfold content_keys. rewrite Hs1, Hc1, Hv1, map_app.
      split; [exact Hk1 |]. split; [exact Hk2 |].
      apply NoDup_snoc; [exact Hk3 | exact Hfresh]. }
    destruct (updateScore_effect c1 (Vote.TargetType vote)
                (Vote.TargetID vote) (Vote.Value vote) Hty Hkeys1
                (target_present_keys c c1 _ _ Hs1 Hc1 Hpresent))
      as (Hv3 & Hsid3 & Hcid3 & Hscore3).
    split; [| split; [intro Hvalued | split; [intro Hvalued |]]].
    + destruct Hkeys1 as (Hk1 & Hk2 & Hk3).
      unfold content_keys. rewrite Hv3, Hsid3, Hcid3. auto.
    + intros r' Hr'. rewrite Hv3, Hv1 in Hr'.
      apply in_app_or in Hr' as [Hold | [<- | []]];
        [exact (Hvalued r' Hold) | exact Hval].
    + intros ty' id' Htyid.
      rewrite (Hscore3 ty' id' Htyid).
      rewrite (same_table_votes c1 _ ty' id' Hv3).
      rewrite Hsum1.
      rewrite (same_table_score c c1 ty' id' Hs1 Hc1).
      rewrite (String.eqb_sym ty'), (String.eqb_sym id').
      destruct ((Vote.TargetType vote == ty') && (Vote.TargetID vote == id'));
        lia.
    + intro x.
      destruct (updateScore_counts (Vote.TargetType vote) (Vote.TargetID vote)
                  (Vote.Value vote) c1 x) as [-> ->].
      unfold comment_count_of, comments_of. rewrite Hs1, Hc1. reflexivity.
  - (* a comment is created *)
    destruct (CreateComment_effect _ _ _ _ _ _ Hcreate)
      as (Hs1 & Hv1 & Hc1 & Hfresh & (s & Hs & Hsid) & _ & _).
    set (c' := snd (store_content.UpdateStoryCommentCount
                      (Comment.StoryID comment) 1 c1)).
    assert (forall r,
               let g := fun r =>
                 if stories.id r == Comment.StoryID comment then
                   stories.mk (stories.id r) (stories.title r) (stories.url r)
                     (stories.text r) (stories.tags r) (stories.score r)
                     (stories.comment_count r + 1) (stories.created_at r)
                     (stories.hidden r) (stories.agent_id r)
                     (stories.agent_verified r)
                 else r in
               stories.id (g r) = stories.id r
               /\ stories.score (g r) = stories.score r) as Hg.
    { intro r. cbv beta zeta.
      destruct (stories.id r == Comment.StoryID comment); repeat split. }
    assert (tbl_comments c' = tbl_comments c1) as Hc' by reflexivity.
    assert (tbl_votes c' = tbl_votes c1) as Hv' by reflexivity.
    split; [| split; [intro Hvalued | split; [intro Hvalued |]]].
    + destruct Hkeys as (Hk1 & Hk2 & Hk3). unfold content_keys.
      rewrite Hc', Hv', Hc1, Hv1, map_app.
      split; [| split; [| exact Hk3]].
      * unfold c', store_content.UpdateStoryCommentCount.
        cbn [snd tbl_stories]. rewrite Hs1, map_map.
        erewrite map_ext; [exact Hk1 |]. intro r. apply (Hg r).
      * apply NoDup_snoc; [exact Hk2 | exact Hfresh].
    + intros r' Hr'. rewrite Hv', Hv1 in Hr'. exact (Hvalued r' Hr').
    + intros ty x Htyx.
      rewrite (same_table_votes c _ ty x) by (rewrite Hv', Hv1; reflexivity).
      f_equal. destruct Htyx as [-> | ->].
      * assert (target_score c1 "story" x = target_score c "story" x) as <-
          by (unfold target_score; rewrite Hs1; reflexivity).
        apply (score_story_frame c1 c' _ eq_refl).
        intro r. apply (Hg r).
      * unfold target_score. cbn [String.eqb Ascii.eqb Bool.eqb].
        rewrite Hc', Hc1, filter_app, map_app, Zsum_app.
        cbn [filter comments.id].
        destruct (Comment.ID comment' == x); cbn [map comments.score];
          rewrite ?Zsum_cons, ?Hscore; cbn [Zsum fold_right]; lia.
    + intro x.
      assert (comment_count_of c' x
              = comment_count_of c x
                + (if Comment.StoryID comment == x then 1 else 0)) as ->.
      { unfold comment_count_of, c', store_content.UpdateStoryCommentCount.
        cbn [snd tbl_stories]. rewrite Hs1.
        destruct Hkeys as (Hk1 & _ & _).
        rewrite (Zsum_update stories.id stories.comment_count
                   (fun r => stories.id r == x) _ (Comment.StoryID comment)
                   (tbl_stories c) s Hk1 Hs Hsid); [| intro r; reflexivity].
        cbn [stories.comment_count]. rewrite Hsid.
        destruct (Comment.StoryID comment == x); lia. }
      assert (comments_of c' x
              = comments_of c x
                + (if Comment.StoryID comment == x then 1 else 0)) as ->.
      { unfold comments_of. rewrite Hc', Hc1, filter_app, length_app.
        cbn [filter comments.story_id].
        destruct (Comment.StoryID comment == x); cbn [List.length]; lia. }
      lia.
Qed.

(** A step rewrites rows in place and appends at most one comment: no row
    is deleted, no id, story or parent of a row changes, and a row that is
    hidden stays hidden. *)
Lemma content_step_shape (c c' : Content) :
  content_step c c' ->
  exists (g : stories.row -> stories.row) (f : comments.row -> comments.row)
         (news : list comments.row),
    tbl_stories c' = map g (tbl_stories c)
    /\ tbl_comments c' = map f (tbl_comments c) ++ news
    /\ (forall r,
           stories.id (g r) = stories.id r
           /\ (stories.hidden r <> 0 -> stories.hidden (g r) <> 0))
    /\ (forall r,
           comments.id (f r) = comments.id r
           /\ comments.story_id (f r) = comments.story_id r
           /\ comments.parent_id (f r) = comments.parent_id r
           /\ (comments.hidden r <> 0 -> comments.hidden (f r) <> 0))
    /\ (news = []
        \/ exists n,
             news = [n]
             /\ ~ In (comments.id n) (map comments.id (tbl_comments c))
             /\ forall p,
                  comments.parent_id n = Some p ->
                  exists q,
                    In q (tbl_comments c) /\ comments.id q = p
                    /\ comments.story_id q = comments.story_id n).
Proof.
  assert (forall ty id delta c0,
             exists g f,
               tbl_stories (snd (updateScore ty id delta c0))
               = map g (tbl_stories c0)
               /\ tbl_comments (snd (updateScore ty id delta c0))
                  = map f (tbl_comments c0) ++ []
               /\ (forall r,
                      stories.id (g r) = stories.id r
                      /\ (stories.hidden r <> 0 -> stories.hidden (g r) <> 0))
               /\ (forall r,
                      comments.id (f r) = comments.id r
                      /\ comments.story_id (f r) = comments.story_id r
                      /\ comments.parent_id (f r) = comments.parent_id r
                      /\ (comments.hidden r <> 0 ->
                          comments.hidden (f r) <> 0))) as Hupdate.
  { intros ty id delta c0. unfold updateScore.
    destruct (ty == "story").
    - eexists. exists (fun r => r).
      split; [reflexivity |]. split; [cbn; rewrite map_id, app_nil_r; reflexivity |].
      split; [| intro r; auto].
      intro r. cbv beta. destruct (stories.id r == id); split; auto.
    - exists (fun r => r). eexists.
      split; [cbn; rewrite map_id; reflexivity |].
      split; [rewrite app_nil_r; reflexivity |].
      split; [intro r; auto |].
      intro r. cbv beta. destruct (comments.id r == id); repeat split; auto. }
  intro Hstep.
  destruct Hstep
    as [| id | id
        | ty id v row Hty Hval Hpresent Hin Hrty Hrid
        | uuid now vote vote' c1 Hty Hval Hpresent Hcreate
        | uuid now comment comment' c1 Hscore Hhidden Hparent Hcreate].
  - exists (fun r => r), (fun r => r), [].
    rewrite !map_id, app_nil_r. repeat split; auto.
  - eexists. exists (fun r => r), [].
    split; [reflexivity |].
    split; [cbn; rewrite map_id, app_nil_r; reflexivity |].
    split; [| split; [intro r; auto | left; reflexivity]].
    intro r. cbv beta. destruct (stories.id r == id); split; auto.
    intros _. cbn. discriminate.
  - exists (fun r => r). eexists. exists [].
    split; [cbn; rewrite map_id; reflexivity |].
    split; [rewrite app_nil_r; reflexivity |].
    split; [intro r; auto | split; [| left; reflexivity]].
    intro r. cbv beta. destruct (comments.id r == id); repeat split; auto.
    intros _. cbn. discriminate.
  - destruct (Hupdate ty id (wrapInt (v - votes.value row))
                (snd (store_content.UpdateVote (votes.id row) v c)))
      as (g & f & Hs & Hc & Hg & Hf).
    cbn [store_content.UpdateVote snd tbl_stories tbl_comments] in Hs, Hc.
    exists g, f, [].
    split; [exact Hs |]. split; [exact Hc |]. split; [exact Hg |].
    split; [exact Hf | left; reflexivity].
  - destruct (CreateVote_effect _ _ _ _ _ _ Hcreate) as (Hs1 & Hc1 & _).
    destruct (Hupdate (Vote.TargetType vote) (Vote.TargetID vote)
                (Vote.Value vote) c1) as (g & f & Hs & Hc & Hg & Hf).
    rewrite Hs1 in Hs. rewrite Hc1 in Hc.
    exists g, f, [].
    split; [exact Hs |]. split; [exact Hc |]. split; [exact Hg |].
    split; [exact Hf | left; reflexivity].
  - destruct (CreateComment_effect _ _ _ _ _ _ Hcreate)
      as (Hs1 & _ & Hc1 & Hfresh & _ & _ & _).
    eexists. exists (fun r => r). eexists.
    split; [cbn [snd store_content.UpdateStoryCommentCount tbl_stories];
            rewrite Hs1; reflexivity |].
    split; [cbn [snd store_content.UpdateStoryCommentCount tbl_comments];
            rewrite Hc1, map_id; reflexivity |].
    split; [| split; [intro r; auto |]].
    { intro r. cbv beta.
      destruct (stories.id r == Comment.StoryID comment); split; auto. }
    right. eexists. split; [reflexivity |].
    cbn [comments.id comments.parent_id comments.story_id].
    split; [exact Hfresh |].
    intros p Hp. unfold store.nullString in Hp.
    destruct (Comment.ParentID comment == "") eqn:E; [discriminate Hp |].
    injection Hp as <-. apply String.eqb_neq in E. exact (Hparent E).
Qed.

Lemma content_step_keeps_forest (c c' : Content) :
  content_step c c' ->
  replies_follow_parents c -> replies_follow_parents c'.
Proof.
  intros Hstep Hforest.
  destruct (content_step_shape c c' Hstep)
    as (g & f & news & _ & Hc & _ & Hf & Hnews).
  assert (forall before r after p,
             map f (tbl_comments c) = before ++ r :: after ->
             comments.parent_id r = Some p ->
             exists q,
               In q before /\ comments.id q = p
               /\ comments.story_id q = comments.story_id r) as Hold.
  { intros before r after p Heq Hp.
    apply map_eq_app in Heq as (l1 & l2 & Hl & <- & Hrest).
    apply map_eq_cons in Hrest as (r0 & after0 & -> & <- & _).
    destruct (Hf r0) as (_ & Hsid & Hpid & _).
    rewrite Hpid in Hp.
    destruct (Hforest l1 r0 after0 p Hl Hp) as (q & Hq & Hqid & Hqs).
    exists (f q). destruct (Hf q) as (Hfid & Hfs & _).
    split; [apply in_map; exact Hq |]. split; congruence. }
  destruct Hnews as [-> | (n & -> & _ & Hn)].
  - rewrite app_nil_r in Hc. intros before r after p Heq.
    rewrite Hc in Heq. apply Hold with (after := after). exact Heq.
  - intros before r after p Heq Hp. rewrite Hc in Heq.
    destruct after as [| z after] using rev_ind.
    + apply app_inj_tail in Heq as [<- <-].
      destruct (Hn p Hp) as (q & Hq & Hqid & Hqs).
      exists (f q). destruct (Hf q) as (Hfid & Hfs & _).
      split; [apply in_map; exact Hq |]. split; congruence.
    + clear IHafter.
      change (before ++ r :: after ++ [z])
        with (before ++ (r :: after) ++ [z]) in Heq.
      rewrite app_assoc in Heq.
      apply app_inj_tail in Heq as [Heq _].
      apply Hold with (after := after); assumption.
Qed.

Lemma content_step_keeps_withheld (c c' : Content) (id : string) :
  content_step c c' ->
  (story_withheld c id -> story_withheld c' id)
  /\ (comment_withheld c id -> comment_withheld c' id).
Proof.
  intro Hstep.
  destruct (content_step_shape c c' Hstep)
    as (g & f & news & Hs & Hc & Hg & Hf & Hnews).
  split.
  - intros Hw r' Hr' Hid. rewrite Hs in Hr'.
    apply in_map_iff in Hr' as (r & <- & Hr).
    destruct (Hg r) as (Hgid & Hgh).
    apply Hgh. apply (Hw r Hr). congruence.
  - intros [Hin Hw]. split.
    + rewrite Hc, map_app. apply in_or_app. left.
      rewrite map_map. erewrite map_ext; [exact Hin |].
      intro r. apply (Hf r).
    + intros r' Hr' Hid. rewrite Hc in Hr'.
      apply in_app_or in Hr' as [Hr' | Hr'].
      * apply in_map_iff in Hr' as (r & <- & Hr).
        destruct (Hf r) as (Hfid & _ & _ & Hfh).
        apply Hfh. apply (Hw r Hr). congruence.
      * destruct Hnews as [-> | (n & -> & Hfresh & _)]; [destruct Hr' |].
        destruct Hr' as [<- | []]. exfalso. apply Hfresh.
        rewrite Hid. exact Hin.
Qed.

(** *** Runs of requests *)

Lemma serve_all_keeps (lib : Lib) (std : Std) (cfg : config.Config)
  (ops : list ContentOp) (w : World) :
  first_row_ok std ->
  content_keys (w_content w) ->
  let c := w_content w in
  let c' := w_content (serve_all lib std cfg ops w) in
  w_db (serve_all lib std cfg ops w) = w_db w
  /\ content_keys c'
  /\ (votes_valued c ->
      votes_valued c'
      /\ forall ty id,
           ty = "story" \/ ty = "comment" ->
           target_score c' ty id - votes_sum c' ty id
           = target_score c ty id - votes_sum c ty id)
  /\ (forall id,
        comment_count_of c' id - comments_of c' id
        = comment_count_of c id - comments_of c id)
  /\ (replies_follow_parents c -> replies_follow_parents c').
Proof.
  intro Hfirst. revert w.
  induction ops as [| op ops IH]; intros w Hkeys; cbn [serve_all].
  - split; [reflexivity |]. split; [exact Hkeys |].
    split; [intro Hvalued; split; [exact Hvalued | reflexivity] |].
    split; [reflexivity | auto].
  - destruct (serve_step lib std cfg op w Hfirst) as [Hstep Hdb].
    set (w1 := snd (serve lib std cfg op w)) in *.
    destruct (content_step_keeps _ _ Hstep Hkeys)
      as (Hkeys1 & Hvalued1 & Hscore1 & Hcount1).
    destruct (IH w1 Hkeys1) as (Hdb2 & Hkeys2 & Hvotes2 & Hcount2 & Hforest2).
    split; [congruence |]. split; [exact Hkeys2 |].
    split; [| split].
    + intro Hvalued. destruct (Hvotes2 (Hvalued1 Hvalued)) as [Hv Hs].
      split; [exact Hv |].
      intros ty id Hty. rewrite (Hs ty id Hty). apply Hscore1; assumption.
    + intro id. rewrite Hcount2. apply Hcount1.
    + intro Hforest. apply Hforest2.
      exact (content_step_keeps_forest _ _ Hstep Hforest).
Qed.

(** X23.  From content tables with unique primary keys and votes of value 1
    or -1, along every run of requests to the hide, story, vote and comment
    routes, behind [RequireAuth] or not, the identity tables stay as they
    were, the primary keys stay unique, every vote stays an upvote or a
    downvote, and for every story and comment the score minus the sum of its
    votes stays what it was: scores move only with the votes. *)
Theorem score_moves_with_the_votes :
  forall (lib : Lib) (std : Std) (cfg : config.Config)
         (ops : list ContentOp) (w : World),
    first_row_ok std ->
    content_keys (w_content w) -> votes_valued (w_content w) ->
    let w' := serve_all lib std cfg ops w in
    w_db w' = w_db w
    /\ content_keys (w_content w') /\ votes_valued (w_content w')
    /\ (forall ty id,
          ty = "story" \/ ty = "comment" ->
          target_score (w_content w') ty id - votes_sum (w_content w') ty id
          = target_score (w_content w) ty id - votes_sum (w_content w) ty id).
Proof.
  intros lib std cfg ops w Hfirst Hkeys Hvalued w'. subst w'.
  destruct (serve_all_keeps lib std cfg ops w Hfirst Hkeys)
    as (Hdb & Hkeys' & Hvotes & _).
  destruct (Hvotes Hvalued) as [Hvalued' Hscore]. auto.
Qed.

(** X28.  From content tables with unique primary keys in which every reply
    stands after its parent and under the story of its parent, along every
    run of requests to the hide, story, vote and comment routes every reply
    stays after its parent in the table and under the story of its parent,
    and for every story the comment counter minus the number of its comments
    stays what it was: the counter moves only with the comments. *)
Theorem comment_counter_moves_with_the_comments :
  forall (lib : Lib) (std : Std) (cfg : config.Config)
         (ops : list ContentOp) (w : World),
    first_row_ok std ->
    content_keys (w_content w) -> replies_follow_parents (w_content w) ->
    let w' := serve_all lib std cfg ops w in
    replies_follow_parents (w_content w')
    /\ (forall id,
          comment_count_of (w_content w') id - comments_of (w_content w') id
          = comment_count_of (w_content w) id - comments_of (w_content w) id).
Proof.
  intros lib std cfg ops w Hfirst Hkeys Hforest w'. subst w'.
  destruct (serve_all_keeps lib std cfg ops w Hfirst Hkeys)
    as (_ & _ & _ & Hcount & Hforest').
  auto.
Qed.

Lemma story_withheld_GetStory (std : Std) (c : Content) (id : string) :
  story_withheld c id -> store_content.GetStory std id c = (Ok None, c).
Proof.
  intro Hw. unfold store_content.GetStory.
  rewrite find_all_false; [reflexivity |].
  intros r Hr. destruct (stories.id r == id) eqn:E; [| reflexivity].
  apply String.eqb_eq in E. cbn [andb]. apply Z.eqb_neq. exact (Hw r Hr E).
Qed.

Lemma comment_withheld_GetComment (c : Content) (id : string) :
  comment_withheld c id -> store_content.GetComment id c = (Ok None, c).
Proof.
  intros [_ Hw]. unfold store_content.GetComment.
  rewrite find_all_false; [reflexivity |].
  intros r Hr. destruct (comments.id r == id) eqn:E; [| reflexivity].
  apply String.eqb_eq in E. cbn [andb]. apply Z.eqb_neq. exact (Hw r Hr E).
Qed.

Lemma withheld_story_is_refused (lib : Lib) (std : Std) (cfg : config.Config)
  (w : World) (id : string) :
  story_withheld (w_content w) id ->
  (forall rq,
      api.PathValue_id (api_content.base rq) = id ->
      api_content.status (fst (api_content.GetStory std rq w)) <> api.StatusOK)
  /\ (forall e allow_now retry_now rv req,
         api.Body (api_content.base rv) = Some req ->
         api_content.cv_TargetType req = "story" ->
         api_content.cv_TargetID req = id ->
         api_content.status
           (fst (api_content.CreateVote lib std cfg e allow_now retry_now rv w))
         <> api.StatusOK)
  /\ (forall e allow_now retry_now rc req,
         api.Body (api_content.base rc) = Some req ->
         api_content.cc_StoryID req = id ->
         api_content.status
           (fst (api_content.CreateComment std cfg e allow_now retry_now rc w))
         <> api.StatusCreated).
Proof.
  intro Hw. pose proof (story_withheld_GetStory std _ _ Hw) as Hget.
  split; [| split].
  - intros rq <-. unfold api_content.GetStory.
    destruct (api.PathValue_id (api_content.base rq) == "");
      [discriminate |].
    unfold api_content.attempt. rewrite Hget. discriminate.
  - intros e allow_now retry_now rv req Hbody Hty <-.
    destruct (CreateVote_outcome lib std cfg e allow_now retry_now rv w)
      as [[Hne _] | (req' & _ & Hbody' & _ & _ & Htarget & _)];
      [exact Hne |].
    assert (req' = req) as -> by congruence.
    exfalso.
    destruct Htarget as [(_ & story & Hs & _) | (Hc & _)].
    + rewrite Hget in Hs. discriminate Hs.
    + rewrite Hty in Hc. discriminate Hc.
  - intros e allow_now retry_now rc req Hbody <-.
    destruct (CreateComment_outcome std cfg e allow_now retry_now rc w)
      as [[Hne _]
         | (req' & comment & c1 & _ & Hbody' & _ & _ & (story & Hs) & _)];
      [exact Hne |].
    assert (req' = req) as -> by congruence.
    exfalso. rewrite Hget in Hs. discriminate Hs.
Qed.

Lemma withheld_comment_is_refused (lib : Lib) (std : Std)
  (cfg : config.Config) (w : World) (id : string) :
  comment_withheld (w_content w) id ->
  (forall e allow_now retry_now rv req,
      api.Body (api_content.base rv) = Some req ->
      api_content.cv_TargetType req = "comment" ->
      api_content.cv_TargetID req = id ->
      api_content.status
        (fst (api_content.CreateVote lib std cfg e allow_now retry_now rv w))
      <> api.StatusOK)
  /\ (forall e allow_now retry_now rc req,
         api.Body (api_content.base rc) = Some req ->
         api_content.cc_ParentID req = id ->
         id <> "" ->
         api_content.status
           (fst (api_content.CreateComment std cfg e allow_now retry_now rc w))
         <> api.StatusCreated).
Proof.
  intro Hw. pose proof (comment_withheld_GetComment _ _ Hw) as Hget.
  split.
  - intros e allow_now retry_now rv req Hbody Hty <-.
    destruct (CreateVote_outcome lib std cfg e allow_now retry_now rv w)
      as [[Hne _] | (req' & _ & Hbody' & _ & _ & Htarget & _)];
      [exact Hne |].
    assert (req' = req) as -> by congruence.
    exfalso.
    destruct Htarget as [(Hs & _) | (_ & comment & Hc & _)].
    + rewrite Hty in Hs. discriminate Hs.
    + rewrite Hget in Hc. discriminate Hc.
  - intros e allow_now retry_now rc req Hbody <- Hne0.
    destruct (CreateComment_outcome std cfg e allow_now retry_now rc w)
      as [[Hne _]
         | (req' & comment & c1 & _ & Hbody' & _ & _ & _ & Hparent & _)];
      [exact Hne |].
    assert (req' = req) as -> by congruence.
    exfalso. destruct (Hparent Hne0) as (parent & Hp & _).
    rewrite Hget in Hp. discriminate Hp.
Qed.

(** X27.  What is hidden stays hidden.  Along every run of requests to the
    hide, story, vote and comment routes a withheld story stays withheld:
    GET /api/stories/{id} does not answer 200 for it, no vote on it answers
    200 and no comment under it answers 201.  A withheld comment stays
    withheld: no vote on it answers 200 and no reply to it answers 201. *)
Theorem hidden_content_stays_hidden :
  forall (lib : Lib) (std : Std) (cfg : config.Config)
         (ops : list ContentOp) (w : World) (id : string),
    first_row_ok std ->
    let w' := serve_all lib std cfg ops w in
    (story_withheld (w_content w) id ->
     story_withheld (w_content w') id
     /\ (forall rq,
            api.PathValue_id (api_content.base rq) = id ->
            api_content.status (fst (api_content.GetStory std rq w'))
            <> api.StatusOK)
     /\ (forall e allow_now retry_now rv req,
            api.Body (api_content.base rv) = Some req ->
            api_content.cv_TargetType req = "story" ->
            api_content.cv_TargetID req = id ->
            api_content.status
              (fst (api_content.CreateVote lib std cfg e allow_now retry_now
                      rv w'))
            <> api.StatusOK)
     /\ (forall e allow_now retry_now rc req,
            api.Body (api_content.base rc) = Some req ->
            api_content.cc_StoryID req = id ->
            api_content.status
              (fst (api_content.CreateComment std cfg e allow_now retry_now rc
                      w'))
            <> api.StatusCreated))
    /\ (comment_withheld (w_content w) id ->
        comment_withheld (w_content w') id
        /\ (forall e allow_now retry_now rv req,
               api.Body (api_content.base rv) = Some req ->
               api_content.cv_TargetType req = "comment" ->
               api_content.cv_TargetID req = id ->
               api_content.status
                 (fst (api_content.CreateVote lib std cfg e allow_now
                         retry_now rv w'))
               <> api.StatusOK)
        /\ (forall e allow_now retry_now rc req,
               api.Body (api_content.base rc) = Some req ->
               api_content.cc_ParentID req = id ->
               id <> "" ->
               api_content.status
                 (fst (api_content.CreateComment std cfg e allow_now retry_now
                         rc w'))
               <> api.StatusCreated)).
Proof.
  intros lib std cfg ops w id Hfirst w'. subst w'.
  assert (forall w0 : World,
             (story_withheld (w_content w0) id ->
              story_withheld (w_content (serve_all lib std cfg ops w0)) id)
             /\ (comment_withheld (w_content w0) id ->
                 comment_withheld (w_content (serve_all lib std cfg ops w0))
                   id)) as Hkeep.
  { induction ops as [| op ops IH]; intro w0; cbn [serve_all];
      [split; auto |].
    destruct (serve_step lib std cfg op w0 Hfirst) as [Hstep _].
    destruct (content_step_keeps_withheld _ _ id Hstep) as [Hs1 Hc1].
    destruct (IH (snd (serve lib std cfg op w0))) as [Hs2 Hc2].
    split; auto. }
  destruct (Hkeep w) as [Hs Hc]. split.
  - intro Hw. split; [exact (Hs Hw) |].
    apply (withheld_story_is_refused lib std cfg _ id (Hs Hw)).
  - intro Hw. split; [exact (Hc Hw) |].
    apply (withheld_comment_is_refused lib std cfg _ id (Hc Hw)).
Qed.

(** X26.  [Hide] answers 401 and changes nothing unless an admin secret is
    configured and the [X-Admin-Secret] header equals it; with any answer
    but 200 the world is as it was; after a 200 the target is withheld, the
    identity tables are as they were, and the same request again answers
    404. *)
Theorem Hide_is_for_the_admin_and_withholds_the_target :
  forall (std : Std) (cfg : config.Config)
         (r : api_content.Request api_content.HideRequest) (w : World),
    let out := api_content.Hide std cfg r w in
    ((config.AdminSecret cfg = ""
      \/ api_content.Header_X_Admin_Secret r <> config.AdminSecret cfg) ->
     out
     = (api_content.writeError api.StatusUnauthorized
          "admin authentication required",
        w))
    /\ (api_content.status (fst out) <> api.StatusOK -> snd out = w)
    /\ (api_content.status (fst out) = api.StatusOK ->
        exists req,
          api.Body (api_content.base r) = Some req
          /\ ((api_content.hr_TargetType req = "story"
               /\ story_withheld (w_content (snd out))
                    (api_content.hr_TargetID req))
              \/ (api_content.hr_TargetType req = "comment"
                  /\ comment_withheld (w_content (snd out))
                       (api_content.hr_TargetID req)))
          /\ w_db (snd out) = w_db w
          /\ api_content.status (fst (api_content.Hide std cfg r (snd out)))
             = api.StatusNotFound).
Proof.
  intros std cfg r w out. subst out. split; [| split].
  - intro Hsecret. unfold api_content.Hide.
    assert (api_content.isAdmin cfg r = false) as ->; [| reflexivity].
    unfold api_content.isAdmin. destruct Hsecret as [-> | Hne].
    + reflexivity.
    + apply String.eqb_neq in Hne. rewrite Hne. apply andb_false_r.
  - intro Hne.
    destruct (Hide_outcome std cfg r w) as [[_ Hw] | [Hok _]]; [exact Hw |].
    exfalso. apply Hne. rewrite Hok. reflexivity.
  - intro Hok.
    destruct (Hide_outcome std cfg r w)
      as [[Hne _] | (_ & Hadmin & req & Hbody & Hid & Hcases)];
      [contradiction |].
    exists req. split; [exact Hbody |].
    apply String.eqb_neq in Hid.
    destruct Hcases as [(Hty & (story & Hget) & Hw)
                       | (Hty & (comment & Hget) & Hw)]; rewrite Hw;
      cbn [w_content w_db].
    + assert (story_withheld
                (snd (store_content.HideStory (api_content.hr_TargetID req)
                        (w_content w))) (api_content.hr_TargetID req)) as Hwh.
      { intros r' Hr' Hrid. cbn [store_content.HideStory snd tbl_stories] in Hr'.
        apply in_map_iff in Hr' as (r0 & <- & _).
        destruct (stories.id r0 == api_content.hr_TargetID req) eqn:E.
        - cbn. discriminate.
        - apply String.eqb_neq in E. contradiction. }
      split; [left; split; [exact Hty | exact Hwh] |].
      split; [reflexivity |].
      unfold api_content.Hide. rewrite Hadmin, Hbody, Hty, Hid.
      cbn [negb andb String.eqb Ascii.eqb Bool.eqb].
      unfold api_content.attempt. cbn [w_content].
      rewrite (story_withheld_GetStory std _ _ Hwh). reflexivity.
    + assert (comment_withheld
                (snd (store_content.HideComment (api_content.hr_TargetID req)
                        (w_content w))) (api_content.hr_TargetID req)) as Hwh.
      { apply GetComment_row in Hget as (q & Hq & Hqid & _).
        split.
        - cbn [store_content.HideComment snd tbl_comments].
          rewrite map_map. apply in_map_iff. exists q.
          split; [| exact Hq]. rewrite Hqid, String.eqb_refl. reflexivity.
        - intros r' Hr' Hrid.
          cbn [store_content.HideComment snd tbl_comments] in Hr'.
          apply in_map_iff in Hr' as (r0 & <- & _).
          destruct (comments.id r0 == api_content.hr_TargetID req) eqn:E.
          + cbn. discriminate.
          + apply String.eqb_neq in E. contradiction. }
      split; [right; split; [exact Hty | exact Hwh] |].
      split; [reflexivity |].
      unfold api_content.Hide. rewrite Hadmin, Hbody, Hty, Hid.
      cbn [negb andb String.eqb Ascii.eqb Bool.eqb].
      unfold api_content.attempt. cbn [w_content].
      rewrite (comment_withheld_GetComment _ _ Hwh). reflexivity.
Qed.

(** X29.  POST /api/comments answers 201 only for a story that is there and
    not hidden and, if a parent is named, for a parent that is there, not
    hidden and under the same story; then exactly one row is appended, with
    a fresh id, the text of the request, score 0, not hidden, and the agent
    and the verification mark of the context.  With any other answer the
    content tables are as they were; the identity tables are as they were in
    any case. *)
Theorem comment_is_stored_under_a_visible_story :
  forall (std : Std) (cfg : config.Config) (e : Env)
         (allow_now retry_now : Time)
         (r : api_content.Request api_content.CreateCommentRequest)
         (w : World),
    let out := api_content.CreateComment std cfg e allow_now retry_now r w in
    let c := w_content w in
    let c' := w_content (snd out) in
    let auth := api_content.GetAuthFromContext (api_content.Context_ r) in
    w_db (snd out) = w_db w
    /\ (api_content.status (fst out) <> api.StatusCreated -> c' = c)
    /\ (api_content.status (fst out) = api.StatusCreated ->
        exists req,
          api.Body (api_content.base r) = Some req
          /\ fst out
             = api_content.writeJSON api.StatusCreated
                 (api_content.CreateCommentResponse (uuid_New e 0))
          /\ tbl_comments c'
             = tbl_comments c
               ++ [comments.mk (uuid_New e 0) (api_content.cc_StoryID req)
                     (store.nullString (api_content.cc_ParentID req))
                     (api_content.cc_Text req) 0 (time_Now e) 0
                     (store.nullString (fst (fst auth)))
                     (store_content.boolToInt (snd (fst auth)))]
          /\ tbl_votes c' = tbl_votes c
          /\ api_content.cc_Text req <> ""
          /\ ~ In (uuid_New e 0) (map comments.id (tbl_comments c))
          /\ (exists s,
                 In s (tbl_stories c)
                 /\ stories.id s = api_content.cc_StoryID req
                 /\ stories.hidden s = 0)
          /\ (api_content.cc_ParentID req <> "" ->
              exists q,
                In q (tbl_comments c)
                /\ comments.id q = api_content.cc_ParentID req
                /\ comments.hidden q = 0
                /\ comments.story_id q = api_content.cc_StoryID req)).
Proof.
  intros std cfg e allow_now retry_now r w out c c' auth. subst out c c'.
  destruct (CreateComment_outcome std cfg e allow_now retry_now r w)
    as [[Hne ->]
       | (req & comment & c1 & _ & Hbody & _ & Htext & (story & Hstory)
          & Hparent & Hcreate & ->)];
    cbn [fst snd w_db w_content].
  { split; [reflexivity |]. split; [reflexivity |].
    intro Hok. contradiction. }
  split; [reflexivity |]. split; [intro Hne; exfalso; apply Hne; reflexivity |].
  intros _. fold auth in Hcreate.
  destruct (CreateComment_effect _ _ _ _ _ _ Hcreate)
    as (Hs1 & Hv1 & Hc1 & Hfresh & _ & Hid & Hat).
  cbn [Comment.ID Comment.CreatedAt Comment.StoryID Comment.ParentID
         Comment.Text Comment.Score Comment.Hidden Comment.AgentID
         Comment.AgentVerified String.eqb store_content.boolToInt]
    in Hc1, Hid, Hat.
  change (IsZero zeroTime) with true in Hat. cbv iota in Hat.
  rewrite Hid, Hat in Hc1. rewrite Hid in Hfresh.
  exists req. split; [exact Hbody |]. rewrite Hid.
  split; [reflexivity |].
  cbn [store_content.UpdateStoryCommentCount snd tbl_comments tbl_votes].
  split; [exact Hc1 |]. split; [exact Hv1 |]. split; [exact Htext |].
  split; [exact Hfresh |]. split.
  - apply GetStory_row in Hstory as (s & Hs & Hsid & Hhidden & _).
    exists s. auto.
  - intro Hne. destruct (Hparent Hne) as (parent & Hget & Hsame).
    apply GetComment_row in Hget as (q & Hq & Hqid & Hhidden & ->).
    exists q. cbn [store_content.scanComment Comment.StoryID] in Hsame. auto.
Qed.

(** *** The example site *)

Lemma ExampleSite_first_row_ok : first_row_ok ExampleSite.std.
Proof. intros [| r rows]; cbn; auto. Qed.

Lemma ExampleSite_content_keys : content_keys ExampleSite.content.
Proof.
  unfold content_keys. cbn.
  repeat split; repeat constructor; cbn; intuition discriminate.
Qed.

Lemma ExampleSite_votes_valued : votes_valued ExampleSite.content.
Proof. intros r []. Qed.

Lemma ExampleSite_forest : replies_follow_parents ExampleSite.content.
Proof.
  intros before r after p Heq Hp. cbn in Heq.
  destruct before as [| b [| b' before]]; cbn in Heq.
  - injection Heq as <- _. discriminate Hp.
  - discriminate Heq.
  - discriminate Heq.
Qed.

Lemma score_moves_with_the_votes_witness :
  let w := ExampleSite.world in
  let w' :=
    serve_all Example.lib ExampleSite.std ExampleSite.cfg ExampleSite.requests
      w in
  w_db w' = w_db w
  /\ content_keys (w_content w') /\ votes_valued (w_content w')
  /\ (forall ty id,
        ty = "story" \/ ty = "comment" ->
        target_score (w_content w') ty id - votes_sum (w_content w') ty id
        = target_score (w_content w) ty id - votes_sum (w_content w) ty id).
Proof.
  cbv zeta. apply score_moves_with_the_votes.
  - exact ExampleSite_first_row_ok.
  - exact ExampleSite_content_keys.
  - exact ExampleSite_votes_valued.
Defined.

Lemma comment_counter_moves_with_the_comments_witness :
  let w := ExampleSite.world in
  let w' :=
    serve_all Example.lib ExampleSite.std ExampleSite.cfg ExampleSite.requests
      w in
  replies_follow_parents (w_content w')
  /\ (forall id,
        comment_count_of (w_content w') id - comments_of (w_content w') id
        = comment_count_of (w_content w) id - comments_of (w_content w) id).
Proof.
  cbv zeta. apply comment_counter_moves_with_the_comments.
  - exact ExampleSite_first_row_ok.
  - exact ExampleSite_content_keys.
  - exact ExampleSite_forest.
Defined.

Lemma vote_is_recorded_only_on_a_visible_target_of_another_witness :
  let r := ExampleSite.vote 1 in
  let w := ExampleSite.world in
  let out :=
    api_content.CreateVote Example.lib ExampleSite.std ExampleSite.cfg
      (Example.env 2010 x20 "v") (2010 * Second) (2010 * Second) r w in
  (api_content.status (fst out) = api.StatusOK ->
   exists req,
     api.Body (api_content.base r) = Some req
     /\ fst (fst (api_content.checkRateLimit ExampleSite.std ExampleSite.cfg
                    (2010 * Second) (2010 * Second) r "vote"
                    (config.VoteRateLimit ExampleSite.cfg) (w_limiter w)))
        = true
     /\ (api_content.cv_Value req = 1 \/ api_content.cv_Value req = -1)
     /\ vote_target_ok ExampleSite.std (w_content w) req
          (fst (fst (api_content.GetAuthFromContext
                       (api_content.Context_ r)))))
  /\ (api_content.status (fst out) <> api.StatusOK ->
      w_content (snd out) = w_content w)
  /\ w_db (snd out) = w_db w.
Proof.
  cbv zeta.
  apply (vote_is_recorded_only_on_a_visible_target_of_another Example.lib
           ExampleSite.std ExampleSite.cfg (Example.env 2010 x20 "v")
           (2010 * Second) (2010 * Second) (ExampleSite.vote 1)
           ExampleSite.world).
  exact ExampleSite_first_row_ok.
Defined.

Lemma second_vote_replaces_the_first_witness :
  let r1 := ExampleSite.vote 1 in
  let r2 := ExampleSite.vote (-1) in
  let w0 := ExampleSite.world in
  let c2 :=
    w_content
      (snd (api_content.CreateVote Example.lib ExampleSite.std ExampleSite.cfg
              (Example.env 2012 x22 "w") (2012 * Second) (2012 * Second) r2
              (snd (api_content.CreateVote Example.lib ExampleSite.std
                      ExampleSite.cfg (Example.env 2010 x20 "v")
                      (2010 * Second) (2010 * Second) r1 w0)))) in
  exists row,
    tbl_votes c2 = tbl_votes (w_content w0) ++ [row]
    /\ votes.value row = -1
    /\ votes.ip_hash row
       = Some (HashIP Example.lib
                 (api_content.getClientIP ExampleSite.std r1))
    /\ target_score c2 "story" "s1"
       = target_score (w_content w0) "story" "s1" + -1.
Proof.
  cbv zeta.
  apply (second_vote_replaces_the_first Example.lib ExampleSite.std
           ExampleSite.cfg (Example.env 2010 x20 "v")
           (Example.env 2012 x22 "w") (2010 * Second) (2010 * Second)
           (2012 * Second) (2012 * Second) (ExampleSite.vote 1)
           (ExampleSite.vote (-1))
           (api_content.mkCreateVoteRequest "story" "s1" 1)
           (api_content.mkCreateVoteRequest "story" "s1" (-1))
           ExampleSite.world).
  - exact ExampleSite_first_row_ok.
  - exact ExampleSite_content_keys.
  - reflexivity.
  - reflexivity.
  - reflexivity.
  - reflexivity.
  - reflexivity.
  - reflexivity.
  - vm_compute. discriminate.
  - reflexivity.
  - vm_compute. reflexivity.
  - vm_compute. reflexivity.
Defined.

Lemma hidden_content_stays_hidden_witness :
  let lib := Example.lib in
  let std := ExampleSite.std in
  let cfg := ExampleSite.cfg in
  let w := ExampleSite.world in
  let id := "s2" in
  let w' := serve_all lib std cfg ExampleSite.requests w in
  (story_withheld (w_content w) id ->
   story_withheld (w_content w') id
   /\ (forall rq,
          api.PathValue_id (api_content.base rq) = id ->
          api_content.status (fst (api_content.GetStory std rq w'))
          <> api.StatusOK)
   /\ (forall e allow_now retry_now rv req,
          api.Body (api_content.base rv) = Some req ->
          api_content.cv_TargetType req = "story" ->
          api_content.cv_TargetID req = id ->
          api_content.status
            (fst (api_content.CreateVote lib std cfg e allow_now retry_now
                    rv w'))
          <> api.StatusOK)
   /\ (forall e allow_now retry_now rc req,
          api.Body (api_content.base rc) = Some req ->
          api_content.cc_StoryID req = id ->
          api_content.status
            (fst (api_content.CreateComment std cfg e allow_now retry_now rc
                    w'))
          <> api.StatusCreated))
  /\ (comment_withheld (w_content w) id ->
      comment_withheld (w_content w') id
      /\ (forall e allow_now retry_now rv req,
             api.Body (api_content.base rv) = Some req ->
             api_content.cv_TargetType req = "comment" ->
             api_content.cv_TargetID req = id ->
             api_content.status
               (fst (api_content.CreateVote lib std cfg e allow_now
                       retry_now rv w'))
             <> api.StatusOK)
      /\ (forall e allow_now retry_now rc req,
             api.Body (api_content.base rc) = Some req ->
             api_content.cc_ParentID req = id ->
             id <> "" ->
             api_content.status
               (fst (api_content.CreateComment std cfg e allow_now retry_now
                       rc w'))
             <> api.StatusCreated)).
Proof.
  cbv zeta.
  apply (hidden_content_stays_hidden Example.lib ExampleSite.std
           ExampleSite.cfg ExampleSite.requests ExampleSite.world "s2").
  exact ExampleSite_first_row_ok.
Defined.

(** ** The tree of comments *)

Lemma numbered_In {A : Type} (l : list A) (a i : nat) (x : A) :
  In (i, x) (combine (seq a (List.length l)) l) ->
  exists k, i = (a + k)%nat /\ nth_error l k = Some x.
Proof.
  revert a. induction l as [| y l IH]; intros a Hin; [destruct Hin |].
  cbn [List.length seq combine] in Hin. destruct Hin as [Heq | Hin].
  - injection Heq as <- <-. exists 0%nat. split; [lia | reflexivity].
  - destruct (IH (S a) Hin) as (k & -> & Hk).
    exists (S k). split; [lia | exact Hk].
Qed.

Lemma numbered_nth {A : Type} (l : list A) (a k : nat) :
  nth_error (combine (seq a (List.length l)) l) k
  = option_map (fun x => ((a + k)%nat, x)) (nth_error l k).
Proof.
  revert a k. induction l as [| y l IH]; intros a k.
  - destruct k; reflexivity.
  - cbn [List.length seq combine]. destruct k as [| k].
    + cbn. rewrite Nat.add_0_r. reflexivity.
    + cbn [nth_error]. rewrite IH.
      replace (S a + k)%nat with (a + S k)%nat by lia. reflexivity.
Qed.

Lemma numbered_snd {A : Type} (l : list A) (a : nat) :
  map snd (combine (seq a (List.length l)) l) = l.
Proof.
  revert a. induction l as [| y l IH]; intro a; [reflexivity |].
  cbn [List.length seq combine map snd]. rewrite IH. reflexivity.
Qed.

Lemma numbered_map {A B C : Type} (F : nat * A -> B) (G : nat * B -> C)
  (l : list A) (a : nat) :
  map G
    (combine
       (seq a (List.length (map F (combine (seq a (List.length l)) l))))
       (map F (combine (seq a (List.length l)) l)))
  = map (fun jc => G (fst jc, F jc)) (combine (seq a (List.length l)) l).
Proof.
  revert a. induction l as [| y l IH]; intro a; [reflexivity |].
  cbn [List.length seq combine map fst]. rewrite IH. reflexivity.
Qed.

Lemma addChildren_nil (c : Comment.t) : addChildren c [] = c.
Proof. destruct c. unfold addChildren. cbn. rewrite app_nil_r. reflexivity. Qed.

Lemma addChildren_app (c : Comment.t) (l1 l2 : list nat) :
  addChildren (addChildren c l1) l2 = addChildren c (l1 ++ l2).
Proof. unfold addChildren. cbn. rewrite app_assoc. reflexivity. Qed.

(** [byID] answers with a position that holds the id, and answers whenever
    a position holds it. *)
Lemma byID_Some (comments : list Comment.t) (id : string) (p : nat) :
  store_content.byID comments id = Some p ->
  exists c, nth_error comments p = Some c /\ Comment.ID c = id.
Proof.
  unfold store_content.byID.
  assert (forall (l : list (nat * Comment.t)) (init : option nat),
             fold_left
               (fun found ic =>
                  if Comment.ID (snd ic) == id then Some (fst ic) else found)
               l init = Some p ->
             init = Some p
             \/ exists c, In (p, c) l /\ Comment.ID c = id) as Hfold.
  { induction l as [| [j c] l IH]; intros init H; [left; exact H |].
    cbn [fold_left fst snd] in H.
    destruct (IH _ H) as [Hinit | (c' & Hin & Hid)].
    - destruct (Comment.ID c == id) eqn:E; [| left; exact Hinit].
      injection Hinit as ->. apply String.eqb_eq in E.
      right. exists c. split; [left; reflexivity | exact E].
    - right. exists c'. split; [right; exact Hin | exact Hid]. }
  intro H. destruct (Hfold _ _ H) as [Hnone | (c & Hin & Hid)];
    [discriminate Hnone |].
  apply numbered_In in Hin as (k & -> & Hk). exists c. auto.
Qed.

Lemma byID_None (comments : list Comment.t) (id : string) :
  ~ In id (map Comment.ID comments) -> store_content.byID comments id = None.
Proof.
  intro Hnot. unfold store_content.byID.
  assert (forall (l : list (nat * Comment.t)) (init : option nat),
             (forall ic, In ic l -> Comment.ID (snd ic) <> id) ->
             fold_left
               (fun found ic =>
                  if Comment.ID (snd ic) == id then Some (fst ic) else found)
               l init = init) as Hfold.
  { induction l as [| ic l IH]; intros init H; [reflexivity |].
    cbn [fold_left].
    rewrite (proj2 (String.eqb_neq _ _) (H ic (or_introl eq_refl))).
    apply IH. intros ic' Hic'. apply H. right. exact Hic'. }
  apply Hfold. intros [j c] Hin Hid. apply Hnot.
  apply numbered_In in Hin as (k & _ & Hk). cbn [snd] in Hid.
  rewrite <- Hid. apply in_map. exact (nth_error_In _ _ Hk).
Qed.

(** The loop of [buildCommentTree] from any point on. *)
Lemma buildCommentTree_loop (comments : list Comment.t)
  (l : list (nat * Comment.t)) (roots : list nat) (heap : list Comment.t) :
  fold_left
    (fun (st : list nat * list Comment.t) (ic : nat * Comment.t) =>
       let (roots, heap) := st in
       let (i, c) := ic in
       if Comment.ParentID c == "" then (roots ++ [i], heap)
       else
         match store_content.byID comments (Comment.ParentID c) with
         | Some parent => (roots, store_content.appendChild heap parent i)
         | None => (roots, heap)
         end)
    l (roots, heap)
  = (roots ++ map fst (filter (fun ic => Comment.ParentID (snd ic) == "") l),
     map
       (fun jc =>
          addChildren (snd jc)
            (map fst (filter (isChildOf comments (fst jc)) l)))
       (combine (seq 0 (List.length heap)) heap)).
Proof.
  revert roots heap. induction l as [| [i c] l IH]; intros roots heap.
  - cbn [fold_left filter map]. rewrite app_nil_r. f_equal.
    rewrite <- (numbered_snd heap 0) at 1. apply map_ext.
    intro jc. rewrite addChildren_nil. reflexivity.
  - cbn [fold_left filter snd fst].
    destruct (Comment.ParentID c == "") eqn:Hroot.
    + rewrite IH. cbn [map fst]. rewrite <- app_assoc. f_equal.
      apply map_ext. intros [j cj]. cbn [fst snd filter].
      assert (isChildOf comments j (i, c) = false) as ->
        by (unfold isChildOf; cbn [snd]; rewrite Hroot; reflexivity).
      reflexivity.
    + destruct (store_content.byID comments (Comment.ParentID c))
        as [parent |] eqn:Hby.
      * rewrite IH. f_equal. unfold store_content.appendChild.
        rewrite (numbered_map
                   (fun ic =>
                      if Nat.eqb (fst ic) parent then
                        Comment.mk (Comment.ID (snd ic))
                          (Comment.StoryID (snd ic))
                          (Comment.ParentID (snd ic)) (Comment.Text (snd ic))
                          (Comment.Score (snd ic))
                          (Comment.CreatedAt (snd ic))
                          (Comment.Hidden (snd ic)) (Comment.AgentID (snd ic))
                          (Comment.AgentVerified (snd ic))
                          (Comment.Children (snd ic) ++ [i])
                      else snd ic)).
        apply map_ext. intros [j cj]. cbn [fst snd filter].
        assert (isChildOf comments j (i, c) = Nat.eqb parent j) as ->
          by (unfold isChildOf; cbn [snd]; rewrite Hroot, Hby; reflexivity).
        rewrite (Nat.eqb_sym parent j).
        destruct (Nat.eqb j parent); [| reflexivity]. cbn [map fst].
        change (Comment.mk (Comment.ID cj) (Comment.StoryID cj)
                  (Comment.ParentID cj) (Comment.Text cj) (Comment.Score cj)
                  (Comment.CreatedAt cj) (Comment.Hidden cj)
                  (Comment.AgentID cj) (Comment.AgentVerified cj)
                  (Comment.Children cj ++ [i]))
          with (addChildren cj [i]).
        rewrite addChildren_app. reflexivity.
      * rewrite IH. f_equal. apply map_ext. intros [j cj].
        cbn [fst snd filter].
        assert (isChildOf comments j (i, c) = false) as ->
          by (unfold isChildOf; cbn [snd]; rewrite Hroot, Hby; reflexivity).
        reflexivity.
Qed.

(** X30.  [buildCommentTree] returns the comments without a parent as roots,
    in their order, and appends to the [Children] of each comment the
    positions of the comments whose parent id [byID] finds at it; a child
    names the id of the comment it hangs under; and a comment whose parent
    is not among the comments is not reachable from the roots. *)
Theorem buildCommentTree_hangs_replies_under_their_parents :
  forall comments : list Comment.t,
    let roots := fst (store_content.buildCommentTree comments) in
    let heap := snd (store_content.buildCommentTree comments) in
    roots = roots_of comments
    /\ heap
       = map
           (fun ic => addChildren (snd ic) (children_of comments (fst ic)))
           (combine (seq 0 (List.length comments)) comments)
    /\ (forall p i cp ci,
           nth_error comments p = Some cp ->
           nth_error comments i = Some ci ->
           In i (children_of comments p) ->
           Comment.ParentID ci <> ""
           /\ Comment.ParentID ci = Comment.ID cp)
    /\ ((forall c, In c comments -> Comment.Children c = []) ->
        forall i ci,
          nth_error comments i = Some ci ->
          Comment.ParentID ci <> "" ->
          ~ In (Comment.ParentID ci) (map Comment.ID comments) ->
          ~ reachable roots heap i).
Proof.
  intros comments roots heap. subst roots heap.
  unfold store_content.buildCommentTree.
  rewrite buildCommentTree_loop. cbn [fst snd app].
  fold (roots_of comments).
  assert (forall p i ci,
             nth_error comments i = Some ci ->
             In i (children_of comments p) ->
             Comment.ParentID ci <> ""
             /\ store_content.byID comments (Comment.ParentID ci) = Some p)
    as Hchild.
  { intros p i ci Hi Hin. unfold children_of in Hin.
    apply in_map_iff in Hin as ([i' c'] & Heq & Hin). cbn [fst] in Heq.
    subst i'. apply filter_In in Hin as [Hin Hc].
    apply numbered_In in Hin as (k & Hk & Hnth). cbn [Nat.add] in Hk.
    subst k. assert (c' = ci) as -> by congruence.
    unfold isChildOf in Hc. cbn [snd] in Hc.
    apply andb_true_iff in Hc as [Hne Hby].
    apply negb_true_iff, String.eqb_neq in Hne. split; [exact Hne |].
    destruct (store_content.byID comments (Comment.ParentID ci)) as [q |];
      [| discriminate Hby].
    apply Nat.eqb_eq in Hby. congruence. }
  split; [reflexivity |]. split; [reflexivity |]. split.
  - intros p i cp ci Hp Hi Hin.
    destruct (Hchild p i ci Hi Hin) as [Hne Hby]. split; [exact Hne |].
    apply byID_Some in Hby as (c & Hc & Hid). congruence.
  - intros Hleaf i ci Hi Hne Hnot Hreach.
    destruct Hreach as [i Hroot | p i c _ Hp Hin].
    + unfold roots_of in Hroot.
      apply in_map_iff in Hroot as ([i' c'] & Heq & Hin). cbn [fst] in Heq.
      subst i'. apply filter_In in Hin as [Hin Hc].
      apply numbered_In in Hin as (k & Hk & Hnth). cbn [Nat.add] in Hk.
      subst k. assert (c' = ci) as -> by congruence.
      cbn [snd] in Hc. apply String.eqb_eq in Hc. contradiction.
    + rewrite nth_error_map, numbered_nth in Hp.
      destruct (nth_error comments p) as [cp |] eqn:Hcp; [| discriminate Hp].
      cbn [option_map fst snd Nat.add] in Hp. injection Hp as <-.
      cbn [addChildren Comment.Children] in Hin.
      rewrite (Hleaf cp (nth_error_In _ _ Hcp)) in Hin. cbn [app] in Hin.
      destruct (Hchild p i ci Hi Hin) as [_ Hby].
      rewrite (byID_None comments _ Hnot) in Hby. discriminate Hby.
Qed.
